(** * Linkwatch: URL canonicalisation, target store, probe loop and API adapter

    A shallow embedding of the Go sources of linkwatch
    (internal/urlutil, internal/storage/sqlite, internal/checker,
    internal/api) together with the parts of the Go standard library
    they call (strings, strconv, net/url, time).

    Go strings are byte strings: they are modelled by [string], whose
    characters are the 256 values of [ascii].  Go's [int] is modelled by
    [Z]; no computation below comes near the 64-bit bounds except
    [strconv.Atoi], where the range check is written out. *)

From Stdlib Require Import ZArith List String Ascii Lia Bool.
From stdpp Require Import base option list gmap strings.
From Equations Require Import Equations.
Import ListNotations.

(** ** Results of fallible calls: Go's [(value, error)] pairs *)

Inductive result (E A : Type) : Type :=
| Ok (a : A)
| Err (e : E).
Arguments Ok {E A} a.
Arguments Err {E A} e.

Definition rbind {E A B} (r : result E A) (k : A -> result E B) : result E B :=
  match r with
  | Ok a => k a
  | Err e => Err e
  end.

#[global] Instance result_ret {E} : MRet (result E) := fun A a => Ok a.
#[global] Instance result_bind {E} : MBind (result E) := fun A B k r => rbind r k.

Definition inspect {A : Type} (x : A) : { y : A | x = y } := exist _ x eq_refl.

(** ** Bytes *)

Module byte.

Definition le (a b : ascii) : bool := (N_of_ascii a <=? N_of_ascii b)%N.

Definition between (lo hi c : ascii) : bool := le lo c && le c hi.

Definition isLower (c : ascii) : bool := between "a" "z" c.
Definition isUpper (c : ascii) : bool := between "A" "Z" c.
Definition isDigit (c : ascii) : bool := between "0" "9" c.
Definition isLetter (c : ascii) : bool := isLower c || isUpper c.
Definition isAlnum (c : ascii) : bool := isLetter c || isDigit c.

(** [c < 0x80] *)
Definition isASCII (c : ascii) : bool := (N_of_ascii c <? 128)%N.

(** [c < ' ' || c == 0x7f] *)
Definition isCTL (c : ascii) : bool :=
  (N_of_ascii c <? 32)%N || (N_of_ascii c =? 127)%N.

(** membership of a byte in a literal set such as ["!$&'()*+,;="] *)
Fixpoint oneOf (c : ascii) (set : string) : bool :=
  match set with
  | EmptyString => false
  | String d set' => Ascii.eqb c d || oneOf c set'
  end.

End byte.

(** ** Package strings *)

Module strings.

(** [s[n:]] *)
Fixpoint drop (n : nat) (s : string) : string :=
  match n, s with
  | O, _ => s
  | S n', String _ s' => drop n' s'
  | S _, EmptyString => EmptyString
  end.

(** [s[:n]] *)
Fixpoint take (n : nat) (s : string) : string :=
  match n, s with
  | O, _ => EmptyString
  | S n', String c s' => String c (take n' s')
  | S _, EmptyString => EmptyString
  end.

Fixpoint HasPrefix (s prefix : string) {struct prefix} : bool :=
  match prefix with
  | EmptyString => true
  | String p prefix' =>
      match s with
      | EmptyString => false
      | String c s' => Ascii.eqb c p && HasPrefix s' prefix'
      end
  end.

(** [len(s) >= len(suffix) && s[len(s)-len(suffix):] == suffix] *)
Definition HasSuffix (s suffix : string) : bool :=
  (String.length suffix <=? String.length s)%nat
  && String.eqb (drop (String.length s - String.length suffix) s) suffix.

Definition TrimSuffix (s suffix : string) : string :=
  if HasSuffix s suffix
  then take (String.length s - String.length suffix) s
  else s.

(** [strings.Index]; [None] stands for Go's [-1]. *)
Fixpoint Index (s substr : string) : option nat :=
  if HasPrefix s substr then Some O
  else match s with
       | EmptyString => None
       | String _ s' => S <$> Index s' substr
       end.

(** [strings.LastIndex]; [None] stands for Go's [-1]. *)
Fixpoint LastIndex (s substr : string) : option nat :=
  match s with
  | EmptyString => if HasPrefix s substr then Some O else None
  | String _ s' =>
      match LastIndex s' substr with
      | Some i => Some (S i)
      | None => if HasPrefix s substr then Some O else None
      end
  end.

Definition Contains (s substr : string) : bool :=
  match Index s substr with Some _ => true | None => false end.

(** [strings.Count(s, string(c))] for a one-byte separator *)
Fixpoint CountByte (s : string) (c : ascii) : nat :=
  match s with
  | EmptyString => O
  | String d s' => (if Ascii.eqb d c then 1 else 0) + CountByte s' c
  end.

(** [strings.Cut] *)
Definition Cut (s sep : string) : string * string * bool :=
  match Index s sep with
  | Some i => (take i s, drop (i + String.length sep) s, true)
  | None => (s, EmptyString, false)
  end.

(** [strings.SplitN(s, sep, 2)] for a non-empty [sep]: at most two parts *)
Definition SplitN2 (s sep : string) : list string :=
  match Index s sep with
  | Some i => [take i s; drop (i + String.length sep) s]
  | None => [s]
  end.

(** [strings.Split(s, string(c))] for a one-byte separator *)
Fixpoint SplitByte (s : string) (c : ascii) : list string :=
  match s with
  | EmptyString => [EmptyString]
  | String d s' =>
      if Ascii.eqb d c then EmptyString :: SplitByte s' c
      else match SplitByte s' c with
           | part :: parts => String d part :: parts
           | [] => [String d EmptyString]
           end
  end.

Definition lowerByte (c : ascii) : ascii :=
  if byte.isUpper c then ascii_of_N (N_of_ascii c + 32) else c.

(** [strings.ToLower] on the ASCII letters.  Go lower-cases by Unicode
    code point; the two agree on every string of ASCII bytes, and bytes
    from 0x80 up are left as they are here. *)
Fixpoint ToLower (s : string) : string :=
  match s with
  | EmptyString => EmptyString
  | String c s' => String (lowerByte c) (ToLower s')
  end.

Definition isSpace (c : ascii) : bool :=
  byte.oneOf c (String "009" (String "010" (String "011" (String "012" (String "013" " "))))).

Fixpoint TrimLeftSpace (s : string) : string :=
  match s with
  | String c s' => if isSpace c then TrimLeftSpace s' else s
  | EmptyString => EmptyString
  end.

Fixpoint TrimRightSpace (s : string) : string :=
  match s with
  | EmptyString => EmptyString
  | String c s' =>
      match TrimRightSpace s' with
      | EmptyString => if isSpace c then EmptyString else String c EmptyString
      | t => String c t
      end
  end.

(** [strings.TrimSpace] for ASCII white space *)
Definition TrimSpace (s : string) : string := TrimRightSpace (TrimLeftSpace s).

Fixpoint forallb (p : ascii -> bool) (s : string) : bool :=
  match s with
  | EmptyString => true
  | String c s' => p c && forallb p s'
  end.

Fixpoint existsb (p : ascii -> bool) (s : string) : bool :=
  match s with
  | EmptyString => false
  | String c s' => p c || existsb p s'
  end.

End strings.

(** ** Package net/url (Go 1.24): [Parse], [URL.String] and what they call *)

Module url.

Inductive Error : Type :=
| InvalidControlCharacter
| MissingProtocolScheme
| FirstPathSegmentColon
| EscapeError (s : string)
| InvalidHostError (s : string)
| MissingBracket
| InvalidPort (s : string)
| InvalidUserinfo.

Inductive encoding : Type :=
| encodePath
| encodePathSegment
| encodeHost
| encodeZone
| encodeUserPassword
| encodeQueryComponent
| encodeFragment.

Definition encoding_eqb (a b : encoding) : bool :=
  match a, b with
  | encodePath, encodePath
  | encodePathSegment, encodePathSegment
  | encodeHost, encodeHost
  | encodeZone, encodeZone
  | encodeUserPassword, encodeUserPassword
  | encodeQueryComponent, encodeQueryComponent
  | encodeFragment, encodeFragment => true
  | _, _ => false
  end.

Record Userinfo : Type := {
  username : string;
  password : string;
  passwordSet : bool
}.

Record URL : Type := {
  Scheme : string;
  Opaque : string;
  User : option Userinfo;
  Host : string;
  Path : string;
  RawPath : string;
  OmitHost : bool;
  ForceQuery : bool;
  RawQuery : string;
  Fragment : string;
  RawFragment : string
}.

Definition emptyURL : URL :=
  {| Scheme := ""; Opaque := ""; User := None; Host := ""; Path := "";
     RawPath := ""; OmitHost := false; ForceQuery := false; RawQuery := "";
     Fragment := ""; RawFragment := "" |}.

Definition ishex (c : ascii) : bool :=
  byte.between "0" "9" c || byte.between "a" "f" c || byte.between "A" "F" c.

Definition unhex (c : ascii) : N :=
  if byte.between "0" "9" c then N_of_ascii c - N_of_ascii "0"
  else if byte.between "a" "f" c then N_of_ascii c - N_of_ascii "a" + 10
  else if byte.between "A" "F" c then N_of_ascii c - N_of_ascii "A" + 10
  else 0.

(** [unhex(a)<<4 | unhex(b)] *)
Definition unhex2 (a b : ascii) : ascii := ascii_of_N (16 * unhex a + unhex b).

Definition shouldEscape (c : ascii) (mode : encoding) : bool :=
  if byte.isAlnum c then false
  else if (encoding_eqb mode encodeHost || encoding_eqb mode encodeZone)
          && (byte.oneOf c "!$&'()*+,;=:[]<>" || Ascii.eqb c "034") then false
  else if byte.oneOf c "-_.~" then false
  else if byte.oneOf c "$&+,/:;=?@" then
    match mode with
    | encodePath => Ascii.eqb c "?"
    | encodePathSegment => byte.oneOf c "/;,?"
    | encodeUserPassword => byte.oneOf c "@/?:"
    | encodeQueryComponent => true
    | encodeFragment => false
    | encodeHost | encodeZone => true
    end
  else if encoding_eqb mode encodeFragment && byte.oneOf c "!()*" then false
  else true.

(** [unescape]: Go validates in a first pass and rewrites in a second;
    one pass that stops at the first malformed place returns the same. *)
Fixpoint unescape (s : string) (mode : encoding) : result Error string :=
  match s with
  | EmptyString => Ok EmptyString
  | String c s' =>
      if Ascii.eqb c "%" then
        match s' with
        | String a (String b s'') =>
            if negb (ishex a && ishex b) then Err (EscapeError (strings.take 3 s))
            else if encoding_eqb mode encodeHost && (unhex a <? 8)%N
                    && negb (String.eqb (strings.take 3 s) "%25")
            then Err (EscapeError (strings.take 3 s))
            else if encoding_eqb mode encodeZone
                    && negb (String.eqb (strings.take 3 s) "%25")
                    && negb (Ascii.eqb (unhex2 a b) " ")
                    && shouldEscape (unhex2 a b) encodeHost
            then Err (EscapeError (strings.take 3 s))
            else t ← unescape s'' mode; Ok (String (unhex2 a b) t)
        | _ => Err (EscapeError (strings.take 3 s))
        end
      else if Ascii.eqb c "+" then
        t ← unescape s' mode;
        Ok (String (if encoding_eqb mode encodeQueryComponent then " " else "+")%char t)
      else if (encoding_eqb mode encodeHost || encoding_eqb mode encodeZone)
              && byte.isASCII c && shouldEscape c encodeHost
      then Err (InvalidHostError (String c EmptyString))
      else t ← unescape s' mode; Ok (String c t)
  end.

Definition upperhex (n : N) : ascii :=
  if (n <? 10)%N then ascii_of_N (N_of_ascii "0" + n)
  else ascii_of_N (N_of_ascii "A" + (n - 10)).

Fixpoint escape (s : string) (mode : encoding) : string :=
  match s with
  | EmptyString => EmptyString
  | String c s' =>
      if shouldEscape c mode then
        if Ascii.eqb c " " && encoding_eqb mode encodeQueryComponent
        then String "+" (escape s' mode)
        else String "%" (String (upperhex (N_of_ascii c / 16))
                           (String (upperhex (N_of_ascii c mod 16)) (escape s' mode)))
      else String c (escape s' mode)
  end.

Definition validEncoded_byte (c : ascii) (mode : encoding) : bool :=
  if byte.oneOf c "!$&'()*+,;=:@" then true
  else if byte.oneOf c "[]" then true
  else if Ascii.eqb c "%" then true
  else negb (shouldEscape c mode).

Definition validEncoded (s : string) (mode : encoding) : bool :=
  strings.forallb (fun c => validEncoded_byte c mode) s.

Definition stringContainsCTLByte (s : string) : bool :=
  strings.existsb byte.isCTL s.

(** [getScheme]: the loop over [i], with [rest = rawURL[i:]] *)
Fixpoint getScheme_from (rawURL : string) (i : nat) (rest : string)
  : result Error (string * string) :=
  match rest with
  | EmptyString => Ok (EmptyString, rawURL)
  | String c rest' =>
      if byte.isLetter c then getScheme_from rawURL (S i) rest'
      else if byte.isDigit c || byte.oneOf c "+-." then
        match i with
        | O => Ok (EmptyString, rawURL)
        | S _ => getScheme_from rawURL (S i) rest'
        end
      else if Ascii.eqb c ":" then
        match i with
        | O => Err MissingProtocolScheme
        | S _ => Ok (strings.take i rawURL, rest')
        end
      else Ok (EmptyString, rawURL)
  end.

Definition getScheme (rawURL : string) : result Error (string * string) :=
  getScheme_from rawURL 0 rawURL.

Definition validOptionalPort (port : string) : bool :=
  match port with
  | EmptyString => true
  | String c digits => Ascii.eqb c ":" && strings.forallb byte.isDigit digits
  end.

Definition validUserinfo (s : string) : bool :=
  strings.forallb
    (fun c => byte.isAlnum c || byte.oneOf c "-._:~!$&'()*+,;=%@") s.

Definition parseHost (host : string) : result Error string :=
  if strings.HasPrefix host "[" then
    match strings.LastIndex host "]" with
    | None => Err MissingBracket
    | Some i =>
        let colonPort := strings.drop (i + 1) host in
        if negb (validOptionalPort colonPort) then Err (InvalidPort colonPort)
        else
          match strings.Index (strings.take i host) "%25" with
          | Some zone =>
              host1 ← unescape (strings.take zone host) encodeHost;
              host2 ← unescape (strings.drop zone (strings.take i host)) encodeZone;
              host3 ← unescape (strings.drop i host) encodeHost;
              Ok (host1 +:+ host2 +:+ host3)
          | None => unescape host encodeHost
          end
    end
  else
    match strings.LastIndex host ":" with
    | Some i =>
        let colonPort := strings.drop i host in
        if negb (validOptionalPort colonPort) then Err (InvalidPort colonPort)
        else unescape host encodeHost
    | None => unescape host encodeHost
    end.

Definition parseAuthority (authority : string)
  : result Error (option Userinfo * string) :=
  match strings.LastIndex authority "@" with
  | None => host ← parseHost authority; Ok (None, host)
  | Some i =>
      host ← parseHost (strings.drop (i + 1) authority);
      let userinfo := strings.take i authority in
      if negb (validUserinfo userinfo) then Err InvalidUserinfo
      else if negb (strings.Contains userinfo ":") then
        userinfo ← unescape userinfo encodeUserPassword;
        Ok (Some {| username := userinfo; password := ""; passwordSet := false |},
            host)
      else
        let '(username, password, _) := strings.Cut userinfo ":" in
        username ← unescape username encodeUserPassword;
        password ← unescape password encodeUserPassword;
        Ok (Some {| username := username; password := password;
                    passwordSet := true |}, host)
  end.

Definition withPath (u : URL) (path rawPath : string) : URL :=
  {| Scheme := Scheme u; Opaque := Opaque u; User := User u; Host := Host u;
     Path := path; RawPath := rawPath; OmitHost := OmitHost u;
     ForceQuery := ForceQuery u; RawQuery := RawQuery u;
     Fragment := Fragment u; RawFragment := RawFragment u |}.

Definition withFragment (u : URL) (fragment rawFragment : string) : URL :=
  {| Scheme := Scheme u; Opaque := Opaque u; User := User u; Host := Host u;
     Path := Path u; RawPath := RawPath u; OmitHost := OmitHost u;
     ForceQuery := ForceQuery u; RawQuery := RawQuery u;
     Fragment := fragment; RawFragment := rawFragment |}.

Definition withHost (u : URL) (host : string) : URL :=
  {| Scheme := Scheme u; Opaque := Opaque u; User := User u; Host := host;
     Path := Path u; RawPath := RawPath u; OmitHost := OmitHost u;
     ForceQuery := ForceQuery u; RawQuery := RawQuery u;
     Fragment := Fragment u; RawFragment := RawFragment u |}.

Definition withScheme (u : URL) (scheme : string) : URL :=
  {| Scheme := scheme; Opaque := Opaque u; User := User u; Host := Host u;
     Path := Path u; RawPath := RawPath u; OmitHost := OmitHost u;
     ForceQuery := ForceQuery u; RawQuery := RawQuery u;
     Fragment := Fragment u; RawFragment := RawFragment u |}.

Definition setPath (u : URL) (p : string) : result Error URL :=
  path ← unescape p encodePath;
  if String.eqb p (escape path encodePath)
  then Ok (withPath u path "")
  else Ok (withPath u path p).

Definition setFragment (u : URL) (f : string) : result Error URL :=
  frag ← unescape f encodeFragment;
  if String.eqb f (escape frag encodeFragment)
  then Ok (withFragment u frag "")
  else Ok (withFragment u frag f).

(** in [parse]: the query is cut off at the first [?]; a lone [?] at
    the end sets [ForceQuery] *)
Definition cutQuery (rest : string) : string * bool * string :=
  if strings.HasSuffix rest "?" && (strings.CountByte rest "?" =? 1)%nat
  then (strings.take (String.length rest - 1) rest, true, EmptyString)
  else let '(before, after, _) := strings.Cut rest "?" in
       (before, false, after).

(** in [parse]: [authority, rest = rest[2:], ""] and the cut at the
    first [/] *)
Definition cutAuthority (rest : string) : string * string :=
  let authority := strings.drop 2 rest in
  match strings.Index authority "/" with
  | Some i => (strings.take i authority, strings.drop i authority)
  | None => (authority, EmptyString)
  end.

(** in [parse]: what follows the cut of the query *)
Definition parseHierarchy (scheme rest : string) (forceQuery : bool)
    (rawQuery : string) : result Error URL :=
  let url :=
    {| Scheme := scheme; Opaque := ""; User := None; Host := ""; Path := "";
       RawPath := ""; OmitHost := false; ForceQuery := forceQuery;
       RawQuery := rawQuery; Fragment := ""; RawFragment := "" |} in
  if negb (strings.HasPrefix rest "/") && negb (String.eqb scheme "") then
    (* a rootless path is opaque *)
    Ok {| Scheme := scheme; Opaque := rest; User := None; Host := "";
          Path := ""; RawPath := ""; OmitHost := false;
          ForceQuery := forceQuery; RawQuery := rawQuery;
          Fragment := ""; RawFragment := "" |}
  else if negb (strings.HasPrefix rest "/")
          && strings.Contains (fst (fst (strings.Cut rest "/"))) ":"
  then Err FirstPathSegmentColon
  else if (negb (String.eqb scheme "") || negb (strings.HasPrefix rest "///"))
          && strings.HasPrefix rest "//" then
    let '(authority, rest) := cutAuthority rest in
    '(user, host) ← parseAuthority authority;
    setPath {| Scheme := scheme; Opaque := ""; User := user; Host := host;
               Path := ""; RawPath := ""; OmitHost := false;
               ForceQuery := forceQuery; RawQuery := rawQuery;
               Fragment := ""; RawFragment := "" |} rest
  else if negb (String.eqb scheme "") && strings.HasPrefix rest "/" then
    setPath {| Scheme := scheme; Opaque := ""; User := None; Host := "";
               Path := ""; RawPath := ""; OmitHost := true;
               ForceQuery := forceQuery; RawQuery := rawQuery;
               Fragment := ""; RawFragment := "" |} rest
  else setPath url rest.

(** [parse(rawURL, viaRequest = false)] *)
Definition parse (rawURL : string) : result Error URL :=
  if stringContainsCTLByte rawURL then Err InvalidControlCharacter
  else if String.eqb rawURL "*" then Ok (withPath emptyURL "*" "")
  else
    '(scheme, rest) ← getScheme rawURL;
    let scheme := strings.ToLower scheme in
    let '(rest, forceQuery, rawQuery) := cutQuery rest in
    parseHierarchy scheme rest forceQuery rawQuery.

(** [url.Parse] *)
Definition Parse (rawURL : string) : result Error URL :=
  let '(u, frag, _) := strings.Cut rawURL "#" in
  url ← parse u;
  if String.eqb frag "" then Ok url else setFragment url frag.

(** [URL.IsAbs] *)
Definition IsAbs (u : URL) : bool := negb (String.eqb (Scheme u) "").

Definition splitHostPort (hostPort : string) : string * string :=
  let '(host, port) :=
    match strings.LastIndex hostPort ":" with
    | Some colon =>
        if validOptionalPort (strings.drop colon hostPort)
        then (strings.take colon hostPort, strings.drop (colon + 1) hostPort)
        else (hostPort, EmptyString)
    | None => (hostPort, EmptyString)
    end in
  if strings.HasPrefix host "[" && strings.HasSuffix host "]"
  then (strings.take (String.length host - 2) (strings.drop 1 host), port)
  else (host, port).

(** [URL.Hostname] *)
Definition Hostname (u : URL) : string := fst (splitHostPort (Host u)).

(** [URL.EscapedPath] *)
Definition EscapedPath (u : URL) : string :=
  if negb (String.eqb (RawPath u) "") && validEncoded (RawPath u) encodePath
     && match unescape (RawPath u) encodePath with
        | Ok p => String.eqb p (Path u)
        | Err _ => false
        end
  then RawPath u
  else if String.eqb (Path u) "*" then "*"
  else escape (Path u) encodePath.

(** [URL.EscapedFragment] *)
Definition EscapedFragment (u : URL) : string :=
  if negb (String.eqb (RawFragment u) "") && validEncoded (RawFragment u) encodeFragment
     && match unescape (RawFragment u) encodeFragment with
        | Ok f => String.eqb f (Fragment u)
        | Err _ => false
        end
  then RawFragment u
  else escape (Fragment u) encodeFragment.

(** [Userinfo.String] *)
Definition Userinfo_String (ui : Userinfo) : string :=
  escape (username ui) encodeUserPassword
  +:+ (if passwordSet ui then ":" +:+ escape (password ui) encodeUserPassword
       else "").

Definition isSome {A} (o : option A) : bool :=
  match o with Some _ => true | None => false end.

(** [URL.String], the buffer written left to right *)
Definition URL_String (u : URL) : string :=
  let buf := if negb (String.eqb (Scheme u) "") then Scheme u +:+ ":" else "" in
  let buf :=
    if negb (String.eqb (Opaque u) "") then buf +:+ Opaque u
    else
      let buf :=
        if negb (String.eqb (Scheme u) "") || negb (String.eqb (Host u) "")
           || isSome (User u)
        then
          if OmitHost u && String.eqb (Host u) "" && negb (isSome (User u))
          then buf
          else
            let buf :=
              if negb (String.eqb (Host u) "") || negb (String.eqb (Path u) "")
                 || isSome (User u)
              then buf +:+ "//" else buf in
            let buf :=
              match User u with
              | Some ui => buf +:+ Userinfo_String ui +:+ "@"
              | None => buf
              end in
            if negb (String.eqb (Host u) "")
            then buf +:+ escape (Host u) encodeHost else buf
        else buf in
      let path := EscapedPath u in
      let buf :=
        if negb (String.eqb path "") && negb (strings.HasPrefix path "/")
           && negb (String.eqb (Host u) "")
        then buf +:+ "/" else buf in
      let buf :=
        if String.eqb buf ""
           && strings.Contains (fst (fst (strings.Cut path "/"))) ":"
        then buf +:+ "./" else buf in
      buf +:+ path in
  let buf :=
    if ForceQuery u || negb (String.eqb (RawQuery u) "")
    then buf +:+ "?" +:+ RawQuery u else buf in
  if negb (String.eqb (Fragment u) "")
  then buf +:+ "#" +:+ EscapedFragment u else buf.

End url.

(** ** internal/urlutil/canonical.go *)

Module urlutil.

Inductive Error : Type :=
| ParseFailed (e : url.Error)
| NotAbsoluteHTTP.

Definition Canonicalize (rawURL : string) : result Error string :=
  match url.Parse rawURL with
  | Err e => Err (ParseFailed e)
  | Ok u =>
      if negb (url.IsAbs u)
         || (negb (String.eqb (url.Scheme u) "http")
             && negb (String.eqb (url.Scheme u) "https"))
      then Err NotAbsoluteHTTP
      else
        (* Rule 1 *)
        let u := url.withScheme u (strings.ToLower (url.Scheme u)) in
        let u := url.withHost u (strings.ToLower (url.Host u)) in
        (* Rule 2 *)
        let u :=
          if (String.eqb (url.Scheme u) "http" && strings.HasSuffix (url.Host u) ":80")
             || (String.eqb (url.Scheme u) "https" && strings.HasSuffix (url.Host u) ":443")
          then url.withHost u (url.Hostname u)
          else u in
        (* Rule 3 *)
        let u := url.withFragment u "" (url.RawFragment u) in
        (* Rule 4 *)
        let u :=
          if (1 <? String.length (url.Path u))%nat && strings.HasSuffix (url.Path u) "/"
          then url.withPath u (strings.TrimSuffix (url.Path u) "/") (url.RawPath u)
          else u in
        Ok (url.URL_String u)
  end.

End urlutil.

(** ** Package strconv *)

Module strconv.

Inductive NumError : Type :=
| ErrSyntax
| ErrRange.

Fixpoint digitsValue (acc : Z) (s : string) : option Z :=
  match s with
  | EmptyString => Some acc
  | String c s' =>
      if byte.isDigit c
      then digitsValue (10 * acc + Z.of_N (N_of_ascii c - N_of_ascii "0")) s'
      else None
  end.

(** [strconv.Atoi] with a 64-bit [int]: an optional sign, then one or
    more decimal digits; values outside the [int64] range are an error. *)
Definition Atoi (s : string) : result NumError Z :=
  let '(neg, digits) :=
    match s with
    | String "-" s' => (true, s')
    | String "+" s' => (false, s')
    | _ => (false, s)
    end in
  match digits with
  | EmptyString => Err ErrSyntax
  | _ =>
      match digitsValue 0 digits with
      | None => Err ErrSyntax
      | Some n =>
          let v := (if neg then - n else n)%Z in
          if ((- 2 ^ 63 <=? v) && (v <=? 2 ^ 63 - 1))%Z then Ok v else Err ErrRange
      end
  end.

End strconv.

(** ** Package time

    A [Time] is kept as its UTC calendar fields.  Every time of this
    program is made by [time.Now().UTC()] or read back from a string
    written by [Format], so no other location occurs; on UTC fields
    [Before] is the lexicographic order. *)

Module time.

Record Time : Type := {
  year : Z;
  month : Z;
  day : Z;
  hour : Z;
  minute : Z;
  second : Z;
  nanosecond : Z
}.

(** The zero [Time]: January 1, year 1, 00:00:00 UTC *)
Definition zero : Time :=
  {| year := 1; month := 1; day := 1; hour := 0; minute := 0; second := 0;
     nanosecond := 0 |}.

Definition fields (t : Time) : list Z :=
  [year t; month t; day t; hour t; minute t; second t; nanosecond t].

Fixpoint compareFields (a b : list Z) : comparison :=
  match a, b with
  | x :: a', y :: b' =>
      match Z.compare x y with
      | Eq => compareFields a' b'
      | c => c
      end
  | [], [] => Eq
  | [], _ :: _ => Lt
  | _ :: _, [] => Gt
  end.

Definition Compare (t u : Time) : comparison := compareFields (fields t) (fields u).

Definition Before (t u : Time) : bool :=
  match Compare t u with Lt => true | _ => false end.

Definition After (t u : Time) : bool :=
  match Compare t u with Gt => true | _ => false end.

Definition Equal (t u : Time) : bool :=
  match Compare t u with Eq => true | _ => false end.

Definition IsZero (t : Time) : bool := Equal t zero.

(** Calendar fields in range (years of four digits) *)
Definition valid (t : Time) : Prop :=
  (0 <= year t <= 9999 /\ 1 <= month t <= 12 /\ 1 <= day t <= 31 /\
   0 <= hour t <= 23 /\ 0 <= minute t <= 59 /\ 0 <= second t <= 59 /\
   0 <= nanosecond t <= 999999999)%Z.

Definition digit (n : Z) : ascii := ascii_of_N (N_of_ascii "0" + Z.to_N (n mod 10)).

(** [appendInt(b, n, width)] for [0 <= n < 10^width] *)
Fixpoint appendInt (width : nat) (n : Z) : string :=
  match width with
  | O => EmptyString
  | S w => appendInt w (n / 10) +:+ String (digit n) EmptyString
  end.

Fixpoint trimRightZeros (s : string) : string :=
  match s with
  | EmptyString => EmptyString
  | String c s' =>
      match trimRightZeros s' with
      | EmptyString => if Ascii.eqb c "0" then EmptyString else String c EmptyString
      | t => String c t
      end
  end.

(** [appendNano] for the layout [.999999999]: nothing when the
    nanoseconds are zero, else the nine digits without trailing zeros *)
Definition appendNano (nanosec : Z) : string :=
  if (nanosec =? 0)%Z then EmptyString
  else "." +:+ trimRightZeros (appendInt 9 nanosec).

Definition RFC3339 : string := "2006-01-02T15:04:05Z07:00".
Definition RFC3339Nano : string := "2006-01-02T15:04:05.999999999Z07:00".

(** [t.Format(time.RFC3339Nano)] of a UTC time *)
Definition Format (t : Time) : string :=
  appendInt 4 (year t) +:+ "-" +:+ appendInt 2 (month t) +:+ "-"
  +:+ appendInt 2 (day t) +:+ "T" +:+ appendInt 2 (hour t) +:+ ":"
  +:+ appendInt 2 (minute t) +:+ ":" +:+ appendInt 2 (second t)
  +:+ appendNano (nanosecond t) +:+ "Z".

Inductive ParseError : Type :=
| ErrLayout.

(** reads exactly [n] decimal digits *)
Fixpoint getnum (n : nat) (acc : Z) (s : string) : option (Z * string) :=
  match n with
  | O => Some (acc, s)
  | S n' =>
      match s with
      | String c s' =>
          if byte.isDigit c
          then getnum n' (10 * acc + Z.of_N (N_of_ascii c - N_of_ascii "0")) s'
          else None
      | EmptyString => None
      end
  end.

Definition expect (c : ascii) (s : string) : option string :=
  match s with
  | String d s' => if Ascii.eqb c d then Some s' else None
  | EmptyString => None
  end.

(** the digits of a fraction, scaled to nanoseconds: at most nine are
    kept, [scale] is the weight of the next digit *)
Fixpoint getfrac (scale : Z) (acc : Z) (s : string) : Z * string :=
  match s with
  | String c s' =>
      if byte.isDigit c
      then getfrac (scale / 10)
             (acc + scale * Z.of_N (N_of_ascii c - N_of_ascii "0")) s'
      else (acc, s)
  | EmptyString => (acc, s)
  end.

Definition startsWithDigit (s : string) : bool :=
  match s with
  | String c _ => byte.isDigit c
  | EmptyString => false
  end.

(** [time.Parse(time.RFC3339Nano, s)] (and [time.RFC3339], which reads
    the same strings) on the UTC form that [Format] writes,
    [YYYY-MM-DDTHH:MM:SS[.fraction]Z].  Go's parser also reads numeric
    zone offsets; no string written by this program has one, and they
    are an error here. *)
Definition Parse (layout s : string) : result ParseError Time :=
  let parsed : option Time :=
    '(y, s) ← getnum 4 0 s;
    s ← expect "-" s;
    '(mo, s) ← getnum 2 0 s;
    s ← expect "-" s;
    '(d, s) ← getnum 2 0 s;
    s ← expect "T" s;
    '(h, s) ← getnum 2 0 s;
    s ← expect ":" s;
    '(mi, s) ← getnum 2 0 s;
    s ← expect ":" s;
    '(sec, s) ← getnum 2 0 s;
    let '(ns, s) :=
      match s with
      | String "." s' =>
          if startsWithDigit s' then getfrac 100000000 0 s' else (0%Z, s)
      | _ => (0%Z, s)
      end in
    s ← expect "Z" s;
    if String.eqb s ""
       && ((1 <=? mo) && (mo <=? 12) && (1 <=? d) && (d <=? 31)
           && (h <=? 23) && (mi <=? 59) && (sec <=? 59))%Z
    then Some {| year := y; month := mo; day := d; hour := h; minute := mi;
                 second := sec; nanosecond := ns |}
    else None in
  match parsed with
  | Some t => Ok t
  | None => Err ErrLayout
  end.

End time.

(** ** Package encoding/base64: [URLEncoding] (alphabet [A-Za-z0-9-_], padding [=]) *)

Module base64.

Inductive CorruptInputError : Type :=
| CorruptInput.

Definition encodeURL (n : N) : ascii :=
  if (n <? 26)%N then ascii_of_N (N_of_ascii "A" + n)
  else if (n <? 52)%N then ascii_of_N (N_of_ascii "a" + (n - 26))
  else if (n <? 62)%N then ascii_of_N (N_of_ascii "0" + (n - 52))
  else if (n =? 62)%N then "-"%char
  else "_"%char.

Definition decodeURL (c : ascii) : option N :=
  if byte.isUpper c then Some (N_of_ascii c - N_of_ascii "A")%N
  else if byte.isLower c then Some (N_of_ascii c - N_of_ascii "a" + 26)%N
  else if byte.isDigit c then Some (N_of_ascii c - N_of_ascii "0" + 52)%N
  else if Ascii.eqb c "-" then Some 62%N
  else if Ascii.eqb c "_" then Some 63%N
  else None.

Fixpoint EncodeToString (src : string) : string :=
  match src with
  | EmptyString => EmptyString
  | String a EmptyString =>
      let x := N_of_ascii a in
      String (encodeURL (x / 4))
        (String (encodeURL (x mod 4 * 16)) "==")
  | String a (String b EmptyString) =>
      let x := N_of_ascii a in
      let y := N_of_ascii b in
      String (encodeURL (x / 4))
        (String (encodeURL (x mod 4 * 16 + y / 16))
           (String (encodeURL (y mod 16 * 4)) "="))
  | String a (String b (String c src')) =>
      let x := N_of_ascii a in
      let y := N_of_ascii b in
      let z := N_of_ascii c in
      String (encodeURL (x / 4))
        (String (encodeURL (x mod 4 * 16 + y / 16))
           (String (encodeURL (y mod 16 * 4 + z / 64))
              (String (encodeURL (z mod 64)) (EncodeToString src'))))
  end.

Fixpoint dropNewlines (s : string) : string :=
  match s with
  | EmptyString => EmptyString
  | String c s' =>
      if byte.oneOf c (String "010" (String "013" EmptyString))
      then dropNewlines s' else String c (dropNewlines s')
  end.

(** one quantum of four characters at a time; [=] only closes the input *)
Fixpoint decodeQuanta (s : string) : option string :=
  match s with
  | EmptyString => Some EmptyString
  | String a (String b (String c (String d s'))) =>
      x ← decodeURL a;
      y ← decodeURL b;
      if Ascii.eqb c "=" then
        if Ascii.eqb d "=" && String.eqb s' ""
        then Some (String (ascii_of_N (x * 4 + y / 16)) EmptyString)
        else None
      else
        z ← decodeURL c;
        if Ascii.eqb d "=" then
          if String.eqb s' ""
          then Some (String (ascii_of_N (x * 4 + y / 16))
                       (String (ascii_of_N (y mod 16 * 16 + z / 4)) EmptyString))
          else None
        else
          v ← decodeURL d;
          t ← decodeQuanta s';
          Some (String (ascii_of_N (x * 4 + y / 16))
                  (String (ascii_of_N (y mod 16 * 16 + z / 4))
                     (String (ascii_of_N (z mod 4 * 64 + v)) t)))
  | _ => None
  end.

(** [base64.URLEncoding.DecodeString]: new-line characters are skipped,
    the padding is required, trailing bits are not checked *)
Definition DecodeString (s : string) : result CorruptInputError string :=
  match decodeQuanta (dropNewlines s) with
  | Some t => Ok t
  | None => Err CorruptInput
  end.

End base64.

(** ** internal/models/models.go *)

Module models.

Module Target.
Record t : Type := {
  ID : string;
  URL : string;
  CanonicalURL : string;
  Host : string;
  CreatedAt : time.Time
}.
End Target.

Module CheckResult.
Record t : Type := {
  ID : string;
  TargetID : string;
  CheckedAt : time.Time;
  StatusCode : option Z;
  LatencyMS : Z;
  Error : option string
}.
End CheckResult.

End models.

(** ** internal/storage: the [Storer] interface *)

Module storage.

(** The error values a store returns; Go's [nil] is [None] of
    [option error]. *)
Inductive error : Type :=
| ErrDuplicateKey
| ErrNotFound
| ErrInternal (msg : string).

Definition isErrDuplicateKey (err : option error) : bool :=
  match err with Some ErrDuplicateKey => true | _ => false end.

Definition isErrNotFound (err : option error) : bool :=
  match err with Some ErrNotFound => true | _ => false end.

Definition isNil (err : option error) : bool :=
  match err with None => true | Some _ => false end.

Module ListTargetsParams.
Record t : Type := {
  Host : string;
  AfterTime : time.Time;
  AfterID : string;
  Limit : Z
}.
End ListTargetsParams.

Module ListCheckResultsParams.
Record t : Type := {
  TargetID : string;
  Since : option time.Time;
  Limit : Z
}.
End ListCheckResultsParams.

(** The interface, with the store's state passed explicitly: a method
    that writes returns the new state. *)
Class Storer (S : Type) : Type := {
  CreateTarget :
    S -> models.Target.t -> option string ->
    S * (option models.Target.t * option error);
  GetTargetByID : S -> string -> option models.Target.t * option error;
  ListTargets : S -> ListTargetsParams.t -> list models.Target.t * option error;
  GetAllTargets : S -> list models.Target.t * option error;
  CreateCheckResult : S -> models.CheckResult.t -> S * option error;
  ListCheckResultsByTargetID :
    S -> ListCheckResultsParams.t -> list models.CheckResult.t * option error
}.

End storage.

(** ** internal/storage/sqlite/store.go

    The database is the three tables of [migrate], each a list of rows
    in insertion order.  Timestamps are stored as TEXT and compared as
    SQLite compares TEXT under the default BINARY collation: byte by
    byte.  Failures of the connection itself are outside the model. *)

Module sqlite.

Module TargetsRow.
Record t : Type := {
  id : string;
  url : string;
  canonical_url : string;
  host : string;
  created_at : string
}.
End TargetsRow.

Module CheckResultsRow.
Record t : Type := {
  id : string;
  target_id : string;
  checked_at : string;
  status_code : option Z;
  latency_ms : Z;
  error : option string
}.
End CheckResultsRow.

Module IdempotencyKeysRow.
Record t : Type := {
  key : string;
  target_id : string;
  created_at : string
}.
End IdempotencyKeysRow.

(** [now] and [random] are what the next [time.Now().UTC()] and the
    next twelve bytes of [crypto/rand] (in hex) will be. *)
Record SQLiteStore : Type := {
  targets : list TargetsRow.t;
  check_results : list CheckResultsRow.t;
  idempotency_keys : list IdempotencyKeysRow.t;
  now : time.Time;
  random : string
}.

Definition withTargets (s : SQLiteStore) (rows : list TargetsRow.t) : SQLiteStore :=
  {| targets := rows; check_results := check_results s;
     idempotency_keys := idempotency_keys s; now := now s; random := random s |}.

Definition withCheckResults (s : SQLiteStore) (rows : list CheckResultsRow.t)
  : SQLiteStore :=
  {| targets := targets s; check_results := rows;
     idempotency_keys := idempotency_keys s; now := now s; random := random s |}.

Definition withIdempotencyKeys (s : SQLiteStore) (rows : list IdempotencyKeysRow.t)
  : SQLiteStore :=
  {| targets := targets s; check_results := check_results s;
     idempotency_keys := rows; now := now s; random := random s |}.

Definition randomID (s : SQLiteStore) (prefix : string) : string :=
  prefix +:+ random s.

(** [x, _ = time.Parse(time.RFC3339Nano, str)]: the zero time on error *)
Definition parseOrZero (str : string) : time.Time :=
  match time.Parse time.RFC3339Nano str with
  | Ok t => t
  | Err _ => time.zero
  end.

(** [Scan] of a row of [targets] *)
Definition scanTarget (r : TargetsRow.t) : models.Target.t :=
  {| models.Target.ID := TargetsRow.id r;
     models.Target.URL := TargetsRow.url r;
     models.Target.CanonicalURL := TargetsRow.canonical_url r;
     models.Target.Host := TargetsRow.host r;
     models.Target.CreatedAt := parseOrZero (TargetsRow.created_at r) |}.

Definition scanCheckResult (r : CheckResultsRow.t) : models.CheckResult.t :=
  {| models.CheckResult.ID := CheckResultsRow.id r;
     models.CheckResult.TargetID := CheckResultsRow.target_id r;
     models.CheckResult.CheckedAt := parseOrZero (CheckResultsRow.checked_at r);
     models.CheckResult.StatusCode := CheckResultsRow.status_code r;
     models.CheckResult.LatencyMS := CheckResultsRow.latency_ms r;
     models.CheckResult.Error := CheckResultsRow.error r |}.

Definition rowOfTarget (target : models.Target.t) : TargetsRow.t :=
  {| TargetsRow.id := models.Target.ID target;
     TargetsRow.url := models.Target.URL target;
     TargetsRow.canonical_url := models.Target.CanonicalURL target;
     TargetsRow.host := models.Target.Host target;
     TargetsRow.created_at := time.Format (models.Target.CreatedAt target) |}.

(** [SELECT ... FROM targets WHERE id = ?] *)
Definition selectTargetByID (s : SQLiteStore) (id : string) : option TargetsRow.t :=
  find (fun r => String.eqb (TargetsRow.id r) id) (targets s).

(** [SELECT ... FROM targets WHERE canonical_url = ?] *)
Definition selectTargetByCanonicalURL (s : SQLiteStore) (canonicalURL : string)
  : option TargetsRow.t :=
  find (fun r => String.eqb (TargetsRow.canonical_url r) canonicalURL) (targets s).

(** [SELECT target_id FROM idempotency_keys WHERE key = ?] *)
Definition selectIdempotencyKey (s : SQLiteStore) (key : string) : option string :=
  IdempotencyKeysRow.target_id <$>
    find (fun r => String.eqb (IdempotencyKeysRow.key r) key) (idempotency_keys s).

Definition getTargetByIDTx (s : SQLiteStore) (id : string)
  : option models.Target.t * option storage.error :=
  match selectTargetByID s id with
  | None => (None, Some storage.ErrNotFound)
  | Some r => (Some (scanTarget r), None)
  end.

(** [CreateTarget].  A return before [tx.Commit] leaves the database as
    it was (the deferred [tx.Rollback]).  The INSERT checks the conflict
    target of its ON CONFLICT clause, [canonical_url], before the
    primary key. *)
Definition CreateTarget (s : SQLiteStore) (target : models.Target.t)
    (idempotencyKey : option string)
  : SQLiteStore * (option models.Target.t * option storage.error) :=
  match idempotencyKey ≫= selectIdempotencyKey s with
  | Some existingTargetID => (s, getTargetByIDTx s existingTargetID)
  | None =>
      match selectTargetByCanonicalURL s (models.Target.CanonicalURL target) with
      | Some existingTarget =>
          (* rowsAffected == 0 *)
          (s, (Some (scanTarget existingTarget), Some storage.ErrDuplicateKey))
      | None =>
          match selectTargetByID s (models.Target.ID target) with
          | Some _ =>
              (s, (None, Some (storage.ErrInternal "failed to insert target")))
          | None =>
              let s1 := withTargets s (targets s ++ [rowOfTarget target]) in
              let s2 :=
                match idempotencyKey with
                | Some key =>
                    withIdempotencyKeys s1
                      (idempotency_keys s1 ++
                       [{| IdempotencyKeysRow.key := key;
                           IdempotencyKeysRow.target_id := models.Target.ID target;
                           IdempotencyKeysRow.created_at := time.Format (now s) |}])
                | None => s1
                end in
              (s2, (Some target, None))
          end
      end
  end.

Definition GetTargetByID (s : SQLiteStore) (id : string)
  : option models.Target.t * option storage.error :=
  getTargetByIDTx s id.

(** TEXT comparison under the BINARY collation *)
Definition textLt (a b : string) : bool :=
  match String.compare a b with Lt => true | _ => false end.

(** the row value comparison [(created_at, id) > (?, ?)] *)
Definition rowValueGt (r : TargetsRow.t) (afterTime afterID : string) : bool :=
  textLt afterTime (TargetsRow.created_at r)
  || (String.eqb (TargetsRow.created_at r) afterTime
      && textLt afterID (TargetsRow.id r)).

(** the order of [ORDER BY created_at, id] *)
Definition orderLe (a b : TargetsRow.t) : bool :=
  textLt (TargetsRow.created_at a) (TargetsRow.created_at b)
  || (String.eqb (TargetsRow.created_at a) (TargetsRow.created_at b)
      && negb (textLt (TargetsRow.id b) (TargetsRow.id a))).

Fixpoint insertBy {A} (le : A -> A -> bool) (x : A) (l : list A) : list A :=
  match l with
  | [] => [x]
  | y :: l' => if le x y then x :: l else y :: insertBy le x l'
  end.

(** ORDER BY, as a stable insertion sort *)
Definition orderBy {A} (le : A -> A -> bool) (l : list A) : list A :=
  foldr (insertBy le) [] l.

(** [LIMIT n]: a negative [n] is no limit *)
Definition limit {A} (n : Z) (l : list A) : list A :=
  if (n <? 0)%Z then l else take (Z.to_nat n) l.

Definition ListTargets (s : SQLiteStore) (params : storage.ListTargetsParams.t)
  : list models.Target.t * option storage.error :=
  let rows := targets s in
  let rows :=
    if negb (String.eqb (storage.ListTargetsParams.Host params) "")
    then List.filter (fun r => String.eqb (TargetsRow.host r)
                            (storage.ListTargetsParams.Host params)) rows
    else rows in
  let rows :=
    if negb (time.IsZero (storage.ListTargetsParams.AfterTime params))
       && negb (String.eqb (storage.ListTargetsParams.AfterID params) "")
    then List.filter (fun r => rowValueGt r
                            (time.Format (storage.ListTargetsParams.AfterTime params))
                            (storage.ListTargetsParams.AfterID params)) rows
    else rows in
  let rows := orderBy orderLe rows in
  let rows := limit (storage.ListTargetsParams.Limit params) rows in
  (scanTarget <$> rows, None).

Definition GetAllTargets (s : SQLiteStore)
  : list models.Target.t * option storage.error :=
  (scanTarget <$> orderBy orderLe (targets s), None).

Definition CreateCheckResult (s : SQLiteStore) (result : models.CheckResult.t)
  : SQLiteStore * option storage.error :=
  let id :=
    if String.eqb (models.CheckResult.ID result) "" then randomID s "cr_"
    else models.CheckResult.ID result in
  match find (fun r => String.eqb (CheckResultsRow.id r) id) (check_results s) with
  | Some _ => (s, Some (storage.ErrInternal "failed to create check result"))
  | None =>
      (withCheckResults s
         (check_results s ++
          [{| CheckResultsRow.id := id;
              CheckResultsRow.target_id := models.CheckResult.TargetID result;
              CheckResultsRow.checked_at :=
                time.Format (models.CheckResult.CheckedAt result);
              CheckResultsRow.status_code := models.CheckResult.StatusCode result;
              CheckResultsRow.latency_ms := models.CheckResult.LatencyMS result;
              CheckResultsRow.error := models.CheckResult.Error result |}]),
       None)
  end.

(** the order of [ORDER BY checked_at DESC] *)
Definition checkedAtGe (a b : CheckResultsRow.t) : bool :=
  negb (textLt (CheckResultsRow.checked_at a) (CheckResultsRow.checked_at b)).

Definition ListCheckResultsByTargetID (s : SQLiteStore)
    (params : storage.ListCheckResultsParams.t)
  : list models.CheckResult.t * option storage.error :=
  let rows :=
    List.filter (fun r => String.eqb (CheckResultsRow.target_id r)
                       (storage.ListCheckResultsParams.TargetID params))
      (check_results s) in
  let rows :=
    match storage.ListCheckResultsParams.Since params with
    | Some since =>
        List.filter (fun r => textLt (time.Format since) (CheckResultsRow.checked_at r)) rows
    | None => rows
    end in
  let rows := orderBy checkedAtGe rows in
  let rows := limit (storage.ListCheckResultsParams.Limit params) rows in
  (scanCheckResult <$> rows, None).

#[global] Instance SQLiteStore_Storer : storage.Storer SQLiteStore := {|
  storage.CreateTarget := CreateTarget;
  storage.GetTargetByID := GetTargetByID;
  storage.ListTargets := ListTargets;
  storage.GetAllTargets := GetAllTargets;
  storage.CreateCheckResult := CreateCheckResult;
  storage.ListCheckResultsByTargetID := ListCheckResultsByTargetID
|}.

End sqlite.

(** ** internal/checker: limiter.go and pool.go *)

Module checker.

(** [HostLimiter]: the Go map used as a set; [mu] makes every method one
    atomic step, which is how the methods are used below. *)
Record HostLimiter : Type := {
  hosts : gset string
}.

Definition NewHostLimiter : HostLimiter := {| hosts := ∅ |}.

Definition Acquire (hl : HostLimiter) (host : string) : HostLimiter * bool :=
  if decide (host ∈ hosts hl) then (hl, false)
  else ({| hosts := {[ host ]} ∪ hosts hl |}, true).

Definition Release (hl : HostLimiter) (host : string) : HostLimiter :=
  {| hosts := hosts hl ∖ {[ host ]} |}.

(** What one iteration of the loop of [performCheck] meets: the clock at
    its start, and how the request went. Durations are nanoseconds. *)
Inductive outcome : Type :=
| NewRequestFailed (err : string)
| DoFailed (latency : Z) (err : string)
| DoResponded (latency : Z) (status : Z).

Record attempt : Type := {
  observedStart : time.Time;
  observed : outcome
}.

(** the attempts of one probe, by the value of [attempts] (1, 2, ...) *)
Definition world : Type := Z -> attempt.

Inductive event : Type :=
| EvAttempt (n : Z)
| EvSleep (d : Z)
| EvCreateCheckResult (r : models.CheckResult.t).

(** the local variables of [performCheck] *)
Record locals : Type := {
  attempts : Z;
  backoff : Z;
  statusCode : option Z;
  errMsg : option string;
  startTime : time.Time;
  latency : Z
}.

Definition maxAttempts : Z := 3.
Definition Millisecond : Z := 1000000.

Definition initial : locals :=
  {| attempts := 0; backoff := 200 * Millisecond; statusCode := None;
     errMsg := None; startTime := time.zero; latency := 0 |}.

(** the closure [retry] *)
Definition retry (code : Z) (err : option string) : bool :=
  match err with
  | Some _ => true
  | None => (500 <=? code)%Z && (code <=? 599)%Z
  end.

Inductive control : Type :=
| Continue
| Break.

(** the statements after [httpClient.Do]: [code], the test and the sleep *)
Definition afterDo (l : locals) (err : option string) : locals * control * list event :=
  let code := match statusCode l with Some c => c | None => 0%Z end in
  if (attempts l <? maxAttempts)%Z && retry code err
  then ({| attempts := attempts l; backoff := backoff l * 2;
           statusCode := statusCode l; errMsg := errMsg l;
           startTime := startTime l; latency := latency l |},
        Continue, [EvSleep (backoff l)])
  else (l, Break, []).

(** one pass through the body of the [for] loop *)
Definition iteration (w : world) (l : locals) : locals * control * list event :=
  let attempts' := (attempts l + 1)%Z in
  let a := w attempts' in
  match observed a with
  | NewRequestFailed m =>
      ({| attempts := attempts'; backoff := backoff l; statusCode := statusCode l;
          errMsg := Some m; startTime := observedStart a; latency := latency l |},
       Break, [EvAttempt attempts'])
  | DoFailed lat m =>
      let '(l', c, evs) :=
        afterDo {| attempts := attempts'; backoff := backoff l;
                   statusCode := statusCode l; errMsg := Some m;
                   startTime := observedStart a; latency := lat |} (Some m) in
      (l', c, EvAttempt attempts' :: evs)
  | DoResponded lat status =>
      let '(l', c, evs) :=
        afterDo {| attempts := attempts'; backoff := backoff l;
                   statusCode := Some status; errMsg := errMsg l;
                   startTime := observedStart a; latency := lat |} None in
      (l', c, EvAttempt attempts' :: evs)
  end.

(** the [for] loop; it ends because [attempts] grows towards [maxAttempts] *)
Equations? loop (w : world) (l : locals) : locals * list event
  by wf (Z.to_nat (maxAttempts - attempts l)) lt :=
loop w l with inspect (iteration w l) := {
  | exist _ (l', Continue, evs) H =>
      let '(final, rest) := loop w l' in (final, evs ++ rest)
  | exist _ (l', Break, evs) H => (l', evs) }.
Proof.
  revert H. unfold iteration, afterDo.
  destruct (observed (w (attempts l + 1)%Z)) as [m|lat m|lat st]; cbn;
    [discriminate| |].
  all: destruct (attempts l + 1 <? maxAttempts)%Z eqn:Hlt; cbn;
    [|discriminate].
  all: match goal with
       | |- context [if ?b then _ else _] => destruct b; [|discriminate]
       | _ => idtac
       end.
  all: intros [= <- <-]; cbn; apply Z.ltb_lt in Hlt; lia.
Qed.

(** [time.Duration.Milliseconds] *)
Definition Milliseconds (d : Z) : Z := Z.quot d Millisecond.

Definition resultOf (target : models.Target.t) (l : locals) : models.CheckResult.t :=
  {| models.CheckResult.ID := "";
     models.CheckResult.TargetID := models.Target.ID target;
     models.CheckResult.CheckedAt := startTime l;
     models.CheckResult.LatencyMS := Milliseconds (latency l);
     models.CheckResult.StatusCode := statusCode l;
     models.CheckResult.Error := errMsg l |}.

(** [performCheck], run from start to end by one worker; the result is
    the limiter and the store afterwards and what the probe did. *)
Definition performCheck {S : Type} `{!storage.Storer S} (hl : HostLimiter) (store : S)
    (w : world) (target : models.Target.t) : HostLimiter * S * list event :=
  let '(hl, acquired) := Acquire hl (models.Target.Host target) in
  if negb acquired then (hl, store, [])
  else
    let '(l, evs) := loop w initial in
    let result := resultOf target l in
    let '(store, dbErr) := storage.CreateCheckResult store result in
    (* deferred *)
    (Release hl (models.Target.Host target), store,
     evs ++ [EvCreateCheckResult result]).

(** *** The workers of a pool, interleaved

    A worker is between two calls of [performCheck], or inside one:
    after its [Acquire] succeeded and before [CreateCheckResult], or
    after [CreateCheckResult] and before the deferred [Release]. *)
Inductive worker : Type :=
| Idle
| Probing (target : models.Target.t)
| Persisted (target : models.Target.t).

Definition inFlight (wk : worker) : option models.Target.t :=
  match wk with
  | Idle => None
  | Probing t | Persisted t => Some t
  end.

Record pool (S : Type) : Type := {
  hostLimiter : HostLimiter;
  store : S;
  workers : list worker
}.
Arguments hostLimiter {S} p.
Arguments store {S} p.
Arguments workers {S} p.

Definition NewWorkerPool {S} (st : S) (maxConcurrency : nat) : pool S :=
  {| hostLimiter := NewHostLimiter; store := st;
     workers := replicate maxConcurrency Idle |}.

(** One step of one worker.  The target a worker receives and the world
    its probe meets are chosen by the environment. *)
Inductive step {S : Type} `{!storage.Storer S} : pool S -> pool S -> Prop :=
| step_acquire p i target hl :
    workers p !! i = Some Idle ->
    Acquire (hostLimiter p) (models.Target.Host target) = (hl, true) ->
    step p {| hostLimiter := hl; store := store p;
              workers := <[i := Probing target]> (workers p) |}
| step_contended p i target hl :
    workers p !! i = Some Idle ->
    Acquire (hostLimiter p) (models.Target.Host target) = (hl, false) ->
    step p {| hostLimiter := hl; store := store p; workers := workers p |}
| step_persist p i target w :
    workers p !! i = Some (Probing target) ->
    step p {| hostLimiter := hostLimiter p;
              store := fst (storage.CreateCheckResult (store p)
                              (resultOf target (fst (loop w initial))));
              workers := <[i := Persisted target]> (workers p) |}
| step_release p i target :
    workers p !! i = Some (Persisted target) ->
    step p {| hostLimiter := Release (hostLimiter p) (models.Target.Host target);
              store := store p;
              workers := <[i := Idle]> (workers p) |}.

Inductive reachable {S : Type} `{!storage.Storer S} (p0 : pool S) : pool S -> Prop :=
| reachable_refl : reachable p0 p0
| reachable_step p q : reachable p0 p -> step p q -> reachable p0 q.

End checker.

(** ** internal/api/handlers.go *)

Module api.

Definition StatusOK : Z := 200.
Definition StatusCreated : Z := 201.
Definition StatusBadRequest : Z := 400.
Definition StatusNotFound : Z := 404.
Definition StatusInternalServerError : Z := 500.

(** [url.Values] and its [Get] *)
Abbreviation Values := (gmap string (list string)).

Definition Get (q : Values) (key : string) : string :=
  match q !! key with
  | Some (v :: _) => v
  | _ => EmptyString
  end.

(** What a handler writes: the text of [http.Error], or the value given
    to the JSON encoder. *)
Inductive Body : Type :=
| Text (msg : string)
| JSONTarget (target : option models.Target.t)
| JSONTargets (Items : list models.Target.t) (NextPageToken : string)
| JSONCheckResults (Items : list models.CheckResult.t)
| NoBody.

Record Response : Type := {
  Code : Z;
  body : Body
}.

(** [http.Error(w, msg, code)] *)
Definition Error (msg : string) (code : Z) : Response :=
  {| Code := code; body := Text msg |}.

(** [generateID]; [entropy] is the hex of the twelve random bytes *)
Definition generateID (entropy prefix : string) : string := prefix +:+ entropy.

Definition errorText (e : urlutil.Error) : string :=
  match e with
  | urlutil.ParseFailed _ => "failed to parse url"
  | urlutil.NotAbsoluteHTTP => "url must be an absolute http or https url"
  end.

Section handlers.

Context {S : Type} `{!storage.Storer S}.

(** The handlers read strings sent by clients.  The parsers of the
    standard library they hand them to are parameters: [time.Parse] and
    the two methods of [base64.URLEncoding]. *)
Variable time_Parse : string -> string -> result time.ParseError time.Time.
Variable base64_DecodeString : string -> result base64.CorruptInputError string.
Variable base64_EncodeToString : string -> string.

(** [CreateTarget].  [reqBody] is the [url] field of the decoded body,
    [None] when the body does not decode; [entropy] and [now] are what
    [crypto/rand] and the clock give.  The answer [None] is a handler
    that panicked ([parsedURL] is nil when [url.Parse] fails). *)
Definition CreateTarget (store : S) (entropy : string) (now : time.Time)
    (reqBody : option string) (idempotencyKey : string) : S * option Response :=
  match reqBody with
  | None => (store, Some (Error "invalid request body" StatusBadRequest))
  | Some URL =>
      match urlutil.Canonicalize URL with
      | Err err => (store, Some (Error (errorText err) StatusBadRequest))
      | Ok canonicalURL =>
          match url.Parse canonicalURL with
          | Err _ => (store, None)
          | Ok parsedURL =>
              let target :=
                {| models.Target.ID := generateID entropy "t_";
                   models.Target.URL := URL;
                   models.Target.CanonicalURL := canonicalURL;
                   models.Target.Host := url.Hostname parsedURL;
                   models.Target.CreatedAt := now |} in
              let keyPtr :=
                if negb (String.eqb idempotencyKey "") then Some idempotencyKey
                else None in
              let '(store, (createdTarget, err)) :=
                storage.CreateTarget store target keyPtr in
              if negb (storage.isNil err) && negb (storage.isErrDuplicateKey err)
              then (store, Some (Error "internal server error"
                                   StatusInternalServerError))
              else
                let statusCode :=
                  if storage.isErrDuplicateKey err then StatusOK
                  else StatusCreated in
                (store, Some {| Code := statusCode; body := JSONTarget createdTarget |})
          end
      end
  end.

(** the [limit] parameter of both list handlers *)
Definition parseLimit (l : string) (default max : Z) : Z :=
  if negb (String.eqb l "") then
    match strconv.Atoi l with
    | Ok v => if (0 <? v)%Z && (v <=? max)%Z then v else default
    | Err _ => default
    end
  else default.

(** the cursor read from [page_token] *)
Definition parsePageToken (token : string) : time.Time * string :=
  if negb (String.eqb token "") then
    match base64_DecodeString token with
    | Ok decoded =>
        match strings.SplitN2 decoded "|" with
        | [part0; part1] =>
            match time_Parse time.RFC3339Nano part0 with
            | Ok t => (t, part1)
            | Err _ => (time.zero, EmptyString)
            end
        | _ => (time.zero, EmptyString)
        end
    | Err _ => (time.zero, EmptyString)
    end
  else (time.zero, EmptyString).

Definition listTargetsParams (q : Values) : storage.ListTargetsParams.t :=
  let limit := parseLimit (Get q "limit") 50 500 in
  let host := strings.ToLower (strings.TrimSpace (Get q "host")) in
  let '(afterTime, afterID) := parsePageToken (Get q "page_token") in
  {| storage.ListTargetsParams.Host := host;
     storage.ListTargetsParams.AfterTime := afterTime;
     storage.ListTargetsParams.AfterID := afterID;
     storage.ListTargetsParams.Limit := limit |}.

(** [ListTargets] *)
Definition ListTargets (store : S) (q : Values) : Response :=
  let params := listTargetsParams q in
  let limit := storage.ListTargetsParams.Limit params in
  let '(items, err) := storage.ListTargets store params in
  if negb (storage.isNil err)
  then Error "internal server error" StatusInternalServerError
  else
    let nextPageToken :=
      if (Z.of_nat (length items) =? limit)%Z then
        match last items with
        | Some item =>
            base64_EncodeToString
              (time.Format (models.Target.CreatedAt item) +:+ "|"
               +:+ models.Target.ID item)
        | None => EmptyString
        end
      else EmptyString in
    {| Code := StatusOK; body := JSONTargets items nextPageToken |}.

(** the [since] parameter *)
Definition parseSince (s : string) : option time.Time :=
  if negb (String.eqb s "") then
    match time_Parse time.RFC3339 s with
    | Ok t => Some t
    | Err _ => None
    end
  else None.

Definition listCheckResultsParams (targetID : string) (q : Values)
  : storage.ListCheckResultsParams.t :=
  {| storage.ListCheckResultsParams.TargetID := targetID;
     storage.ListCheckResultsParams.Since := parseSince (Get q "since");
     storage.ListCheckResultsParams.Limit := parseLimit (Get q "limit") 100 1000 |}.

(** [ListCheckResults] *)
Definition ListCheckResults (store : S) (path : string) (q : Values) : Response :=
  let parts := strings.SplitByte path "/" in
  if (length parts <? 5)%nat then Error "not found" StatusNotFound
  else
    let targetID := nth 3 parts EmptyString in
    let '(_, err) := storage.GetTargetByID store targetID in
    if storage.isErrNotFound err then Error "target not found" StatusNotFound
    else if negb (storage.isNil err)
    then Error "internal server error" StatusInternalServerError
    else
      let '(results, err) :=
        storage.ListCheckResultsByTargetID store (listCheckResultsParams targetID q) in
      if negb (storage.isNil err)
      then Error "internal server error" StatusInternalServerError
      else {| Code := StatusOK; body := JSONCheckResults results |}.

End handlers.

End api.

(** * Specification-side definitions and sample inputs *)

(** ** Words of the specification *)

Module spec.


(** What a probe of [n] attempts does before it writes its result: the
    attempts [k], [k+1], ... with a sleep between two of them, the first
    of [sleep] nanoseconds and each next one twice as long. *)
Fixpoint attemptsAndSleeps (n : nat) (k : Z) (sleep : Z) : list checker.event :=
  match n with
  | O => []
  | S O => [checker.EvAttempt k]
  | S n' =>
      checker.EvAttempt k :: checker.EvSleep sleep
        :: attemptsAndSleeps n' (k + 1) (2 * sleep)
  end.

(** "exactly one of status_code / error is present" *)
Definition exactlyOne (r : models.CheckResult.t) : bool :=
  xorb (url.isSome (models.CheckResult.StatusCode r))
       (url.isSome (models.CheckResult.Error r)).

(** "the supplied limit clamped to the range [lo, hi]" *)
Definition clamp (lo hi v : Z) : Z := Z.max lo (Z.min hi v).

Definition isErr {E A} (r : result E A) : Prop :=
  match r with Err _ => True | Ok _ => False end.

(** a [limit] "that is not an integer or is out of range" *)
Definition malformedLimit (l : string) (max : Z) : Prop :=
  l <> EmptyString /\
  match strconv.Atoi l with
  | Ok v => (v < 1 \/ max < v)%Z
  | Err _ => True
  end.

(** a [since] value "that does not parse as RFC3339" *)
Definition malformedSince
    (time_Parse : string -> string -> result time.ParseError time.Time)
    (s : string) : Prop :=
  s <> EmptyString /\ isErr (time_Parse time.RFC3339 s).

(** a [page_token] "that is not valid base64url or does not decode to
    the form <RFC3339Nano time>|<id>" *)
Definition malformedPageToken
    (time_Parse : string -> string -> result time.ParseError time.Time)
    (base64_DecodeString : string -> result base64.CorruptInputError string)
    (token : string) : Prop :=
  token <> EmptyString /\
  match base64_DecodeString token with
  | Err _ => True
  | Ok decoded =>
      match strings.SplitN2 decoded "|" with
      | [part0; _] => isErr (time_Parse time.RFC3339Nano part0)
      | _ => True
      end
  end.

(** a byte of a host name that [url.Parse] keeps as it is and
    [URL.String] writes as it is, other than the brackets of an IP
    literal *)
Definition plainHostByte (c : ascii) : bool :=
  byte.isASCII c && negb (url.shouldEscape c url.encodeHost)
  && negb (byte.oneOf c "[]").

(** a host name or IPv4 address in ASCII, with at most one [:port] *)
Definition plainHost (h : string) : bool :=
  strings.forallb plainHostByte h && (strings.CountByte h ":" <=? 1)%nat.

(** Rule 4 of [Canonicalize], on the path alone *)
Definition trimTrailingSlash (p : string) : string :=
  if (1 <? String.length p)%nat && strings.HasSuffix p "/"
  then strings.TrimSuffix p "/" else p.

(** the path does not end in two or more slashes (or is all slashes, [//]) *)
Definition pathSettles (p : string) : bool :=
  String.eqb (trimTrailingSlash (trimTrailingSlash p)) (trimTrailingSlash p).

(** the URL has an authority ([scheme://...]), or its path does not
    begin with two slashes once decoded *)
Definition rooted (u : url.URL) : bool :=
  negb (url.OmitHost u && strings.HasPrefix (url.Path u) "//").


End spec.

(** ** Sample inputs *)

Module sample.

Definition noon : time.Time :=
  {| time.year := 2025; time.month := 3; time.day := 14; time.hour := 12;
     time.minute := 0; time.second := 0; time.nanosecond := 0 |}.

Definition halfPastNoonSecond : time.Time :=
  {| time.year := 2025; time.month := 3; time.day := 14; time.hour := 12;
     time.minute := 0; time.second := 0; time.nanosecond := 500000000 |}.

Definition emptyStore : sqlite.SQLiteStore :=
  {| sqlite.targets := []; sqlite.check_results := [];
     sqlite.idempotency_keys := []; sqlite.now := noon;
     sqlite.random := "00112233445566778899aabb" |}.

Definition target (id host : string) (createdAt : time.Time) : models.Target.t :=
  {| models.Target.ID := id;
     models.Target.URL := "http://" +:+ host +:+ "/";
     models.Target.CanonicalURL := "http://" +:+ host +:+ "/";
     models.Target.Host := host;
     models.Target.CreatedAt := createdAt |}.

Definition exampleCom : models.Target.t := target "t_1" "example.com" noon.
Definition exampleOrg : models.Target.t := target "t_2" "example.org" noon.

Definition observe (o : checker.outcome) : checker.attempt :=
  {| checker.observedStart := noon; checker.observed := o |}.

(** attempt 1 answers 503, attempts 2 and 3 time out *)
Definition world_503_then_timeouts : checker.world :=
  fun n => if (n =? 1)%Z then observe (checker.DoResponded 5000000 503)
           else observe (checker.DoFailed 7000000 "context deadline exceeded").

(** attempt 1 times out, attempt 2 answers 200 *)
Definition world_timeout_then_200 : checker.world :=
  fun n => if (n =? 1)%Z then observe (checker.DoFailed 7000000 "context deadline exceeded")
           else observe (checker.DoResponded 5000000 200).

(** the query string [k1=v1&k2=v2...] as [url.Values] *)
Definition query (pairs : list (string * string)) : api.Values :=
  list_to_map ((fun '(k, v) => (k, [v])) <$> pairs).

Definition limit1000 : api.Values := query [("limit", "1000")].
Definition limit0 : api.Values := query [("limit", "0")].
Definition limit20 : api.Values := query [("limit", "20")].

Definition malformed : api.Values :=
  query [("limit", "abc"); ("page_token", "!!!"); ("since", "yesterday")].

Definition resultsPath : string := "/v1/targets/t_1/results".

(** ** Two registrations with the same idempotency key *)

Definition firstPost : sqlite.SQLiteStore * option api.Response :=
  api.CreateTarget emptyStore "aaaaaaaaaaaaaaaaaaaaaaaa" noon
    (Some "https://a.com") "k1".

Definition secondPost : sqlite.SQLiteStore * option api.Response :=
  api.CreateTarget (fst firstPost) "bbbbbbbbbbbbbbbbbbbbbbbb" halfPastNoonSecond
    (Some "https://a.com") "k1".

Definition registered : models.Target.t :=
  {| models.Target.ID := "t_aaaaaaaaaaaaaaaaaaaaaaaa";
     models.Target.URL := "https://a.com";
     models.Target.CanonicalURL := "https://a.com";
     models.Target.Host := "a.com";
     models.Target.CreatedAt := noon |}.

(** the same canonical URL under another id, with a fresh key *)
Definition registeredAgain : models.Target.t :=
  {| models.Target.ID := "t_bbbbbbbbbbbbbbbbbbbbbbbb";
     models.Target.URL := "HTTPS://A.COM";
     models.Target.CanonicalURL := "https://a.com";
     models.Target.Host := "a.com";
     models.Target.CreatedAt := halfPastNoonSecond |}.

(** ** Two targets, the first created at a whole second *)

Definition atNoon : models.Target.t := target "t_1" "example.com" noon.
Definition halfASecondLater : models.Target.t :=
  target "t_2" "example.org" halfPastNoonSecond.

Definition twoTargets : sqlite.SQLiteStore :=
  fst (sqlite.CreateTarget (fst (sqlite.CreateTarget emptyStore atNoon None))
         halfASecondLater None).

Definition firstPage : storage.ListTargetsParams.t :=
  {| storage.ListTargetsParams.Host := "";
     storage.ListTargetsParams.AfterTime := time.zero;
     storage.ListTargetsParams.AfterID := "";
     storage.ListTargetsParams.Limit := 1 |}.

Definition allRows : storage.ListTargetsParams.t :=
  {| storage.ListTargetsParams.Host := "";
     storage.ListTargetsParams.AfterTime := time.zero;
     storage.ListTargetsParams.AfterID := "";
     storage.ListTargetsParams.Limit := 50 |}.

(** the cursor of the last row of a page *)
Definition pageAfter (last : models.Target.t) : storage.ListTargetsParams.t :=
  {| storage.ListTargetsParams.Host := "";
     storage.ListTargetsParams.AfterTime := models.Target.CreatedAt last;
     storage.ListTargetsParams.AfterID := models.Target.ID last;
     storage.ListTargetsParams.Limit := 1 |}.

(** two workers, the first with its host acquired *)
Definition oneProbing : checker.pool sqlite.SQLiteStore :=
  {| checker.hostLimiter := {| checker.hosts := {[ "example.com" ]} ∪ ∅ |};
     checker.store := emptyStore;
     checker.workers := [checker.Probing exampleCom; checker.Idle] |}.

(** two workers, each with its host acquired *)
Definition twoProbing : checker.pool sqlite.SQLiteStore :=
  {| checker.hostLimiter :=
       {| checker.hosts := {[ "example.org" ]} ∪ ({[ "example.com" ]} ∪ ∅) |};
     checker.store := emptyStore;
     checker.workers := [checker.Probing exampleCom; checker.Probing exampleOrg] |}.

Definition comHeld : checker.HostLimiter :=
  {| checker.hosts := {[ "example.com" ]} |}.

(** a URL in capitals with the default port, a trailing slash, a query
    and a fragment, and what [url.Parse] makes of it *)
Definition shouted : string := "HTTPS://EXAMPLE.COM:443/a/?q=1#top".

Definition shoutedURL : url.URL :=
  {| url.Scheme := "https"; url.Opaque := ""; url.User := None;
     url.Host := "EXAMPLE.COM:443"; url.Path := "/a/"; url.RawPath := "";
     url.OmitHost := false; url.ForceQuery := false; url.RawQuery := "q=1";
     url.Fragment := "top"; url.RawFragment := "" |}.

End sample.
(** ** internal/urlutil/canonical.go, with [strings.ToLower] of any string

    [strings.ToLower] above is Go's function on strings of ASCII bytes.
    On a string with a byte from 0x80 up Go decodes UTF-8, maps every
    rune with [unicode.ToLower] and encodes the runes again; a byte
    that is not part of a rune becomes U+FFFD.  [Canonicalize] is given
    here with the function as a parameter, and [lowerCasing] says what
    the proofs use of it:

    - applied twice it gives what it gives applied once;
    - an ASCII byte is a rune by itself wherever it stands: it is
      mapped to its lower case, and what is before it and what is after
      it are mapped as if they stood alone;
    - a run of bytes from 0x80 up is mapped to a run that is not empty,
      of bytes from 0x80 up and of lower-case letters (U+212A, the
      Kelvin sign, becomes [k], and U+0130 becomes [i]). *)

Module canonical.

Section Canonicalize.

Variable strings_ToLower : string -> string.

Definition Canonicalize (rawURL : string) : result urlutil.Error string :=
  match url.Parse rawURL with
  | Err e => Err (urlutil.ParseFailed e)
  | Ok u =>
      if negb (url.IsAbs u)
         || (negb (String.eqb (url.Scheme u) "http")
             && negb (String.eqb (url.Scheme u) "https"))
      then Err urlutil.NotAbsoluteHTTP
      else
        (* Rule 1 *)
        let u := url.withScheme u (strings_ToLower (url.Scheme u)) in
        let u := url.withHost u (strings_ToLower (url.Host u)) in
        (* Rule 2 *)
        let u :=
          if (String.eqb (url.Scheme u) "http" && strings.HasSuffix (url.Host u) ":80")
             || (String.eqb (url.Scheme u) "https" && strings.HasSuffix (url.Host u) ":443")
          then url.withHost u (url.Hostname u)
          else u in
        (* Rule 3 *)
        let u := url.withFragment u "" (url.RawFragment u) in
        (* Rule 4 *)
        let u :=
          if (1 <? String.length (url.Path u))%nat && strings.HasSuffix (url.Path u) "/"
          then url.withPath u (strings.TrimSuffix (url.Path u) "/") (url.RawPath u)
          else u in
        Ok (url.URL_String u)
  end.

End Canonicalize.

Record lowerCasing (lower : string -> string) : Prop := {
  lower_twice : forall s, lower (lower s) = lower s;
  lower_nil : lower "" = "";
  lower_ascii :
    forall a c b,
      byte.isASCII c = true ->
      lower (a +:+ String c b) = lower a +:+ String (strings.lowerByte c) (lower b);
  lower_run :
    forall a,
      a <> "" ->
      strings.forallb (fun c => negb (byte.isASCII c)) a = true ->
      lower a <> "" /\
      strings.forallb (fun c => negb (byte.isASCII c) || byte.isLower c) (lower a) = true
}.

End canonical.

(** ** Vocabulary of the proofs about URLs *)

(** the byte [c] does not occur in [s] *)
Definition lacks (c : ascii) (s : string) : Prop :=
  strings.forallb (fun d => negb (Ascii.eqb d c)) s = true.

(** the modes in which [unescape] keeps every byte that is not part of
    an escape *)
Definition keepsBytes (mode : url.encoding) : bool :=
  match mode with
  | url.encodePath | url.encodePathSegment | url.encodeUserPassword
  | url.encodeFragment => true
  | url.encodeHost | url.encodeZone | url.encodeQueryComponent => false
  end.

(** no [?], no [#], no control byte *)
Definition inPath (c : ascii) : bool :=
  negb (Ascii.eqb c "?") && negb (Ascii.eqb c "#") && negb (byte.isCTL c).

(** nor [/], [@] or [:] *)
Definition inUserinfo (c : ascii) : bool :=
  inPath c && negb (byte.oneOf c "/@:").

(** no [#], no control byte *)
Definition inQuery (c : ascii) : bool :=
  negb (Ascii.eqb c "#") && negb (byte.isCTL c).

(** the four rules of [Canonicalize], on the parsed URL *)
Definition canonicalURLWith (lower : string -> string) (u : url.URL) : url.URL :=
  let u := url.withScheme u (lower (url.Scheme u)) in
  let u := url.withHost u (lower (url.Host u)) in
  let u :=
    if (String.eqb (url.Scheme u) "http" && strings.HasSuffix (url.Host u) ":80")
       || (String.eqb (url.Scheme u) "https" && strings.HasSuffix (url.Host u) ":443")
    then url.withHost u (url.Hostname u)
    else u in
  let u := url.withFragment u "" (url.RawFragment u) in
  if (1 <? String.length (url.Path u))%nat && strings.HasSuffix (url.Path u) "/"
  then url.withPath u (strings.TrimSuffix (url.Path u) "/") (url.RawPath u)
  else u.

Definition canonicalURL : url.URL -> url.URL := canonicalURLWith strings.ToLower.

(** the test of Rule 2 *)
Definition hasDefaultPort (scheme host : string) : bool :=
  (String.eqb scheme "http" && strings.HasSuffix host ":80")
  || (String.eqb scheme "https" && strings.HasSuffix host ":443").

(** what follows the last colon of a host is a port *)
Definition portOK (h : string) : bool :=
  match strings.LastIndex h ":" with
  | Some i => url.validOptionalPort (strings.drop i h)
  | None => true
  end.

(** a byte that a parsed host holds outside the zone of an IP literal:
    a byte from 0x80 up, a byte that [escape] leaves as it is in a
    host, or [%] *)
Definition hostByte (c : ascii) : bool :=
  negb (byte.isASCII c) || negb (url.shouldEscape c url.encodeHost)
  || Ascii.eqb c "%".

(** in the zone also a space, which is read from [%20] *)
Definition zoneByte (c : ascii) : bool := hostByte c || Ascii.eqb c " ".

(** the zone of an IP literal: the host from its first [%] on *)
Definition zoneOf (h : string) : string :=
  match strings.Index h "%" with
  | Some i => strings.drop i h
  | None => ""
  end.

(** The host keeps its form under a second application.  With [h] the
    host in lower case: when [h] ends in the default port of the
    scheme, what [Hostname] makes of [h] does not begin with [[], holds
    no space, has a port after its last colon, if it has a colon, and
    does not end in the default port again; otherwise, when [h] is an
    IP literal in square brackets, its zone is written in ASCII. *)
Definition hostSettles (lower : string -> string) (scheme host : string) : bool :=
  let h := lower host in
  if hasDefaultPort scheme h then
    let name := fst (url.splitHostPort h) in
    negb (strings.HasPrefix name "[")
    && strings.forallb (fun c => negb (Ascii.eqb c " ")) name
    && portOK name
    && negb (hasDefaultPort scheme name)
  else
    negb (strings.HasPrefix h "[") || strings.forallb byte.isASCII (zoneOf h).

(** what [parseHost] guarantees of the host it returns *)
Definition hostParsed (h : string) : Prop :=
  strings.forallb zoneByte h = true /\
  (strings.HasPrefix h "[" = true ->
   exists a z port,
     h = a +:+ z +:+ String "]" port /\
     lacks "%" a /\ strings.forallb hostByte a = true /\
     (z = "" \/ strings.HasPrefix z "%" = true) /\
     url.validOptionalPort port = true) /\
  (strings.HasPrefix h "[" = false ->
   strings.forallb hostByte h = true /\ portOK h = true).

(** the pieces that [URL.String] writes *)
Definition userPart (u : url.URL) : string :=
  match url.User u with
  | Some ui => url.Userinfo_String ui +:+ "@"
  | None => ""
  end.

Definition authorityPart (u : url.URL) : string :=
  userPart u +:+ url.escape (url.Host u) url.encodeHost.

Definition hasSlashes (u : url.URL) : bool :=
  negb (String.eqb (url.Host u) "") || negb (String.eqb (url.Path u) "")
  || url.isSome (url.User u).

Definition bodyPart (u : url.URL) : string :=
  if negb (String.eqb (url.Opaque u) "") then url.Opaque u
  else if url.OmitHost u && String.eqb (url.Host u) "" && negb (url.isSome (url.User u))
  then url.EscapedPath u
  else (if hasSlashes u then "//" else "") +:+ authorityPart u +:+ url.EscapedPath u.

Definition queryPart (forceQuery : bool) (rawQuery : string) : string :=
  if forceQuery || negb (String.eqb rawQuery "") then "?" +:+ rawQuery else "".

(** [RawPath] as [setPath] sets it for the text [q] of the path [p] *)
Definition rawPathFor (q p : string) : string :=
  if String.eqb q (url.escape p url.encodePath) then "" else q.

(** what [url.Parse] makes of the string written for [u] *)
Definition reparsed (u : url.URL) : url.URL :=
  {| url.Scheme := url.Scheme u; url.Opaque := url.Opaque u;
     url.User := url.User u; url.Host := url.Host u; url.Path := url.Path u;
     url.RawPath := rawPathFor (url.EscapedPath u) (url.Path u);
     url.OmitHost := url.OmitHost u; url.ForceQuery := url.ForceQuery u;
     url.RawQuery := url.RawQuery u; url.Fragment := ""; url.RawFragment := "" |}.

(** A URL in canonical form, with what [url.Parse] guarantees of its
    fields: written out and parsed again it is the same URL, and the
    four rules leave it as it is when its host is in lower case. *)
Record settled (u : url.URL) : Prop := {
  settled_scheme : url.Scheme u = "http" \/ url.Scheme u = "https";
  settled_fragment : url.Fragment u = "";
  settled_forceQuery : url.ForceQuery u = true -> url.RawQuery u = "";
  settled_rawQuery : strings.forallb inQuery (url.RawQuery u) = true;
  settled_opaque :
    url.Opaque u <> "" ->
    strings.forallb inPath (url.Opaque u) = true /\
    strings.HasPrefix (url.Opaque u) "/" = false /\
    url.User u = None /\ url.Host u = "" /\ url.Path u = "" /\
    url.RawPath u = "" /\ url.OmitHost u = false;
  settled_host :
    url.parseHost (url.escape (url.Host u) url.encodeHost) = Ok (url.Host u) /\
    hasDefaultPort (url.Scheme u) (url.Host u) = false;
  settled_path :
    (url.Path u = "" \/ strings.HasPrefix (url.Path u) "/" = true) /\
    (1 <? String.length (url.Path u))%nat && strings.HasSuffix (url.Path u) "/"
    = false;
  settled_escapedPath :
    strings.forallb inPath (url.EscapedPath u) = true /\
    (strings.HasPrefix (url.Path u) "/" = true ->
     strings.HasPrefix (url.EscapedPath u) "/" = true) /\
    (url.OmitHost u = true -> strings.HasPrefix (url.EscapedPath u) "//" = false);
  settled_user :
    forall ui, url.User u = Some ui ->
      url.passwordSet ui = false -> url.password ui = "";
  settled_omitHost :
    url.OmitHost u = true ->
    url.User u = None /\ url.Host u = "" /\
    strings.HasPrefix (url.Path u) "/" = true
}.

(** what [url.Parse] guarantees of the fields of a URL with a scheme *)
Record parsed (u : url.URL) : Prop := {
  parsed_forceQuery : url.ForceQuery u = true -> url.RawQuery u = "";
  parsed_rawQuery : strings.forallb inQuery (url.RawQuery u) = true;
  parsed_opaque :
    url.Opaque u <> "" ->
    strings.forallb inPath (url.Opaque u) = true /\
    strings.HasPrefix (url.Opaque u) "/" = false /\
    url.User u = None /\ url.Host u = "" /\ url.Path u = "" /\
    url.RawPath u = "" /\ url.OmitHost u = false;
  parsed_path : url.Path u = "" \/ strings.HasPrefix (url.Path u) "/" = true;
  parsed_rawPath :
    url.RawPath u <> "" ->
    strings.forallb inPath (url.RawPath u) = true /\
    strings.HasPrefix (url.RawPath u) "/" = true /\
    (url.OmitHost u = true -> strings.HasPrefix (url.RawPath u) "//" = false);
  parsed_user :
    forall ui, url.User u = Some ui ->
      url.passwordSet ui = false -> url.password ui = "";
  parsed_omitHost :
    url.OmitHost u = true ->
    url.User u = None /\ url.Host u = "" /\
    strings.HasPrefix (url.Path u) "/" = true;
  parsed_host : hostParsed (url.Host u)
}.

(** ** Vocabulary of the proofs about the worker pool *)

(** No two workers in flight on one host, and the limiter holds exactly
    the hosts of the workers in flight. *)
Definition exclusive {S : Type} (p : checker.pool S) : Prop :=
  (forall i j wi wj ti tj,
     i <> j ->
     checker.workers p !! i = Some wi -> checker.workers p !! j = Some wj ->
     checker.inFlight wi = Some ti -> checker.inFlight wj = Some tj ->
     models.Target.Host ti <> models.Target.Host tj) /\
  (forall h,
     h ∈ checker.hosts (checker.hostLimiter p) <->
     exists i wk t,
       checker.workers p !! i = Some wk /\ checker.inFlight wk = Some t /\
       models.Target.Host t = h).

(** * Further parts of the program *)

From Stdlib Require Import Sorted.

(** ** internal/checker: the job queue of the pool and the scheduler

    [jobs] is a buffered channel made with capacity [maxConcurrency*2].
    [Submit] is the [select] with a [default]: the send happens when the
    buffer has room, or when a worker is waiting to receive, and the
    target is skipped otherwise.  A worker receives the oldest target
    ([for target := range p.jobs]). *)

Module jobs.

Record queue : Type := {
  buffered : list models.Target.t;
  capacity : nat
}.

(** [make(chan models.Target, maxConcurrency*2)] *)
Definition make (maxConcurrency : nat) : queue :=
  {| buffered := []; capacity := maxConcurrency * 2 |}.

(** [Submit] while no worker is waiting to receive; the flag is whether
    the target was sent *)
Definition Submit (q : queue) (target : models.Target.t) : queue * bool :=
  if (length (buffered q) <? capacity q)%nat
  then ({| buffered := buffered q ++ [target]; capacity := capacity q |}, true)
  else (q, false).

(** one receive of a worker's [range] loop; [None] when it would block *)
Definition receive (q : queue) : option (models.Target.t * queue) :=
  match buffered q with
  | [] => None
  | target :: rest => Some (target, {| buffered := rest; capacity := capacity q |})
  end.

(** [scheduleChecks] while no worker receives *)
Definition scheduleChecks {S : Type} `{!storage.Storer S} (store : S) (q : queue)
  : queue :=
  let '(targets, err) := storage.GetAllTargets store in
  if negb (storage.isNil err) then q
  else if (length targets =? 0)%nat then q
  else foldl (fun q t => fst (Submit q t)) q targets.

(** [scheduleChecks] with the workers running: what is left of the
    [range] over the targets, the channel, and the targets the workers
    have received so far, oldest first.  A step is a [Submit] into the
    buffer (or a skip), a [Submit] that hands its target to a worker
    waiting on the empty channel, or a receive from the buffer. *)
Record state : Type := {
  pending : list models.Target.t;
  channel : queue;
  received : list models.Target.t
}.

Inductive step : state -> state -> Prop :=
| step_submit target rest q taken :
    step {| pending := target :: rest; channel := q; received := taken |}
         {| pending := rest; channel := fst (Submit q target); received := taken |}
| step_handoff target rest q taken :
    buffered q = [] ->
    step {| pending := target :: rest; channel := q; received := taken |}
         {| pending := rest; channel := q; received := taken ++ [target] |}
| step_receive todo q target q' taken :
    receive q = Some (target, q') ->
    step {| pending := todo; channel := q; received := taken |}
         {| pending := todo; channel := q'; received := taken ++ [target] |}.

Inductive steps : state -> state -> Prop :=
| steps_refl s : steps s s
| steps_step s1 s2 s3 : steps s1 s2 -> step s2 s3 -> steps s1 s3.

End jobs.

(** ** Vocabulary of the further properties *)

(** What the loop of [performCheck] leaves in the local variables
    [l]: the number of attempts, the start and the outcome of the last
    one, and which of [errMsg] and [statusCode] were ever set. *)
Definition reportsLast (w : checker.world) (l : checker.locals) : Prop :=
  (1 <= checker.attempts l <= 3)%Z /\
  checker.startTime l = checker.observedStart (w (checker.attempts l)) /\
  match checker.observed (w (checker.attempts l)) with
  | checker.DoResponded lat status =>
      checker.statusCode l = Some status /\ checker.latency l = lat
  | checker.DoFailed lat m =>
      checker.errMsg l = Some m /\ checker.latency l = lat
  | checker.NewRequestFailed m => checker.errMsg l = Some m
  end /\
  (checker.errMsg l = None <->
   forall k, (1 <= k <= checker.attempts l)%Z ->
     exists lat status, checker.observed (w k) = checker.DoResponded lat status) /\
  (checker.statusCode l = None <->
   forall k, (1 <= k <= checker.attempts l)%Z ->
     forall lat status, checker.observed (w k) <> checker.DoResponded lat status).

(** ** Times that exist

    The fields of a [Time] are those of an instant: the day is a day of
    its month.  [time.Parse] refuses any other day. *)

Definition isLeap (year : Z) : bool :=
  ((year mod 4 =? 0) && (negb (year mod 100 =? 0) || (year mod 400 =? 0)))%Z.

Definition daysIn (month year : Z) : Z :=
  if (month =? 2)%Z then (if isLeap year then 29 else 28)%Z
  else if ((month =? 4) || (month =? 6) || (month =? 9) || (month =? 11))%Z
  then 30%Z else 31%Z.

Definition onCalendar (t : time.Time) : Prop :=
  time.valid t /\ (time.day t <= daysIn (time.month t) (time.year t))%Z.

(** ** Stores over time *)

(** a timestamp column as this program writes it: the text [Format]
    gives for a time that exists and is not the zero time *)
Definition stamped (text : string) : Prop :=
  exists t, onCalendar t /\ time.IsZero t = false /\ text = time.Format t.

(** the rows of [targets] have distinct ids (the primary key), and each
    has a non-empty id and a [created_at] as above *)
Definition targetsAsWritten (s : sqlite.SQLiteStore) : Prop :=
  NoDup (sqlite.TargetsRow.id <$> sqlite.targets s) /\
  forall r, r ∈ sqlite.targets s ->
    stamped (sqlite.TargetsRow.created_at r) /\ sqlite.TargetsRow.id r <> EmptyString.

(** the clock and the random source move on *)
Definition withEnvironment (s : sqlite.SQLiteStore) (now : time.Time)
    (random : string) : sqlite.SQLiteStore :=
  {| sqlite.targets := sqlite.targets s;
     sqlite.check_results := sqlite.check_results s;
     sqlite.idempotency_keys := sqlite.idempotency_keys s;
     sqlite.now := now; sqlite.random := random |}.

(** [later s s']: [s'] is [s] after any number of calls of the two
    methods that write, with any arguments, and of ticks of the clock *)
Inductive later (s : sqlite.SQLiteStore) : sqlite.SQLiteStore -> Prop :=
| later_now : later s s
| later_CreateTarget s' target key :
    later s s' -> later s (fst (sqlite.CreateTarget s' target key))
| later_CreateCheckResult s' result :
    later s s' -> later s (fst (sqlite.CreateCheckResult s' result))
| later_environment s' now random :
    later s s' -> later s (withEnvironment s' now random).

(** the constraints of the schema of [migrate] that involve [targets]
    and [idempotency_keys], and the primary key of [check_results] *)
Record constrained (s : sqlite.SQLiteStore) : Prop := {
  constrained_id :
    NoDup (sqlite.TargetsRow.id <$> sqlite.targets s);
  constrained_canonical_url :
    NoDup (sqlite.TargetsRow.canonical_url <$> sqlite.targets s);
  constrained_key :
    NoDup (sqlite.IdempotencyKeysRow.key <$> sqlite.idempotency_keys s);
  constrained_target_id :
    forall k, k ∈ sqlite.idempotency_keys s ->
      sqlite.IdempotencyKeysRow.target_id k
      ∈ (sqlite.TargetsRow.id <$> sqlite.targets s);
  constrained_result_id :
    NoDup (sqlite.CheckResultsRow.id <$> sqlite.check_results s)
}.

(** ** Further sample inputs *)

Module sample_more.

(** a channel for one worker, and the states of a schedule over two
    targets: both submitted, then the first received *)
Definition queueOfTwo : jobs.queue := jobs.make 1.

Definition scheduled : jobs.state :=
  {| jobs.pending := [];
     jobs.channel := {| jobs.buffered := [sample.exampleOrg]; jobs.capacity := 2 |};
     jobs.received := [sample.exampleCom] |}.

(** [?limit=1] *)
Definition limit1 : api.Values := sample.query [("limit", "1")].

(** the token of the page that ends with [sample.halfASecondLater]:
    base64 of [2025-03-14T12:00:00.5Z|t_2] *)
Definition tokenAfterFirst : string := "MjAyNS0wMy0xNFQxMjowMDowMC41Wnx0XzI=".

Definition entropy : string := "aaaaaaaaaaaaaaaaaaaaaaaa".

(** the target registered for [sample.shouted] *)
Definition shoutedTarget : models.Target.t :=
  {| models.Target.ID := "t_aaaaaaaaaaaaaaaaaaaaaaaa";
     models.Target.URL := sample.shouted;
     models.Target.CanonicalURL := "https://example.com/a?q=1";
     models.Target.Host := "example.com";
     models.Target.CreatedAt := sample.noon |}.

(** a result of the target [t_1], without an id *)
Definition probed : models.CheckResult.t :=
  {| models.CheckResult.ID := "";
     models.CheckResult.TargetID := "t_1";
     models.CheckResult.CheckedAt := sample.halfPastNoonSecond;
     models.CheckResult.StatusCode := Some 200%Z;
     models.CheckResult.LatencyMS := 5;
     models.CheckResult.Error := None |}.

Definition probedStored : models.CheckResult.t :=
  {| models.CheckResult.ID := "cr_00112233445566778899aabb";
     models.CheckResult.TargetID := "t_1";
     models.CheckResult.CheckedAt := sample.halfPastNoonSecond;
     models.CheckResult.StatusCode := Some 200%Z;
     models.CheckResult.LatencyMS := 5;
     models.CheckResult.Error := None |}.

End sample_more.
(** ** tests_test.go: the in-memory store of the API tests

    The four Go maps of [testStore].  [CreateTarget], [GetTargetByID]
    and [CreateCheckResult] are functions of the maps.  [ListTargets]
    and [GetAllTargets] range over a Go map, in an order that changes
    from call to call, and [ListCheckResultsByTargetID] slices with the
    limit; these three are not called by the handler [CreateTarget] and
    are left as parameters of the [Storer]. *)

Module teststore.

Record testStore : Type := {
  targets : gmap string models.Target.t;
  results : gmap string (list models.CheckResult.t);
  idempotency : gmap string string;
  canonical : gmap string string
}.

Definition newTestStore : testStore :=
  {| targets := ∅; results := ∅; idempotency := ∅; canonical := ∅ |}.

(** the zero value of [models.Target] *)
Definition zeroTarget : models.Target.t :=
  {| models.Target.ID := EmptyString;
     models.Target.URL := EmptyString;
     models.Target.CanonicalURL := EmptyString;
     models.Target.Host := EmptyString;
     models.Target.CreatedAt := time.zero |}.

(** [s.targets[targetID]]: the zero value when the id is missing *)
Definition index (s : testStore) (targetID : string) : models.Target.t :=
  default zeroTarget (targets s !! targetID).

Definition CreateTarget (s : testStore) (target : models.Target.t)
    (idempotencyKey : option string)
  : testStore * (option models.Target.t * option storage.error) :=
  match idempotencyKey ≫= (fun key => idempotency s !! key) with
  | Some targetID => (s, (Some (index s targetID), Some storage.ErrDuplicateKey))
  | None =>
      match canonical s !! models.Target.CanonicalURL target with
      | Some targetID =>
          (s, (Some (index s targetID), Some storage.ErrDuplicateKey))
      | None =>
          ({| targets := <[models.Target.ID target := target]> (targets s);
              results := results s;
              idempotency :=
                match idempotencyKey with
                | Some key => <[key := models.Target.ID target]> (idempotency s)
                | None => idempotency s
                end;
              canonical :=
                <[models.Target.CanonicalURL target := models.Target.ID target]>
                  (canonical s) |},
           (Some target, None))
      end
  end.

Definition GetTargetByID (s : testStore) (id : string)
  : option models.Target.t * option storage.error :=
  match targets s !! id with
  | Some t => (Some t, None)
  | None => (None, Some storage.ErrNotFound)
  end.

Definition CreateCheckResult (s : testStore) (result : models.CheckResult.t)
  : testStore * option storage.error :=
  ({| targets := targets s;
      results :=
        <[models.CheckResult.TargetID result :=
            default [] (results s !! models.CheckResult.TargetID result) ++ [result]]>
          (results s);
      idempotency := idempotency s;
      canonical := canonical s |},
   None).

Definition Storer_of
    (ListTargets :
       testStore -> storage.ListTargetsParams.t ->
       list models.Target.t * option storage.error)
    (GetAllTargets : testStore -> list models.Target.t * option storage.error)
    (ListCheckResultsByTargetID :
       testStore -> storage.ListCheckResultsParams.t ->
       list models.CheckResult.t * option storage.error)
  : storage.Storer testStore :=
  {| storage.CreateTarget := CreateTarget;
     storage.GetTargetByID := GetTargetByID;
     storage.ListTargets := ListTargets;
     storage.GetAllTargets := GetAllTargets;
     storage.CreateCheckResult := CreateCheckResult;
     storage.ListCheckResultsByTargetID := ListCheckResultsByTargetID |}.

End teststore.

(** ** internal/storage/postgres: the two methods that write

    The tables of [migrate] that the code writes, each a list of rows in
    insertion order ([idempotency_keys] is created and never written).
    An INSERT fails when it violates a constraint of the schema: a
    primary key, the UNIQUE of [canonical_url], the foreign key of
    [check_results.target_id], or the range of an INTEGER column, which
    holds 32 bits.  [accepts] is what the server takes as TEXT in its
    encoding.  A TIMESTAMPTZ keeps microseconds; the row keeps the time
    that was sent, and the methods that read rows back, whose order
    depends on the collation of the database, are parameters of the
    [Storer].  Failures of the connection are outside the model. *)

Module postgres.

Module TargetsRow.
Record t : Type := {
  id : string;
  url : string;
  canonical_url : string;
  host : string;
  created_at : time.Time
}.
End TargetsRow.

Module CheckResultsRow.
Record t : Type := {
  id : string;
  target_id : string;
  checked_at : time.Time;
  status_code : option Z;
  latency_ms : Z;
  error : option string
}.
End CheckResultsRow.

Record PostgresStore : Type := {
  targets : list TargetsRow.t;
  check_results : list CheckResultsRow.t
}.

(** the range of INTEGER *)
Definition inInteger (v : Z) : bool := ((-2147483648 <=? v) && (v <=? 2147483647))%Z.

Section methods.

Variable accepts : string -> bool.

(** [CreateTarget]: the idempotency key is not used *)
Definition CreateTarget (s : PostgresStore) (target : models.Target.t)
    (idempotencyKey : option string)
  : PostgresStore * (option models.Target.t * option storage.error) :=
  if existsb (fun r => String.eqb (TargetsRow.id r) (models.Target.ID target))
       (targets s)
     || existsb (fun r => String.eqb (TargetsRow.canonical_url r)
                            (models.Target.CanonicalURL target))
          (targets s)
     || negb (accepts (models.Target.ID target)
              && accepts (models.Target.URL target)
              && accepts (models.Target.CanonicalURL target)
              && accepts (models.Target.Host target))
  then (s, (None, Some (storage.ErrInternal "failed to create target")))
  else
    ({| targets :=
          targets s ++
          [{| TargetsRow.id := models.Target.ID target;
              TargetsRow.url := models.Target.URL target;
              TargetsRow.canonical_url := models.Target.CanonicalURL target;
              TargetsRow.host := models.Target.Host target;
              TargetsRow.created_at := models.Target.CreatedAt target |}];
        check_results := check_results s |},
     (Some target, None)).

(** [CreateCheckResult]: the id is inserted as it is given *)
Definition CreateCheckResult (s : PostgresStore) (result : models.CheckResult.t)
  : PostgresStore * option storage.error :=
  if existsb (fun r => String.eqb (CheckResultsRow.id r) (models.CheckResult.ID result))
       (check_results s)
     || negb (existsb (fun r => String.eqb (TargetsRow.id r)
                                  (models.CheckResult.TargetID result))
                (targets s))
     || negb (accepts (models.CheckResult.ID result)
              && accepts (models.CheckResult.TargetID result)
              && from_option accepts true (models.CheckResult.Error result))
     || negb (from_option inInteger true (models.CheckResult.StatusCode result)
              && inInteger (models.CheckResult.LatencyMS result))
  then (s, Some (storage.ErrInternal "failed to create check result"))
  else
    ({| targets := targets s;
        check_results :=
          check_results s ++
          [{| CheckResultsRow.id := models.CheckResult.ID result;
              CheckResultsRow.target_id := models.CheckResult.TargetID result;
              CheckResultsRow.checked_at := models.CheckResult.CheckedAt result;
              CheckResultsRow.status_code := models.CheckResult.StatusCode result;
              CheckResultsRow.latency_ms := models.CheckResult.LatencyMS result;
              CheckResultsRow.error := models.CheckResult.Error result |}] |},
     None).

Definition Storer_of
    (GetTargetByID :
       PostgresStore -> string -> option models.Target.t * option storage.error)
    (ListTargets :
       PostgresStore -> storage.ListTargetsParams.t ->
       list models.Target.t * option storage.error)
    (GetAllTargets : PostgresStore -> list models.Target.t * option storage.error)
    (ListCheckResultsByTargetID :
       PostgresStore -> storage.ListCheckResultsParams.t ->
       list models.CheckResult.t * option storage.error)
  : storage.Storer PostgresStore :=
  {| storage.CreateTarget := CreateTarget;
     storage.GetTargetByID := GetTargetByID;
     storage.ListTargets := ListTargets;
     storage.GetAllTargets := GetAllTargets;
     storage.CreateCheckResult := CreateCheckResult;
     storage.ListCheckResultsByTargetID := ListCheckResultsByTargetID |}.

End methods.

End postgres.

(** ** Sample inputs for the stores *)

Module sample_stores.

(** [https://example.com/a?q=1] and [http://example.org/], parsed *)
Definition shoutedCanonical : url.URL :=
  {| url.Scheme := "https"; url.Opaque := ""; url.User := None;
     url.Host := "example.com"; url.Path := "/a"; url.RawPath := "";
     url.OmitHost := false; url.ForceQuery := false; url.RawQuery := "q=1";
     url.Fragment := ""; url.RawFragment := "" |}.

Definition exampleOrgURL : url.URL :=
  {| url.Scheme := "http"; url.Opaque := ""; url.User := None;
     url.Host := "example.org"; url.Path := "/"; url.RawPath := "";
     url.OmitHost := false; url.ForceQuery := false; url.RawQuery := "";
     url.Fragment := ""; url.RawFragment := "" |}.

(** [HTTP://[FE80::1%25en0]:8080/A/?q=1#f], an IP literal with a zone
    and a port, as [url.Parse] reads it *)
Definition literal : string := "HTTP://[FE80::1%25en0]:8080/A/?q=1#f".

Definition literalURL : url.URL :=
  {| url.Scheme := "http"; url.Opaque := ""; url.User := None;
     url.Host := "[FE80::1%en0]:8080"; url.Path := "/A/"; url.RawPath := "";
     url.OmitHost := false; url.ForceQuery := false; url.RawQuery := "q=1";
     url.Fragment := "f"; url.RawFragment := "" |}.

(** a server that takes every string *)
Definition anyText : string -> bool := fun _ => true.

(** a PostgreSQL database with the target [t_1], and a pool over it
    whose one worker is probing that target *)
Definition withExampleCom : postgres.PostgresStore :=
  {| postgres.targets :=
       [{| postgres.TargetsRow.id := "t_1";
           postgres.TargetsRow.url := "http://example.com/";
           postgres.TargetsRow.canonical_url := "http://example.com/";
           postgres.TargetsRow.host := "example.com";
           postgres.TargetsRow.created_at := sample.noon |}];
     postgres.check_results := [] |}.

Definition probing : checker.pool postgres.PostgresStore :=
  {| checker.hostLimiter := {| checker.hosts := {[ "example.com"%string ]} |};
     checker.store := withExampleCom;
     checker.workers := [checker.Probing sample.exampleCom] |}.

(** the two targets of [sample.twoTargets] with four results: of
    [t_1] one and two seconds after noon and at noon, of [t_2] at noon *)
Definition secondsAfterNoon (n : Z) : time.Time :=
  {| time.year := 2025; time.month := 3; time.day := 14; time.hour := 12;
     time.minute := 0; time.second := n; time.nanosecond := 0 |}.

Definition answered (id targetID : string) (checkedAt : time.Time)
  : models.CheckResult.t :=
  {| models.CheckResult.ID := id;
     models.CheckResult.TargetID := targetID;
     models.CheckResult.CheckedAt := checkedAt;
     models.CheckResult.StatusCode := Some 200%Z;
     models.CheckResult.LatencyMS := 5;
     models.CheckResult.Error := None |}.

Definition withResults : sqlite.SQLiteStore :=
  fst (sqlite.CreateCheckResult
         (fst (sqlite.CreateCheckResult
                 (fst (sqlite.CreateCheckResult
                         (fst (sqlite.CreateCheckResult sample.twoTargets
                                 (answered "cr_1" "t_1" (secondsAfterNoon 1))))
                         (answered "cr_2" "t_2" sample.noon)))
                 (answered "cr_3" "t_1" (secondsAfterNoon 2))))
         (answered "cr_0" "t_1" sample.noon)).

(** [?since=2025-03-14T12:00:00Z&limit=20] *)
Definition sinceNoon : api.Values :=
  sample.query [("since", "2025-03-14T12:00:00Z"); ("limit", "20")].

End sample_stores.

(** * Theorems *)

(** ** The probe loop of [performCheck] *)

Section probe.

Import checker.
Local Open Scope Z_scope.

Lemma loop_unfold w l :
  loop w l =
  match iteration w l with
  | (l', Continue, evs) => let '(final, rest) := loop w l' in (final, evs ++ rest)
  | (l', Break, evs) => (l', evs)
  end.
Proof.
  funelim (loop w l); rewrite H; reflexivity.
Qed.






Lemma Acquire_spec (hl hl' : HostLimiter) (host : string) (ok : bool) :
  Acquire hl host = (hl', ok) ->
  (ok = true <-> host ∉ hosts hl) /\
  (ok = true -> hosts hl' = {[ host ]} ∪ hosts hl) /\
  (ok = false -> hl' = hl).
Proof.
  unfold Acquire. destruct (decide (host ∈ hosts hl)) as [Hin|Hnin];
    intros [= <- <-]; cbn; repeat split; try done.
Qed.

Lemma Acquire_free (hl : HostLimiter) (host : string) :
  host ∉ hosts hl ->
  Acquire hl host = ({| hosts := {[ host ]} ∪ hosts hl |}, true).
Proof.
  intros Hnin. unfold Acquire. destruct (decide (host ∈ hosts hl)); done.
Qed.

Lemma Acquire_held (hl : HostLimiter) (host : string) :
  host ∈ hosts hl -> Acquire hl host = (hl, false).
Proof.
  intros Hin. unfold Acquire. destruct (decide (host ∈ hosts hl)); done.
Qed.

Context {S : Type} {storer : storage.Storer S}.

(** [performCheck] when the host is free, written out *)
Lemma performCheck_acquired (hl : HostLimiter) (st : S) (w : world)
    (target : models.Target.t) :
  models.Target.Host target ∉ hosts hl ->
  performCheck hl st w target =
  (Release {| hosts := {[ models.Target.Host target ]} ∪ hosts hl |}
     (models.Target.Host target),
   fst (storage.CreateCheckResult st (resultOf target (fst (loop w initial)))),
   snd (loop w initial)
   ++ [EvCreateCheckResult (resultOf target (fst (loop w initial)))]).
Proof.
  intros Hfree. unfold performCheck. rewrite (Acquire_free _ _ Hfree). cbn.
  destruct (loop w initial) as [l evs]. cbn.
  destruct (storage.CreateCheckResult st (resultOf target l)). reflexivity.
Qed.


End probe.


(** C1 (the code departs from the claim).  A probe whose first attempt
    receives a 503 and whose two retries fail at transport level
    persists a result with both [StatusCode] and [Error] set; so does a
    probe whose first attempt fails at transport level and whose retry
    receives a 200.  [statusCode] and [errMsg] are declared outside the
    loop and an attempt only ever sets one of them. *)
Theorem performCheck_persists_status_code_and_error :
  snd (checker.performCheck checker.NewHostLimiter sample.emptyStore
         sample.world_503_then_timeouts sample.exampleCom)
  = [checker.EvAttempt 1; checker.EvSleep 200000000;
     checker.EvAttempt 2; checker.EvSleep 400000000;
     checker.EvAttempt 3;
     checker.EvCreateCheckResult
       {| models.CheckResult.ID := "";
          models.CheckResult.TargetID := "t_1";
          models.CheckResult.CheckedAt := sample.noon;
          models.CheckResult.StatusCode := Some 503%Z;
          models.CheckResult.LatencyMS := 7;
          models.CheckResult.Error := Some "context deadline exceeded" |}]
  /\
  snd (checker.performCheck checker.NewHostLimiter sample.emptyStore
         sample.world_timeout_then_200 sample.exampleCom)
  = [checker.EvAttempt 1; checker.EvSleep 200000000;
     checker.EvAttempt 2;
     checker.EvCreateCheckResult
       {| models.CheckResult.ID := "";
          models.CheckResult.TargetID := "t_1";
          models.CheckResult.CheckedAt := sample.noon;
          models.CheckResult.StatusCode := Some 200%Z;
          models.CheckResult.LatencyMS := 5;
          models.CheckResult.Error := Some "context deadline exceeded" |}].
Proof.
  split; vm_compute; reflexivity.
Qed.

(** ** The host limiter under interleaving *)

Section limiter.

Import checker.
Context {S : Type} {storer : storage.Storer S}.

Lemma exclusive_new (st : S) (n : nat) : exclusive (NewWorkerPool st n).
Proof.
  split.
  - intros i j wi wj ti tj _ Hi _ Hti _. cbn in Hi.
    apply lookup_replicate in Hi as [-> _]. discriminate.
  - intros h. cbn. split.
    + intros Hin. by apply not_elem_of_empty in Hin.
    + intros (i & wk & t & Hi & Ht & _).
      apply lookup_replicate in Hi as [-> _]. discriminate.
Qed.

Lemma lookup_insert_cases (l : list worker) (i j : nat) (x y : worker) :
  <[i := x]> l !! j = Some y ->
  (j = i /\ y = x) \/ (j <> i /\ l !! j = Some y).
Proof.
  intros H. destruct (decide (j = i)) as [->|Hne].
  - left. split; [reflexivity|].
    assert (i < length l)%nat as Hlt.
    { apply lookup_lt_Some in H. by rewrite length_insert in H. }
    rewrite list_lookup_insert_eq in H by assumption. congruence.
  - right. split; [assumption|]. by rewrite list_lookup_insert_ne in H.
Qed.

Lemma exclusive_step (p q : pool S) : exclusive p -> step p q -> exclusive q.
Proof.
  intros [Hmutex Hheld] Hstep.
  destruct Hstep as [p i target hl Hidle Hacq | p i target hl Hidle Hacq
                    | p i target w Hprobing | p i target Hpersisted].
  - (* Acquire succeeded *)
    apply Acquire_spec in Hacq as (Hfree & Hhosts & _).
    specialize (Hhosts eq_refl). assert (models.Target.Host target ∉ hosts (hostLimiter p)) as Hnin
      by (by apply Hfree).
    assert (i < length (workers p))%nat as Hlt by (by apply lookup_lt_Some in Hidle).
    split; cbn.
    + intros a b wa wb ta tb Hab Ha Hb Hta Htb.
      apply lookup_insert_cases in Ha as [[-> ->]|[Hai Ha]];
        apply lookup_insert_cases in Hb as [[-> ->]|[Hbi Hb]]; try done.
      * cbn in Hta. injection Hta as <-. intros Heq. apply Hnin.
        apply Hheld. exists b, wb, tb. by rewrite Heq.
      * cbn in Htb. injection Htb as <-. intros Heq. apply Hnin.
        apply Hheld. by exists a, wa, ta.
      * by apply (Hmutex a b wa wb).
    + intros h. rewrite Hhosts, elem_of_union, elem_of_singleton, Hheld. split.
      * intros [->|(a & wa & ta & Ha & Hta & Hh)].
        -- exists i, (Probing target), target.
           by rewrite list_lookup_insert_eq.
        -- exists a, wa, ta. repeat split; try done.
           rewrite list_lookup_insert_ne; [done|].
           intros ->. rewrite Hidle in Ha. injection Ha as <-. discriminate.
      * intros (a & wa & ta & Ha & Hta & Hh).
        apply lookup_insert_cases in Ha as [[-> ->]|[Hai Ha]].
        -- left. cbn in Hta. by injection Hta as <-.
        -- right. by exists a, wa, ta.
  - (* Acquire failed *)
    apply Acquire_spec in Hacq as (_ & _ & Hsame).
    rewrite (Hsame eq_refl). by split.
  - (* the result is written *)
    assert (i < length (workers p))%nat as Hlt by (by apply lookup_lt_Some in Hprobing).
    split; cbn.
    + intros a b wa wb ta tb Hab Ha Hb Hta Htb.
      apply lookup_insert_cases in Ha as [[-> ->]|[Hai Ha]];
        apply lookup_insert_cases in Hb as [[-> ->]|[Hbi Hb]]; try done.
      * by apply (Hmutex i b (Probing target) wb).
      * by apply (Hmutex a i wa (Probing target)).
      * by apply (Hmutex a b wa wb).
    + intros h. rewrite Hheld. split.
      * intros (a & wa & ta & Ha & Hta & Hh).
        destruct (decide (a = i)) as [->|Hai].
        -- exists i, (Persisted target), ta.
           rewrite list_lookup_insert_eq by done.
           rewrite Hprobing in Ha. injection Ha as <-. done.
        -- exists a, wa, ta. by rewrite list_lookup_insert_ne.
      * intros (a & wa & ta & Ha & Hta & Hh).
        apply lookup_insert_cases in Ha as [[-> ->]|[Hai Ha]].
        -- by exists i, (Probing target), ta.
        -- by exists a, wa, ta.
  - (* the deferred Release *)
    assert (i < length (workers p))%nat as Hlt by (by apply lookup_lt_Some in Hpersisted).
    split; cbn.
    + intros a b wa wb ta tb Hab Ha Hb Hta Htb.
      apply lookup_insert_cases in Ha as [[-> ->]|[Hai Ha]];
        apply lookup_insert_cases in Hb as [[-> ->]|[Hbi Hb]]; try done.
      by apply (Hmutex a b wa wb).
    + intros h. rewrite elem_of_difference, elem_of_singleton, Hheld. split.
      * intros [(a & wa & ta & Ha & Hta & Hh) Hne].
        exists a, wa, ta. repeat split; try done.
        rewrite list_lookup_insert_ne; [done|].
        intros ->. rewrite Hpersisted in Ha. injection Ha as <-.
        cbn in Hta. injection Hta as <-. done.
      * intros (a & wa & ta & Ha & Hta & Hh).
        apply lookup_insert_cases in Ha as [[-> ->]|[Hai Ha]]; [done|].
        split; [by exists a, wa, ta|].
        intros Heq. subst h.
        by apply (Hmutex a i wa (Persisted target) ta target).
Qed.

Lemma exclusive_reachable (st : S) (n : nat) (p : pool S) :
  reachable (NewWorkerPool st n) p -> exclusive p.
Proof.
  induction 1 as [|p q _ IH Hstep].
  - apply exclusive_new.
  - by apply (exclusive_step p q).
Qed.

(** C9 (confirmed).  [Acquire] returns true exactly when the host is
    absent, and then inserts it; a probe that does not acquire its host
    returns with the limiter and the store as they were and no attempt
    made; a probe that acquires it has released it when it returns.  In
    every state that the workers of a pool reach, in any interleaving of
    their steps, no two workers are in flight on the same host, and the
    limiter holds exactly the hosts of the workers in flight. *)
Theorem one_probe_per_host_at_a_time :
  (forall (hl hl' : HostLimiter) (host : string) (ok : bool),
     Acquire hl host = (hl', ok) ->
     (ok = true <-> host ∉ hosts hl) /\
     (ok = true -> hosts hl' = {[ host ]} ∪ hosts hl) /\
     (ok = false -> hl' = hl)) /\
  (forall (hl : HostLimiter) (st : S) (w : world) (target : models.Target.t),
     models.Target.Host target ∈ hosts hl ->
     performCheck hl st w target = (hl, st, [])) /\
  (forall (hl : HostLimiter) (st : S) (w : world) (target : models.Target.t),
     models.Target.Host target ∉ hosts hl ->
     hosts (fst (fst (performCheck hl st w target))) = hosts hl) /\
  (forall (st : S) (n : nat) (p : pool S),
     reachable (NewWorkerPool st n) p ->
     (forall i j wi wj ti tj,
        i <> j ->
        workers p !! i = Some wi -> workers p !! j = Some wj ->
        inFlight wi = Some ti -> inFlight wj = Some tj ->
        models.Target.Host ti <> models.Target.Host tj) /\
     (forall h,
        h ∈ hosts (hostLimiter p) <->
        exists i wk t,
          workers p !! i = Some wk /\ inFlight wk = Some t /\
          models.Target.Host t = h)).
Proof.
  split; [|split; [|split]].
  - apply Acquire_spec.
  - intros hl st w target Hheld. unfold performCheck.
    by rewrite (Acquire_held _ _ Hheld).
  - intros hl st w target Hfree.
    rewrite (performCheck_acquired _ _ _ _ Hfree). cbn.
    apply set_eq. intros h.
    rewrite elem_of_difference, elem_of_union, elem_of_singleton.
    split; [by intros [[->|Hin] Hne]|].
    intros Hin. split; [by right|]. by intros ->.
  - intros st n p Hreach. by apply exclusive_reachable in Hreach.
Qed.

End limiter.

Lemma twoProbing_reachable :
  checker.reachable (checker.NewWorkerPool sample.emptyStore 2) sample.twoProbing.
Proof.
  apply (checker.reachable_step _ sample.oneProbing).
  - apply (checker.reachable_step _ (checker.NewWorkerPool sample.emptyStore 2)).
    + apply checker.reachable_refl.
    + refine (checker.step_acquire (checker.NewWorkerPool sample.emptyStore 2)
               0%nat sample.exampleCom
               {| checker.hosts := {[ "example.com" ]} ∪ ∅ |} eq_refl _).
      apply Acquire_free. apply not_elem_of_empty.
  - refine (checker.step_acquire sample.oneProbing 1%nat sample.exampleOrg
             {| checker.hosts := {[ "example.org" ]} ∪ ({[ "example.com" ]} ∪ ∅) |}
             eq_refl _).
    apply Acquire_free. cbn. rewrite elem_of_union, elem_of_singleton.
    intros [[=]|Hin]. by apply not_elem_of_empty in Hin.
Qed.

Lemma one_probe_per_host_at_a_time_witness :
  (checker.Acquire checker.NewHostLimiter "example.com"
   = ({| checker.hosts := {[ "example.com" ]} ∪ ∅ |}, true)) /\
  ("example.com" ∈ checker.hosts sample.comHeld) /\
  (checker.performCheck sample.comHeld sample.emptyStore
     sample.world_timeout_then_200 sample.exampleCom
   = (sample.comHeld, sample.emptyStore, [])) /\
  ("example.com" ∉ checker.hosts checker.NewHostLimiter) /\
  (checker.hosts
     (fst (fst (checker.performCheck checker.NewHostLimiter sample.emptyStore
                  sample.world_timeout_then_200 sample.exampleCom)))
   = checker.hosts checker.NewHostLimiter) /\
  checker.reachable (checker.NewWorkerPool sample.emptyStore 2) sample.twoProbing /\
  (forall i j wi wj ti tj,
     i <> j ->
     checker.workers sample.twoProbing !! i = Some wi ->
     checker.workers sample.twoProbing !! j = Some wj ->
     checker.inFlight wi = Some ti -> checker.inFlight wj = Some tj ->
     models.Target.Host ti <> models.Target.Host tj).
Proof.
  pose proof (@one_probe_per_host_at_a_time sqlite.SQLiteStore _)
    as (Hacquire & Hcontended & Hreleased & Hpool).
  assert ("example.com" ∈ checker.hosts sample.comHeld) as Hheld
    by (cbn; by apply elem_of_singleton_2).
  assert ("example.com" ∉ checker.hosts checker.NewHostLimiter) as Hfree
    by apply not_elem_of_empty.
  refine (conj _ (conj Hheld (conj _ (conj Hfree (conj _ (conj _ _)))))).
  - by apply Acquire_free.
  - exact (Hcontended _ sample.emptyStore sample.world_timeout_then_200
             sample.exampleCom Hheld).
  - exact (Hreleased _ sample.emptyStore sample.world_timeout_then_200
             sample.exampleCom Hfree).
  - exact twoProbing_reachable.
  - exact (proj1 (Hpool _ _ _ twoProbing_reachable)).
Defined.

(** ** The SQLite store *)

Section store.

Import sqlite.

Lemma selectTargetByCanonicalURL_withIdempotencyKeys s rows c :
  selectTargetByCanonicalURL (withIdempotencyKeys s rows) c
  = selectTargetByCanonicalURL s c.
Proof. reflexivity. Qed.

Lemma find_app_None {A} (f : A -> bool) (l l' : list A) :
  find f l = None -> find f (l ++ l') = find f l'.
Proof.
  induction l as [|x l IH]; cbn; [reflexivity|].
  destruct (f x); [discriminate | exact IH].
Qed.

(** A call whose idempotency key is already recorded changes nothing and
    returns what [getTargetByIDTx] returns for the recorded target id:
    the stored target and a nil error. *)
Lemma CreateTarget_recorded_key s target key existingTargetID :
  selectIdempotencyKey s key = Some existingTargetID ->
  CreateTarget s target (Some key) = (s, getTargetByIDTx s existingTargetID).
Proof.
  intros Hkey. unfold CreateTarget. cbn. rewrite Hkey. reflexivity.
Qed.

(** A call without a recorded key whose canonical URL is already stored *)
Lemma CreateTarget_known_canonical_url s target key existing :
  key ≫= selectIdempotencyKey s = None ->
  selectTargetByCanonicalURL s (models.Target.CanonicalURL target) = Some existing ->
  CreateTarget s target key
  = (s, (Some (scanTarget existing), Some storage.ErrDuplicateKey)).
Proof.
  intros Hkey Hurl. unfold CreateTarget. rewrite Hkey, Hurl. reflexivity.
Qed.

End store.

(** C2 (the code departs from the claim).  Two POSTs with the same
    idempotency key and the same URL return the same target, and the
    second changes nothing in the store; but the store answers the
    second call with a nil error, not [ErrDuplicateKey], so the API
    responds 201 to both. *)
Theorem replayed_idempotency_key_answers_201 :
  snd sample.firstPost
  = Some {| api.Code := 201; api.body := api.JSONTarget (Some sample.registered) |}
  /\
  sample.secondPost
  = (fst sample.firstPost,
     Some {| api.Code := 201; api.body := api.JSONTarget (Some sample.registered) |})
  /\
  sqlite.CreateTarget (fst sample.firstPost) sample.registeredAgain (Some "k1")
  = (fst sample.firstPost, (Some sample.registered, None)).
Proof.
  repeat split; vm_compute; reflexivity.
Qed.

(** C5 (the code departs from the claim).  [created_at] is stored as
    the RFC3339Nano text of the time and ordered as text.  A target
    created at 12:00:00 is written [...T12:00:00Z], one created half a
    second later [...T12:00:00.5Z], and ['.'] sorts before ['Z']: the
    later target is listed first, and the page after the cursor of the
    later target holds the earlier one. *)
Theorem ListTargets_orders_created_at_as_text :
  time.Before (models.Target.CreatedAt sample.atNoon)
    (models.Target.CreatedAt sample.halfASecondLater) = true
  /\
  fst (sqlite.ListTargets sample.twoTargets sample.allRows)
  = [sample.halfASecondLater; sample.atNoon]
  /\
  fst (sqlite.ListTargets sample.twoTargets sample.firstPage)
  = [sample.halfASecondLater]
  /\
  fst (sqlite.ListTargets sample.twoTargets (sample.pageAfter sample.halfASecondLater))
  = [sample.atNoon].
Proof.
  repeat split; vm_compute; reflexivity.
Qed.

(** ** The list handlers *)

Section list_handlers.

Import api.
Local Open Scope Z_scope.

Context {S : Type} {storer : storage.Storer S}.
Variable time_Parse : string -> string -> result time.ParseError time.Time.
Variable base64_DecodeString : string -> result base64.CorruptInputError string.
Variable base64_EncodeToString : string -> string.

Lemma parseLimit_range (l : string) (default max : Z) :
  1 <= default <= max -> 1 <= parseLimit l default max <= max.
Proof.
  intros Hd. unfold parseLimit.
  destruct (negb (String.eqb l "")); [|exact Hd].
  destruct (strconv.Atoi l) as [v|e]; [|exact Hd].
  destruct ((0 <? v) && (v <=? max)) eqn:Hv; [|exact Hd].
  apply andb_prop in Hv as [Hlo Hhi]. apply Z.ltb_lt in Hlo. apply Z.leb_le in Hhi.
  lia.
Qed.

Lemma Atoi_empty : strconv.Atoi "" = Err strconv.ErrSyntax.
Proof. reflexivity. Qed.

Lemma parseLimit_supplied (l : string) (default max v : Z) :
  strconv.Atoi l = Ok v -> 1 <= v <= max -> parseLimit l default max = v.
Proof.
  intros Hv Hr. unfold parseLimit.
  destruct (String.eqb_spec l "") as [->|_]; [discriminate|]. cbn.
  rewrite Hv.
  assert ((0 <? v) && (v <=? max) = true) as ->; [|reflexivity].
  apply andb_true_intro. split; [apply Z.ltb_lt | apply Z.leb_le]; lia.
Qed.

Lemma parseLimit_out_of_range (l : string) (default max v : Z) :
  strconv.Atoi l = Ok v -> v < 1 \/ max < v -> parseLimit l default max = default.
Proof.
  intros Hv Hr. unfold parseLimit.
  destruct (negb (String.eqb l "")); [|reflexivity].
  rewrite Hv.
  assert ((0 <? v) && (v <=? max) = false) as ->; [|reflexivity].
  apply andb_false_iff. destruct Hr; [left; apply Z.ltb_ge | right; apply Z.leb_gt]; lia.
Qed.

Lemma parseLimit_not_integer (l : string) (default max : Z) e :
  strconv.Atoi l = Err e -> parseLimit l default max = default.
Proof.
  intros He. unfold parseLimit.
  destruct (negb (String.eqb l "")); [|reflexivity]. by rewrite He.
Qed.

Lemma parseLimit_malformed (l : string) (default max : Z) :
  spec.malformedLimit l max -> parseLimit l default max = parseLimit "" default max.
Proof.
  intros [_ Hbad]. change (parseLimit "" default max) with default.
  destruct (strconv.Atoi l) as [v|e] eqn:Hv.
  - by apply (parseLimit_out_of_range l default max v).
  - by apply (parseLimit_not_integer l default max e).
Qed.

Lemma parsePageToken_malformed (token : string) :
  spec.malformedPageToken time_Parse base64_DecodeString token ->
  parsePageToken time_Parse base64_DecodeString token
  = parsePageToken time_Parse base64_DecodeString "".
Proof.
  intros [_ Hbad]. unfold parsePageToken.
  destruct (negb (String.eqb token "")); [|reflexivity]. cbn.
  destruct (base64_DecodeString token) as [decoded|]; [|reflexivity].
  destruct (strings.SplitN2 decoded "|") as [|part0 [|part1 [|]]]; try reflexivity.
  destruct (time_Parse time.RFC3339Nano part0); [contradiction | reflexivity].
Qed.

Lemma parseSince_malformed (s : string) :
  spec.malformedSince time_Parse s ->
  parseSince time_Parse s = parseSince time_Parse "".
Proof.
  intros [_ Hbad]. unfold parseSince.
  destruct (negb (String.eqb s "")); [|reflexivity]. cbn.
  destruct (time_Parse time.RFC3339 s); [contradiction | reflexivity].
Qed.

(** C6 (corrected).  The limit given to the store always lies in
    [1, 500] for GET /v1/targets and in [1, 1000] for the results of a
    target.  It is the supplied limit when that is an integer within
    the range, and the default (50, respectively 100) in every other
    case: absent, not an integer, below 1 or above the maximum. *)
Theorem limit_is_supplied_in_range_or_default (q : Values) (targetID : string) :
  let l := Get q "limit" in
  let targets := storage.ListTargetsParams.Limit
                   (listTargetsParams time_Parse base64_DecodeString q) in
  let results := storage.ListCheckResultsParams.Limit
                   (listCheckResultsParams time_Parse targetID q) in
  (1 <= targets <= 500 /\ 1 <= results <= 1000) /\
  (forall v, strconv.Atoi l = Ok v ->
     (1 <= v <= 500 -> targets = v) /\ (v < 1 \/ 500 < v -> targets = 50) /\
     (1 <= v <= 1000 -> results = v) /\ (v < 1 \/ 1000 < v -> results = 100)) /\
  (forall e, strconv.Atoi l = Err e -> targets = 50 /\ results = 100) /\
  (l = EmptyString -> targets = 50 /\ results = 100).
Proof.
  cbn zeta. unfold listTargetsParams, listCheckResultsParams.
  destruct (parsePageToken time_Parse base64_DecodeString (Get q "page_token"))
    as [afterTime afterID].
  cbn [storage.ListTargetsParams.Limit storage.ListCheckResultsParams.Limit].
  split; [|split; [|split]].
  - split; apply parseLimit_range; lia.
  - intros v Hv. repeat split; intros Hr.
    + by apply parseLimit_supplied.
    + by apply (parseLimit_out_of_range _ _ _ v).
    + by apply parseLimit_supplied.
    + by apply (parseLimit_out_of_range _ _ _ v).
  - intros e He. split; by apply (parseLimit_not_integer _ _ _ e).
  - intros ->. split; reflexivity.
Qed.

End list_handlers.

(** C6, the claim as it stands fails: a limit of 1000 on the targets,
    or of 5000 on the results, gives the default and not the maximum,
    and a limit of 0 gives the default and not 1. *)
Lemma limit_out_of_range_is_not_clamped :
  storage.ListTargetsParams.Limit
    (api.listTargetsParams time.Parse base64.DecodeString sample.limit1000)
  <> spec.clamp 1 500 1000
  /\
  storage.ListTargetsParams.Limit
    (api.listTargetsParams time.Parse base64.DecodeString sample.limit0)
  <> spec.clamp 1 500 0
  /\
  storage.ListCheckResultsParams.Limit
    (api.listCheckResultsParams time.Parse "t_1" (sample.query [("limit", "5000")]))
  <> spec.clamp 1 1000 5000
  /\
  storage.ListCheckResultsParams.Limit
    (api.listCheckResultsParams time.Parse "t_1" sample.limit0)
  <> spec.clamp 1 1000 0.
Proof.
  repeat split; vm_compute; discriminate.
Qed.

Lemma limit_is_supplied_in_range_or_default_witness :
  strconv.Atoi (api.Get sample.limit20 "limit") = Ok 20%Z /\
  storage.ListTargetsParams.Limit
    (api.listTargetsParams time.Parse base64.DecodeString sample.limit20) = 20%Z /\
  strconv.Atoi (api.Get sample.limit1000 "limit") = Ok 1000%Z /\
  storage.ListTargetsParams.Limit
    (api.listTargetsParams time.Parse base64.DecodeString sample.limit1000) = 50%Z /\
  storage.ListCheckResultsParams.Limit
    (api.listCheckResultsParams time.Parse "t_1" sample.limit1000) = 1000%Z.
Proof.
  assert (strconv.Atoi (api.Get sample.limit20 "limit") = Ok 20%Z) as H20
    by (vm_compute; reflexivity).
  assert (strconv.Atoi (api.Get sample.limit1000 "limit") = Ok 1000%Z) as H1000
    by (vm_compute; reflexivity).
  pose proof (limit_is_supplied_in_range_or_default time.Parse base64.DecodeString
                sample.limit20 "t_1") as (_ & Hsupplied20 & _).
  pose proof (limit_is_supplied_in_range_or_default time.Parse base64.DecodeString
                sample.limit1000 "t_1") as (_ & Hsupplied1000 & _).
  destruct (Hsupplied20 _ H20) as (Hin & _).
  destruct (Hsupplied1000 _ H1000) as (_ & Hout & Hres & _).
  refine (conj H20 (conj _ (conj H1000 (conj _ _)))).
  - apply Hin. lia.
  - apply Hout. lia.
  - apply Hres. lia.
Defined.


(** ** The canonicalizer on given URLs *)

(** the table of the specification *)
Lemma Canonicalize_table :
  urlutil.Canonicalize "http://example.com/path" = Ok "http://example.com/path" /\
  urlutil.Canonicalize "HTTPS://EXAMPLE.COM/path" = Ok "https://example.com/path" /\
  urlutil.Canonicalize "http://example.com:80/path" = Ok "http://example.com/path" /\
  urlutil.Canonicalize "https://example.com:443/path" = Ok "https://example.com/path" /\
  urlutil.Canonicalize "http://example.com:8080/path" = Ok "http://example.com:8080/path" /\
  urlutil.Canonicalize "http://example.com/path#frag" = Ok "http://example.com/path" /\
  urlutil.Canonicalize "http://example.com/path/" = Ok "http://example.com/path" /\
  urlutil.Canonicalize "http://example.com/" = Ok "http://example.com/" /\
  urlutil.Canonicalize "ftp://example.com" = Err urlutil.NotAbsoluteHTTP /\
  urlutil.Canonicalize "/relative" = Err urlutil.NotAbsoluteHTTP.
Proof.
  repeat split; vm_compute; reflexivity.
Qed.

(** C7 (the code departs from the claim).  For an IPv6 literal with the
    default port, [Hostname] drops the square brackets together with
    the port: the canonical form of [http://[::1]:80/] is [http://::1/],
    not [http://[::1]/], and that of [https://[2001:db8::1]:443/x] is
    [https://2001:db8::1/x].  Without a port, or with another port, the
    literal is kept. *)
Theorem Canonicalize_ipv6_default_port_drops_brackets :
  urlutil.Canonicalize "http://[::1]:80/" = Ok "http://::1/" /\
  urlutil.Canonicalize "https://[2001:db8::1]:443/x" = Ok "https://2001:db8::1/x" /\
  urlutil.Canonicalize "http://[::1]/" = Ok "http://[::1]/" /\
  urlutil.Canonicalize "http://[::1]:8080/" = Ok "http://[::1]:8080/".
Proof.
  repeat split; vm_compute; reflexivity.
Qed.

(** C8, the claim as it stands fails.  Of a path that ends in two
    slashes one is removed by each application; of a host with two
    colons, and of an IPv6 literal that ends in the digits of the
    default port, a second port is removed by the second application;
    and a path written [/%2FX/] after the scheme alone comes out as the
    host [X], which the second application lower-cases.  The second
    application fails on the output for a host with the default port
    after a colon and a name, for an IPv6 literal with a zone and the
    default port, and for a literal whose zone has a byte from 0x80 up;
    and, where [url.Parse] takes any text between the brackets, for a
    zone with a space and the default port, and for two opening
    brackets. *)
Lemma Canonicalize_twice_differs :
  (urlutil.Canonicalize "http://example.com/path//" = Ok "http://example.com/path/" /\
   urlutil.Canonicalize "http://example.com/path/" = Ok "http://example.com/path") /\
  (urlutil.Canonicalize "http://a:80:80/" = Ok "http://a:80/" /\
   urlutil.Canonicalize "http://a:80/" = Ok "http://a/") /\
  (urlutil.Canonicalize "http://[::80]:80/" = Ok "http://::80/" /\
   urlutil.Canonicalize "http://::80/" = Ok "http://:/") /\
  (urlutil.Canonicalize "http:/%2FX/" = Ok "http://X" /\
   urlutil.Canonicalize "http://X" = Ok "http://x") /\
  (urlutil.Canonicalize "http://a:b:80/" = Ok "http://a:b/" /\
   urlutil.Canonicalize "http://a:b/"
   = Err (urlutil.ParseFailed (url.InvalidPort ":b"))) /\
  (urlutil.Canonicalize "http://[fe80::1%25en0]:80/" = Ok "http://fe80::1%25en0/" /\
   urlutil.Canonicalize "http://fe80::1%25en0/"
   = Err (urlutil.ParseFailed (url.InvalidPort ":1%25en0"))) /\
  (urlutil.Canonicalize ("http://[fe80::1%25" +:+ String "195" (String "169" "]/"))
   = Ok "http://[fe80::1%25%C3%A9]/" /\
   urlutil.Canonicalize "http://[fe80::1%25%C3%A9]/"
   = Err (urlutil.ParseFailed (url.EscapeError "%C3"))) /\
  (urlutil.Canonicalize "http://[a%25%20]:80/" = Ok "http://a%25%20/" /\
   urlutil.Canonicalize "http://a%25%20/"
   = Err (urlutil.ParseFailed (url.EscapeError "%20"))) /\
  (urlutil.Canonicalize "http://[[::1]:80/" = Ok "http://[::1/" /\
   urlutil.Canonicalize "http://[::1/"
   = Err (urlutil.ParseFailed url.MissingBracket)) /\
  ~ (forall u c : string,
       urlutil.Canonicalize u = Ok c -> urlutil.Canonicalize c = Ok c).
Proof.
  assert (urlutil.Canonicalize "http://example.com/path//"
          = Ok "http://example.com/path/") as H1 by (vm_compute; reflexivity).
  assert (urlutil.Canonicalize "http://example.com/path/"
          = Ok "http://example.com/path") as H2 by (vm_compute; reflexivity).
  split; [by split|].
  do 8 (split; [split; vm_compute; reflexivity|]).
  intros H. specialize (H _ _ H1). rewrite H2 in H. discriminate H.
Qed.

(** ** Byte strings: facts about package strings *)

Section string_facts.

Import strings.
#[local] Arguments String.append !s1 s2 / : simpl nomatch.

Lemma app_nil_r (s : string) : s +:+ "" = s.
Proof. induction s as [|c s IH]; cbn; [reflexivity | by rewrite IH]. Qed.

Lemma app_assoc (a b c : string) : (a +:+ b) +:+ c = a +:+ (b +:+ c).
Proof. induction a as [|x a IH]; cbn; [reflexivity | by rewrite IH]. Qed.

Lemma length_app (a b : string) :
  String.length (a +:+ b) = (String.length a + String.length b)%nat.
Proof. induction a as [|x a IH]; cbn; [reflexivity | by rewrite IH]. Qed.

Lemma length_zero (s : string) : String.length s = 0%nat -> s = "".
Proof. by destruct s. Qed.

Lemma take_app (a b : string) : take (String.length a) (a +:+ b) = a.
Proof. induction a as [|x a IH]; cbn; [by destruct b | by rewrite IH]. Qed.

Lemma drop_app (a b : string) : drop (String.length a) (a +:+ b) = b.
Proof. induction a as [|x a IH]; cbn; [reflexivity | exact IH]. Qed.

Lemma take_drop (n : nat) (s : string) : take n s +:+ drop n s = s.
Proof.
  revert s. induction n as [|n IH]; intros [|c s]; cbn; try reflexivity.
  by rewrite IH.
Qed.

Lemma take_all (s : string) : take (String.length s) s = s.
Proof. induction s as [|c s IH]; cbn; [reflexivity | by rewrite IH]. Qed.

Lemma drop_all (s : string) : drop (String.length s) s = "".
Proof. induction s as [|c s IH]; cbn; [reflexivity | exact IH]. Qed.

Lemma forallb_app (p : ascii -> bool) (a b : string) :
  forallb p (a +:+ b) = forallb p a && forallb p b.
Proof.
  induction a as [|x a IH]; cbn; [reflexivity|].
  rewrite IH. by rewrite andb_assoc.
Qed.

Lemma forallb_impl (p q : ascii -> bool) (s : string) :
  (forall c, p c = true -> q c = true) ->
  forallb p s = true -> forallb q s = true.
Proof.
  intros Hpq. induction s as [|c s IH]; cbn; [done|].
  intros [Hc Hs]%andb_prop. rewrite (Hpq c Hc). cbn. by apply IH.
Qed.

Lemma forallb_take (p : ascii -> bool) (n : nat) (s : string) :
  forallb p s = true -> forallb p (take n s) = true.
Proof.
  revert s. induction n as [|n IH]; intros [|c s]; cbn; try done.
  intros [Hc Hs]%andb_prop. rewrite Hc. cbn. by apply IH.
Qed.

Lemma forallb_drop (p : ascii -> bool) (n : nat) (s : string) :
  forallb p s = true -> forallb p (drop n s) = true.
Proof.
  revert s. induction n as [|n IH]; intros [|c s]; cbn; try done.
  intros [Hc Hs]%andb_prop. by apply IH.
Qed.

Lemma existsb_forallb (p : ascii -> bool) (s : string) :
  existsb p s = negb (forallb (fun c => negb (p c)) s).
Proof.
  induction s as [|c s IH]; cbn; [reflexivity|].
  rewrite IH. by destruct (p c).
Qed.

Lemma HasPrefix_app (a b : string) : HasPrefix (a +:+ b) a = true.
Proof.
  induction a as [|x a IH]; cbn; [reflexivity|].
  by rewrite Ascii.eqb_refl, IH.
Qed.

Lemma HasPrefix_inv (s p : string) :
  HasPrefix s p = true -> s = p +:+ drop (String.length p) s.
Proof.
  revert s. induction p as [|x p IH]; intros s; cbn; [done|].
  destruct s as [|c s]; [done|].
  intros [Hc Hs]%andb_prop. apply Ascii.eqb_eq in Hc as ->.
  by rewrite <- (IH s Hs).
Qed.

Lemma lacks_app (c : ascii) (a b : string) :
  lacks c (a +:+ b) <-> lacks c a /\ lacks c b.
Proof. unfold lacks. rewrite forallb_app. apply andb_true_iff. Qed.

Lemma lacks_cons (c d : ascii) (s : string) :
  lacks c (String d s) <-> d <> c /\ lacks c s.
Proof.
  unfold lacks. cbn. rewrite andb_true_iff, negb_true_iff.
  by rewrite Ascii.eqb_neq.
Qed.

Lemma lacks_of_forallb (p : ascii -> bool) (c : ascii) (s : string) :
  p c = false -> forallb p s = true -> lacks c s.
Proof.
  intros Hc. apply forallb_impl. intros d Hd.
  apply negb_true_iff, Ascii.eqb_neq. intros ->. congruence.
Qed.

Lemma Index_byte_absent (c : ascii) (s : string) :
  lacks c s -> Index s (String c "") = None.
Proof.
  induction s as [|d s IH]; [done|].
  intros [Hd Hs]%lacks_cons. cbn.
  apply Ascii.eqb_neq in Hd. rewrite Hd. cbn. by rewrite (IH Hs).
Qed.

Lemma Index_byte_first (c : ascii) (a b : string) :
  lacks c a -> Index (a +:+ String c b) (String c "") = Some (String.length a).
Proof.
  induction a as [|d a IH]; cbn.
  - intros _. by rewrite Ascii.eqb_refl.
  - intros [Hd Ha]%lacks_cons. apply Ascii.eqb_neq in Hd. rewrite Hd. cbn.
    by rewrite (IH Ha).
Qed.

Lemma Cut_byte_absent (c : ascii) (s : string) :
  lacks c s -> Cut s (String c "") = (s, "", false).
Proof. intros H. unfold Cut. by rewrite Index_byte_absent. Qed.

Lemma Cut_byte_first (c : ascii) (a b : string) :
  lacks c a -> Cut (a +:+ String c b) (String c "") = (a, b, true).
Proof.
  intros H. unfold Cut. rewrite Index_byte_first by done.
  rewrite take_app. cbn [String.length].
  replace (String.length a + 1)%nat with (String.length (a +:+ String c ""))
    by (rewrite length_app; reflexivity).
  replace (a +:+ String c b) with ((a +:+ String c "") +:+ b)
    by (by rewrite app_assoc).
  by rewrite drop_app.
Qed.

(** what [Cut] returns, whether or not the separator occurs *)
Lemma Cut_byte_spec (c : ascii) (s : string) :
  let '(before, after, found) := Cut s (String c "") in
  lacks c before /\
  s = before +:+ (if found then String c after else "") /\
  (found = false -> after = "").
Proof.
  induction s as [|d s IH].
  - cbn. done.
  - unfold Cut in *. cbn [Index HasPrefix].
    destruct (Ascii.eqb d c) eqn:Hd.
    + cbn. apply Ascii.eqb_eq in Hd as ->. done.
    + cbn. destruct (Index s (String c "")) as [i|] eqn:Hi; cbn in *.
      * destruct IH as (Hl & Hs & _). split; [|split; [|done]].
        -- apply lacks_cons. split; [by apply Ascii.eqb_neq | done].
        -- by rewrite <- Hs.
      * destruct IH as (Hl & Hs & _). split; [|split; [|done]].
        -- apply lacks_cons. split; [by apply Ascii.eqb_neq | done].
        -- by rewrite app_nil_r.
Qed.

Lemma LastIndex_byte_absent (c : ascii) (s : string) :
  lacks c s -> LastIndex s (String c "") = None.
Proof.
  induction s as [|d s IH]; [done|].
  intros [Hd Hs]%lacks_cons. cbn. rewrite (IH Hs).
  apply Ascii.eqb_neq in Hd. by rewrite Hd.
Qed.

Lemma LastIndex_byte_last (c : ascii) (a b : string) :
  lacks c b -> LastIndex (a +:+ String c b) (String c "") = Some (String.length a).
Proof.
  intros Hb. induction a as [|d a IH]; cbn.
  - rewrite (LastIndex_byte_absent c b Hb). by rewrite Ascii.eqb_refl.
  - by rewrite IH.
Qed.

(** what [LastIndex] finds *)
Lemma LastIndex_byte_spec (c : ascii) (s : string) :
  match LastIndex s (String c "") with
  | Some i =>
      s = take i s +:+ String c (drop (i + 1) s) /\
      lacks c (drop (i + 1) s) /\ String.length (take i s) = i
  | None => lacks c s
  end.
Proof.
  induction s as [|d s IH]; [done|].
  cbn [LastIndex]. destruct (LastIndex s (String c "")) as [i|].
  - destruct IH as (Hs & Hl & Hlen). cbn. rewrite Hlen. by rewrite <- Hs.
  - cbn. destruct (Ascii.eqb d c) eqn:Hd; cbn.
    + apply Ascii.eqb_eq in Hd as ->. done.
    + apply lacks_cons. split; [by apply Ascii.eqb_neq | done].
Qed.

Lemma CountByte_app (c : ascii) (a b : string) :
  CountByte (a +:+ b) c = (CountByte a c + CountByte b c)%nat.
Proof. induction a as [|d a IH]; cbn; [reflexivity | rewrite IH; lia]. Qed.

Lemma CountByte_lacks (c : ascii) (s : string) :
  lacks c s <-> CountByte s c = 0%nat.
Proof.
  induction s as [|d s IH]; [done|].
  rewrite lacks_cons. cbn [CountByte].
  destruct (Ascii.eqb_spec d c) as [->|Hne]; [split; [by intros [[] _] | lia]|].
  rewrite IH. split; [intros [_ ->]; lia | intros H; split; [done | lia]].
Qed.

Lemma eqb_app_l (a b c : string) : String.eqb (a +:+ b) (a +:+ c) = String.eqb b c.
Proof. induction a as [|x a IH]; cbn; [reflexivity | by rewrite Ascii.eqb_refl]. Qed.

Lemma HasSuffix_app (a b : string) : HasSuffix (a +:+ b) b = true.
Proof.
  unfold HasSuffix. rewrite length_app.
  replace (String.length a + String.length b - String.length b)%nat
    with (String.length a) by lia.
  rewrite drop_app, String.eqb_refl.
  apply andb_true_intro. split; [apply Nat.leb_le; lia | reflexivity].
Qed.

Lemma HasSuffix_inv (s suffix : string) :
  HasSuffix s suffix = true ->
  s = take (String.length s - String.length suffix) s +:+ suffix.
Proof.
  unfold HasSuffix. intros [_ Heq]%andb_prop. apply String.eqb_eq in Heq.
  remember (String.length s - String.length suffix)%nat as n.
  rewrite <- Heq. symmetry. apply take_drop.
Qed.

Lemma TrimSuffix_app (a b : string) : TrimSuffix (a +:+ b) b = a.
Proof.
  unfold TrimSuffix. rewrite HasSuffix_app, length_app.
  replace (String.length a + String.length b - String.length b)%nat
    with (String.length a) by lia.
  apply take_app.
Qed.

Lemma HasSuffix_byte (s : string) (c : ascii) :
  HasSuffix s (String c "") = true -> ~ lacks c s.
Proof.
  intros H%HasSuffix_inv Hl. rewrite H in Hl.
  apply lacks_app in Hl as [_ Hc]. apply lacks_cons in Hc as [Hc _]. done.
Qed.

Lemma lowerByte_idemp (c : ascii) : lowerByte (lowerByte c) = lowerByte c.
Proof.
  destruct c as [[] [] [] [] [] [] [] []]; reflexivity.
Qed.

Lemma ToLower_idemp (s : string) : ToLower (ToLower s) = ToLower s.
Proof.
  induction s as [|c s IH]; cbn; [reflexivity|].
  by rewrite lowerByte_idemp, IH.
Qed.

Lemma ToLower_app (a b : string) : ToLower (a +:+ b) = ToLower a +:+ ToLower b.
Proof. induction a as [|c a IH]; cbn; [reflexivity | by rewrite IH]. Qed.

Lemma ToLower_length (s : string) : String.length (ToLower s) = String.length s.
Proof. induction s as [|c s IH]; cbn; [reflexivity | by rewrite IH]. Qed.

Lemma ToLower_take (n : nat) (s : string) : ToLower (take n s) = take n (ToLower s).
Proof.
  revert s. induction n as [|n IH]; intros [|c s]; cbn; try reflexivity.
  by rewrite IH.
Qed.

Lemma ToLower_drop (n : nat) (s : string) : ToLower (drop n s) = drop n (ToLower s).
Proof.
  revert s. induction n as [|n IH]; intros [|c s]; cbn; try reflexivity.
  apply IH.
Qed.

End string_facts.

(** ** Percent-encoding: [escape] and [unescape] *)

Section escape_facts.

Import url.
#[local] Arguments String.append !s1 s2 / : simpl nomatch.

Ltac each_byte c := destruct c as [[] [] [] [] [] [] [] []].

Lemma unhex2_upperhex (c : ascii) :
  unhex2 (upperhex (N_of_ascii c / 16)) (upperhex (N_of_ascii c mod 16)) = c.
Proof. each_byte c; reflexivity. Qed.

Lemma ishex_upperhex (c : ascii) :
  ishex (upperhex (N_of_ascii c / 16)) && ishex (upperhex (N_of_ascii c mod 16)) = true.
Proof. each_byte c; reflexivity. Qed.

Lemma shouldEscape_percent (mode : encoding) : shouldEscape "%" mode = true.
Proof. by destruct mode. Qed.

Lemma unescape_escape (mode : encoding) (s : string) :
  keepsBytes mode = true -> unescape (escape s mode) mode = Ok s.
Proof.
  intros Hmode. induction s as [|c s IH]; [reflexivity|].
  cbn [escape]. destruct (shouldEscape c mode) eqn:Hc.
  - assert (Ascii.eqb c " " && encoding_eqb mode encodeQueryComponent = false) as ->
      by (destruct mode; try discriminate; apply andb_false_r).
    cbn [unescape]. rewrite Ascii.eqb_refl.
    rewrite ishex_upperhex. cbn [negb].
    assert (encoding_eqb mode encodeHost = false) as -> by (by destruct mode).
    assert (encoding_eqb mode encodeZone = false) as -> by (by destruct mode).
    cbn [andb]. rewrite IH. cbn. by rewrite unhex2_upperhex.
  - cbn [unescape].
    assert (Ascii.eqb c "%" = false) as ->.
    { apply Ascii.eqb_neq. intros ->. by rewrite shouldEscape_percent in Hc. }
    assert (encoding_eqb mode encodeHost || encoding_eqb mode encodeZone = false) as ->
      by (by destruct mode).
    destruct (Ascii.eqb_spec c "+") as [->|_].
    + rewrite IH. cbn. by destruct mode.
    + cbn [andb]. rewrite IH. reflexivity.
Qed.

(** every byte of an escaped string is [%], a hexadecimal digit of an
    escape, or a byte that the mode leaves alone *)
Lemma escape_forallb (p : ascii -> bool) (mode : encoding) (s : string) :
  p "%"%char = true ->
  p "+"%char = true ->
  (forall c, p (upperhex (N_of_ascii c / 16)) && p (upperhex (N_of_ascii c mod 16)) = true) ->
  (forall c, shouldEscape c mode = false -> p c = true) ->
  strings.forallb p (escape s mode) = true.
Proof.
  intros Hpercent Hplus Hhex Hkept. induction s as [|c s IH]; [reflexivity|].
  cbn [escape]. destruct (shouldEscape c mode) eqn:Hc.
  - destruct (Ascii.eqb c " " && encoding_eqb mode encodeQueryComponent).
    + cbn. by rewrite Hplus, IH.
    + cbn. rewrite Hpercent. cbn.
      specialize (Hhex c). apply andb_prop in Hhex as [-> ->]. cbn. exact IH.
  - cbn. by rewrite (Hkept c Hc), IH.
Qed.

Lemma escape_path_inPath (s : string) :
  strings.forallb inPath (escape s encodePath) = true.
Proof.
  apply escape_forallb; try reflexivity.
  - intros c. each_byte c; reflexivity.
  - intros c. each_byte c; cbn; intros H; try reflexivity; discriminate H.
Qed.

Lemma escape_userinfo_inUserinfo (s : string) :
  strings.forallb inUserinfo (escape s encodeUserPassword) = true.
Proof.
  apply escape_forallb; try reflexivity.
  - intros c. each_byte c; reflexivity.
  - intros c. each_byte c; cbn; intros H; try reflexivity; discriminate H.
Qed.

Lemma escape_userinfo_valid (s : string) :
  validUserinfo (escape s encodeUserPassword) = true.
Proof.
  apply escape_forallb; try reflexivity.
  - intros c. each_byte c; reflexivity.
  - intros c. each_byte c; cbn; intros H; try reflexivity; discriminate H.
Qed.

Lemma escape_nil_iff (s : string) (mode : encoding) : escape s mode = "" <-> s = "".
Proof.
  destruct s as [|c s]; [done|]. cbn.
  destruct (shouldEscape c mode); [|done].
  by destruct (Ascii.eqb c " " && encoding_eqb mode encodeQueryComponent).
Qed.

Lemma escape_cons_escaped (c : ascii) (s : string) (mode : encoding) :
  shouldEscape c mode = true -> keepsBytes mode = true ->
  escape (String c s) mode
  = String "%" (String (upperhex (N_of_ascii c / 16))
                  (String (upperhex (N_of_ascii c mod 16)) (escape s mode))).
Proof.
  intros Hc Hmode. cbn [escape]. rewrite Hc.
  assert (encoding_eqb mode encodeQueryComponent = false) as -> by (by destruct mode).
  by rewrite andb_false_r.
Qed.

Lemma escape_cons_kept (c : ascii) (s : string) (mode : encoding) :
  shouldEscape c mode = false ->
  escape (String c s) mode = String c (escape s mode).
Proof. intros Hc. cbn [escape]. by rewrite Hc. Qed.

(** a leading slash of a path is kept, and none is made *)
Lemma escape_path_HasPrefix_slash (s : string) :
  strings.HasPrefix (escape s encodePath) "/" = strings.HasPrefix s "/".
Proof.
  destruct s as [|c s]; [reflexivity|].
  destruct (shouldEscape c encodePath) eqn:Hc.
  - rewrite escape_cons_escaped by done.
    cbn. destruct (Ascii.eqb_spec c "/") as [->|_]; [discriminate | reflexivity].
  - by rewrite escape_cons_kept.
Qed.

Lemma escape_path_HasPrefix_slashes (s : string) :
  strings.HasPrefix (escape s encodePath) "//" = strings.HasPrefix s "//".
Proof.
  destruct s as [|c s]; [reflexivity|].
  destruct (shouldEscape c encodePath) eqn:Hc.
  - rewrite escape_cons_escaped by done.
    cbn. destruct (Ascii.eqb_spec c "/") as [->|_]; [discriminate | reflexivity].
  - rewrite escape_cons_kept by done.
    cbn [strings.HasPrefix]. destruct (Ascii.eqb c "/"); [|reflexivity].
    cbn [andb]. apply escape_path_HasPrefix_slash.
Qed.

(** [unescape] of a path keeps a leading slash *)
Lemma unescape_path_HasPrefix_slash (s p : string) :
  unescape s encodePath = Ok p ->
  strings.HasPrefix s "/" = true -> strings.HasPrefix p "/" = true.
Proof.
  destruct s as [|c s]; [done|]. cbn [strings.HasPrefix].
  intros Hu Hc. rewrite andb_true_r in Hc. apply Ascii.eqb_eq in Hc as ->.
  cbn in Hu. destruct (unescape s encodePath); [|done].
  cbn in Hu. by injection Hu as <-.
Qed.

Lemma unescape_nil_inv (s : string) (mode : encoding) :
  unescape s mode = Ok "" -> s = "".
Proof.
  destruct s as [|c s]; [done|]. cbn [unescape].
  destruct (Ascii.eqb c "%").
  - destruct s as [|a [|b s]]; try done.
    repeat (match goal with |- context [if ?x then _ else _] => destruct x end;
            try done).
    by destruct (unescape s mode).
  - repeat (match goal with |- context [if ?x then _ else _] => destruct x end;
            try done);
    by destruct (unescape s mode).
Qed.

(** *** Hosts *)

Lemma plainHostByte_facts (c : ascii) :
  spec.plainHostByte c = true ->
  shouldEscape c encodeHost = false /\ byte.isASCII c = true /\
  c <> "%"%char /\ c <> "["%char /\ c <> "]"%char /\ c <> "@"%char /\
  c <> "/"%char /\ c <> "?"%char /\ c <> "#"%char /\ byte.isCTL c = false.
Proof. each_byte c; cbn; intros H; try discriminate H; repeat split; discriminate. Qed.

Lemma plainHostByte_lower (c : ascii) :
  spec.plainHostByte c = true -> spec.plainHostByte (strings.lowerByte c) = true.
Proof. each_byte c; cbn; intros H; try discriminate H; reflexivity. Qed.

Lemma unhex_bound (c : ascii) : (unhex c < 16)%N.
Proof. each_byte c; reflexivity. Qed.

End escape_facts.
(** ** Hosts: what [escape] writes and [unescape] reads *)

Section host_bytes.

Import url.
#[local] Arguments String.append !s1 s2 / : simpl nomatch.

Ltac each_byte c := destruct c as [[] [] [] [] [] [] [] []].

Lemma append_inv_tail (a b t : string) : a +:+ t = b +:+ t -> a = b.
Proof.
  revert b. induction a as [|x a IH]; intros [|y b] H; [done| | |].
  - apply (f_equal String.length) in H. cbn in H. rewrite length_app in H. lia.
  - apply (f_equal String.length) in H. cbn in H. rewrite length_app in H. lia.
  - cbn in H. injection H as -> H. by rewrite (IH b H).
Qed.

Lemma escape_app (a b : string) (mode : encoding) :
  escape (a +:+ b) mode = escape a mode +:+ escape b mode.
Proof.
  induction a as [|c a IH]; [reflexivity|]. cbn [String.append escape].
  rewrite IH. destruct (shouldEscape c mode); [|reflexivity].
  by destruct (Ascii.eqb c " " && encoding_eqb mode encodeQueryComponent).
Qed.

Lemma hostByte_cases (c : ascii) :
  hostByte c = true ->
  (shouldEscape c encodeHost = false /\ c <> "%"%char)
  \/ c = "%"%char
  \/ (shouldEscape c encodeHost = true /\ byte.isASCII c = false).
Proof. each_byte c; cbn; intros H; try discriminate H; auto. Qed.

Lemma zoneByte_cases (c : ascii) :
  zoneByte c = true -> hostByte c = true \/ c = " "%char.
Proof.
  unfold zoneByte. intros [H|H]%orb_prop; [by left|].
  right. by apply Ascii.eqb_eq.
Qed.

Lemma hostByte_zoneByte (c : ascii) : hostByte c = true -> zoneByte c = true.
Proof. unfold zoneByte. by intros ->. Qed.

Lemma hostByte_lower (c : ascii) :
  byte.isASCII c = true -> hostByte c = true -> hostByte (strings.lowerByte c) = true.
Proof. each_byte c; cbn; intros H1 H2; try discriminate; reflexivity. Qed.

Lemma zoneByte_lower (c : ascii) :
  byte.isASCII c = true -> zoneByte c = true -> zoneByte (strings.lowerByte c) = true.
Proof. each_byte c; cbn; intros H1 H2; try discriminate; reflexivity. Qed.

Lemma unhex_upperhex_high (c : ascii) :
  byte.isASCII c = false ->
  (unhex (upperhex (N_of_ascii c / 16)) <? 8)%N = false /\
  Ascii.eqb (upperhex (N_of_ascii c / 16)) "2" = false.
Proof. each_byte c; cbn; intros H; try discriminate H; by split. Qed.

Lemma upperhex_not_percent (c : ascii) :
  Ascii.eqb (upperhex (N_of_ascii c / 16)) "%" = false /\
  Ascii.eqb (upperhex (N_of_ascii c mod 16)) "%" = false.
Proof. each_byte c; by split. Qed.

Lemma escape_host_percent (s : string) :
  escape (String "%" s) encodeHost
  = String "%" (String "2" (String "5" (escape s encodeHost))).
Proof. reflexivity. Qed.

Lemma escape_host_escaped (c : ascii) (s : string) :
  shouldEscape c encodeHost = true ->
  escape (String c s) encodeHost
  = String "%" (String (upperhex (N_of_ascii c / 16))
                  (String (upperhex (N_of_ascii c mod 16)) (escape s encodeHost))).
Proof. intros Hc. cbn [escape encoding_eqb]. by rewrite Hc, andb_false_r. Qed.

(** a host written by [escape] is read back by [unescape] *)
Lemma unescape_escape_host (s : string) :
  strings.forallb hostByte s = true ->
  unescape (escape s encodeHost) encodeHost = Ok s.
Proof.
  induction s as [|c s IH]; [reflexivity|]. cbn [strings.forallb].
  intros [Hc Hs]%andb_prop. specialize (IH Hs).
  destruct (hostByte_cases c Hc) as [[Hesc Hpct] | [-> | [Hesc Hhigh]]].
  - rewrite (escape_cons_kept _ _ _ Hesc).
    cbn [unescape]. apply Ascii.eqb_neq in Hpct. rewrite Hpct, Hesc, IH.
    rewrite andb_false_r. cbn. by destruct (Ascii.eqb_spec c "+") as [->|].
  - rewrite escape_host_percent.
    cbn [unescape]. cbn -[unescape escape]. by rewrite IH.
  - rewrite (escape_host_escaped _ _ Hesc).
    cbn [unescape Ascii.eqb Bool.eqb]. cbn [andb]. rewrite ishex_upperhex.
    destruct (unhex_upperhex_high c Hhigh) as [-> _].
    cbn [negb encoding_eqb andb]. rewrite IH. cbn. by rewrite unhex2_upperhex.
Qed.

Lemma zoneByte_ascii_cases (c : ascii) :
  byte.isASCII c = true -> zoneByte c = true ->
  (shouldEscape c encodeHost = false /\ c <> "%"%char)
  \/ c = "%"%char \/ c = " "%char.
Proof. each_byte c; cbn; intros H1 H2; try discriminate; auto. Qed.

(** and a zone in ASCII, written by [escape], by [unescape] *)
Lemma unescape_escape_zone (s : string) :
  strings.forallb byte.isASCII s = true ->
  strings.forallb zoneByte s = true ->
  unescape (escape s encodeHost) encodeZone = Ok s.
Proof.
  induction s as [|c s IH]; [reflexivity|]. cbn [strings.forallb].
  intros [Ha Has]%andb_prop [Hc Hs]%andb_prop. specialize (IH Has Hs).
  destruct (zoneByte_ascii_cases c Ha Hc) as [[Hesc Hpct] | [-> | ->]].
  - rewrite (escape_cons_kept _ _ _ Hesc).
    cbn [unescape]. apply Ascii.eqb_neq in Hpct. rewrite Hpct, Hesc, IH.
    rewrite andb_false_r. cbn. by destruct (Ascii.eqb_spec c "+") as [->|].
  - rewrite escape_host_percent.
    cbn [unescape]. cbn -[unescape escape]. by rewrite IH.
  - rewrite (escape_host_escaped " " s eq_refl).
    cbn [unescape]. cbn -[unescape escape]. by rewrite IH.
Qed.

Lemma unhex2_high (a b : ascii) :
  (unhex a <? 8)%N = false -> byte.isASCII (unhex2 a b) = false.
Proof.
  intros H%N.ltb_ge. unfold byte.isASCII, unhex2.
  pose proof (unhex_bound a). pose proof (unhex_bound b).
  rewrite N_ascii_embedding by lia. apply N.ltb_ge. lia.
Qed.

(** [unescape] of a host or of a zone, by the bytes it reads: an
    escape that the mode admits, or a byte that needs no escape *)
Lemma unescape_host_ind (mode : encoding) (P : string -> string -> Prop) :
  encoding_eqb mode encodeHost || encoding_eqb mode encodeZone = true ->
  P "" "" ->
  (forall a b s t,
     ishex a && ishex b = true ->
     encoding_eqb mode encodeHost && (unhex a <? 8)%N
     && negb (String.eqb (String "%" (String a (String b ""))) "%25") = false ->
     encoding_eqb mode encodeZone
     && negb (String.eqb (String "%" (String a (String b ""))) "%25")
     && negb (Ascii.eqb (unhex2 a b) " ")
     && shouldEscape (unhex2 a b) encodeHost = false ->
     unescape s mode = Ok t -> P s t ->
     P (String "%" (String a (String b s))) (String (unhex2 a b) t)) ->
  (forall c s t,
     c <> "%"%char ->
     byte.isASCII c && shouldEscape c encodeHost = false ->
     unescape s mode = Ok t -> P s t ->
     P (String c s) (String c t)) ->
  forall s t, unescape s mode = Ok t -> P s t.
Proof.
  intros Hmode Hnil Hescape Hbyte s.
  assert (encoding_eqb mode encodeQueryComponent = false) as Hquery
    by (by destruct mode).
  remember (String.length s) as n eqn:Hn.
  assert (String.length s <= n)%nat as Hlen by lia. clear Hn.
  revert s Hlen. induction n as [|n IH]; intros s Hlen t.
  - destruct s; [|cbn in Hlen; lia]. cbn. by intros [= <-].
  - destruct s as [|c s]; [cbn; by intros [= <-]|].
    cbn [unescape]. destruct (Ascii.eqb_spec c "%") as [->|Hpct].
    + destruct s as [|a [|b s]]; try done.
      destruct (ishex a && ishex b) eqn:Hhex; [|done]. cbn [negb strings.take].
      destruct (encoding_eqb mode encodeHost && (unhex a <? 8)%N
                && negb (String.eqb (String "%" (String a (String b ""))) "%25"))
        eqn:Hhost; [done|].
      destruct (encoding_eqb mode encodeZone
                && negb (String.eqb (String "%" (String a (String b ""))) "%25")
                && negb (Ascii.eqb (unhex2 a b) " ")
                && shouldEscape (unhex2 a b) encodeHost) eqn:Hzone; [done|].
      destruct (unescape s mode) as [t'|] eqn:Ht; [|done]. cbn.
      intros [= <-]. apply Hescape; try done.
      apply IH; [cbn in Hlen; lia | done].
    + rewrite Hquery, Hmode. cbn [andb].
      destruct (Ascii.eqb_spec c "+") as [->|Hplus].
      * destruct (unescape s mode) as [t'|] eqn:Ht; [|done]. cbn.
        intros [= <-]. apply Hbyte; try done.
        apply IH; [cbn in Hlen; lia | done].
      * destruct (byte.isASCII c && shouldEscape c encodeHost) eqn:Hc; [done|].
        destruct (unescape s mode) as [t'|] eqn:Ht; [|done]. cbn.
        intros [= <-]. apply Hbyte; try done.
        apply IH; [cbn in Hlen; lia | done].
Qed.

(** the steps of [unescape], read forwards *)
Lemma unescape_host_escape (mode : encoding) (a b : ascii) (s : string) :
  ishex a && ishex b = true ->
  encoding_eqb mode encodeHost && (unhex a <? 8)%N
  && negb (String.eqb (String "%" (String a (String b ""))) "%25") = false ->
  encoding_eqb mode encodeZone
  && negb (String.eqb (String "%" (String a (String b ""))) "%25")
  && negb (Ascii.eqb (unhex2 a b) " ")
  && shouldEscape (unhex2 a b) encodeHost = false ->
  unescape (String "%" (String a (String b s))) mode
  = t ← unescape s mode; Ok (String (unhex2 a b) t).
Proof.
  intros Hhex Hhost Hzone. cbn [unescape Ascii.eqb Bool.eqb strings.take].
  cbn [andb]. by rewrite Hhex, Hhost, Hzone.
Qed.

Lemma unescape_host_byte (mode : encoding) (c : ascii) (s : string) :
  encoding_eqb mode encodeHost || encoding_eqb mode encodeZone = true ->
  c <> "%"%char ->
  byte.isASCII c && shouldEscape c encodeHost = false ->
  unescape (String c s) mode = t ← unescape s mode; Ok (String c t).
Proof.
  intros Hmode Hpct%Ascii.eqb_neq Hc. cbn [unescape].
  assert (encoding_eqb mode encodeQueryComponent = false) as Hquery
    by (by destruct mode).
  rewrite Hpct, Hquery, Hmode. cbn [andb]. rewrite Hc.
  by destruct (Ascii.eqb_spec c "+") as [->|].
Qed.

(** the bytes of what [unescape] reads as a host, and as a zone *)
Lemma unescape_host_hostByte (s t : string) :
  unescape s encodeHost = Ok t -> strings.forallb hostByte t = true.
Proof.
  revert s t. apply unescape_host_ind; [done | done | |].
  - intros a b s t _ Hhost _ _ IH. cbn [strings.forallb]. rewrite IH, andb_true_r.
    cbn [encoding_eqb andb] in Hhost. apply andb_false_iff in Hhost as [H|H].
    + unfold hostByte. by rewrite (unhex2_high a b H).
    + apply negb_false_iff, String.eqb_eq in H. by injection H as -> ->.
  - intros c s t _ Hc _ IH. cbn [strings.forallb]. rewrite IH, andb_true_r.
    unfold hostByte. apply andb_false_iff in Hc as [-> | ->]; [done|].
    cbn. by rewrite orb_true_r.
Qed.

Lemma unescape_zone_zoneByte (s t : string) :
  unescape s encodeZone = Ok t -> strings.forallb zoneByte t = true.
Proof.
  revert s t. apply unescape_host_ind; [done | done | |].
  - intros a b s t _ _ Hzone _ IH. cbn [strings.forallb]. rewrite IH, andb_true_r.
    cbn [encoding_eqb andb] in Hzone.
    apply andb_false_iff in Hzone as [[H|H]%andb_false_iff | H].
    + apply negb_false_iff, String.eqb_eq in H. by injection H as -> ->.
    + apply negb_false_iff in H. unfold zoneByte. by rewrite H, orb_true_r.
    + unfold zoneByte, hostByte. rewrite H. cbn. by rewrite orb_true_r.
  - intros c s t _ Hc _ IH. cbn [strings.forallb]. rewrite IH, andb_true_r.
    apply hostByte_zoneByte.
    unfold hostByte. apply andb_false_iff in Hc as [-> | ->]; [done|].
    cbn. by rewrite orb_true_r.
Qed.

(** [unescape] of a host keeps its first byte a bracket or not *)
Lemma unescape_host_HasPrefix_bracket (s t : string) :
  unescape s encodeHost = Ok t ->
  strings.HasPrefix t "[" = strings.HasPrefix s "[".
Proof.
  revert s t. apply unescape_host_ind; [done | done | |].
  - intros a b s t _ Hhost _ _ _. cbn [strings.HasPrefix Ascii.eqb Bool.eqb andb].
    cbn [encoding_eqb andb] in Hhost. apply andb_false_iff in Hhost as [H|H].
    + pose proof (unhex2_high a b H) as Hhigh.
      destruct (Ascii.eqb_spec (unhex2 a b) "[") as [Heq|]; [|done].
      by rewrite Heq in Hhigh.
    + apply negb_false_iff, String.eqb_eq in H. by injection H as -> ->.
  - done.
Qed.

(** an ASCII byte other than [%] is in the host only where it was written *)
Lemma unescape_host_lacks (c : ascii) (s t : string) :
  byte.isASCII c = true -> c <> "%"%char ->
  unescape s encodeHost = Ok t -> lacks c s -> lacks c t.
Proof.
  intros Hascii Hpct. revert s t.
  apply (unescape_host_ind encodeHost (fun s t => lacks c s -> lacks c t));
    [done | done | |].
  - intros a b s t _ Hhost _ _ IH Hl.
    apply lacks_cons in Hl as [_ [_ [_ Hl]%lacks_cons]%lacks_cons].
    apply lacks_cons. split; [|by apply IH].
    cbn [encoding_eqb andb] in Hhost. apply andb_false_iff in Hhost as [H|H].
    + pose proof (unhex2_high a b H) as Hhigh. intros Heq. by rewrite Heq, Hascii in Hhigh.
    + apply negb_false_iff, String.eqb_eq in H. by injection H as -> ->.
  - intros d s t _ _ _ IH [Hd Hl]%lacks_cons. apply lacks_cons. split; [done|].
    by apply IH.
Qed.

Lemma Index_cons_None (c : ascii) (s sub : string) :
  strings.Index (String c s) sub = None -> strings.Index s sub = None.
Proof.
  cbn [strings.Index]. destruct (strings.HasPrefix (String c s) sub); [done|].
  by destruct (strings.Index s sub).
Qed.

(** a [%] is in the host only where [%25] was written *)
Lemma unescape_host_lacks_percent (s t : string) :
  unescape s encodeHost = Ok t ->
  strings.Index s "%25" = None -> lacks "%" t.
Proof.
  revert s t.
  apply (unescape_host_ind encodeHost
           (fun s t => strings.Index s "%25" = None -> lacks "%" t));
    [done | done | |].
  - intros a b s t _ Hhost _ _ IH Hi.
    apply lacks_cons. split.
    + cbn [encoding_eqb andb] in Hhost. apply andb_false_iff in Hhost as [H|H].
      * pose proof (unhex2_high a b H) as Hhigh. intros Heq. by rewrite Heq in Hhigh.
      * apply negb_false_iff, String.eqb_eq in H. injection H as -> ->.
        by cbn in Hi.
    + by apply IH, (Index_cons_None b), (Index_cons_None a), (Index_cons_None "%").
  - intros c s t Hc _ _ IH Hi. apply lacks_cons. split; [done|].
    by apply IH, (Index_cons_None c).
Qed.

(** [unescape] reads what is before a byte that is no hexadecimal
    digit, and what follows from that byte on, each on its own *)
Lemma unescape_host_app (mode : encoding) (s t : string) :
  encoding_eqb mode encodeHost || encoding_eqb mode encodeZone = true ->
  unescape s mode = Ok t ->
  forall x c y,
    s = x +:+ String c y -> ishex c = false ->
    exists tx ty,
      unescape x mode = Ok tx /\ unescape (String c y) mode = Ok ty /\
      t = tx +:+ ty.
Proof.
  intros Hmode. revert s t.
  apply (unescape_host_ind mode
           (fun s t =>
              forall x c y,
                s = x +:+ String c y -> ishex c = false ->
                exists tx ty,
                  unescape x mode = Ok tx /\ unescape (String c y) mode = Ok ty /\
                  t = tx +:+ ty)); [done | | |].
  - by intros [|? ?] c y.
  - intros a b s t Hhex Hhost Hzone Hs IH x c y Heq Hc.
    destruct x as [|x0 x].
    + exists "", (String (unhex2 a b) t). cbn in Heq. rewrite <- Heq.
      rewrite (unescape_host_escape mode a b s Hhex Hhost Hzone), Hs. by repeat split.
    + cbn in Heq. injection Heq as <- Heq.
      apply andb_prop in Hhex as [Ha Hb].
      destruct x as [|x1 x]; [cbn in Heq; injection Heq as -> _; congruence|].
      cbn in Heq. injection Heq as <- Heq.
      destruct x as [|x2 x]; [cbn in Heq; injection Heq as -> _; congruence|].
      cbn in Heq. injection Heq as <- Heq.
      destruct (IH x c y Heq Hc) as (tx & ty & Hx & Hy & ->).
      exists (String (unhex2 a b) tx), ty.
      rewrite (unescape_host_escape mode a b x), Hx; try done.
      by rewrite Ha, Hb.
  - intros d s t Hpct Hd Hs IH x c y Heq Hc.
    destruct x as [|x0 x].
    + exists "", (String d t). cbn in Heq. rewrite <- Heq.
      rewrite (unescape_host_byte mode d s Hmode Hpct Hd), Hs. by repeat split.
    + cbn in Heq. injection Heq as <- Heq.
      destruct (IH x c y Heq Hc) as (tx & ty & Hx & Hy & ->).
      exists (String d tx), ty.
      by rewrite (unescape_host_byte mode d x Hmode Hpct Hd), Hx.
Qed.

End host_bytes.

(** ** Hosts: [parseHost] of what [escape] wrote *)

Section host_written.

Import url.
#[local] Arguments String.append !s1 s2 / : simpl nomatch.

Ltac each_byte c := destruct c as [[] [] [] [] [] [] [] []].

Lemma escape_host_kept (s : string) :
  strings.forallb (fun c => negb (shouldEscape c encodeHost)) s = true ->
  escape s encodeHost = s.
Proof.
  induction s as [|c s IH]; [reflexivity|]. cbn [strings.forallb].
  intros [Hc Hs]%andb_prop. apply negb_true_iff in Hc.
  by rewrite (escape_cons_kept _ _ _ Hc), (IH Hs).
Qed.

(** a port is a colon and digits *)
Lemma validOptionalPort_bytes (port : string) :
  validOptionalPort port = true ->
  strings.forallb (fun c => Ascii.eqb c ":" || byte.isDigit c) port = true.
Proof.
  destruct port as [|c digits]; [done|]. cbn.
  intros [-> Hd]%andb_prop. cbn. revert Hd. apply forallb_impl.
  intros d ->. apply orb_true_r.
Qed.

Lemma portByte_facts (c : ascii) :
  Ascii.eqb c ":" || byte.isDigit c = true ->
  shouldEscape c encodeHost = false /\ byte.isASCII c = true /\
  strings.lowerByte c = c /\ c <> "]"%char /\ c <> "%"%char /\ c <> " "%char.
Proof. each_byte c; cbn; intros H; try discriminate H; repeat split; discriminate. Qed.

Lemma escape_port (port : string) :
  validOptionalPort port = true -> escape port encodeHost = port.
Proof.
  intros H%validOptionalPort_bytes. apply escape_host_kept. revert H.
  apply forallb_impl. intros c Hc. by destruct (portByte_facts c Hc) as (-> & _).
Qed.

Lemma port_kept (port : string) :
  validOptionalPort port = true ->
  strings.forallb (fun c => negb (shouldEscape c encodeHost)) port = true.
Proof.
  intros H%validOptionalPort_bytes. revert H. apply forallb_impl.
  intros c Hc. by destruct (portByte_facts c Hc) as (-> & _).
Qed.

Lemma unescape_host_kept (s : string) :
  strings.forallb (fun c => negb (shouldEscape c encodeHost)) s = true ->
  unescape s encodeHost = Ok s.
Proof.
  intros H. rewrite <- (escape_host_kept s H) at 1. apply unescape_escape_host.
  revert H. apply forallb_impl. intros c Hc. unfold hostByte.
  by rewrite Hc, orb_true_r.
Qed.

Lemma port_hostByte (port : string) :
  validOptionalPort port = true -> strings.forallb hostByte port = true.
Proof.
  intros H%validOptionalPort_bytes. revert H. apply forallb_impl.
  intros c Hc. destruct (portByte_facts c Hc) as (H & _).
  unfold hostByte. rewrite H. cbn. by rewrite orb_true_r.
Qed.

Lemma port_lacks (c : ascii) (port : string) :
  Ascii.eqb c ":" || byte.isDigit c = false ->
  validOptionalPort port = true -> lacks c port.
Proof.
  intros Hc H%validOptionalPort_bytes.
  by apply (lacks_of_forallb (fun c => Ascii.eqb c ":" || byte.isDigit c)).
Qed.

(** a byte that is not [%] and not a hexadecimal digit is written
    only where it stands *)
Lemma escape_lacks (c : ascii) (s : string) (mode : encoding) :
  c <> "%"%char -> c <> "+"%char -> ishex c = false ->
  lacks c s -> lacks c (escape s mode).
Proof.
  intros Hpct Hplus Hhex. induction s as [|d s IH]; [done|].
  intros [Hd Hs]%lacks_cons. specialize (IH Hs). cbn [escape].
  destruct (shouldEscape d mode); [|by apply lacks_cons].
  destruct (Ascii.eqb d " " && encoding_eqb mode encodeQueryComponent);
    [by apply lacks_cons|].
  pose proof (ishex_upperhex d) as [H1 H2]%andb_prop.
  repeat (apply lacks_cons; split); try done; intros Heq; congruence.
Qed.

Lemma escape_host_HasPrefix_bracket (h : string) :
  strings.HasPrefix (escape h encodeHost) "[" = strings.HasPrefix h "[".
Proof.
  destruct h as [|c h]; [reflexivity|].
  destruct (shouldEscape c encodeHost) eqn:Hc.
  - rewrite (escape_host_escaped _ _ Hc). cbn.
    destruct (Ascii.eqb_spec c "[") as [->|_]; [discriminate | reflexivity].
  - by rewrite (escape_cons_kept _ _ _ Hc).
Qed.

(** no [%25] is written for a host without [%] *)
Lemma Index_escape_host (a r : string) :
  strings.forallb hostByte a = true -> lacks "%" a ->
  strings.Index (escape a encodeHost +:+ r) "%25"
  = (fun i => String.length (escape a encodeHost) + i)%nat <$> strings.Index r "%25".
Proof.
  induction a as [|c a IH].
  - intros _ _. cbn [escape String.append String.length].
    by destruct (strings.Index r "%25").
  - cbn [strings.forallb]. intros [Hc Ha]%andb_prop [Hpct Hl]%lacks_cons.
    specialize (IH Ha Hl).
    destruct (hostByte_cases c Hc) as [[Hesc _] | [-> | [Hesc Hhigh]]]; [| done |].
    + rewrite (escape_cons_kept _ _ _ Hesc).
      cbn [String.append strings.Index strings.HasPrefix String.length].
      apply Ascii.eqb_neq in Hpct. rewrite Hpct. cbn [andb]. rewrite IH.
      by destruct (strings.Index r "%25").
    + rewrite (escape_host_escaped _ _ Hesc).
      destruct (unhex_upperhex_high c Hhigh) as [_ H2].
      destruct (upperhex_not_percent c) as [Hx Hy].
      cbn [String.append strings.Index strings.HasPrefix String.length
           Ascii.eqb Bool.eqb].
      cbn [andb]. rewrite H2, Hx, Hy. cbn [andb]. rewrite IH.
      by destruct (strings.Index r "%25").
Qed.

(** what follows the last colon *)
Lemma portOK_inv (h : string) :
  portOK h = true ->
  lacks ":" h \/
  exists x digits, h = x +:+ String ":" digits /\
                   strings.forallb byte.isDigit digits = true.
Proof.
  unfold portOK. pose proof (LastIndex_byte_spec ":" h) as Hspec.
  destruct (strings.LastIndex h ":") as [i|]; [|by left].
  destruct Hspec as (Heq & _ & Hlen). intros Hport. right.
  exists (strings.take i h), (strings.drop (i + 1) h). split; [done|].
  rewrite Heq in Hport at 1. rewrite <- Hlen in Hport at 1.
  rewrite drop_app in Hport. cbn in Hport. done.
Qed.

Lemma portOK_port (x digits : string) :
  strings.forallb byte.isDigit digits = true ->
  portOK (x +:+ String ":" digits) = true.
Proof.
  intros Hd. unfold portOK.
  rewrite LastIndex_byte_last by (by apply (lacks_of_forallb byte.isDigit)).
  rewrite drop_app. cbn. exact Hd.
Qed.

Lemma portOK_lacks (h : string) : lacks ":" h -> portOK h = true.
Proof. intros H. unfold portOK. by rewrite LastIndex_byte_absent. Qed.

Lemma drop_app_cons (a b : string) (c : ascii) :
  strings.drop (String.length a + 1) (a +:+ String c b) = b.
Proof. induction a as [|x a IH]; [reflexivity | exact IH]. Qed.

(** a host without brackets, written and read *)
Lemma parseHost_written_name (h : string) :
  strings.HasPrefix h "[" = false ->
  strings.forallb hostByte h = true ->
  portOK h = true ->
  parseHost (escape h encodeHost) = Ok h.
Proof.
  intros Hnb Hbytes Hport. unfold parseHost.
  rewrite escape_host_HasPrefix_bracket, Hnb.
  pose proof (unescape_escape_host h Hbytes) as Hread.
  destruct (portOK_inv h Hport) as [Hl | (x & digits & Heq & Hd)].
  - by rewrite LastIndex_byte_absent by (by apply escape_lacks).
  - assert (validOptionalPort (String ":" digits) = true) as Hvalid by (by cbn).
    remember (escape h encodeHost) as written eqn:Hwritten.
    assert (written = escape x encodeHost +:+ String ":" digits) as Hpieces.
    { by rewrite Hwritten, Heq, escape_app, (escape_port _ Hvalid). }
    assert (strings.LastIndex written ":" = Some (String.length (escape x encodeHost)))
      as ->.
    { rewrite Hpieces.
      by rewrite LastIndex_byte_last by (by apply (lacks_of_forallb byte.isDigit)). }
    assert (strings.drop (String.length (escape x encodeHost)) written
            = String ":" digits) as -> by (by rewrite Hpieces, drop_app).
    by rewrite Hvalid.
Qed.

(** an IP literal in brackets, with a zone in ASCII if it has one,
    written and read *)
Lemma parseHost_written_literal (a z port : string) :
  strings.HasPrefix (a +:+ z +:+ String "]" port) "[" = true ->
  lacks "%" a -> strings.forallb hostByte a = true ->
  z = "" \/ strings.HasPrefix z "%" = true ->
  strings.forallb zoneByte z = true ->
  strings.forallb byte.isASCII z = true ->
  validOptionalPort port = true ->
  parseHost (escape (a +:+ z +:+ String "]" port) encodeHost)
  = Ok (a +:+ z +:+ String "]" port).
Proof.
  intros Hbracket Hla Ha Hz Hzone Hascii Hport. unfold parseHost.
  rewrite escape_host_HasPrefix_bracket, Hbracket.
  remember (escape (a +:+ z +:+ String "]" port) encodeHost) as written eqn:Hwritten.
  set (wa := escape a encodeHost) in *. set (wz := escape z encodeHost) in *.
  assert (written = (wa +:+ wz) +:+ String "]" port) as Hpieces.
  { rewrite Hwritten, !escape_app. change (String "]" port) with ("]" +:+ port).
    rewrite escape_app, (escape_port _ Hport). by rewrite app_assoc. }
  assert (strings.LastIndex written "]" = Some (String.length (wa +:+ wz))) as ->.
  { rewrite Hpieces. by rewrite LastIndex_byte_last by (by apply port_lacks). }
  assert (strings.drop (String.length (wa +:+ wz) + 1) written = port) as ->
    by (by rewrite Hpieces, drop_app_cons).
  assert (strings.take (String.length (wa +:+ wz)) written = wa +:+ wz) as ->
    by (by rewrite Hpieces, take_app).
  assert (strings.drop (String.length (wa +:+ wz)) written = String "]" port) as ->
    by (by rewrite Hpieces, drop_app).
  rewrite Hport. cbn [negb].
  pose proof (Index_escape_host a wz Ha Hla) as Hindex. fold wa in Hindex.
  rewrite Hindex. clear Hindex.
  assert (strings.forallb hostByte (String "]" port) = true) as Hlast
    by (cbn; by apply port_hostByte).
  destruct Hz as [-> | Hpct].
  - cbn [escape strings.Index strings.HasPrefix] in *.
    cbn [fmap option_fmap option_map]. rewrite Hwritten.
    apply unescape_escape_host. by rewrite forallb_app, Ha.
  - apply HasPrefix_inv in Hpct. cbn in Hpct.
    set (z' := strings.drop 1 z) in *.
    assert (strings.Index wz "%25" = Some 0%nat) as ->.
    { unfold wz. by rewrite Hpct, escape_host_percent. }
    cbn [fmap option_fmap option_map]. rewrite Nat.add_0_r.
    assert (strings.take (String.length wa) written = wa) as ->
      by (by rewrite Hpieces, app_assoc, take_app).
    rewrite drop_app. unfold wa, wz.
    rewrite (unescape_escape_host a Ha). cbn [mbind result_bind rbind].
    rewrite (unescape_escape_zone z Hascii Hzone). cbn [mbind result_bind rbind].
    assert (unescape (String "]" port) encodeHost = Ok (String "]" port)) as ->.
    { rewrite <- (escape_port port Hport) at 1.
      change (String "]" (escape port encodeHost))
        with (escape (String "]" port) encodeHost).
      by apply unescape_escape_host. }
    reflexivity.
Qed.

End host_written.
(** ** [strings.ToLower] of any string *)

Section lower_casing.

Import url.
#[local] Arguments String.append !s1 s2 / : simpl nomatch.

Ltac each_byte c := destruct c as [[] [] [] [] [] [] [] []].

Variable lower : string -> string.
Hypothesis Hlower : canonical.lowerCasing lower.

Lemma lower_cons_ascii (c : ascii) (s : string) :
  byte.isASCII c = true -> lower (String c s) = String (strings.lowerByte c) (lower s).
Proof.
  intros Hc. change (String c s) with ("" +:+ String c s).
  by rewrite (canonical.lower_ascii lower Hlower), (canonical.lower_nil lower Hlower).
Qed.

(** on ASCII it is [strings.ToLower] *)
Lemma lower_ToLower (s : string) :
  strings.forallb byte.isASCII s = true -> lower s = strings.ToLower s.
Proof.
  induction s as [|c s IH]; [intros _; apply (canonical.lower_nil lower Hlower)|].
  cbn [strings.forallb strings.ToLower]. intros [Hc Hs]%andb_prop.
  by rewrite (lower_cons_ascii c s Hc), (IH Hs).
Qed.

Lemma lower_port (port : string) :
  validOptionalPort port = true -> lower port = port.
Proof.
  intros H%validOptionalPort_bytes.
  rewrite lower_ToLower.
  - induction port as [|c port IH]; [reflexivity|]. cbn in *.
    apply andb_prop in H as [Hc Hp].
    destruct (portByte_facts c Hc) as (_ & _ & -> & _). by rewrite (IH Hp).
  - revert H. apply forallb_impl. intros c Hc.
    by destruct (portByte_facts c Hc) as (_ & -> & _).
Qed.

Lemma lower_scheme (scheme : string) :
  scheme = "http" \/ scheme = "https" -> lower scheme = scheme.
Proof. intros [-> | ->]; by rewrite lower_ToLower. Qed.

(** a string is a run of bytes from 0x80 up, and then nothing or an
    ASCII byte and the rest *)
Lemma run_split (s : string) :
  exists a rest,
    s = a +:+ rest /\
    strings.forallb (fun c => negb (byte.isASCII c)) a = true /\
    (rest = "" \/ exists c b, rest = String c b /\ byte.isASCII c = true).
Proof.
  induction s as [|c s (a & rest & -> & Ha & Hrest)].
  - exists "", "". repeat split; by left.
  - destruct (byte.isASCII c) eqn:Hc.
    + exists "", (String c (a +:+ rest)). repeat split. right. by exists c, (a +:+ rest).
    + exists (String c a), rest. repeat split; [|done]. cbn. by rewrite Hc, Ha.
Qed.

Lemma lower_run_forallb (q : ascii -> bool) (a : string) :
  (forall c, byte.isASCII c = false -> q c = true) ->
  (forall c, byte.isLower c = true -> q c = true) ->
  strings.forallb (fun c => negb (byte.isASCII c)) a = true ->
  strings.forallb q (lower a) = true.
Proof.
  intros Hhigh Hletter Ha. destruct a as [|x a].
  - by rewrite (canonical.lower_nil lower Hlower).
  - destruct (canonical.lower_run lower Hlower (String x a)) as (_ & H); [done | done |].
    revert H. apply forallb_impl. intros c [H|H]%orb_prop.
    + apply Hhigh. by apply negb_true_iff.
    + by apply Hletter.
Qed.

(** what holds of every byte of a string holds of every byte of its
    lower case, if it holds of the bytes from 0x80 up and of the
    lower-case letters, and of the lower case of an ASCII byte as of
    the byte *)
Lemma lower_forallb (q : ascii -> bool) (s : string) :
  (forall c, byte.isASCII c = false -> q c = true) ->
  (forall c, byte.isLower c = true -> q c = true) ->
  (forall c, byte.isASCII c = true -> q c = true -> q (strings.lowerByte c) = true) ->
  strings.forallb q s = true -> strings.forallb q (lower s) = true.
Proof.
  intros Hhigh Hletter Hascii.
  remember (String.length s) as n eqn:Hn.
  assert (String.length s <= n)%nat as Hlen by lia. clear Hn.
  revert s Hlen. induction n as [|n IH]; intros s Hlen Hs.
  - destruct s; [|cbn in Hlen; lia]. by rewrite (canonical.lower_nil lower Hlower).
  - destruct (run_split s) as (a & rest & -> & Ha & [-> | (c & b & -> & Hc)]).
    + rewrite app_nil_r. by apply lower_run_forallb.
    + rewrite (canonical.lower_ascii lower Hlower) by done.
      rewrite forallb_app in Hs. apply andb_prop in Hs as [_ Hs]. cbn in Hs.
      apply andb_prop in Hs as [Hqc Hb].
      rewrite forallb_app. cbn [strings.forallb].
      rewrite (lower_run_forallb q a Hhigh Hletter Ha), (Hascii c Hc Hqc). cbn.
      apply IH; [|done]. rewrite length_app in Hlen. cbn in Hlen. lia.
Qed.

Lemma lower_lacks (c : ascii) (s : string) :
  byte.isASCII c = true -> byte.isLetter c = false ->
  lacks c s -> lacks c (lower s).
Proof.
  intros Hc Hl. unfold lacks. apply lower_forallb.
  - intros d Hd. apply negb_true_iff, Ascii.eqb_neq. intros ->. congruence.
  - intros d Hd. apply negb_true_iff, Ascii.eqb_neq. intros ->.
    unfold byte.isLetter in Hl. by rewrite Hd in Hl.
  - intros d _. revert Hc Hl. clear. each_byte c; cbn; try discriminate;
      intros _ _; each_byte d; cbn; try discriminate; reflexivity.
Qed.

Lemma lower_hostByte (s : string) :
  strings.forallb hostByte s = true -> strings.forallb hostByte (lower s) = true.
Proof.
  apply lower_forallb.
  - intros c Hc. unfold hostByte. by rewrite Hc.
  - intros c. each_byte c; cbn; intros H; try discriminate H; reflexivity.
  - apply hostByte_lower.
Qed.

Lemma lower_zoneByte (s : string) :
  strings.forallb zoneByte s = true -> strings.forallb zoneByte (lower s) = true.
Proof.
  apply lower_forallb.
  - intros c Hc. unfold zoneByte, hostByte. by rewrite Hc.
  - intros c. each_byte c; cbn; intros H; try discriminate H; reflexivity.
  - apply zoneByte_lower.
Qed.

(** the lower case begins with a bracket when the string does *)
Lemma lower_HasPrefix_bracket (s : string) :
  strings.HasPrefix (lower s) "[" = strings.HasPrefix s "[".
Proof.
  destruct (run_split s) as (a & rest & -> & Ha & Hrest).
  destruct a as [|x a].
  - cbn [String.append]. destruct Hrest as [-> | (c & b & -> & Hc)].
    + by rewrite (canonical.lower_nil lower Hlower).
    + rewrite (lower_cons_ascii c b Hc). cbn. f_equal.
      clear. each_byte c; reflexivity.
  - cbn [strings.forallb] in Ha. apply andb_prop in Ha as [Hx Ha'].
    assert (strings.forallb (fun c => negb (byte.isASCII c)) (String x a) = true)
      as Hrun by (cbn; by rewrite Hx, Ha').
    destruct (canonical.lower_run lower Hlower (String x a)) as (Hne & Hbytes);
      [done | done |].
    assert (strings.HasPrefix (lower (String x a)) "[" = false) as Hno.
    { destruct (lower (String x a)) as [|y l]; [done|]. cbn in *.
      apply andb_prop in Hbytes as [Hy _]. rewrite andb_true_r.
      apply Ascii.eqb_neq. intros ->. by cbn in Hy. }
    assert (forall t, strings.HasPrefix (lower (String x a) +:+ t) "[" = false)
      as Hnot.
    { intros t. destruct (lower (String x a)) as [|y l]; [done|]. exact Hno. }
    assert (Ascii.eqb x "[" = false) as Hxb.
    { apply Ascii.eqb_neq. intros ->. by cbn in Hx. }
    cbn [String.append strings.HasPrefix]. rewrite Hxb. cbn [andb].
    destruct Hrest as [-> | (c & b & -> & Hc)].
    + rewrite app_nil_r. exact Hno.
    + change (String x (a +:+ String c b)) with (String x a +:+ String c b).
      rewrite (canonical.lower_ascii lower Hlower) by done. apply Hnot.
Qed.

(** a port is kept *)
Lemma portOK_lower (h : string) : portOK h = true -> portOK (lower h) = true.
Proof.
  intros [Hl | (x & digits & -> & Hd)]%portOK_inv.
  - by apply portOK_lacks, lower_lacks.
  - rewrite (canonical.lower_ascii lower Hlower) by done.
    assert (validOptionalPort (String ":" digits) = true) as Hvalid by (by cbn).
    pose proof (lower_port _ Hvalid) as Hkept.
    rewrite (lower_cons_ascii ":" digits eq_refl) in Hkept. injection Hkept as ->.
    by apply portOK_port.
Qed.

(** the guarantees of [parseHost] hold of the host in lower case *)
Lemma hostParsed_lower (h : string) : hostParsed h -> hostParsed (lower h).
Proof.
  intros (Hzone & Hliteral & Hname).
  split; [by apply lower_zoneByte|].
  rewrite lower_HasPrefix_bracket. split.
  - intros Hb. destruct (Hliteral Hb) as (a & z & port & -> & Hla & Ha & Hz & Hport).
    rewrite <- app_assoc.
    rewrite (canonical.lower_ascii lower Hlower) by done.
    rewrite (lower_port port Hport).
    change (strings.lowerByte "]") with "]"%char.
    destruct Hz as [-> | Hpct].
    + exists (lower a), "", port. rewrite app_nil_r.
      repeat split; try done; [by apply lower_lacks | by apply lower_hostByte | by left].
    + apply HasPrefix_inv in Hpct. cbn in Hpct. rewrite Hpct.
      rewrite (canonical.lower_ascii lower Hlower) by done.
      change (strings.lowerByte "%") with "%"%char.
      exists (lower a), (String "%" (lower (strings.drop 1 z))), port.
      rewrite <- app_assoc.
      repeat split; try done; [by apply lower_lacks | by apply lower_hostByte | by right].
  - intros Hb. destruct (Hname Hb) as (Hbytes & Hport).
    split; [by apply lower_hostByte | by apply portOK_lower].
Qed.

End lower_casing.

(** [strings.ToLower] is such a function *)
Lemma ToLower_lowerCasing : canonical.lowerCasing strings.ToLower.
Proof.
  split.
  - apply ToLower_idemp.
  - reflexivity.
  - intros a c b _. by rewrite ToLower_app.
  - intros a Hne Ha.
    assert (strings.ToLower a = a) as ->.
    { clear Hne. induction a as [|c a IH]; [reflexivity|]. cbn in *.
      apply andb_prop in Ha as [Hc Ha]. rewrite (IH Ha). f_equal.
      revert Hc. clear. destruct c as [[] [] [] [] [] [] [] []]; cbn; try discriminate;
        reflexivity. }
    split; [done|]. revert Ha. apply forallb_impl. by intros c ->.
Qed.

(** ** Writing a URL and parsing it again *)

Section url_roundtrip.

Import url.
#[local] Arguments String.append !s1 s2 / : simpl nomatch.

Lemma Path_not_star (p : string) :
  p = "" \/ strings.HasPrefix p "/" = true -> String.eqb p "*" = false.
Proof. intros [->|H]; [reflexivity|]. by destruct p as [|[[] [] [] [] [] [] [] []] p]. Qed.

Lemma EscapedPath_unescape (u : URL) :
  String.eqb (Path u) "*" = false ->
  unescape (EscapedPath u) encodePath = Ok (Path u).
Proof.
  intros Hstar. unfold EscapedPath.
  destruct (negb (String.eqb (RawPath u) "") && validEncoded (RawPath u) encodePath
            && match unescape (RawPath u) encodePath with
               | Ok p => String.eqb p (Path u)
               | Err _ => false
               end) eqn:Hraw.
  - apply andb_prop in Hraw as [_ Hraw].
    destruct (unescape (RawPath u) encodePath) as [p|]; [|done].
    by apply String.eqb_eq in Hraw as ->.
  - rewrite Hstar. by apply unescape_escape.
Qed.

Lemma EscapedPath_nil (u : URL) : Path u = "" -> EscapedPath u = "".
Proof.
  intros HP. unfold EscapedPath. rewrite HP.
  destruct (RawPath u) as [|c r] eqn:HR; [reflexivity|].
  destruct (unescape (String c r) encodePath) as [p|] eqn:Hu;
    [|by rewrite andb_false_r].
  destruct (String.eqb_spec p "") as [->|Hne]; [|by rewrite andb_false_r].
  by apply unescape_nil_inv in Hu.
Qed.

(** [EscapedPath] is the same after [setPath] of its own result *)
Lemma EscapedPath_reparsed (u : URL) :
  String.eqb (Path u) "*" = false ->
  EscapedPath (reparsed u) = EscapedPath u.
Proof.
  intros Hstar. unfold reparsed, rawPathFor.
  destruct (String.eqb_spec (EscapedPath u) (escape (Path u) encodePath)) as [Heq|Hne].
  - unfold EscapedPath at 1. cbn. by rewrite Hstar.
  - unfold EscapedPath at 1. cbn [RawPath Path].
    revert Hne. unfold EscapedPath.
    destruct (negb (String.eqb (RawPath u) "") && validEncoded (RawPath u) encodePath
              && match unescape (RawPath u) encodePath with
                 | Ok p => String.eqb p (Path u)
                 | Err _ => false
                 end) eqn:Hraw.
    + intros _. by rewrite Hraw.
    + rewrite Hstar. done.
Qed.

Lemma getScheme_http (rest : string) :
  getScheme ("http:" +:+ rest) = Ok ("http", rest).
Proof. reflexivity. Qed.

Lemma getScheme_https (rest : string) :
  getScheme ("https:" +:+ rest) = Ok ("https", rest).
Proof. reflexivity. Qed.

Lemma HasSuffix_byte_app (a b : string) (c : ascii) :
  b <> "" ->
  strings.HasSuffix (a +:+ b) (String c "") = strings.HasSuffix b (String c "").
Proof.
  intros Hb. unfold strings.HasSuffix. rewrite length_app.
  destruct b as [|d b]; [done|]. cbn [String.length].
  replace (1 <=? String.length a + S (String.length b))%nat with true
    by (symmetry; apply Nat.leb_le; lia).
  cbn [Nat.leb andb].
  replace (String.length a + S (String.length b) - 1)%nat
    with (String.length a + String.length b)%nat by lia.
  replace (S (String.length b) - 1)%nat with (String.length b) by lia.
  f_equal. clear. induction a as [|x a IH]; [reflexivity|]. exact IH.
Qed.

Lemma cutQuery_printed (body : string) (forceQuery : bool) (rawQuery : string) :
  lacks "?" body ->
  (forceQuery = true -> rawQuery = "") ->
  cutQuery (body +:+ queryPart forceQuery rawQuery) = (body, forceQuery, rawQuery).
Proof.
  intros Hbody Hforce. unfold queryPart, cutQuery.
  destruct forceQuery.
  - rewrite (Hforce eq_refl). cbn [orb].
    rewrite HasSuffix_app, CountByte_app.
    apply CountByte_lacks in Hbody. rewrite Hbody. cbn.
    rewrite length_app. cbn.
    replace (String.length body + 1 - 1)%nat with (String.length body) by lia.
    by rewrite take_app.
  - cbn [orb]. destruct (String.eqb_spec rawQuery "") as [->|Hne]; cbn [negb].
    + rewrite app_nil_r.
      assert (strings.HasSuffix body "?" = false) as ->.
      { destruct (strings.HasSuffix body "?") eqn:H; [|done].
        by apply HasSuffix_byte in H. }
      cbn. by rewrite Cut_byte_absent.
    + assert (strings.HasSuffix (body +:+ "?" +:+ rawQuery) "?"
              && (strings.CountByte (body +:+ "?" +:+ rawQuery) "?" =? 1)%nat = false) as ->.
      { apply andb_false_iff.
        destruct (strings.HasSuffix (body +:+ "?" +:+ rawQuery) "?") eqn:Hs; [|by left].
        right. apply Nat.eqb_neq. rewrite !CountByte_app.
        apply CountByte_lacks in Hbody. rewrite Hbody. cbn.
        intros Hcount.
        rewrite <- app_assoc, HasSuffix_byte_app in Hs by done.
        apply HasSuffix_byte in Hs. apply Hs. apply CountByte_lacks. lia. }
      change (body +:+ "?" +:+ rawQuery) with (body +:+ String "?" rawQuery).
      by rewrite Cut_byte_first.
Qed.

Lemma cutAuthority_printed (authority q : string) :
  lacks "/" authority ->
  q = "" \/ strings.HasPrefix q "/" = true ->
  cutAuthority ("//" +:+ authority +:+ q) = (authority, q).
Proof.
  intros Ha Hq. unfold cutAuthority. cbn [String.append strings.drop].
  destruct Hq as [->|Hq].
  - rewrite app_nil_r. by rewrite Index_byte_absent.
  - apply HasPrefix_inv in Hq. cbn in Hq. rewrite Hq.
    rewrite Index_byte_first by done. by rewrite take_app, drop_app.
Qed.

Lemma Contains_byte_absent (c : ascii) (s : string) :
  lacks c s -> strings.Contains s (String c "") = false.
Proof. intros H. unfold strings.Contains. by rewrite Index_byte_absent. Qed.

Lemma Contains_byte_present (c : ascii) (a b : string) :
  lacks c a -> strings.Contains (a +:+ String c b) (String c "") = true.
Proof. intros H. unfold strings.Contains. by rewrite Index_byte_first. Qed.

Lemma escape_userinfo_lacks (c : ascii) (s : string) :
  inUserinfo c = false -> lacks c (escape s encodeUserPassword).
Proof.
  intros Hc. apply (lacks_of_forallb inUserinfo); [done|].
  apply escape_userinfo_inUserinfo.
Qed.

(** no [@], [/], [?] or [#] is written for a host *)
Lemma escape_host_written (h : string) :
  strings.forallb (fun c => inUserinfo c || Ascii.eqb c ":") (escape h encodeHost)
  = true.
Proof.
  apply escape_forallb; try reflexivity.
  - intros c. destruct c as [[] [] [] [] [] [] [] []]; reflexivity.
  - intros c. destruct c as [[] [] [] [] [] [] [] []]; cbn; intros H;
      try reflexivity; discriminate H.
Qed.

Lemma parseAuthority_printed (u : URL) :
  parseHost (escape (Host u) encodeHost) = Ok (Host u) ->
  (forall ui, User u = Some ui -> passwordSet ui = false -> password ui = "") ->
  parseAuthority (authorityPart u) = Ok (User u, Host u).
Proof.
  intros Hhost Hpw. unfold authorityPart, userPart.
  assert (lacks "@" (escape (Host u) encodeHost)) as Hat.
  { apply (lacks_of_forallb (fun c => inUserinfo c || Ascii.eqb c ":"));
      [reflexivity | apply escape_host_written]. }
  remember (escape (Host u) encodeHost) as written eqn:Hwritten.
  destruct (User u) as [ui|] eqn:Hui.
  - unfold parseAuthority. rewrite app_assoc.
    change ("@" +:+ written) with (String "@" written).
    rewrite LastIndex_byte_last by done.
    rewrite drop_app_cons, take_app, Hhost. cbn [mbind].
    change (rbind (Ok (Host u)) ?k) with (k (Host u)). cbn beta.
    unfold Userinfo_String.
    destruct ui as [un pw pwset]. cbn [username password passwordSet] in *.
    destruct pwset.
    + assert (validUserinfo (escape un encodeUserPassword +:+ ":"
                             +:+ escape pw encodeUserPassword) = true) as ->.
      { unfold validUserinfo.
        rewrite forallb_app. cbn.
        fold (validUserinfo (escape un encodeUserPassword)).
        fold (validUserinfo (escape pw encodeUserPassword)).
        by rewrite !escape_userinfo_valid. }
      cbn [negb].
      change (escape un encodeUserPassword +:+ ":" +:+ escape pw encodeUserPassword)
        with (escape un encodeUserPassword
              +:+ String ":" (escape pw encodeUserPassword)).
      rewrite Contains_byte_present by (by apply escape_userinfo_lacks).
      cbn [negb].
      rewrite Cut_byte_first by (by apply escape_userinfo_lacks).
      rewrite !unescape_escape by done. reflexivity.
    + rewrite app_nil_r, escape_userinfo_valid. cbn [negb].
      rewrite Contains_byte_absent by (by apply escape_userinfo_lacks).
      cbn [negb]. rewrite unescape_escape by done. cbn.
      pose proof (Hpw _ eq_refl eq_refl) as Hnil. cbn in Hnil. by subst pw.
  - cbn [String.append]. unfold parseAuthority.
    rewrite LastIndex_byte_absent by done.
    by rewrite Hhost.
Qed.

End url_roundtrip.

Section url_written.

Import url.
#[local] Arguments String.append !s1 s2 / : simpl nomatch.

Lemma eqb_cons_nil (c : ascii) (s : string) : String.eqb (String c s) "" = false.
Proof. reflexivity. Qed.

Lemma escapedPath_rooted (u : URL) :
  settled u ->
  negb (String.eqb (EscapedPath u) "") && negb (strings.HasPrefix (EscapedPath u) "/")
  = false.
Proof.
  intros Hs. destruct (settled_path u Hs) as [[Hnil|Hroot] _].
  - by rewrite (EscapedPath_nil u Hnil).
  - destruct (settled_escapedPath u Hs) as (_ & Hpre & _).
    rewrite (Hpre Hroot). apply andb_false_r.
Qed.

(** what [URL.String] writes for a settled URL *)
Lemma URL_String_settled (u : URL) :
  settled u ->
  URL_String u
  = Scheme u +:+ ":" +:+ bodyPart u +:+ queryPart (ForceQuery u) (RawQuery u).
Proof.
  intros Hs. unfold URL_String, bodyPart, queryPart, authorityPart, userPart, hasSlashes.
  rewrite (settled_fragment u Hs). cbn [String.eqb negb].
  pose proof (escapedPath_rooted u Hs) as Hrooted.
  destruct (settled_scheme u Hs) as [-> | ->]; cbn [String.eqb Ascii.eqb negb orb andb].
  all: destruct (String.eqb (Opaque u) "") eqn:Hop; cbn [negb];
    [|destruct (ForceQuery u || negb (String.eqb (RawQuery u) ""));
      by rewrite ?app_assoc, ?app_nil_r].
  all: destruct (OmitHost u && String.eqb (Host u) "" && negb (isSome (User u))) eqn:Homit.
  all: rewrite ?Hrooted; cbn [andb].
  all: try (destruct (ForceQuery u || negb (String.eqb (RawQuery u) ""));
            by rewrite ?app_assoc, ?app_nil_r).
  all: destruct (String.eqb_spec (Host u) "") as [Hh|Hh]; cbn [negb orb andb];
    rewrite ?Hh; cbn [escape];
    destruct (User u) as [ui|]; cbn [isSome orb];
    try destruct (String.eqb (Path u) ""); cbn [negb orb];
    rewrite ?Hrooted, ?andb_false_r; cbn [andb];
    destruct (ForceQuery u || negb (String.eqb (RawQuery u) ""));
    rewrite ?app_assoc, ?app_nil_r; cbn [String.append]; try reflexivity.
  all: cbn [String.eqb andb];
    repeat (progress (rewrite ?app_assoc, ?app_nil_r; cbn [String.append]));
    reflexivity.
Qed.

End url_written.

Section url_reparsed.

Import url.
#[local] Arguments String.append !s1 s2 / : simpl nomatch.

Ltac each_byte c := destruct c as [[] [] [] [] [] [] [] []].

Lemma inUserinfo_inPath (c : ascii) : inUserinfo c = true -> inPath c = true.
Proof. unfold inUserinfo. by intros [H _]%andb_prop. Qed.

Lemma inPath_inQuery (c : ascii) : inPath c = true -> inQuery c = true.
Proof. each_byte c; cbn; intros H; try discriminate H; reflexivity. Qed.

Lemma Userinfo_String_inUserinfo_or_colon (ui : Userinfo) :
  strings.forallb (fun c => inUserinfo c || Ascii.eqb c ":") (Userinfo_String ui) = true.
Proof.
  unfold Userinfo_String. rewrite forallb_app.
  assert (forall s, strings.forallb (fun c => inUserinfo c || Ascii.eqb c ":")
                      (escape s encodeUserPassword) = true) as Hesc.
  { intros s. apply (forallb_impl inUserinfo); [|apply escape_userinfo_inUserinfo].
    intros c ->. reflexivity. }
  rewrite Hesc. destruct (passwordSet ui); [|reflexivity].
  rewrite forallb_app. cbn. apply Hesc.
Qed.

Lemma authorityPart_forallb (p : ascii -> bool) (u : URL) :
  p "@"%char = true -> p ":"%char = true ->
  (forall c, inUserinfo c = true -> p c = true) ->
  strings.forallb p (authorityPart u) = true.
Proof.
  intros Hat Hcolon Hui. unfold authorityPart, userPart.
  assert (forall s,
            strings.forallb (fun c => inUserinfo c || Ascii.eqb c ":") s = true ->
            strings.forallb p s = true) as Himpl.
  { intros s. apply forallb_impl.
    intros c [H|H]%orb_prop; [by apply Hui|].
    by apply Ascii.eqb_eq in H as ->. }
  rewrite forallb_app, (Himpl _ (escape_host_written (Host u))), andb_true_r.
  destruct (User u) as [ui|]; [|reflexivity].
  rewrite forallb_app. cbn. rewrite Hat, andb_true_r.
  apply Himpl, Userinfo_String_inUserinfo_or_colon.
Qed.

Lemma authorityPart_lacks_slash (u : URL) : lacks "/" (authorityPart u).
Proof.
  unfold lacks. apply authorityPart_forallb; try done.
  intros c. each_byte c; cbn; intros H; try discriminate H; reflexivity.
Qed.

Lemma bodyPart_inPath (u : URL) :
  settled u -> strings.forallb inPath (bodyPart u) = true.
Proof.
  intros Hs. unfold bodyPart.
  destruct (settled_escapedPath u Hs) as (Hq & _).
  destruct (String.eqb_spec (Opaque u) "") as [Hop|Hop]; cbn [negb].
  - destruct (OmitHost u && String.eqb (Host u) "" && negb (isSome (User u)));
      [done|].
    rewrite !forallb_app, Hq, andb_true_r.
    apply andb_true_intro. split; [by destruct (hasSlashes u)|].
    apply authorityPart_forallb; try done.
    apply inUserinfo_inPath.
  - by destruct (settled_opaque u Hs Hop) as (H & _).
Qed.

Lemma setPath_escaped (v u : URL) :
  String.eqb (Path u) "*" = false ->
  setPath v (EscapedPath u)
  = Ok (withPath v (Path u) (rawPathFor (EscapedPath u) (Path u))).
Proof.
  intros Hstar. unfold setPath. rewrite (EscapedPath_unescape u Hstar).
  cbn. unfold rawPathFor.
  by destruct (String.eqb (EscapedPath u) (escape (Path u) encodePath)).
Qed.

Lemma settled_not_star (u : URL) : settled u -> String.eqb (Path u) "*" = false.
Proof. intros Hs. apply Path_not_star. by destruct (settled_path u Hs). Qed.

Lemma settled_scheme_eqb (u : URL) :
  settled u -> String.eqb (Scheme u) "" = false.
Proof. intros Hs. by destruct (settled_scheme u Hs) as [-> | ->]. Qed.

Lemma parseHierarchy_printed (u : URL) :
  settled u ->
  parseHierarchy (Scheme u) (bodyPart u) (ForceQuery u) (RawQuery u)
  = Ok (reparsed u).
Proof.
  intros Hs. unfold parseHierarchy, bodyPart.
  rewrite (settled_scheme_eqb u Hs). cbn [negb andb orb].
  pose proof (settled_not_star u Hs) as Hstar.
  destruct (settled_host u Hs) as (Hhost & _).
  destruct (String.eqb_spec (Opaque u) "") as [Hop|Hop]; cbn [negb].
  - destruct (OmitHost u && String.eqb (Host u) "" && negb (isSome (User u)))
      eqn:Homit.
    + (* no authority: the path follows the scheme *)
      apply andb_prop in Homit as [[Ho Hh]%andb_prop Hu].
      apply String.eqb_eq in Hh. apply negb_true_iff in Hu.
      destruct (settled_omitHost u Hs Ho) as (Huser & _ & Hroot).
      destruct (settled_escapedPath u Hs) as (_ & Hpre & Hslashes).
      rewrite (Hpre Hroot), (Hslashes Ho). cbn [negb andb].
      rewrite (setPath_escaped _ u Hstar). unfold reparsed, withPath. cbn.
      by rewrite Hop, Huser, Hh, Ho.
    + assert (OmitHost u = false) as Ho.
      { destruct (OmitHost u) eqn:Ho; [|done].
        destruct (settled_omitHost u Hs Ho) as (Huser & Hh & _).
        by rewrite Hh, Huser in Homit. }
      destruct (hasSlashes u) eqn:Hsl.
      * (* an authority *)
        cbn [String.append strings.HasPrefix Ascii.eqb andb negb].
        change (String "/" (String "/" (authorityPart u +:+ EscapedPath u)))
          with ("//" +:+ authorityPart u +:+ EscapedPath u).
        rewrite cutAuthority_printed.
        -- rewrite parseAuthority_printed; try done.
           ++ cbn. rewrite (setPath_escaped _ u Hstar). unfold reparsed, withPath. cbn.
              by rewrite Hop, Ho.
           ++ apply (settled_user u Hs).
        -- apply authorityPart_lacks_slash.
        -- destruct (settled_path u Hs) as [[Hnil|Hroot] _].
           ++ left. by apply EscapedPath_nil.
           ++ right. by apply (settled_escapedPath u Hs).
      * (* nothing after the scheme *)
        unfold hasSlashes in Hsl.
        apply orb_false_iff in Hsl as [[Hh HP]%orb_false_iff Hu].
        apply negb_false_iff, String.eqb_eq in Hh, HP.
        unfold authorityPart, userPart. destruct (User u) eqn:Huser; [done|].
        rewrite Hh, (EscapedPath_nil u HP). cbn.
        unfold reparsed. rewrite (EscapedPath_nil u HP), Hop, Huser, Hh, HP, Ho.
        reflexivity.
  - (* opaque *)
    destruct (settled_opaque u Hs Hop) as (_ & Hpre & Huser & Hh & HP & HR & Ho).
    rewrite Hpre. cbn [negb andb]. unfold reparsed.
    by rewrite (EscapedPath_nil u HP), Huser, Hh, HP, Ho.
Qed.

(** a settled URL, written and parsed, is the same URL again *)
Lemma Parse_String_settled (u : URL) :
  settled u -> Parse (URL_String u) = Ok (reparsed u).
Proof.
  intros Hs. rewrite (URL_String_settled u Hs).
  pose proof (bodyPart_inPath u Hs) as Hbody.
  assert (strings.forallb inQuery
            (Scheme u +:+ ":" +:+ bodyPart u
             +:+ queryPart (ForceQuery u) (RawQuery u)) = true) as Hclean.
  { rewrite !forallb_app.
    rewrite (forallb_impl _ _ _ inPath_inQuery Hbody).
    assert (strings.forallb inQuery (queryPart (ForceQuery u) (RawQuery u)) = true) as ->.
    { unfold queryPart.
      destruct (ForceQuery u || negb (String.eqb (RawQuery u) "")); [|reflexivity].
      cbn. apply (settled_rawQuery u Hs). }
    by destruct (settled_scheme u Hs) as [-> | ->]. }
  unfold Parse. rewrite Cut_byte_absent.
  2: { apply (lacks_of_forallb inQuery); [reflexivity | exact Hclean]. }
  cbn [String.eqb]. unfold parse.
  assert (stringContainsCTLByte
            (Scheme u +:+ ":" +:+ bodyPart u
             +:+ queryPart (ForceQuery u) (RawQuery u)) = false) as ->.
  { unfold stringContainsCTLByte. rewrite existsb_forallb. apply negb_false_iff.
    revert Hclean. apply forallb_impl. intros c. unfold inQuery.
    by intros [_ H]%andb_prop. }
  assert (getScheme (Scheme u +:+ ":" +:+ bodyPart u
                     +:+ queryPart (ForceQuery u) (RawQuery u))
          = Ok (Scheme u, bodyPart u +:+ queryPart (ForceQuery u) (RawQuery u))
          /\ String.eqb (Scheme u +:+ ":" +:+ bodyPart u
                         +:+ queryPart (ForceQuery u) (RawQuery u)) "*" = false
          /\ strings.ToLower (Scheme u) = Scheme u) as (-> & -> & Hlower).
  { by destruct (settled_scheme u Hs) as [-> | ->]. }
  cbn [mbind result_bind rbind]. rewrite Hlower.
  rewrite cutQuery_printed.
  - rewrite (parseHierarchy_printed u Hs). reflexivity.
  - apply (lacks_of_forallb inPath); [reflexivity | exact Hbody].
  - apply (settled_forceQuery u Hs).
Qed.

End url_reparsed.

Section url_fixed.

Import url.
#[local] Arguments String.append !s1 s2 / : simpl nomatch.

Lemma Canonicalize_unfold (rawURL : string) :
  urlutil.Canonicalize rawURL =
  match Parse rawURL with
  | Err e => Err (urlutil.ParseFailed e)
  | Ok u =>
      if negb (IsAbs u)
         || (negb (String.eqb (Scheme u) "http") && negb (String.eqb (Scheme u) "https"))
      then Err urlutil.NotAbsoluteHTTP
      else Ok (URL_String (canonicalURL u))
  end.
Proof. reflexivity. Qed.

Lemma bodyPart_reparsed (u : URL) :
  settled u -> bodyPart (reparsed u) = bodyPart u.
Proof.
  intros Hs. unfold bodyPart, authorityPart, userPart, hasSlashes.
  rewrite (EscapedPath_reparsed u (settled_not_star u Hs)). reflexivity.
Qed.

Lemma settled_reparsed (u : URL) : settled u -> settled (reparsed u).
Proof.
  intros Hs. pose proof (EscapedPath_reparsed u (settled_not_star u Hs)) as HE.
  split; try rewrite HE.
  - apply (settled_scheme u Hs).
  - reflexivity.
  - apply (settled_forceQuery u Hs).
  - apply (settled_rawQuery u Hs).
  - cbn. intros Hop. destruct (settled_opaque u Hs Hop) as (? & ? & ? & ? & HP & ? & ?).
    repeat split; try done. by rewrite (EscapedPath_nil u HP), HP.
  - apply (settled_host u Hs).
  - apply (settled_path u Hs).
  - apply (settled_escapedPath u Hs).
  - apply (settled_user u Hs).
  - apply (settled_omitHost u Hs).
Qed.

Lemma Canonicalize_with_unfold (lower : string -> string) (rawURL : string) :
  canonical.Canonicalize lower rawURL =
  match Parse rawURL with
  | Err e => Err (urlutil.ParseFailed e)
  | Ok u =>
      if negb (IsAbs u)
         || (negb (String.eqb (Scheme u) "http") && negb (String.eqb (Scheme u) "https"))
      then Err urlutil.NotAbsoluteHTTP
      else Ok (URL_String (canonicalURLWith lower u))
  end.
Proof. reflexivity. Qed.

(** with [strings.ToLower] it is [urlutil.Canonicalize] *)
Lemma Canonicalize_with_ToLower (rawURL : string) :
  canonical.Canonicalize strings.ToLower rawURL = urlutil.Canonicalize rawURL.
Proof. reflexivity. Qed.

(** the four rules leave a settled URL in lower case as it is *)
Lemma canonicalURL_settled (lower : string -> string) (u : URL) :
  settled u ->
  lower (Scheme u) = Scheme u -> lower (Host u) = Host u ->
  RawFragment u = "" -> canonicalURLWith lower u = u.
Proof.
  intros Hs Hscheme Hlower Hrf. unfold canonicalURLWith.
  destruct (settled_host u Hs) as (_ & Hport).
  destruct (settled_path u Hs) as (_ & Htrim).
  pose proof (settled_fragment u Hs) as Hfrag.
  unfold hasDefaultPort in Hport.
  destruct u as [sch op us h p rp om fq rq fr rfr]. cbn in *.
  rewrite Hscheme, Hlower, Hport. cbn. rewrite Htrim. by subst.
Qed.

(** a settled URL in lower case is written as a fixed point of
    [Canonicalize] *)
Lemma Canonicalize_String_settled (lower : string -> string) (u : URL) :
  settled u ->
  lower (Scheme u) = Scheme u -> lower (Host u) = Host u ->
  canonical.Canonicalize lower (URL_String u) = Ok (URL_String u).
Proof.
  intros Hs Hscheme Hlower.
  rewrite Canonicalize_with_unfold, (Parse_String_settled u Hs).
  pose proof (settled_reparsed u Hs) as Hs'.
  assert (negb (IsAbs (reparsed u))
          || (negb (String.eqb (Scheme (reparsed u)) "http")
              && negb (String.eqb (Scheme (reparsed u)) "https")) = false) as ->.
  { unfold IsAbs. cbn. by destruct (settled_scheme u Hs) as [-> | ->]. }
  rewrite (canonicalURL_settled lower _ Hs' Hscheme Hlower eq_refl).
  rewrite (URL_String_settled _ Hs'), (URL_String_settled _ Hs).
  by rewrite (bodyPart_reparsed u Hs).
Qed.

End url_fixed.

(** ** What [url.Parse] guarantees *)

Section url_parsed.

Import url.
#[local] Arguments String.append !s1 s2 / : simpl nomatch.

Ltac each_byte c := destruct c as [[] [] [] [] [] [] [] []].

Lemma getScheme_from_rest (p : ascii -> bool) (rawURL rest0 scheme rest : string) (i : nat) :
  getScheme_from rawURL i rest0 = Ok (scheme, rest) ->
  strings.forallb p rawURL = true -> strings.forallb p rest0 = true ->
  strings.forallb p rest = true.
Proof.
  revert i. induction rest0 as [|c rest0 IH]; intros i; cbn [getScheme_from].
  - by intros [= _ <-].
  - intros H Hraw [Hc Hrest]%andb_prop. revert H.
    destruct (byte.isLetter c); [intros H; by apply (IH _ H)|].
    destruct (byte.isDigit c || byte.oneOf c "+-.").
    { destruct i; [by intros [= _ <-] | intros H; by apply (IH _ H)]. }
    destruct (Ascii.eqb c ":").
    { destruct i; [done | by intros [= _ <-]]. }
    by intros [= _ <-].
Qed.

Lemma getScheme_rest (p : ascii -> bool) (rawURL scheme rest : string) :
  getScheme rawURL = Ok (scheme, rest) ->
  strings.forallb p rawURL = true -> strings.forallb p rest = true.
Proof. intros H Hraw. by apply (getScheme_from_rest p rawURL rawURL scheme rest 0). Qed.

Lemma cutQuery_spec (rest0 : string) :
  let '(rest, forceQuery, rawQuery) := cutQuery rest0 in
  lacks "?" rest /\ (forceQuery = true -> rawQuery = "") /\
  forall p, strings.forallb p rest0 = true ->
            strings.forallb p rest = true /\ strings.forallb p rawQuery = true.
Proof.
  unfold cutQuery.
  destruct (strings.HasSuffix rest0 "?" && (strings.CountByte rest0 "?" =? 1)%nat)
    eqn:Hforce.
  - apply andb_prop in Hforce as [Hsuffix Hcount]. apply Nat.eqb_eq in Hcount.
    apply HasSuffix_inv in Hsuffix. cbn [String.length] in Hsuffix.
    split; [|split; [done|]].
    + rewrite Hsuffix, CountByte_app in Hcount. cbn in Hcount.
      apply CountByte_lacks. lia.
    + intros p Hp. split; [by apply forallb_take | reflexivity].
  - pose proof (Cut_byte_spec "?" rest0) as Hcut. unfold strings.Cut in *.
    destruct (strings.Index rest0 "?") as [i|].
    + destruct Hcut as (Hl & _ & _). split; [done|]. split; [done|].
      intros p Hp. split; [by apply forallb_take | by apply forallb_drop].
    + destruct Hcut as (Hl & _ & _). split; [done|]. split; [done|].
      intros p Hp. by split.
Qed.

Lemma Index_byte_found (c : ascii) (s : string) (i : nat) :
  strings.Index s (String c "") = Some i ->
  strings.HasPrefix (strings.drop i s) (String c "") = true.
Proof.
  revert i. induction s as [|d s IH]; intros i; [done|].
  cbn [strings.Index strings.HasPrefix]. rewrite andb_true_r.
  destruct (Ascii.eqb d c) eqn:Hd.
  - intros [= <-]. cbn. by rewrite Hd.
  - destruct (strings.Index s (String c "")) as [j|]; [|done].
    cbn. intros [= <-]. cbn. by apply IH.
Qed.

Lemma cutAuthority_spec (rest : string) :
  let '(authority, rest') := cutAuthority rest in
  (rest' = "" \/ strings.HasPrefix rest' "/" = true) /\
  forall p, strings.forallb p rest = true -> strings.forallb p rest' = true.
Proof.
  unfold cutAuthority.
  destruct (strings.Index (strings.drop 2 rest) "/") as [i|] eqn:Hi.
  - split; [right; by apply Index_byte_found|].
    intros p Hp. by apply forallb_drop, forallb_drop.
  - split; [by left | done].
Qed.

Lemma plainHost_not_bracket (h : string) :
  strings.forallb spec.plainHostByte h = true -> strings.HasPrefix h "[" = false.
Proof.
  destruct h as [|c h]; [done|]. cbn.
  intros [Hc _]%andb_prop. apply plainHostByte_facts in Hc as (_ & _ & _ & Hc & _).
  apply Ascii.eqb_neq in Hc. by rewrite Hc.
Qed.

Lemma HasPrefix_app_l (a b p : string) :
  strings.HasPrefix a p = true -> strings.HasPrefix (a +:+ b) p = true.
Proof.
  revert a. induction p as [|x p IH]; intros a; [done|].
  destruct a as [|c a]; [done|]. cbn.
  intros [-> Ha]%andb_prop. cbn. by apply IH.
Qed.

Lemma HasPrefix_take (n : nat) (s p : string) :
  strings.HasPrefix (strings.take n s) p = true -> strings.HasPrefix s p = true.
Proof.
  intros H. rewrite <- (take_drop n s). by apply HasPrefix_app_l.
Qed.

(** the first place of a string in another *)
Lemma Index_spec (s sub : string) (z : nat) :
  strings.HasPrefix "" sub = false ->
  strings.Index s sub = Some z ->
  s = strings.take z s +:+ strings.drop z s /\
  String.length (strings.take z s) = z /\
  strings.HasPrefix (strings.drop z s) sub = true /\
  strings.Index (strings.take z s) sub = None.
Proof.
  intros Hsub. revert z. induction s as [|c s IH]; intros z.
  - cbn [strings.Index]. by rewrite Hsub.
  - cbn [strings.Index]. destruct (strings.HasPrefix (String c s) sub) eqn:Hpre.
    + intros [= <-]. cbn [strings.take strings.drop strings.Index]. by rewrite Hsub.
    + destruct (strings.Index s sub) as [z'|] eqn:Hz; [|done]. cbn.
      intros [= <-]. destruct (IH z' eq_refl) as (Heq & Hlen & Hdrop & Hnone).
      cbn [strings.take strings.drop String.length String.append strings.Index].
      rewrite <- Heq, Hlen, Hnone. repeat split; [done|].
      destruct (strings.HasPrefix (String c (strings.take z' s)) sub) eqn:Htake; [|done].
      apply (HasPrefix_take (S z') (String c s)) in Htake. congruence.
Qed.

Lemma unescape_zone_percent (z t : string) :
  strings.HasPrefix z "%25" = true ->
  unescape z encodeZone = Ok t -> strings.HasPrefix t "%" = true.
Proof.
  intros H%HasPrefix_inv. rewrite H. cbn [strings.drop String.length String.append].
  cbn [unescape]. cbn -[unescape].
  destruct (unescape _ encodeZone); [|done]. cbn. by intros [= <-].
Qed.

(** the host that [parseHost] returns *)
Lemma parseHost_parsed (t h : string) : parseHost t = Ok h -> hostParsed h.
Proof.
  unfold parseHost. destruct (strings.HasPrefix t "[") eqn:Hbracket.
  - (* an IP literal *)
    pose proof (LastIndex_byte_spec "]" t) as Hspec.
    destruct (strings.LastIndex t "]") as [i|]; [|done].
    destruct Hspec as (Heq & _ & Hlen).
    destruct (validOptionalPort (strings.drop (i + 1) t)) eqn:Hport; [|done].
    cbn [negb].
    remember (strings.take i t) as r eqn:Hr. clear Hr.
    remember (strings.drop (i + 1) t) as port eqn:Hp. clear Hp.
    subst t i. rewrite drop_app.
    assert (unescape (String "]" port) encodeHost = Ok (String "]" port)) as Hlast.
    { apply unescape_host_kept. cbn. by apply port_kept. }
    assert (strings.forallb zoneByte (String "]" port) = true) as Hlastz.
    { cbn. apply (forallb_impl hostByte); [apply hostByte_zoneByte|].
      by apply port_hostByte. }
    destruct (strings.Index r "%25") as [zone|] eqn:Hzone.
    + destruct (Index_spec r "%25" zone eq_refl Hzone) as (Heq & Hlen & Hpct & Hnone).
      remember (strings.take zone r) as a eqn:Ha. clear Ha.
      remember (strings.drop zone r) as z eqn:Hz. clear Hz.
      subst r zone. rewrite app_assoc, take_app.
      destruct (unescape a encodeHost) as [host1|] eqn:H1; [|done].
      cbn [mbind result_bind rbind].
      destruct (unescape z encodeZone) as [host2|] eqn:H2; [|done].
      cbn [mbind result_bind rbind]. rewrite Hlast. cbn [mbind result_bind rbind].
      intros [= <-].
      pose proof (unescape_host_hostByte _ _ H1) as Hb1.
      pose proof (unescape_zone_zoneByte _ _ H2) as Hb2.
      assert (strings.HasPrefix host1 "[" = true) as Hpre.
      { rewrite (unescape_host_HasPrefix_bracket _ _ H1).
        destruct a as [|x a]; [|exact Hbracket].
        cbn [String.append] in Hbracket. apply HasPrefix_inv in Hpct.
        rewrite Hpct in Hbracket. done. }
      split.
      { rewrite !forallb_app, Hb2, Hlastz, !andb_true_r.
        revert Hb1. apply forallb_impl, hostByte_zoneByte. }
      rewrite (HasPrefix_app_l _ _ _ Hpre). split; [|done]. intros _.
      exists host1, host2, port. split; [done|].
      split; [by apply (unescape_host_lacks_percent a)|]. split; [done|].
      split; [|done]. right. by apply (unescape_zone_percent z).
    + intros Hread.
      destruct (unescape_host_app encodeHost _ _ eq_refl Hread r "]" port eq_refl eq_refl)
        as (a & last & Ha & Hl & ->).
      rewrite Hlast in Hl. injection Hl as <-.
      pose proof (unescape_host_hostByte _ _ Ha) as Hba.
      split.
      { rewrite forallb_app, Hlastz, andb_true_r.
        revert Hba. apply forallb_impl, hostByte_zoneByte. }
      rewrite (unescape_host_HasPrefix_bracket _ _ Hread), Hbracket.
      split; [|done]. intros _. exists a, "", port. split; [done|].
      split; [by apply (unescape_host_lacks_percent r)|]. split; [done|].
      split; [by left | done].
  - (* a name *)
    assert (unescape t encodeHost = Ok h -> portOK t = true -> hostParsed h) as Hname.
    { intros Hread Hport. pose proof (unescape_host_hostByte _ _ Hread) as Hb.
      split; [revert Hb; apply forallb_impl, hostByte_zoneByte|].
      rewrite (unescape_host_HasPrefix_bracket _ _ Hread), Hbracket.
      split; [done|]. intros _. split; [done|].
      destruct (portOK_inv t Hport) as [Hl | (x & digits & -> & Hd)].
      - by apply portOK_lacks, (unescape_host_lacks ":" t).
      - destruct (unescape_host_app encodeHost _ _ eq_refl Hread x ":" digits
                    eq_refl eq_refl) as (a & last & _ & Hl & ->).
        rewrite unescape_host_kept in Hl.
        + injection Hl as <-. by apply portOK_port.
        + apply (port_kept (String ":" digits)). by cbn. }
    unfold portOK in Hname.
    destruct (strings.LastIndex t ":") as [i|].
    + destruct (validOptionalPort (strings.drop i t)) eqn:Hport; [|done].
      cbn [negb]. intros Hread. by apply Hname.
    + intros Hread. by apply Hname.
Qed.

Lemma parseAuthority_spec (authority host : string) (user : option Userinfo) :
  parseAuthority authority = Ok (user, host) ->
  hostParsed host /\
  (forall ui, user = Some ui -> passwordSet ui = false -> password ui = "").
Proof.
  unfold parseAuthority.
  destruct (strings.LastIndex authority "@") as [i|].
  - destruct (parseHost (strings.drop (i + 1) authority)) as [h|] eqn:Hhost; [|done].
    cbn [mbind result_bind rbind].
    destruct (negb (validUserinfo (strings.take i authority))); [done|].
    destruct (negb (strings.Contains (strings.take i authority) ":")).
    + destruct (unescape (strings.take i authority) encodeUserPassword); [|done].
      cbn. intros [= <- <-]. split; [by apply (parseHost_parsed _ _ Hhost)|].
      by intros ui [= <-].
    + destruct (strings.Cut (strings.take i authority) ":") as [[un pw] found].
      destruct (unescape un encodeUserPassword); [|done]. cbn.
      destruct (unescape pw encodeUserPassword); [|done]. cbn.
      intros [= <- <-]. split; [by apply (parseHost_parsed _ _ Hhost)|].
      by intros ui [= <-].
  - destruct (parseHost authority) as [h|] eqn:Hhost; [|done]. cbn.
    intros [= <- <-]. split; [by apply (parseHost_parsed _ _ Hhost) | done].
Qed.

Lemma setPath_spec (v u : URL) (p : string) :
  setPath v p = Ok u ->
  exists path,
    unescape p encodePath = Ok path /\
    (u = withPath v path "" \/ (u = withPath v path p /\ p <> "")).
Proof.
  unfold setPath. destruct (unescape p encodePath) as [path|] eqn:Hu; [|done].
  cbn. destruct (String.eqb_spec p (escape path encodePath)) as [Heq|Hne].
  - intros [= <-]. exists path. split; [done | by left].
  - intros [= <-]. exists path. split; [done|]. right. split; [done|].
    intros ->. cbn in Hu. injection Hu as <-. done.
Qed.

Lemma unescape_path_rooted (p path : string) :
  unescape p encodePath = Ok path ->
  p = "" \/ strings.HasPrefix p "/" = true ->
  path = "" \/ strings.HasPrefix path "/" = true.
Proof.
  intros Hu [->|Hp].
  - left. cbn in Hu. by injection Hu.
  - right. by apply (unescape_path_HasPrefix_slash p).
Qed.

Lemma parseHierarchy_parsed (scheme rest : string) (forceQuery : bool)
    (rawQuery : string) (u : URL) :
  scheme <> "" ->
  strings.forallb inPath rest = true ->
  strings.forallb inQuery rawQuery = true ->
  (forceQuery = true -> rawQuery = "") ->
  parseHierarchy scheme rest forceQuery rawQuery = Ok u ->
  Scheme u = scheme /\ parsed u.
Proof.
  intros Hscheme Hrest Hquery Hforce. unfold parseHierarchy.
  apply String.eqb_neq in Hscheme. rewrite Hscheme. cbn [negb andb orb].
  destruct (strings.HasPrefix rest "/") eqn:Hroot; cbn [negb andb].
  - destruct (strings.HasPrefix rest "//") eqn:Hslashes.
    + (* an authority *)
      pose proof (cutAuthority_spec rest) as Hcut.
      destruct (cutAuthority rest) as [authority rest'].
      destruct Hcut as (Hrest' & Hclean).
      destruct (parseAuthority authority) as [[user host]|] eqn:Hauth; [|done].
      cbn [mbind result_bind rbind].
      apply parseAuthority_spec in Hauth as (Hhost & Huser).
      intros (path & Hu & Hcases)%setPath_spec.
      pose proof (unescape_path_rooted _ _ Hu Hrest') as Hpath.
      destruct Hcases as [-> | [-> Hne]]; (split; [reflexivity|]); split; cbn; try done.
      intros _. split; [by apply Hclean|]. split; [|done].
      by destruct Hrest'.
    + (* no authority *)
      intros (path & Hu & Hcases)%setPath_spec.
      pose proof (unescape_path_HasPrefix_slash _ _ Hu Hroot) as Hpath.
      destruct Hcases as [-> | [-> Hne]]; (split; [reflexivity|]); split; cbn; try done;
        try (by right).
  - (* opaque *)
    intros [= <-]. split; [reflexivity|]. split; cbn; try done; try (by left).
Qed.

Lemma parse_parsed (rawURL : string) (u : URL) :
  lacks "#" rawURL ->
  parse rawURL = Ok u ->
  Scheme u <> "" ->
  parsed u.
Proof.
  intros Hhash. unfold parse.
  destruct (stringContainsCTLByte rawURL) eqn:Hctl; [done|].
  destruct (String.eqb rawURL "*"); [by intros [= <-]|].
  destruct (getScheme rawURL) as [[scheme rest0]|] eqn:Hscheme; [|done].
  cbn [mbind result_bind rbind].
  assert (strings.forallb inQuery rawURL = true) as Hclean.
  { unfold stringContainsCTLByte in Hctl. rewrite existsb_forallb in Hctl.
    apply negb_false_iff in Hctl. unfold inQuery.
    clear -Hctl Hhash. unfold lacks in Hhash.
    induction rawURL as [|c s IH]; [done|]. cbn in *.
    apply andb_prop in Hctl as [-> Hs]. apply andb_prop in Hhash as [-> Hh].
    cbn. by apply IH. }
  pose proof (getScheme_rest inQuery _ _ _ Hscheme Hclean) as Hrest0.
  pose proof (cutQuery_spec rest0) as Hcut.
  destruct (cutQuery rest0) as [[rest forceQuery] rawQuery].
  destruct Hcut as (Hlacks & Hforce & Hpieces).
  destruct (Hpieces inQuery Hrest0) as (Hrest & Hquery).
  intros Hparse Hnonempty.
  destruct (String.eqb_spec (strings.ToLower scheme) "") as [Heq|Hne].
  - exfalso. revert Hparse. rewrite Heq. unfold parseHierarchy. cbn [String.eqb negb andb orb].
    rewrite andb_false_r.
    destruct (negb (strings.HasPrefix rest "/")
              && strings.Contains (strings.Cut rest "/").1.1 ":"); [done|].
    destruct (negb (strings.HasPrefix rest "///") && strings.HasPrefix rest "//").
    + destruct (cutAuthority rest) as [authority rest'].
      destruct (parseAuthority authority) as [[user host]|]; [|done].
      cbn. intros (path & _ & [-> | [-> _]])%setPath_spec; by apply Hnonempty.
    + intros (path & _ & [-> | [-> _]])%setPath_spec; by apply Hnonempty.
  - apply (parseHierarchy_parsed _ rest forceQuery rawQuery u Hne); try done.
    unfold inPath. clear -Hrest Hlacks. unfold lacks in Hlacks.
    induction rest as [|c s IH]; [done|]. cbn in *.
    apply andb_prop in Hrest as [Hc Hs]. apply andb_prop in Hlacks as [-> Hl].
    unfold inQuery in Hc. apply andb_prop in Hc as [-> ->]. cbn. by apply IH.
Qed.

Lemma parsed_withFragment (u : URL) (fragment rawFragment : string) :
  parsed u -> parsed (withFragment u fragment rawFragment).
Proof. intros [? ? ? ? ? ? ? ?]. by split. Qed.

(** the guarantees of [url.Parse] for a URL with a scheme *)
Lemma Parse_parsed (rawURL : string) (u : URL) :
  Parse rawURL = Ok u -> Scheme u <> "" -> parsed u.
Proof.
  unfold Parse. pose proof (Cut_byte_spec "#" rawURL) as Hcut.
  destruct (strings.Cut rawURL "#") as [[u0 frag] found].
  destruct Hcut as (Hlacks & _ & _).
  destruct (parse u0) as [url|] eqn:Hparse; [|done]. cbn [mbind result_bind rbind].
  destruct (String.eqb frag "").
  - intros [= <-] Hscheme. by apply (parse_parsed u0).
  - unfold setFragment. destruct (unescape frag encodeFragment) as [f|]; [|done].
    cbn. destruct (String.eqb frag (escape f encodeFragment)); intros [= <-] Hscheme;
      apply parsed_withFragment; by apply (parse_parsed u0).
Qed.

End url_parsed.

(** ** The four rules settle a parsed URL *)

Section url_settles.

Import url.
#[local] Arguments String.append !s1 s2 / : simpl nomatch.

Ltac each_byte c := destruct c as [[] [] [] [] [] [] [] []].

Lemma lowerByte_colon (c : ascii) :
  Ascii.eqb (strings.lowerByte c) ":" = Ascii.eqb c ":".
Proof. each_byte c; reflexivity. Qed.

Lemma lowerByte_isDigit (c : ascii) :
  byte.isDigit (strings.lowerByte c) = byte.isDigit c.
Proof. each_byte c; reflexivity. Qed.

Lemma CountByte_ToLower_colon (s : string) :
  strings.CountByte (strings.ToLower s) ":" = strings.CountByte s ":".
Proof.
  induction s as [|c s IH]; [reflexivity|].
  cbn [strings.ToLower strings.CountByte]. by rewrite lowerByte_colon, IH.
Qed.

Lemma LastIndex_ToLower_colon (s : string) :
  strings.LastIndex (strings.ToLower s) ":" = strings.LastIndex s ":".
Proof.
  induction s as [|c s IH]; [reflexivity|].
  cbn [strings.ToLower strings.LastIndex strings.HasPrefix].
  by rewrite IH, lowerByte_colon.
Qed.

Lemma validOptionalPort_ToLower (s : string) :
  validOptionalPort (strings.ToLower s) = validOptionalPort s.
Proof.
  destruct s as [|c s]; [reflexivity|].
  cbn [strings.ToLower validOptionalPort]. rewrite lowerByte_colon. f_equal.
  induction s as [|d s IH]; [reflexivity|].
  cbn [strings.ToLower strings.forallb]. by rewrite lowerByte_isDigit, IH.
Qed.

Lemma portOK_ToLower (h : string) : portOK (strings.ToLower h) = portOK h.
Proof.
  unfold portOK. rewrite LastIndex_ToLower_colon.
  destruct (strings.LastIndex h ":") as [i|]; [|reflexivity].
  by rewrite <- ToLower_drop, validOptionalPort_ToLower.
Qed.

Lemma plainHost_ToLower (h : string) :
  strings.forallb spec.plainHostByte h = true ->
  strings.forallb spec.plainHostByte (strings.ToLower h) = true.
Proof.
  induction h as [|c h IH]; [done|]. cbn [strings.ToLower strings.forallb].
  intros [Hc Hh]%andb_prop. by rewrite (plainHostByte_lower c Hc), IH.
Qed.

(** [Hostname] of a plain host that ends in a colon and digits *)
Lemma splitHostPort_plain (h digits : string) :
  strings.forallb spec.plainHostByte h = true ->
  (strings.CountByte h ":" <= 1)%nat ->
  strings.forallb byte.isDigit digits = true ->
  strings.HasSuffix h (String ":" digits) = true ->
  exists a, h = a +:+ String ":" digits /\ lacks ":" a /\
            fst (splitHostPort h) = a.
Proof.
  intros Hplain Hcount Hdigits Hsuffix.
  apply HasSuffix_inv in Hsuffix.
  set (a := strings.take _ h) in Hsuffix. exists a.
  assert (lacks ":" digits) as Hd by (by apply (lacks_of_forallb byte.isDigit)).
  assert (lacks ":" a) as Ha.
  { rewrite Hsuffix, CountByte_app in Hcount. cbn in Hcount.
    apply CountByte_lacks. lia. }
  split; [done|]. split; [done|].
  unfold splitHostPort. rewrite Hsuffix.
  rewrite (LastIndex_byte_last ":" a digits Hd), drop_app, take_app.
  cbn [validOptionalPort]. rewrite Hdigits. cbn [Ascii.eqb Bool.eqb andb].
  rewrite Hsuffix, forallb_app in Hplain. apply andb_prop in Hplain as [Hpa _].
  by rewrite (plainHost_not_bracket a Hpa).
Qed.

(** Rules 1 and 2 on a plain host *)
Lemma plain_host (scheme h : string) :
  strings.forallb spec.plainHostByte h = true ->
  (strings.CountByte h ":" <= 1)%nat ->
  portOK h = true ->
  let lower := strings.ToLower h in
  let h' := if hasDefaultPort scheme lower then fst (splitHostPort lower) else lower in
  strings.forallb spec.plainHostByte h' = true /\
  strings.ToLower h' = h' /\ portOK h' = true /\ hasDefaultPort scheme h' = false.
Proof.
  intros Hplain Hcount Hport lower h'.
  assert (strings.forallb spec.plainHostByte lower = true) as Hpl
    by (by apply plainHost_ToLower).
  assert (strings.CountByte lower ":" <= 1)%nat as Hcl
    by (unfold lower; by rewrite CountByte_ToLower_colon).
  assert (strings.ToLower lower = lower) as Hll by apply ToLower_idemp.
  assert (portOK lower = true) as Hpo by (unfold lower; by rewrite portOK_ToLower).
  subst h'. destruct (hasDefaultPort scheme lower) eqn:Hdefault; [|done].
  assert (exists digits, strings.forallb byte.isDigit digits = true /\
                         strings.HasSuffix lower (String ":" digits) = true)
    as (digits & Hdigits & Hsuffix).
  { unfold hasDefaultPort in Hdefault.
    apply orb_prop in Hdefault as [[_ H]%andb_prop | [_ H]%andb_prop];
      [by exists "80" | by exists "443"]. }
  destruct (splitHostPort_plain lower digits Hpl Hcl Hdigits Hsuffix)
    as (a & Heq & Ha & ->).
  assert (strings.forallb spec.plainHostByte a = true) as Hpa.
  { rewrite Heq, forallb_app in Hpl. by apply andb_prop in Hpl as [? _]. }
  split; [done|]. split.
  { rewrite Heq, ToLower_app in Hll.
    apply (f_equal (strings.take (String.length a))) in Hll.
    rewrite <- (ToLower_length a) in Hll at 1. by rewrite !take_app in Hll. }
  split.
  { unfold portOK. by rewrite (LastIndex_byte_absent ":" a Ha). }
  unfold hasDefaultPort.
  assert (forall digits', strings.HasSuffix a (String ":" digits') = false) as Hno.
  { intros digits'. destruct (strings.HasSuffix a (String ":" digits')) eqn:H; [|done].
    apply HasSuffix_inv in H. rewrite H in Ha.
    apply lacks_app in Ha as [_ Ha]. by apply lacks_cons in Ha as [? _]. }
  by rewrite !Hno, !andb_false_r.
Qed.

Lemma length_take (n : nat) (s : string) :
  (n <= String.length s)%nat -> String.length (strings.take n s) = n.
Proof.
  revert s. induction n as [|n IH]; intros [|c s]; cbn; try lia.
  intros Hn. rewrite IH; lia.
Qed.

Lemma trimTrailingSlash_fixed (p : string) :
  spec.pathSettles p = true ->
  (1 <? String.length (spec.trimTrailingSlash p))%nat
  && strings.HasSuffix (spec.trimTrailingSlash p) "/" = false.
Proof.
  unfold spec.pathSettles. intros Heq%String.eqb_eq.
  set (q := spec.trimTrailingSlash p) in *. clearbody q.
  unfold spec.trimTrailingSlash in Heq.
  destruct ((1 <? String.length q)%nat && strings.HasSuffix q "/") eqn:Hcond; [|done].
  exfalso. apply andb_prop in Hcond as [Hlen Hsuffix]. apply Nat.ltb_lt in Hlen.
  unfold strings.TrimSuffix in Heq. rewrite Hsuffix in Heq.
  apply (f_equal String.length) in Heq.
  rewrite length_take in Heq; cbn [String.length] in *; lia.
Qed.

Lemma trimTrailingSlash_prefix (p x : string) :
  strings.HasPrefix (spec.trimTrailingSlash p) x = true ->
  strings.HasPrefix p x = true.
Proof.
  unfold spec.trimTrailingSlash, strings.TrimSuffix.
  destruct ((1 <? String.length p)%nat && strings.HasSuffix p "/") eqn:Hcond; [|done].
  apply andb_prop in Hcond as [_ ->]. apply HasPrefix_take.
Qed.

Lemma trimTrailingSlash_rooted (p : string) :
  strings.HasPrefix p "/" = true ->
  strings.HasPrefix (spec.trimTrailingSlash p) "/" = true.
Proof.
  unfold spec.trimTrailingSlash, strings.TrimSuffix.
  destruct ((1 <? String.length p)%nat && strings.HasSuffix p "/") eqn:Hcond; [|done].
  apply andb_prop in Hcond as [Hlen ->]. apply Nat.ltb_lt in Hlen.
  destruct p as [|c [|d p]]; cbn in Hlen; try lia.
  cbn [String.length Nat.sub strings.take strings.HasPrefix]. by intros Hc.
Qed.

Lemma trimTrailingSlash_nil : spec.trimTrailingSlash "" = "".
Proof. reflexivity. Qed.

Lemma canonicalURLWith_fields (lower : string -> string) (u : URL) :
  canonicalURLWith lower u =
  {| Scheme := lower (Scheme u); Opaque := Opaque u; User := User u;
     Host := (let h := lower (Host u) in
              if hasDefaultPort (lower (Scheme u)) h
              then fst (splitHostPort h) else h);
     Path := spec.trimTrailingSlash (Path u); RawPath := RawPath u;
     OmitHost := OmitHost u; ForceQuery := ForceQuery u; RawQuery := RawQuery u;
     Fragment := ""; RawFragment := RawFragment u |}.
Proof.
  destruct u as [sch op us h p rp om fq rq fr rfr].
  unfold canonicalURLWith, hasDefaultPort, spec.trimTrailingSlash, Hostname.
  cbn [Scheme Host Path RawPath RawFragment withScheme withHost withFragment withPath
       Opaque User OmitHost ForceQuery RawQuery Fragment].
  destruct ((String.eqb (lower sch) "http"
             && strings.HasSuffix (lower h) ":80")
            || (String.eqb (lower sch) "https"
                && strings.HasSuffix (lower h) ":443"));
    cbn [Scheme Host Path RawPath RawFragment withScheme withHost withFragment withPath
         Opaque User OmitHost ForceQuery RawQuery Fragment];
    by destruct ((1 <? String.length p)%nat && strings.HasSuffix p "/").
Qed.

Lemma canonicalURL_fields (u : URL) :
  canonicalURL u =
  {| Scheme := strings.ToLower (Scheme u); Opaque := Opaque u; User := User u;
     Host := (let lower := strings.ToLower (Host u) in
              if hasDefaultPort (strings.ToLower (Scheme u)) lower
              then fst (splitHostPort lower) else lower);
     Path := spec.trimTrailingSlash (Path u); RawPath := RawPath u;
     OmitHost := OmitHost u; ForceQuery := ForceQuery u; RawQuery := RawQuery u;
     Fragment := ""; RawFragment := RawFragment u |}.
Proof. apply canonicalURLWith_fields. Qed.

Lemma EscapedPath_cases (u : URL) :
  (RawPath u <> "" /\ EscapedPath u = RawPath u)
  \/ (Path u = "*" /\ EscapedPath u = "*")
  \/ EscapedPath u = escape (Path u) encodePath.
Proof.
  unfold EscapedPath.
  destruct (String.eqb_spec (RawPath u) "") as [Hnil|Hraw]; cbn [negb andb].
  - destruct (String.eqb_spec (Path u) "*"); [right; by left | right; by right].
  - destruct (validEncoded (RawPath u) encodePath
              && match unescape (RawPath u) encodePath with
                 | Ok p => String.eqb p (Path u)
                 | Err _ => false
                 end); [by left|].
    destruct (String.eqb_spec (Path u) "*"); [right; by left | right; by right].
Qed.

(** [Hostname] of a host that ends in a colon and digits *)
Lemma splitHostPort_port (x digits : string) :
  strings.forallb byte.isDigit digits = true ->
  fst (splitHostPort (x +:+ String ":" digits))
  = if strings.HasPrefix x "[" && strings.HasSuffix x "]"
    then strings.take (String.length x - 2) (strings.drop 1 x) else x.
Proof.
  intros Hd. unfold splitHostPort.
  rewrite LastIndex_byte_last by (by apply (lacks_of_forallb byte.isDigit)).
  rewrite drop_app, take_app. cbn [validOptionalPort]. rewrite Hd.
  cbn [Ascii.eqb Bool.eqb andb].
  by destruct (strings.HasPrefix x "[" && strings.HasSuffix x "]").
Qed.

Lemma splitHostPort_forallb (p : ascii -> bool) (h : string) :
  strings.forallb p h = true -> strings.forallb p (fst (splitHostPort h)) = true.
Proof.
  intros Hp. unfold splitHostPort.
  assert (forall host port : string,
            strings.forallb p host = true ->
            strings.forallb p
              (fst (if strings.HasPrefix host "[" && strings.HasSuffix host "]"
                    then (strings.take (String.length host - 2) (strings.drop 1 host),
                          port)
                    else (host, port))) = true) as Hstrip.
  { intros host port Hh.
    destruct (strings.HasPrefix host "[" && strings.HasSuffix host "]"); [|done].
    cbn [fst]. by apply forallb_take, forallb_drop. }
  destruct (strings.LastIndex h ":") as [colon|]; [|by apply Hstrip].
  destruct (validOptionalPort (strings.drop colon h)); [|by apply Hstrip].
  by apply Hstrip, forallb_take.
Qed.

Lemma hasDefaultPort_inv (scheme h : string) :
  hasDefaultPort scheme h = true ->
  exists x digits,
    h = x +:+ String ":" digits /\ strings.forallb byte.isDigit digits = true.
Proof.
  unfold hasDefaultPort.
  intros [[_ H]%andb_prop | [_ H]%andb_prop]%orb_prop; apply HasSuffix_inv in H.
  - by exists (strings.take (String.length h - String.length ":80") h), "80".
  - by exists (strings.take (String.length h - String.length ":443") h), "443".
Qed.

(** a literal between its brackets *)
Lemma bracketed_inv (x : string) :
  strings.HasPrefix x "[" && strings.HasSuffix x "]" = true ->
  x = String "[" (strings.take (String.length x - 2) (strings.drop 1 x)
                  +:+ "]").
Proof.
  intros [Hpre Hsuf]%andb_prop.
  destruct x as [|c y]; [done|]. cbn in Hpre. rewrite andb_true_r in Hpre.
  apply Ascii.eqb_eq in Hpre as ->. apply HasSuffix_inv in Hsuf.
  destruct y as [|d y]; [done|].
  replace (String.length (String "[" (String d y)) - String.length "]")%nat
    with (S (String.length y)) in Hsuf by (cbn; lia).
  replace (String.length (String "[" (String d y)) - 2)%nat
    with (String.length y) by (cbn; lia).
  cbn [strings.take String.append] in Hsuf. injection Hsuf as Hsuf.
  cbn [strings.drop]. f_equal. exact Hsuf.
Qed.

Lemma zoneByte_no_space (s : string) :
  strings.forallb zoneByte s = true ->
  strings.forallb (fun c => negb (Ascii.eqb c " ")) s = true ->
  strings.forallb hostByte s = true.
Proof.
  induction s as [|c s IH]; [done|]. cbn.
  intros [Hc Hs]%andb_prop [Hn Hl]%andb_prop. rewrite (IH Hs Hl), andb_true_r.
  destruct (zoneByte_cases c Hc) as [H | ->]; [done | done].
Qed.

Section any_lower.

Variable lower : string -> string.
Hypothesis Hlower : canonical.lowerCasing lower.

(** [Hostname] of a host in lower case is in lower case *)
Lemma lower_Hostname (scheme h : string) :
  lower h = h -> hasDefaultPort scheme h = true ->
  lower (fst (splitHostPort h)) = fst (splitHostPort h).
Proof.
  intros Hh (x & digits & -> & Hd)%hasDefaultPort_inv.
  rewrite (splitHostPort_port x digits Hd).
  assert (validOptionalPort (String ":" digits) = true) as Hvalid by (by cbn).
  rewrite (canonical.lower_ascii lower Hlower) in Hh by done.
  pose proof (lower_port lower Hlower _ Hvalid) as Hport.
  rewrite (lower_cons_ascii lower Hlower ":" digits eq_refl) in Hport.
  injection Hport as Hdigits. rewrite Hdigits in Hh.
  change (strings.lowerByte ":") with ":"%char in Hh.
  apply append_inv_tail in Hh.
  destruct (strings.HasPrefix x "[" && strings.HasSuffix x "]") eqn:Hb; [|done].
  apply bracketed_inv in Hb.
  set (inner := strings.take (String.length x - 2) (strings.drop 1 x)) in *.
  clearbody inner. subst x.
  rewrite (lower_cons_ascii lower Hlower "[" _ eq_refl) in Hh.
  rewrite (canonical.lower_ascii lower Hlower inner "]" "" eq_refl) in Hh.
  rewrite (canonical.lower_nil lower Hlower) in Hh.
  injection Hh as Hh. by apply append_inv_tail in Hh.
Qed.

(** Rules 1 and 2 on a host that keeps its form *)
Lemma canonical_host (scheme h : string) :
  hostParsed h ->
  hostSettles lower scheme h = true ->
  let h' := if hasDefaultPort scheme (lower h)
            then fst (splitHostPort (lower h)) else lower h in
  parseHost (escape h' encodeHost) = Ok h' /\
  lower h' = h' /\ hasDefaultPort scheme h' = false.
Proof.
  intros Hp Hs.
  destruct (hostParsed_lower lower Hlower h Hp) as (Hzone & Hliteral & Hname).
  pose proof (canonical.lower_twice lower Hlower h) as Htwice.
  unfold hostSettles in Hs. cbv zeta in *.
  destruct (hasDefaultPort scheme (lower h)) eqn:Hd.
  - apply andb_prop in Hs as [[[Hb Hspace]%andb_prop Hport]%andb_prop Hnd].
    apply negb_true_iff in Hb, Hnd.
    split; [|split; [by apply (lower_Hostname scheme) | done]].
    apply parseHost_written_name; try done.
    apply zoneByte_no_space; [|done]. by apply splitHostPort_forallb.
  - split; [|by split].
    destruct (strings.HasPrefix (lower h) "[") eqn:Hb.
    + cbn [negb orb] in Hs.
      destruct (Hliteral eq_refl) as (a & z & port & Heq & Hla & Ha & Hz & Hport).
      rewrite Heq in Hzone, Hs, Hb |- *.
      rewrite !forallb_app in Hzone.
      apply andb_prop in Hzone as [_ [Hzz _]%andb_prop].
      apply parseHost_written_literal; try done.
      destruct Hz as [-> | Hpct]; [done|].
      destruct z as [|c z']; [done|]. cbn in Hpct. rewrite andb_true_r in Hpct.
      apply Ascii.eqb_eq in Hpct as ->. unfold zoneOf in Hs.
      change (a +:+ String "%" z' +:+ String "]" port)
        with (a +:+ String "%" (z' +:+ String "]" port)) in Hs.
      rewrite (Index_byte_first "%" a _ Hla), drop_app in Hs.
      cbn [strings.forallb] in *. rewrite forallb_app in Hs.
      apply andb_prop in Hs as [-> [-> _]%andb_prop]. done.
    + destruct (Hname eq_refl) as (Hbytes & Hport).
      by apply parseHost_written_name.
Qed.

(** a URL that [url.Parse] gave, with scheme [http] or [https], a host
    that keeps its form, a path that settles and a root, is settled by
    the four rules, and its host is in lower case *)
Lemma canonicalURLWith_settles (u : URL) :
  parsed u ->
  Scheme u = "http" \/ Scheme u = "https" ->
  hostSettles lower (Scheme u) (Host u) = true ->
  spec.pathSettles (Path u) = true ->
  spec.rooted u = true ->
  settled (canonicalURLWith lower u) /\
  lower (Scheme (canonicalURLWith lower u)) = Scheme (canonicalURLWith lower u) /\
  lower (Host (canonicalURLWith lower u)) = Host (canonicalURLWith lower u).
Proof.
  intros Hp Hscheme Hsettles Hpath Hrooted.
  pose proof (lower_scheme lower Hlower _ Hscheme) as Hlow.
  pose proof (canonical_host (Scheme u) (Host u) (parsed_host u Hp) Hsettles) as Hhost.
  cbv zeta in Hhost.
  assert (Host u = "" ->
          (if hasDefaultPort (Scheme u) (lower (Host u))
           then fst (splitHostPort (lower (Host u)))
           else lower (Host u)) = "") as Hnohost.
  { intros ->. rewrite (canonical.lower_nil lower Hlower).
    by destruct Hscheme as [-> | ->]. }
  rewrite canonicalURLWith_fields. cbv zeta. rewrite Hlow.
  set (v := {| Scheme := Scheme u |}).
  assert (strings.forallb inPath (EscapedPath v) = true /\
          (strings.HasPrefix (Path v) "/" = true ->
           strings.HasPrefix (EscapedPath v) "/" = true) /\
          (OmitHost v = true -> strings.HasPrefix (EscapedPath v) "//" = false))
    as Hescaped.
  { destruct (EscapedPath_cases v) as [[Hraw ->] | [[Hstar ->] | ->]].
    - destruct (parsed_rawPath u Hp Hraw) as (? & ? & ?). by repeat split.
    - rewrite Hstar. by repeat split.
    - split; [apply escape_path_inPath|].
      rewrite escape_path_HasPrefix_slash, escape_path_HasPrefix_slashes.
      split; [done|]. cbn [v OmitHost Path]. intros Homit.
      destruct (strings.HasPrefix (spec.trimTrailingSlash (Path u)) "//") eqn:Hs; [|done].
      apply trimTrailingSlash_prefix in Hs.
      unfold spec.rooted in Hrooted. by rewrite Homit, Hs in Hrooted. }
  split; [|cbn [v Scheme Host]; by destruct Hhost as (_ & ? & _)].
  split; cbn [v Scheme Opaque User Host Path RawPath OmitHost ForceQuery RawQuery
              Fragment RawFragment].
  - done.
  - done.
  - apply (parsed_forceQuery u Hp).
  - apply (parsed_rawQuery u Hp).
  - intros Hop. destruct (parsed_opaque u Hp Hop) as (? & ? & ? & Hh & HP & ? & ?).
    rewrite (Hnohost Hh), HP. by repeat split.
  - by destruct Hhost as (? & _ & ?).
  - split; [|by apply trimTrailingSlash_fixed].
    destruct (parsed_path u Hp) as [-> | Hroot]; [by left|].
    right. by apply trimTrailingSlash_rooted.
  - done.
  - apply (parsed_user u Hp).
  - intros Homit. destruct (parsed_omitHost u Hp Homit) as (? & Hh & ?).
    rewrite (Hnohost Hh). split; [done|]. split; [done|].
    by apply trimTrailingSlash_rooted.
Qed.

End any_lower.

(** a plain host keeps its form *)
Lemma plainHost_hostSettles (scheme h : string) :
  hostParsed h ->
  spec.plainHost h = true ->
  hostSettles strings.ToLower scheme h = true.
Proof.
  intros (_ & _ & Hname) [Hplain Hcount%Nat.leb_le]%andb_prop.
  destruct (Hname (plainHost_not_bracket h Hplain)) as (_ & Hport).
  pose proof (plain_host scheme h Hplain Hcount Hport) as Hhost.
  cbv zeta in Hhost. unfold hostSettles. cbv zeta.
  destruct (hasDefaultPort scheme (strings.ToLower h)).
  - destruct Hhost as (Hp & _ & Hpo & ->).
    rewrite (plainHost_not_bracket _ Hp), Hpo. cbn [negb andb].
    rewrite !andb_true_r. revert Hp. apply forallb_impl.
    intros c. each_byte c; cbn; intros H; try discriminate H; reflexivity.
  - destruct Hhost as (Hp & _). by rewrite (plainHost_not_bracket _ Hp).
Qed.

(** a URL that [url.Parse] gave, with scheme [http] or [https], a plain
    host, a path that settles and a root, is settled by the four rules *)
Lemma canonicalURL_settles (u : URL) :
  parsed u ->
  Scheme u = "http" \/ Scheme u = "https" ->
  spec.plainHost (Host u) = true ->
  spec.pathSettles (Path u) = true ->
  spec.rooted u = true ->
  settled (canonicalURL u).
Proof.
  intros Hp Hscheme Hplain Hpath Hrooted.
  apply (canonicalURLWith_settles strings.ToLower ToLower_lowerCasing); try done.
  by apply plainHost_hostSettles; [apply (parsed_host u Hp)|].
Qed.

End url_settles.
(** ** [Canonicalize] applied twice *)

(** C8 (corrected).  [Canonicalize] is a function of its input, so
    equal inputs give equal outputs; and its output [c] is a fixed
    point, [Canonicalize c = Ok c], whenever the accepted URL [u] has

    - a decoded path that the removal of one trailing slash settles: it
      does not end in two or more slashes, unless it is [//];
    - a host that keeps its form, [hostSettles].  With [h] the host in
      lower case: if [h] ends in the default port of the scheme, then
      what [Hostname] returns for [h], which [Canonicalize] puts in its
      place, does not begin with [[], holds no space, has only digits
      after its last colon, if it has a colon, and does not end in the
      default port again; if [h] does not end in the default port and
      is an IP literal in square brackets, every byte from its first
      [%] on, the zone, is ASCII;
    - an authority, or a decoded path that does not begin with two
      slashes.

    Nothing else is asked of the host: it may hold escaped bytes, bytes
    from 0x80 up, colons, or be an IP literal with a port.
    [strings.ToLower] is any function with the properties
    [canonical.lowerCasing] of Go's; for the [strings.ToLower] of the
    model, which has them, [canonical.Canonicalize] is
    [urlutil.Canonicalize]. *)
Theorem Canonicalize_idempotent_on_settling_urls
    (strings_ToLower : string -> string) (rawURL c : string) (u : url.URL) :
  canonical.lowerCasing strings_ToLower ->
  url.Parse rawURL = Ok u ->
  canonical.Canonicalize strings_ToLower rawURL = Ok c ->
  spec.pathSettles (url.Path u) = true ->
  hostSettles strings_ToLower (url.Scheme u) (url.Host u) = true ->
  spec.rooted u = true ->
  (forall c', canonical.Canonicalize strings_ToLower rawURL = Ok c' -> c' = c) /\
  canonical.Canonicalize strings_ToLower c = Ok c.
Proof.
  intros Hlower Hparse Hcanon Hpath Hhost Hrooted.
  split; [intros c' Hc'; congruence|].
  rewrite Canonicalize_with_unfold, Hparse in Hcanon.
  destruct (negb (url.IsAbs u)
            || (negb (String.eqb (url.Scheme u) "http")
                && negb (String.eqb (url.Scheme u) "https"))) eqn:Hcheck; [done|].
  injection Hcanon as <-.
  apply orb_false_elim in Hcheck as [Habs Hscheme].
  apply negb_false_iff in Habs. unfold url.IsAbs in Habs.
  apply negb_true_iff, String.eqb_neq in Habs.
  assert (url.Scheme u = "http" \/ url.Scheme u = "https") as Hs.
  { destruct (String.eqb_spec (url.Scheme u) "http"); [by left|].
    destruct (String.eqb_spec (url.Scheme u) "https"); [by right | done]. }
  destruct (canonicalURLWith_settles strings_ToLower Hlower u
              (Parse_parsed rawURL u Hparse Habs) Hs Hhost Hpath Hrooted)
    as (Hsettled & Hsch & Hh).
  by apply Canonicalize_String_settled.
Qed.

Lemma Canonicalize_idempotent_on_settling_urls_witness :
  canonical.lowerCasing strings.ToLower /\
  url.Parse sample_stores.literal = Ok sample_stores.literalURL /\
  urlutil.Canonicalize sample_stores.literal = Ok "http://[fe80::1%25en0]:8080/A?q=1" /\
  urlutil.Canonicalize "http://[fe80::1%25en0]:8080/A?q=1"
  = Ok "http://[fe80::1%25en0]:8080/A?q=1".
Proof.
  split; [apply ToLower_lowerCasing|].
  split; [vm_compute; reflexivity|]. split; [vm_compute; reflexivity|].
  apply (Canonicalize_idempotent_on_settling_urls
           strings.ToLower sample_stores.literal
           "http://[fe80::1%25en0]:8080/A?q=1" sample_stores.literalURL);
    [apply ToLower_lowerCasing | vm_compute; reflexivity ..].
Defined.

(** * Further properties *)

(** ** The host limiter and the probe *)

Section probe_more.

Local Open Scope Z_scope.

(** X1.  After [Release] of a host the next [Acquire] of it succeeds,
    whatever the limiter held; and neither [Acquire] nor [Release] of
    one host changes whether another host is held. *)
Theorem Release_frees_only_its_host (hl : checker.HostLimiter) (host other : string) :
  snd (checker.Acquire (checker.Release hl host) host) = true /\
  (other <> host ->
   (other ∈ checker.hosts (checker.Release hl host) <-> other ∈ checker.hosts hl) /\
   (other ∈ checker.hosts (fst (checker.Acquire hl host))
    <-> other ∈ checker.hosts hl)).
Proof.
  split.
  - unfold checker.Acquire, checker.Release. cbn.
    destruct (decide (host ∈ checker.hosts hl ∖ {[host]})) as [Hin|]; [|done].
    apply elem_of_difference in Hin as [_ Hne]. by apply not_elem_of_singleton in Hne.
  - intros Hne. split.
    + unfold checker.Release. cbn. rewrite elem_of_difference, not_elem_of_singleton.
      by intuition.
    + unfold checker.Acquire. destruct (decide (host ∈ checker.hosts hl)); cbn; [done|].
      rewrite elem_of_union, elem_of_singleton. by intuition.
Qed.

Ltac next_attempt Hr w k E :=
  rewrite loop_unfold in Hr; unfold checker.iteration, checker.afterDo in Hr;
  cbn [checker.attempts checker.backoff checker.statusCode checker.errMsg
       checker.startTime checker.latency checker.initial] in Hr;
  change (0 + 1) with 1 in Hr; change (1 + 1) with 2 in Hr;
  change (2 + 1) with 3 in Hr;
  let R := fresh "R" in
  destruct (checker.observed (w k)) as [?m|?lat ?m|?lat ?st] eqn:E;
  cbn [checker.retry] in Hr;
  [ | | match type of Hr with
        | context [(500 <=? ?c) && (?c <=? 599)] =>
            destruct ((500 <=? c) && (c <=? 599)) eqn:R
        end ];
  cbn in Hr.

Ltac by_attempt E1 E2 E3 :=
  let k := fresh "k" in let Hk := fresh "Hk" in
  intros k Hk;
  assert (k = 1 \/ k = 2 \/ k = 3) as [->|[->| ->]] by lia;
  try lia; rewrite ?E1, ?E2, ?E3; first [done | by repeat eexists].

Ltac refute_attempt H k E :=
  first [ destruct (H k ltac:(lia)) as (? & ? & ?); congruence
        | eapply (H k ltac:(lia)); exact E ].

Ltac loop_leaf E1 E2 E3 :=
  repeat match goal with H : (_, _) = (_, _) |- _ => injection H as <- <- end;
  subst; unfold reportsLast;
  cbn [fst checker.attempts checker.backoff checker.statusCode checker.errMsg
       checker.startTime checker.latency];
  rewrite ?E1, ?E2, ?E3;
  split; [lia|]; split; [reflexivity|]; split; [by repeat split|];
  split; (split;
    [ first [ discriminate | intros _; by_attempt E1 E2 E3 ]
    | first [ reflexivity
            | intros H; exfalso;
              first [ refute_attempt H 1 E1 | refute_attempt H 2 E2
                    | refute_attempt H 3 E3 ] ] ]).

Lemma loop_reportsLast (w : checker.world) :
  reportsLast w (fst (checker.loop w checker.initial)).
Proof.
  remember (checker.loop w checker.initial) as r eqn:Hr.
  next_attempt Hr w 1 E1.
  1, 4: loop_leaf E1 E1 E1.
  all: destruct (checker.loop w _) as [final rest] eqn:Hr2 in Hr;
    next_attempt Hr2 w 2 E2.
  1, 4, 5, 8: loop_leaf E1 E2 E2.
  all: destruct (checker.loop w _) as [final3 rest3] eqn:Hr3 in Hr2;
    next_attempt Hr3 w 3 E3.
  all: loop_leaf E1 E2 E3.
Qed.

Ltac trace_leaf :=
  repeat match goal with H : (_, _) = (_, _) |- _ => injection H as <- <- end;
  subst; reflexivity.

(** the attempts and sleeps of the loop, by the number of attempts it
    leaves in [attempts] *)
Lemma loop_trace (w : checker.world) :
  snd (checker.loop w checker.initial)
  = spec.attemptsAndSleeps
      (Z.to_nat (checker.attempts (fst (checker.loop w checker.initial))))
      1 (200 * checker.Millisecond).
Proof.
  remember (checker.loop w checker.initial) as r eqn:Hr.
  next_attempt Hr w 1 E1.
  1, 4: trace_leaf.
  all: destruct (checker.loop w _) as [final rest] eqn:Hr2 in Hr;
    next_attempt Hr2 w 2 E2.
  1, 4, 5, 8: trace_leaf.
  all: destruct (checker.loop w _) as [final3 rest3] eqn:Hr3 in Hr2;
    next_attempt Hr3 w 3 E3.
  all: trace_leaf.
Qed.

Context {S : Type} {storer : storage.Storer S}.

(** X2.  A probe that acquires its host hands the store one result, and the
    result describes the last attempt [n]: the id of the target, the
    start of attempt [n], and its outcome, a status code or an error
    message, with the latency of the request in whole milliseconds. *)
Theorem performCheck_result_describes_last_attempt
    (hl : checker.HostLimiter) (st : S) (w : checker.world)
    (target : models.Target.t) :
  models.Target.Host target ∉ checker.hosts hl ->
  exists (n : Z) (r : models.CheckResult.t),
    1 <= n <= 3 /\
    snd (checker.performCheck hl st w target)
    = (spec.attemptsAndSleeps (Z.to_nat n) 1 (200 * checker.Millisecond)
       ++ [checker.EvCreateCheckResult r])%list /\
    snd (fst (checker.performCheck hl st w target))
    = fst (storage.CreateCheckResult st r) /\
    models.CheckResult.ID r = EmptyString /\
    models.CheckResult.TargetID r = models.Target.ID target /\
    models.CheckResult.CheckedAt r = checker.observedStart (w n) /\
    match checker.observed (w n) with
    | checker.DoResponded lat status =>
        models.CheckResult.StatusCode r = Some status /\
        models.CheckResult.LatencyMS r = Z.quot lat 1000000
    | checker.DoFailed lat m =>
        models.CheckResult.Error r = Some m /\
        models.CheckResult.LatencyMS r = Z.quot lat 1000000
    | checker.NewRequestFailed m => models.CheckResult.Error r = Some m
    end.
Proof.
  intros Hfree. rewrite (performCheck_acquired _ _ _ _ Hfree).
  cbn [fst snd]. rewrite loop_trace.
  destruct (loop_reportsLast w) as (Hn & Hstart & Hlast & _).
  set (l := fst (checker.loop w checker.initial)) in *.
  exists (checker.attempts l), (checker.resultOf target l).
  do 6 (split; [done|]).
  destruct (checker.observed (w (checker.attempts l))) as [m|lat m|lat status];
    [done| |]; destruct Hlast as [? <-]; by split.
Qed.

(** X3.  The result of a probe has no error message exactly when every
    attempt received a response, and no status code exactly when no
    attempt received one: when some attempt failed and another one
    received a response, both fields are set. *)
Theorem performCheck_result_fields_by_attempts
    (hl : checker.HostLimiter) (st : S) (w : checker.world)
    (target : models.Target.t) :
  models.Target.Host target ∉ checker.hosts hl ->
  exists (n : Z) (r : models.CheckResult.t),
    1 <= n <= 3 /\
    snd (checker.performCheck hl st w target)
    = (spec.attemptsAndSleeps (Z.to_nat n) 1 (200 * checker.Millisecond)
       ++ [checker.EvCreateCheckResult r])%list /\
    (models.CheckResult.Error r = None <->
     forall k, 1 <= k <= n ->
       exists lat status, checker.observed (w k) = checker.DoResponded lat status) /\
    (models.CheckResult.StatusCode r = None <->
     forall k, 1 <= k <= n ->
       forall lat status, checker.observed (w k) <> checker.DoResponded lat status).
Proof.
  intros Hfree. rewrite (performCheck_acquired _ _ _ _ Hfree).
  cbn [fst snd]. rewrite loop_trace.
  destruct (loop_reportsLast w) as (Hn & _ & _ & Herr & Hcode).
  set (l := fst (checker.loop w checker.initial)) in *.
  by exists (checker.attempts l), (checker.resultOf target l).
Qed.

(** X22.  [performCheck] leaves the limiter as it found it.  A probe that ran
    has released its host, whether or not the store took the result;
    a probe that found its host held did nothing: no request and no
    result, and the host stays held for the probe that holds it. *)
Theorem performCheck_leaves_limiter_as_found
    (hl : checker.HostLimiter) (st : S) (w : checker.world)
    (target : models.Target.t) :
  fst (fst (checker.performCheck hl st w target)) = hl /\
  (models.Target.Host target ∈ checker.hosts hl ->
   checker.performCheck hl st w target = (hl, st, [])).
Proof.
  destruct (decide (models.Target.Host target ∈ checker.hosts hl)) as [Hheld|Hfree].
  - unfold checker.performCheck. rewrite (Acquire_held _ _ Hheld). by cbn.
  - split; [|done]. rewrite (performCheck_acquired _ _ _ _ Hfree). cbn [fst].
    destruct hl as [held]. unfold checker.Release. cbn in *. f_equal.
    apply set_eq. intros host.
    rewrite elem_of_difference, elem_of_union, elem_of_singleton. split.
    + by intros [[->|Hin] Hne].
    + intros Hin. split; [by right|]. by intros ->.
Qed.

End probe_more.

Lemma performCheck_result_describes_last_attempt_witness :
  (models.Target.Host sample.exampleCom ∉ checker.hosts checker.NewHostLimiter) /\
  exists (n : Z) (r : models.CheckResult.t),
    (1 <= n <= 3)%Z /\
    snd (checker.performCheck checker.NewHostLimiter sample.emptyStore
           sample.world_timeout_then_200 sample.exampleCom)
    = (spec.attemptsAndSleeps (Z.to_nat n) 1 (200 * checker.Millisecond)
       ++ [checker.EvCreateCheckResult r])%list /\
    snd (fst (checker.performCheck checker.NewHostLimiter sample.emptyStore
                sample.world_timeout_then_200 sample.exampleCom))
    = fst (storage.CreateCheckResult sample.emptyStore r) /\
    models.CheckResult.ID r = EmptyString /\
    models.CheckResult.TargetID r = models.Target.ID sample.exampleCom /\
    models.CheckResult.CheckedAt r
    = checker.observedStart (sample.world_timeout_then_200 n) /\
    match checker.observed (sample.world_timeout_then_200 n) with
    | checker.DoResponded lat status =>
        models.CheckResult.StatusCode r = Some status /\
        models.CheckResult.LatencyMS r = Z.quot lat 1000000
    | checker.DoFailed lat m =>
        models.CheckResult.Error r = Some m /\
        models.CheckResult.LatencyMS r = Z.quot lat 1000000
    | checker.NewRequestFailed m => models.CheckResult.Error r = Some m
    end.
Proof.
  split; [apply not_elem_of_empty|].
  apply (performCheck_result_describes_last_attempt checker.NewHostLimiter
           sample.emptyStore sample.world_timeout_then_200 sample.exampleCom).
  apply not_elem_of_empty.
Defined.

Lemma performCheck_result_fields_by_attempts_witness :
  (models.Target.Host sample.exampleCom ∉ checker.hosts checker.NewHostLimiter) /\
  exists (n : Z) (r : models.CheckResult.t),
    (1 <= n <= 3)%Z /\
    snd (checker.performCheck checker.NewHostLimiter sample.emptyStore
           sample.world_timeout_then_200 sample.exampleCom)
    = (spec.attemptsAndSleeps (Z.to_nat n) 1 (200 * checker.Millisecond)
       ++ [checker.EvCreateCheckResult r])%list /\
    (models.CheckResult.Error r = None <->
     forall k, (1 <= k <= n)%Z ->
       exists lat status,
         checker.observed (sample.world_timeout_then_200 k)
         = checker.DoResponded lat status) /\
    (models.CheckResult.StatusCode r = None <->
     forall k, (1 <= k <= n)%Z ->
       forall lat status,
         checker.observed (sample.world_timeout_then_200 k)
         <> checker.DoResponded lat status).
Proof.
  split; [apply not_elem_of_empty|].
  apply (performCheck_result_fields_by_attempts checker.NewHostLimiter
           sample.emptyStore sample.world_timeout_then_200 sample.exampleCom).
  apply not_elem_of_empty.
Defined.

(** ** The job queue and the scheduler *)

Section job_queue.

Lemma Submit_capacity (q : jobs.queue) (target : models.Target.t) :
  jobs.capacity (fst (jobs.Submit q target)) = jobs.capacity q.
Proof.
  unfold jobs.Submit.
  by destruct (length (jobs.buffered q) <? jobs.capacity q)%nat.
Qed.

Lemma Submit_buffered (q : jobs.queue) (target : models.Target.t) :
  (length (jobs.buffered q) <= jobs.capacity q)%nat ->
  jobs.buffered (fst (jobs.Submit q target))
  = take (jobs.capacity q) (jobs.buffered q ++ [target]).
Proof.
  intros Hle. unfold jobs.Submit.
  destruct (Nat.ltb_spec (length (jobs.buffered q)) (jobs.capacity q)) as [Hlt|Hge];
    cbn [fst jobs.buffered].
  - rewrite take_ge; [done|]. rewrite List.length_app. cbn. lia.
  - rewrite take_app_le by lia. rewrite take_ge; [done | lia].
Qed.

Lemma foldl_Submit (targets : list models.Target.t) (q : jobs.queue) :
  (length (jobs.buffered q) <= jobs.capacity q)%nat ->
  let q' := foldl (fun q t => fst (jobs.Submit q t)) q targets in
  jobs.capacity q' = jobs.capacity q /\
  jobs.buffered q' = take (jobs.capacity q) (jobs.buffered q ++ targets).
Proof.
  revert q. induction targets as [|t targets IH]; intros q Hle; cbn zeta.
  - split; [done|]. rewrite List.app_nil_r, take_ge; [done | lia].
  - cbn [foldl].
    assert (length (jobs.buffered (fst (jobs.Submit q t)))
            <= jobs.capacity (fst (jobs.Submit q t)))%nat as Hle'.
    { rewrite Submit_capacity, Submit_buffered by done.
      rewrite list.length_take. lia. }
    destruct (IH _ Hle') as [Hcap Hbuf]. rewrite Hcap, Hbuf.
    rewrite Submit_capacity. split; [done|].
    rewrite Submit_buffered by done.
    destruct (Nat.ltb_spec (length (jobs.buffered q)) (jobs.capacity q)) as [Hlt|Hge].
    + rewrite (take_ge (jobs.buffered q ++ [t])) by (rewrite List.length_app; cbn; lia).
      by rewrite <- List.app_assoc.
    + assert (forall rest, take (jobs.capacity q) (jobs.buffered q ++ rest)
                           = jobs.buffered q) as Hfull.
      { intros rest. rewrite take_app_le by lia. apply take_ge. lia. }
      by rewrite !Hfull.
Qed.

Context {S : Type} {storer : storage.Storer S}.

(** X4.  [scheduleChecks] never blocks and never overfills the channel: while
    no worker receives, it appends the targets of the store in the
    order [GetAllTargets] gives them until the channel holds
    [capacity] of them, and skips the rest; when [GetAllTargets] fails
    it submits nothing. *)
Theorem scheduleChecks_fills_to_capacity (store : S) (q : jobs.queue)
    (targets : list models.Target.t) (err : option storage.error) :
  (length (jobs.buffered q) <= jobs.capacity q)%nat ->
  storage.GetAllTargets store = (targets, err) ->
  jobs.capacity (jobs.scheduleChecks store q) = jobs.capacity q /\
  jobs.buffered (jobs.scheduleChecks store q)
  = (if storage.isNil err
     then take (jobs.capacity q) (jobs.buffered q ++ targets)
     else jobs.buffered q).
Proof.
  intros Hle Hall. unfold jobs.scheduleChecks. rewrite Hall.
  destruct err as [e|]; cbn [storage.isNil negb]; [done|].
  destruct targets as [|t targets]; cbn [length Nat.eqb].
  - split; [done|]. rewrite List.app_nil_r, take_ge; [done | lia].
  - by apply foldl_Submit.
Qed.

(** the targets submitted so far, with the workers running *)
Lemma steps_invariant (targets : list models.Target.t) (q0 : jobs.queue)
    (s : jobs.state) :
  (length (jobs.buffered q0) <= jobs.capacity q0)%nat ->
  jobs.steps {| jobs.pending := targets; jobs.channel := q0; jobs.received := [] |} s ->
  exists submitted accepted,
    targets = submitted ++ jobs.pending s /\
    sublist accepted submitted /\
    jobs.received s ++ jobs.buffered (jobs.channel s)
    = jobs.buffered q0 ++ accepted /\
    jobs.capacity (jobs.channel s) = jobs.capacity q0 /\
    (length (jobs.buffered (jobs.channel s)) <= jobs.capacity q0)%nat /\
    ((length (jobs.buffered q0) + length targets <= jobs.capacity q0)%nat ->
     accepted = submitted).
Proof.
  intros Hle Hsteps.
  remember {| jobs.pending := targets; jobs.channel := q0; jobs.received := [] |}
    as s0 eqn:Hs0.
  induction Hsteps as [s|s1 s2 s3 Hsteps IH Hstep]; subst.
  - exists [], []. cbn. rewrite List.app_nil_r. by repeat split.
  - destruct (IH eq_refl)
      as (submitted & accepted & Htargets & Hsub & Hflow & Hcap & Hlen & Hroom).
    clear IH.
    destruct Hstep as [target rest q taken | target rest q taken Hempty
                      | todo q target q' taken Hreceive];
      cbn [jobs.pending jobs.channel jobs.received] in *.
    + unfold jobs.Submit.
      destruct (Nat.ltb_spec (length (jobs.buffered q)) (jobs.capacity q)) as [Hlt|Hge];
        cbn [fst jobs.buffered jobs.capacity].
      * exists (submitted ++ [target]), (accepted ++ [target]).
        split; [by rewrite <- List.app_assoc|].
        split; [by apply sublist_app|].
        split; [by rewrite !List.app_assoc, Hflow|].
        split; [done|]. split; [rewrite List.length_app; cbn; lia|].
        intros Hfits. by rewrite (Hroom Hfits).
      * exists (submitted ++ [target]), accepted.
        split; [by rewrite <- List.app_assoc|].
        split; [by apply sublist_inserts_r|].
        split; [done|]. split; [done|]. split; [done|].
        intros Hfits. exfalso.
        apply (f_equal length) in Hflow. rewrite !List.length_app in Hflow.
        pose proof (sublist_length _ _ Hsub) as Hacc.
        rewrite Htargets, !List.length_app in Hfits. cbn in Hfits. lia.
    + rewrite Hempty, List.app_nil_r in Hflow. rewrite Hempty in Hlen.
      exists (submitted ++ [target]), (accepted ++ [target]).
      split; [by rewrite <- List.app_assoc|].
      split; [by apply sublist_app|].
      split; [by rewrite Hempty, List.app_nil_r, Hflow, List.app_assoc|].
      split; [done|]. split; [by rewrite Hempty|].
      intros Hfits. by rewrite (Hroom Hfits).
    + unfold jobs.receive in Hreceive.
      destruct (jobs.buffered q) as [|head rest] eqn:Hq; [done|].
      injection Hreceive as <- <-. cbn [jobs.buffered jobs.capacity].
      exists submitted, accepted.
      split; [done|]. split; [done|].
      split; [by rewrite <- List.app_assoc|].
      split; [done|]. split; [cbn in Hlen; lia | done].
Qed.

(** X5.  With the workers receiving while [scheduleChecks] submits, in any
    interleaving: the channel never holds more than its capacity; the
    targets received and those still buffered are, in order, the ones
    that were buffered before followed by some of the targets
    submitted, none twice and none out of order; and when the channel
    has room for every target, none is skipped. *)
Theorem scheduleChecks_interleaved (targets : list models.Target.t)
    (q0 : jobs.queue) (s : jobs.state) :
  (length (jobs.buffered q0) <= jobs.capacity q0)%nat ->
  jobs.steps {| jobs.pending := targets; jobs.channel := q0; jobs.received := [] |} s ->
  (length (jobs.buffered (jobs.channel s)) <= jobs.capacity q0)%nat /\
  sublist (jobs.received s ++ jobs.buffered (jobs.channel s) ++ jobs.pending s)
          (jobs.buffered q0 ++ targets) /\
  prefix (jobs.buffered q0) (jobs.received s ++ jobs.buffered (jobs.channel s)) /\
  ((length (jobs.buffered q0) + length targets <= jobs.capacity q0)%nat ->
   jobs.received s ++ jobs.buffered (jobs.channel s) ++ jobs.pending s
   = jobs.buffered q0 ++ targets).
Proof.
  intros Hle Hsteps.
  destruct (steps_invariant targets q0 s Hle Hsteps)
    as (submitted & accepted & Htargets & Hsub & Hflow & _ & Hlen & Hroom).
  split; [done|].
  rewrite List.app_assoc, Hflow, <- !List.app_assoc.
  split.
  { rewrite Htargets. apply sublist_app; [done|]. by apply sublist_app. }
  split; [by exists accepted|].
  intros Hfits. by rewrite (Hroom Hfits), Htargets.
Qed.

End job_queue.

(** ** Timestamps and page tokens, written and read back *)

Section time_text.

#[local] Arguments String.append !s1 s2 / : simpl nomatch.
Local Open Scope Z_scope.

Lemma digit_isDigit (n : Z) : byte.isDigit (time.digit n) = true.
Proof.
  unfold time.digit.
  assert (0 <= n mod 10 < 10) as Hr by (apply Z.mod_pos_bound; lia).
  assert (exists k, (k < 10)%nat /\ n mod 10 = Z.of_nat k) as (k & Hk & ->).
  { exists (Z.to_nat (n mod 10)). lia. }
  do 10 (destruct k as [|k]; [reflexivity|]). lia.
Qed.

Lemma digit_value (n : Z) :
  Z.of_N (N_of_ascii (time.digit n) - N_of_ascii "0") = n mod 10.
Proof.
  unfold time.digit.
  assert (0 <= n mod 10 < 10) as Hr by (apply Z.mod_pos_bound; lia).
  assert (exists k, (k < 10)%nat /\ n mod 10 = Z.of_nat k) as (k & Hk & ->).
  { exists (Z.to_nat (n mod 10)). lia. }
  do 10 (destruct k as [|k]; [reflexivity|]). lia.
Qed.

Lemma appendInt_digits (width : nat) (n : Z) :
  strings.forallb byte.isDigit (time.appendInt width n) = true.
Proof.
  revert n. induction width as [|w IH]; intros n; [reflexivity|].
  cbn [time.appendInt]. rewrite forallb_app, IH. cbn. by rewrite digit_isDigit.
Qed.

Lemma appendInt_length (width : nat) (n : Z) :
  String.length (time.appendInt width n) = width.
Proof.
  revert n. induction width as [|w IH]; intros n; [reflexivity|].
  cbn [time.appendInt]. rewrite length_app, IH. cbn. lia.
Qed.

(** [getnum] reads back what [appendInt] wrote *)
Lemma getnum_appendInt (width k : nat) (acc n : Z) (rest : string) :
  0 <= n < 10 ^ Z.of_nat width ->
  time.getnum (width + k) acc (time.appendInt width n +:+ rest)
  = time.getnum k (acc * 10 ^ Z.of_nat width + n) rest.
Proof.
  revert k acc n rest. induction width as [|w IH]; intros k acc n rest Hn.
  - cbn in *. f_equal. lia.
  - cbn [time.appendInt]. rewrite app_assoc.
    replace (S w + k)%nat with (w + S k)%nat by lia.
    assert (10 ^ Z.of_nat (S w) = 10 * 10 ^ Z.of_nat w) as Hpow.
    { rewrite Nat2Z.inj_succ, Z.pow_succ_r; lia. }
    rewrite IH.
    + cbn [String.append time.getnum]. rewrite digit_isDigit, digit_value.
      f_equal. rewrite Hpow.
      pose proof (Z.div_mod n 10 ltac:(lia)). lia.
    + rewrite Hpow in Hn. split; [apply Z.div_pos; lia|].
      apply Z.div_lt_upper_bound; lia.
Qed.

Lemma getnum_appendInt_all (width : nat) (n : Z) (rest : string) :
  0 <= n < 10 ^ Z.of_nat width ->
  time.getnum width 0 (time.appendInt width n +:+ rest) = Some (n, rest).
Proof.
  intros Hn. rewrite <- (Nat.add_0_r width) at 1.
  rewrite getnum_appendInt by done. cbn [time.getnum].
  by replace (0 * 10 ^ Z.of_nat width + n) with n by lia.
Qed.

(** [getfrac] over the digits that [appendInt] wrote *)
Lemma getfrac_appendInt (width : nat) (e acc n : Z) (rest : string) :
  0 <= n < 10 ^ Z.of_nat width ->
  Z.of_nat width <= e + 1 ->
  time.getfrac (10 ^ e) acc (time.appendInt width n +:+ rest)
  = time.getfrac (10 ^ e / 10 ^ Z.of_nat width)
      (acc + n * 10 ^ (e + 1 - Z.of_nat width)) rest.
Proof.
  revert acc n rest. induction width as [|w IH]; intros acc n rest Hn He.
  - cbn [time.appendInt String.append]. cbn in Hn.
    assert (n = 0) as -> by lia. rewrite Z.div_1_r. f_equal. lia.
  - cbn [time.appendInt]. rewrite app_assoc.
    assert (10 ^ Z.of_nat (S w) = 10 * 10 ^ Z.of_nat w) as Hpow.
    { rewrite Nat2Z.inj_succ, Z.pow_succ_r; lia. }
    assert (0 < 10 ^ Z.of_nat w) as Hpos by (apply Z.pow_pos_nonneg; lia).
    rewrite IH.
    + cbn [String.append time.getfrac]. rewrite digit_isDigit, digit_value.
      rewrite Hpow, (Z.mul_comm 10), <- Z.div_div by lia.
      f_equal.
      replace (e + 1 - Z.of_nat w) with (Z.succ (e + 1 - Z.of_nat (S w))) by lia.
      rewrite Z.pow_succ_r by lia.
      replace (10 ^ e / 10 ^ Z.of_nat w) with (10 ^ (e + 1 - Z.of_nat (S w))).
      * pose proof (Z.div_mod n 10 ltac:(lia)). lia.
      * replace e with ((e - Z.of_nat w) + Z.of_nat w) at 2 by lia.
        rewrite Z.pow_add_r by lia. rewrite Z.div_mul by lia. f_equal. lia.
    + rewrite Hpow in Hn. split; [apply Z.div_pos; lia|].
      apply Z.div_lt_upper_bound; lia.
    + lia.
Qed.

Lemma trimRightZeros_nil (s : string) :
  time.trimRightZeros s = "" -> strings.forallb (fun c => Ascii.eqb c "0") s = true.
Proof.
  induction s as [|c s IH]; [done|]. cbn [time.trimRightZeros strings.forallb].
  destruct (time.trimRightZeros s); [|done].
  destruct (Ascii.eqb c "0"); [|done]. intros _. by rewrite IH.
Qed.

Lemma getfrac_zeros (scale acc : Z) (zeros rest : string) :
  strings.forallb (fun c => Ascii.eqb c "0") zeros = true ->
  exists scale',
    time.getfrac scale acc (zeros +:+ rest) = time.getfrac scale' acc rest.
Proof.
  revert scale. induction zeros as [|c zeros IH]; intros scale; [by exists scale|].
  cbn [strings.forallb]. intros [->%Ascii.eqb_eq Hz]%andb_prop.
  cbn [String.append time.getfrac]. change (byte.isDigit "0") with true.
  cbn iota.
  replace (acc + scale * Z.of_N (N_of_ascii "0" - N_of_ascii "0")) with acc
    by (cbn; lia).
  apply IH, Hz.
Qed.

(** the trailing zeros that [appendNano] drops count for nothing *)
Lemma getfrac_trimRightZeros (scale acc : Z) (digits : string) :
  strings.forallb byte.isDigit digits = true ->
  time.getfrac scale acc (time.trimRightZeros digits +:+ "Z")
  = time.getfrac scale acc (digits +:+ "Z").
Proof.
  revert scale acc. induction digits as [|c digits IH]; intros scale acc; [done|].
  cbn [strings.forallb]. intros [Hc Hdigits]%andb_prop.
  cbn [time.trimRightZeros].
  destruct (time.trimRightZeros digits) as [|d trimmed] eqn:Htrim.
  - pose proof (trimRightZeros_nil _ Htrim) as Hzeros.
    destruct (Ascii.eqb_spec c "0") as [->|Hne].
    + destruct (getfrac_zeros scale acc (String "0" digits) "Z") as (scale' & ->).
      { cbn. by rewrite Hzeros. }
      reflexivity.
    + cbn [String.append time.getfrac]. rewrite Hc.
      destruct (getfrac_zeros (scale / 10)
                  (acc + scale * Z.of_N (N_of_ascii c - N_of_ascii "0")) digits "Z"
                  Hzeros) as (scale' & ->).
      reflexivity.
  - cbn [String.append time.getfrac]. rewrite Hc.
    rewrite <- IH by done. reflexivity.
Qed.

Lemma trimRightZeros_digits (s : string) :
  strings.forallb byte.isDigit s = true ->
  strings.forallb byte.isDigit (time.trimRightZeros s) = true.
Proof.
  induction s as [|c s IH]; [done|]. cbn [time.trimRightZeros strings.forallb].
  intros [Hc Hs]%andb_prop. specialize (IH Hs).
  destruct (time.trimRightZeros s) as [|d t].
  - destruct (Ascii.eqb c "0"); [done|]. cbn. by rewrite Hc.
  - cbn [strings.forallb]. by rewrite Hc.
Qed.

Lemma trimRightZeros_nonzero (n : Z) :
  0 < n < 10 ^ 9 -> time.trimRightZeros (time.appendInt 9 n) <> "".
Proof.
  intros Hn Hnil. apply trimRightZeros_nil in Hnil.
  pose proof (getfrac_appendInt 9 8 0 n "Z" ltac:(lia) ltac:(lia)) as Hfull.
  destruct (getfrac_zeros (10 ^ 8) 0 (time.appendInt 9 n) "Z" Hnil) as (scale' & Hz).
  rewrite Hz in Hfull. cbn in Hfull. injection Hfull as Hfull. lia.
Qed.

Lemma expect_same (c : ascii) (rest : string) :
  time.expect c (String c rest) = Some rest.
Proof. cbn. by rewrite Ascii.eqb_refl. Qed.

Ltac read_field :=
  rewrite getnum_appendInt_all by (cbn; lia);
  cbn [mbind option_bind String.append]; rewrite ?expect_same;
  cbn [mbind option_bind].

(** [time.Parse] reads back what [Format] wrote *)
Lemma Parse_Format (layout : string) (t : time.Time) :
  time.valid t -> time.Parse layout (time.Format t) = Ok t.
Proof.
  intros (Hy & Hmo & Hd & Hh & Hmi & Hs & Hns).
  unfold time.Parse, time.Format.
  do 6 read_field.
  assert ((1 <=? time.month t) && (time.month t <=? 12) && (1 <=? time.day t)
          && (time.day t <=? 31) && (time.hour t <=? 23)
          && (time.minute t <=? 59) && (time.second t <=? 59) = true) as Hrange.
  { repeat (apply andb_true_intro; split); apply Z.leb_le; lia. }
  unfold time.appendNano.
  destruct (Z.eqb_spec (time.nanosecond t) 0) as [Hzero|Hnonzero].
  - cbn [String.append]. rewrite expect_same. cbn [mbind option_bind String.eqb andb].
    rewrite Hrange. destruct t; cbn in *. by subst.
  - cbn [String.append].
    pose proof (trimRightZeros_nonzero (time.nanosecond t) ltac:(lia)) as Hnonempty.
    pose proof (trimRightZeros_digits _ (appendInt_digits 9 (time.nanosecond t)))
      as Hdigits.
    assert (time.startsWithDigit
              (time.trimRightZeros (time.appendInt 9 (time.nanosecond t)) +:+ "Z")
            = true) as ->.
    { destruct (time.trimRightZeros (time.appendInt 9 (time.nanosecond t)));
        [done|]. cbn in *. by apply andb_prop in Hdigits as [-> _]. }
    rewrite getfrac_trimRightZeros by apply appendInt_digits.
    change 100000000 with (10 ^ 8).
    rewrite (getfrac_appendInt 9 8 0 (time.nanosecond t) "Z") by lia.
    cbn [time.getfrac]. change (byte.isDigit "Z") with false. cbn iota.
    rewrite expect_same. cbn [mbind option_bind String.eqb andb].
    rewrite Hrange. destruct t; cbn in *. do 2 f_equal. lia.
Qed.

End time_text.

Section base64_text.

Local Open Scope N_scope.

Ltac divlia := zify; Z.to_euclidean_division_equations; lia.

Lemma below64 (P : N -> bool) :
  List.forallb P (List.map N.of_nat (List.seq 0 64)) = true ->
  forall n, n < 64 -> P n = true.
Proof.
  intros Hall n Hn. rewrite List.forallb_forall in Hall. apply Hall.
  apply List.in_map_iff. exists (N.to_nat n). split; [lia|].
  apply List.in_seq. lia.
Qed.

Lemma decodeURL_encodeURL (n : N) :
  n < 64 -> base64.decodeURL (base64.encodeURL n) = Some n.
Proof.
  intros Hn.
  pose proof (below64
    (fun n => match base64.decodeURL (base64.encodeURL n) with
              | Some m => N.eqb m n
              | None => false
              end) ltac:(vm_compute; reflexivity) n Hn) as H.
  cbv beta in H. destruct (base64.decodeURL (base64.encodeURL n)); [|done].
  by apply N.eqb_eq in H as ->.
Qed.

Lemma encodeURL_plain (n : N) :
  n < 64 ->
  Ascii.eqb (base64.encodeURL n) "=" = false /\
  byte.oneOf (base64.encodeURL n) (String "010" (String "013" EmptyString)) = false.
Proof.
  intros Hn.
  pose proof (below64
    (fun n => negb (Ascii.eqb (base64.encodeURL n) "=")
              && negb (byte.oneOf (base64.encodeURL n)
                         (String "010" (String "013" EmptyString))))
    ltac:(vm_compute; reflexivity) n Hn) as H.
  cbv beta in H. apply andb_prop in H as [H1 H2].
  by apply negb_true_iff in H1, H2.
Qed.

Lemma ascii_of_N_of_ascii (c : ascii) (n : N) :
  n = N_of_ascii c -> ascii_of_N n = c.
Proof. intros ->. apply ascii_N_embedding. Qed.

Ltac decode_sextet :=
  rewrite decodeURL_encodeURL by divlia; cbn [mbind option_bind].

Ltac not_padding :=
  match goal with
  | |- context [Ascii.eqb (base64.encodeURL ?n) "="] =>
      rewrite (proj1 (encodeURL_plain n ltac:(divlia)))
  end.

Lemma decodeQuanta_EncodeToString_bounded (n : nat) (src : string) :
  (String.length src < n)%nat ->
  base64.decodeQuanta (base64.EncodeToString src) = Some src.
Proof.
  revert src. induction n as [|n IH]; intros src Hlen; [lia|].
  destruct src as [|a [|b [|c src]]]; [reflexivity| | |].
  - pose proof (N_ascii_bounded a).
    cbn [base64.EncodeToString base64.decodeQuanta]. cbv zeta.
    do 2 decode_sextet. cbn [Ascii.eqb Bool.eqb andb String.eqb].
    do 2 f_equal. apply ascii_of_N_of_ascii. divlia.
  - pose proof (N_ascii_bounded a). pose proof (N_ascii_bounded b).
    cbn [base64.EncodeToString base64.decodeQuanta]. cbv zeta.
    do 2 decode_sextet. not_padding. decode_sextet.
    cbn [Ascii.eqb Bool.eqb andb String.eqb].
    do 2 f_equal; [|f_equal]; apply ascii_of_N_of_ascii; divlia.
  - pose proof (N_ascii_bounded a). pose proof (N_ascii_bounded b).
    pose proof (N_ascii_bounded c).
    cbn [base64.EncodeToString base64.decodeQuanta]. cbv zeta.
    do 2 decode_sextet. not_padding. decode_sextet. not_padding. decode_sextet.
    rewrite IH by (cbn in Hlen; lia). cbn [mbind option_bind].
    do 2 f_equal; [|f_equal; [|f_equal]]; apply ascii_of_N_of_ascii; divlia.
Qed.

Lemma dropNewlines_EncodeToString_bounded (n : nat) (src : string) :
  (String.length src < n)%nat ->
  base64.dropNewlines (base64.EncodeToString src) = base64.EncodeToString src.
Proof.
  revert src. induction n as [|n IH]; intros src Hlen; [lia|].
  destruct src as [|a [|b [|c src]]]; [reflexivity| | |].
  all: pose proof (N_ascii_bounded a); try pose proof (N_ascii_bounded b);
    try pose proof (N_ascii_bounded c);
    cbn [base64.EncodeToString base64.dropNewlines]; cbv zeta;
    repeat match goal with
    | |- context [byte.oneOf (base64.encodeURL ?n) _] =>
        rewrite (proj2 (encodeURL_plain n ltac:(divlia)))
    end.
  1, 2: reflexivity.
  rewrite IH by (cbn in Hlen; lia). reflexivity.
Qed.

(** [DecodeString] reads back what [EncodeToString] wrote *)
Lemma DecodeString_EncodeToString (src : string) :
  base64.DecodeString (base64.EncodeToString src) = Ok src.
Proof.
  unfold base64.DecodeString.
  rewrite (dropNewlines_EncodeToString_bounded (S (String.length src))) by lia.
  by rewrite (decodeQuanta_EncodeToString_bounded (S (String.length src))) by lia.
Qed.

End base64_text.

(** ** ORDER BY and LIMIT *)

Section sorting.

Context {A : Type} (le : A -> A -> bool).
Hypothesis le_total : forall a b, le a b = true \/ le b a = true.
Hypothesis le_trans : forall a b c, le a b = true -> le b c = true -> le a c = true.

Lemma insertBy_Permutation (x : A) (l : list A) :
  sqlite.insertBy le x l ≡ₚ x :: l.
Proof.
  induction l as [|y l IH]; cbn; [done|].
  destruct (le x y); [done|]. rewrite IH. apply Permutation_swap.
Qed.

Lemma orderBy_Permutation (l : list A) : sqlite.orderBy le l ≡ₚ l.
Proof.
  unfold sqlite.orderBy. induction l as [|x l IH]; cbn; [done|].
  by rewrite insertBy_Permutation, IH.
Qed.

Lemma insertBy_sorted (x : A) (l : list A) :
  StronglySorted (fun a b => le a b = true) l -> StronglySorted (fun a b => le a b = true) (sqlite.insertBy le x l).
Proof.
  induction l as [|y l IH]; cbn; intros Hsorted.
  - by repeat constructor.
  - apply StronglySorted_inv in Hsorted as [Hl Hy].
    destruct (le x y) eqn:Hxy.
    + constructor; [by constructor|]. constructor; [done|].
      eapply Forall_impl; [exact Hy|]. intros z Hz. by apply (le_trans x y z).
    + constructor; [by apply IH|].
      rewrite insertBy_Permutation. constructor; [|done].
      by destruct (le_total x y) as [Hle|Hle]; [congruence|].
Qed.

Lemma orderBy_sorted (l : list A) : StronglySorted (fun a b => le a b = true) (sqlite.orderBy le l).
Proof.
  unfold sqlite.orderBy. induction l as [|x l IH]; cbn; [constructor|].
  by apply insertBy_sorted.
Qed.

Lemma insertBy_least (x : A) (l : list A) :
  Forall (fun z => le x z = true) l -> sqlite.insertBy le x l = x :: l.
Proof.
  destruct l as [|y l]; [done|]. intros Hall. apply Forall_cons in Hall as [Hy _].
  cbn in *. by rewrite Hy.
Qed.

Lemma filter_insertBy (p : A -> bool) (x : A) (l : list A) :
  StronglySorted (fun a b => le a b = true) l ->
  List.filter p (sqlite.insertBy le x l)
  = if p x then sqlite.insertBy le x (List.filter p l) else List.filter p l.
Proof.
  induction l as [|y l IH]; intros Hsorted.
  - cbn. by destruct (p x).
  - apply StronglySorted_inv in Hsorted as [Hl Hy]. cbn [sqlite.insertBy].
    destruct (le x y) eqn:Hxy.
    + cbn [List.filter]. destruct (p x); [|done].
      symmetry. apply (insertBy_least x (List.filter p (y :: l))).
      apply List.Forall_forall. intros z [Hz _]%List.filter_In.
      destruct Hz as [<-|Hz]; [done|].
      rewrite List.Forall_forall in Hy. by apply (le_trans x y z), Hy.
    + cbn [List.filter]. rewrite (IH Hl).
      destruct (p y), (p x); cbn [sqlite.insertBy]; by rewrite ?Hxy.
Qed.

(** a WHERE clause selects the same rows before and after ORDER BY *)
Lemma filter_orderBy (p : A -> bool) (l : list A) :
  List.filter p (sqlite.orderBy le l) = sqlite.orderBy le (List.filter p l).
Proof.
  unfold sqlite.orderBy. induction l as [|x l IH]; [done|].
  cbn [foldr List.filter]. rewrite filter_insertBy by apply orderBy_sorted.
  rewrite IH. by destruct (p x).
Qed.

End sorting.

Section limit.

Context {A : Type}.

Lemma limit_length (n : Z) (l : list A) :
  (0 <= n)%Z -> (Z.of_nat (length (sqlite.limit n l)) <= n)%Z.
Proof.
  intros Hn. unfold sqlite.limit. destruct (Z.ltb_spec n 0) as [|_]; [lia|].
  rewrite list.length_take. lia.
Qed.

Lemma limit_take (n : Z) (l : list A) :
  (0 <= n)%Z -> sqlite.limit n l = take (Z.to_nat n) l.
Proof.
  intros Hn. unfold sqlite.limit. by destruct (Z.ltb_spec n 0) as [|_]; [lia|].
Qed.

End limit.

(** ** TEXT order, and the order of [targets] *)

Section text_order.

Lemma ascii_compare_Lt (a b : ascii) :
  Ascii.compare a b = Lt <-> (N_of_ascii a < N_of_ascii b)%N.
Proof. unfold Ascii.compare. apply N.compare_lt_iff. Qed.

Lemma ascii_compare_Eq (a b : ascii) : Ascii.compare a b = Eq <-> a = b.
Proof.
  split; [apply Ascii.compare_eq_iff|]. intros ->. unfold Ascii.compare.
  apply N.compare_refl.
Qed.

Lemma string_compare_refl (s : string) : String.compare s s = Eq.
Proof.
  induction s as [|c s IH]; [done|]. cbn.
  by rewrite (proj2 (ascii_compare_Eq c c) eq_refl).
Qed.

Lemma textLt_irrefl (a : string) : sqlite.textLt a a = false.
Proof. unfold sqlite.textLt. by rewrite string_compare_refl. Qed.

Lemma textLt_trans (a b c : string) :
  sqlite.textLt a b = true -> sqlite.textLt b c = true -> sqlite.textLt a c = true.
Proof.
  unfold sqlite.textLt. revert b c.
  induction a as [|x a IH]; intros [|y b] [|z c]; cbn; try done.
  destruct (Ascii.compare x y) eqn:Hxy; [| |done].
  - apply ascii_compare_Eq in Hxy as ->.
    destruct (Ascii.compare y z); [|done..]. apply IH.
  - destruct (Ascii.compare y z) eqn:Hyz; [| |done].
    + apply ascii_compare_Eq in Hyz as ->. by rewrite Hxy.
    + apply ascii_compare_Lt in Hxy. apply ascii_compare_Lt in Hyz.
      assert (Ascii.compare x z = Lt) as ->; [|done].
      apply ascii_compare_Lt. by apply (N.lt_trans _ _ _ Hxy).
Qed.

Lemma textLt_cases (a b : string) :
  a = b \/ sqlite.textLt a b = true \/ sqlite.textLt b a = true.
Proof.
  unfold sqlite.textLt. rewrite (String.compare_antisym a b).
  destruct (String.compare b a) eqn:Hba; cbn; [|by right; right|by right; left].
  left. symmetry. by apply String.compare_eq_iff.
Qed.

Lemma textLt_asym (a b : string) :
  sqlite.textLt a b = true -> sqlite.textLt b a = false.
Proof.
  intros Hab. destruct (sqlite.textLt b a) eqn:Hba; [|done].
  by rewrite <- (textLt_irrefl a), (textLt_trans a b a).
Qed.

Lemma textLt_ne (a b : string) : sqlite.textLt a b = true -> a <> b.
Proof. intros Hab ->. by rewrite textLt_irrefl in Hab. Qed.

Lemma orderLe_total (a b : sqlite.TargetsRow.t) :
  sqlite.orderLe a b = true \/ sqlite.orderLe b a = true.
Proof.
  unfold sqlite.orderLe.
  destruct (textLt_cases (sqlite.TargetsRow.created_at a) (sqlite.TargetsRow.created_at b))
    as [-> | [-> | ->]]; [|by left|by right].
  rewrite String.eqb_refl, textLt_irrefl. cbn.
  destruct (sqlite.textLt (sqlite.TargetsRow.id b) (sqlite.TargetsRow.id a)) eqn:Hba;
    [right | by left].
  by rewrite (textLt_asym _ _ Hba).
Qed.

Lemma orderLe_cases (a b : sqlite.TargetsRow.t) :
  sqlite.orderLe a b = true <->
  sqlite.textLt (sqlite.TargetsRow.created_at a) (sqlite.TargetsRow.created_at b) = true
  \/ (sqlite.TargetsRow.created_at a = sqlite.TargetsRow.created_at b /\
      sqlite.textLt (sqlite.TargetsRow.id b) (sqlite.TargetsRow.id a) = false).
Proof.
  unfold sqlite.orderLe. rewrite orb_true_iff, andb_true_iff, negb_true_iff.
  by rewrite String.eqb_eq.
Qed.

Lemma orderLe_trans (a b c : sqlite.TargetsRow.t) :
  sqlite.orderLe a b = true -> sqlite.orderLe b c = true -> sqlite.orderLe a c = true.
Proof.
  rewrite !orderLe_cases. intros [Hab | [Hab Hiab]] [Hbc | [Hbc Hibc]].
  - left. by apply (textLt_trans _ _ _ Hab).
  - left. by rewrite <- Hbc.
  - left. by rewrite Hab.
  - right. split; [congruence|].
    destruct (sqlite.textLt (sqlite.TargetsRow.id c) (sqlite.TargetsRow.id a)) eqn:Hca;
      [|done].
    destruct (textLt_cases (sqlite.TargetsRow.id a) (sqlite.TargetsRow.id b))
      as [Heq | [Hlt | Hgt]]; [| |congruence].
    + rewrite <- Heq in Hibc. congruence.
    + by rewrite (textLt_trans _ _ _ Hca Hlt) in Hibc.
Qed.

(** a row that sorts after another row with another id is greater
    than the cursor made of that row *)
Lemma rowValueGt_after (c z : sqlite.TargetsRow.t) :
  sqlite.orderLe c z = true ->
  sqlite.TargetsRow.id c <> sqlite.TargetsRow.id z ->
  sqlite.rowValueGt z (sqlite.TargetsRow.created_at c) (sqlite.TargetsRow.id c) = true.
Proof.
  rewrite orderLe_cases. unfold sqlite.rowValueGt. intros [Hlt | [Heq Hid]] Hne.
  - by rewrite Hlt.
  - rewrite Heq, String.eqb_refl. cbn.
    destruct (textLt_cases (sqlite.TargetsRow.id c) (sqlite.TargetsRow.id z))
      as [Hsame | [-> | Hgt]]; [done| |congruence].
    apply orb_true_r.
Qed.

(** a row that does not sort after the row of the cursor is not
    greater than the cursor *)
Lemma rowValueGt_before (c z : sqlite.TargetsRow.t) :
  sqlite.orderLe z c = true ->
  sqlite.rowValueGt z (sqlite.TargetsRow.created_at c) (sqlite.TargetsRow.id c) = false.
Proof.
  rewrite orderLe_cases. unfold sqlite.rowValueGt. intros [Hlt | [Heq Hid]].
  - rewrite (textLt_asym _ _ Hlt). cbn.
    destruct (String.eqb_spec (sqlite.TargetsRow.created_at z)
                (sqlite.TargetsRow.created_at c)) as [Heq|]; [|done].
    by rewrite Heq, textLt_irrefl in Hlt.
  - by rewrite Heq, textLt_irrefl, String.eqb_refl, Hid.
Qed.

Lemma orderLe_refl (a : sqlite.TargetsRow.t) : sqlite.orderLe a a = true.
Proof. by destruct (orderLe_total a a). Qed.

Lemma StronglySorted_app_inv {A : Type} (R : A -> A -> Prop) (l1 l2 : list A) :
  StronglySorted R (l1 ++ l2) ->
  forall x y, List.In x l1 -> List.In y l2 -> R x y.
Proof.
  induction l1 as [|a l1 IH]; [done|]. cbn. intros Hs%StronglySorted_inv.
  destruct Hs as [Hs Ha]. intros x y [<-|Hx] Hy.
  - rewrite List.Forall_forall in Ha. apply Ha, List.in_or_app. by right.
  - by apply IH.
Qed.

Lemma filter_none {A : Type} (p : A -> bool) (l : list A) :
  (forall x, List.In x l -> p x = false) -> List.filter p l = [].
Proof.
  induction l as [|a l IH]; [done|]. intros Hall. cbn.
  rewrite (Hall a) by (by left). apply IH. intros x Hx. apply Hall. by right.
Qed.

Lemma filter_all {A : Type} (p : A -> bool) (l : list A) :
  (forall x, List.In x l -> p x = true) -> List.filter p l = l.
Proof.
  induction l as [|a l IH]; [done|]. intros Hall. cbn.
  rewrite (Hall a) by (by left). f_equal. apply IH. intros x Hx. apply Hall. by right.
Qed.

(** in the sorted rows, the rows greater than the cursor made of the
    last of the first [n] rows are the rows after the first [n] *)
Lemma filter_after_cursor (rows : list sqlite.TargetsRow.t) (n : nat)
    (c : sqlite.TargetsRow.t) :
  StronglySorted (fun a b => sqlite.orderLe a b = true) rows ->
  NoDup (sqlite.TargetsRow.id <$> rows) ->
  last (take n rows) = Some c ->
  List.filter
    (fun r => sqlite.rowValueGt r (sqlite.TargetsRow.created_at c)
                (sqlite.TargetsRow.id c)) rows
  = drop n rows.
Proof.
  intros Hsorted Hnodup Hlast.
  apply last_Some in Hlast as (before & Htake).
  rewrite <- (list.take_drop n rows) in Hsorted, Hnodup |- * at 1.
  rewrite Htake in *. rewrite List.filter_app.
  rewrite filter_none, filter_all; [done| |].
  - intros z Hz. apply rowValueGt_after.
    + apply (StronglySorted_app_inv _ _ _ Hsorted); [|done].
      apply List.in_or_app. right. by left.
    + intros Hid. rewrite fmap_app, fmap_app in Hnodup.
      apply NoDup_app in Hnodup as (_ & Hdisjoint & _).
      apply (Hdisjoint (sqlite.TargetsRow.id c)).
      * apply elem_of_app. right. cbn. apply list_elem_of_here.
      * rewrite Hid. apply list_elem_of_fmap_2. by apply list_elem_of_In.
  - intros z Hz. apply rowValueGt_before.
    apply List.in_app_or in Hz as [Hz | [<- | []]]; [|apply orderLe_refl].
    rewrite <- List.app_assoc in Hsorted.
    apply (StronglySorted_app_inv _ _ _ Hsorted); [done|].
    apply List.in_or_app. left. by left.
Qed.

End text_order.

(** ** The SQLite store, further *)

Section store_more.

Lemma find_app_Some {A : Type} (f : A -> bool) (l l' : list A) (x : A) :
  find f l = Some x -> find f (l ++ l') = Some x.
Proof.
  induction l as [|y l IH]; cbn; [done|]. by destruct (f y).
Qed.

Lemma find_prefix {A : Type} (f : A -> bool) (l l' : list A) (x : A) :
  l `prefix_of` l' -> find f l = Some x -> find f l' = Some x.
Proof. intros [rest ->]. apply find_app_Some. Qed.

Lemma find_None_iff {A : Type} (f : A -> bool) (l : list A) :
  find f l = None <-> forall x, x ∈ l -> f x = false.
Proof.
  induction l as [|y l IH]; cbn.
  - split; [|done]. intros _ x Hx. by apply elem_of_nil in Hx.
  - destruct (f y) eqn:Hy.
    + split; [done|]. intros Hall. rewrite (Hall y) in Hy; [done|].
      apply list_elem_of_here.
    + rewrite IH. split.
      * intros Hall x [->|Hx]%elem_of_cons; [done | by apply Hall].
      * intros Hall x Hx. apply Hall. by apply list_elem_of_further.
Qed.

Lemma find_Some_elem {A : Type} (f : A -> bool) (l : list A) (x : A) :
  find f l = Some x -> x ∈ l /\ f x = true.
Proof.
  intros H. apply List.find_some in H as [Hin Hf]. split; [|done].
  by apply list_elem_of_In.
Qed.

(** *** Writes are all or nothing, and only append *)

Lemma CreateTarget_cases (s : sqlite.SQLiteStore) (target : models.Target.t)
    (key : option string) :
  (fst (sqlite.CreateTarget s target key) = s)
  \/ (snd (snd (sqlite.CreateTarget s target key)) = None /\
      key ≫= sqlite.selectIdempotencyKey s = None /\
      sqlite.selectTargetByCanonicalURL s (models.Target.CanonicalURL target) = None /\
      sqlite.selectTargetByID s (models.Target.ID target) = None /\
      sqlite.targets (fst (sqlite.CreateTarget s target key))
      = sqlite.targets s ++ [sqlite.rowOfTarget target] /\
      sqlite.check_results (fst (sqlite.CreateTarget s target key))
      = sqlite.check_results s /\
      sqlite.idempotency_keys (fst (sqlite.CreateTarget s target key))
      = sqlite.idempotency_keys s
        ++ match key with
           | Some k =>
               [{| sqlite.IdempotencyKeysRow.key := k;
                   sqlite.IdempotencyKeysRow.target_id := models.Target.ID target;
                   sqlite.IdempotencyKeysRow.created_at := time.Format (sqlite.now s) |}]
           | None => []
           end).
Proof.
  unfold sqlite.CreateTarget.
  destruct (key ≫= sqlite.selectIdempotencyKey s) eqn:Hkey; [by left|].
  destruct (sqlite.selectTargetByCanonicalURL s _) eqn:Hurl; [by left|].
  destruct (sqlite.selectTargetByID s _) eqn:Hid; [by left|].
  right. destruct key; cbn; by rewrite ?List.app_nil_r.
Qed.

Lemma CreateCheckResult_cases (s : sqlite.SQLiteStore) (result : models.CheckResult.t) :
  (fst (sqlite.CreateCheckResult s result) = s)
  \/ (snd (sqlite.CreateCheckResult s result) = None /\
      sqlite.targets (fst (sqlite.CreateCheckResult s result)) = sqlite.targets s /\
      sqlite.idempotency_keys (fst (sqlite.CreateCheckResult s result))
      = sqlite.idempotency_keys s /\
      exists row,
        sqlite.check_results (fst (sqlite.CreateCheckResult s result))
        = sqlite.check_results s ++ [row] /\
        sqlite.CheckResultsRow.id row
        ∉ (sqlite.CheckResultsRow.id <$> sqlite.check_results s)).
Proof.
  unfold sqlite.CreateCheckResult.
  destruct (find _ (sqlite.check_results s)) eqn:Hfind; [by left|].
  right. cbn. repeat split. eexists. split; [done|]. cbn.
  intros (row & Heq & Hin)%list_elem_of_fmap.
  rewrite find_None_iff in Hfind. specialize (Hfind row Hin). cbn in Hfind.
  by rewrite <- Heq, String.eqb_refl in Hfind.
Qed.

Lemma later_prefix (s s' : sqlite.SQLiteStore) :
  later s s' ->
  sqlite.targets s `prefix_of` sqlite.targets s' /\
  sqlite.idempotency_keys s `prefix_of` sqlite.idempotency_keys s' /\
  sqlite.check_results s `prefix_of` sqlite.check_results s'.
Proof.
  intros Hlater. induction Hlater as [|s' target key _ IH|s' result _ IH|];
    [done| | |done].
  - destruct IH as (Ht & Hk & Hr).
    destruct (CreateTarget_cases s' target key)
      as [-> | (_ & _ & _ & _ & -> & -> & ->)]; [done|].
    split; [|split]; [| |done]; by apply prefix_app_r.
  - destruct IH as (Ht & Hk & Hr).
    destruct (CreateCheckResult_cases s' result)
      as [-> | (_ & -> & -> & row & -> & _)]; [done|].
    split; [done|]. split; [done|]. by apply prefix_app_r.
Qed.

(** X6.  A call of [CreateTarget] or [CreateCheckResult] that returns an
    error leaves every table as it was; and whatever is called, rows
    are only ever added at the end of a table: no row is changed or
    removed. *)
Theorem writes_are_atomic_and_append_only :
  (forall s target key,
     snd (snd (sqlite.CreateTarget s target key)) <> None ->
     fst (sqlite.CreateTarget s target key) = s) /\
  (forall s result,
     snd (sqlite.CreateCheckResult s result) <> None ->
     fst (sqlite.CreateCheckResult s result) = s) /\
  (forall s s',
     later s s' ->
     sqlite.targets s `prefix_of` sqlite.targets s' /\
     sqlite.idempotency_keys s `prefix_of` sqlite.idempotency_keys s' /\
     sqlite.check_results s `prefix_of` sqlite.check_results s').
Proof.
  split; [|split].
  - intros s target key Herr.
    by destruct (CreateTarget_cases s target key) as [? | [? _]].
  - intros s result Herr.
    by destruct (CreateCheckResult_cases s result) as [? | [? _]].
  - apply later_prefix.
Qed.

(** *** The constraints of the schema *)

Lemma NoDup_snoc {A : Type} (l : list A) (x : A) :
  NoDup l -> x ∉ l -> NoDup (l ++ [x]).
Proof.
  intros Hl Hx. apply NoDup_app. split; [done|]. split; [|apply NoDup_singleton].
  intros y Hy ->%list_elem_of_singleton. done.
Qed.

Lemma selectTargetByID_None (s : sqlite.SQLiteStore) (id : string) :
  sqlite.selectTargetByID s id = None <->
  id ∉ (sqlite.TargetsRow.id <$> sqlite.targets s).
Proof.
  unfold sqlite.selectTargetByID. rewrite find_None_iff. split.
  - intros Hall (row & -> & Hin)%list_elem_of_fmap.
    specialize (Hall row Hin). cbn in Hall. by rewrite String.eqb_refl in Hall.
  - intros Hnot row Hin. cbn. apply String.eqb_neq. intros Heq. apply Hnot.
    rewrite <- Heq. by apply list_elem_of_fmap_2.
Qed.

Lemma selectTargetByCanonicalURL_None (s : sqlite.SQLiteStore) (c : string) :
  sqlite.selectTargetByCanonicalURL s c = None <->
  c ∉ (sqlite.TargetsRow.canonical_url <$> sqlite.targets s).
Proof.
  unfold sqlite.selectTargetByCanonicalURL. rewrite find_None_iff. split.
  - intros Hall (row & -> & Hin)%list_elem_of_fmap.
    specialize (Hall row Hin). cbn in Hall. by rewrite String.eqb_refl in Hall.
  - intros Hnot row Hin. cbn. apply String.eqb_neq. intros Heq. apply Hnot.
    rewrite <- Heq. by apply list_elem_of_fmap_2.
Qed.

Lemma selectIdempotencyKey_None (s : sqlite.SQLiteStore) (key : string) :
  sqlite.selectIdempotencyKey s key = None <->
  key ∉ (sqlite.IdempotencyKeysRow.key <$> sqlite.idempotency_keys s).
Proof.
  unfold sqlite.selectIdempotencyKey. rewrite fmap_None, find_None_iff. split.
  - intros Hall (row & -> & Hin)%list_elem_of_fmap.
    specialize (Hall row Hin). cbn in Hall. by rewrite String.eqb_refl in Hall.
  - intros Hnot row Hin. cbn. apply String.eqb_neq. intros Heq. apply Hnot.
    rewrite <- Heq. by apply list_elem_of_fmap_2.
Qed.

Lemma CreateTarget_constrained (s : sqlite.SQLiteStore) (target : models.Target.t)
    (key : option string) :
  constrained s -> constrained (fst (sqlite.CreateTarget s target key)).
Proof.
  intros [Hid Hurl Hkey Hrefer Hresult].
  destruct (CreateTarget_cases s target key)
    as [-> | (_ & Hfresh & Hnourl & Hnoid & Ht & Hr & Hk)]; [done|].
  split; rewrite ?Ht, ?Hr, ?Hk, ?fmap_app.
  - apply NoDup_snoc; [done|]. by apply selectTargetByID_None.
  - apply NoDup_snoc; [done|]. by apply selectTargetByCanonicalURL_None.
  - destruct key as [k|]; [|by rewrite List.app_nil_r].
    apply NoDup_snoc; [done|]. by apply selectIdempotencyKey_None.
  - intros row [Hin|Hin]%elem_of_app.
    + apply elem_of_app. left. by apply Hrefer.
    + apply elem_of_app. right. destruct key as [k|]; [|by apply elem_of_nil in Hin].
      apply list_elem_of_singleton in Hin as ->. cbn. apply list_elem_of_here.
  - done.
Qed.

Lemma CreateCheckResult_constrained (s : sqlite.SQLiteStore)
    (result : models.CheckResult.t) :
  constrained s -> constrained (fst (sqlite.CreateCheckResult s result)).
Proof.
  intros [Hid Hurl Hkey Hrefer Hresult].
  destruct (CreateCheckResult_cases s result)
    as [-> | (_ & Ht & Hk & row & Hr & Hnew)]; [done|].
  split; rewrite ?Ht, ?Hr, ?Hk, ?fmap_app; try done.
  by apply NoDup_snoc.
Qed.

Lemma later_constrained (s s' : sqlite.SQLiteStore) :
  constrained s -> later s s' -> constrained s'.
Proof.
  intros Hs Hlater. induction Hlater as [|s' target key _ IH|s' result _ IH|s' ? ? _ IH].
  - done.
  - by apply CreateTarget_constrained.
  - by apply CreateCheckResult_constrained.
  - by destruct IH.
Qed.

(** X7.  The store keeps the constraints of its schema through every
    sequence of calls: target ids, canonical URLs, idempotency keys and
    result ids stay unique, and every idempotency key refers to a
    target that is stored.  The empty database satisfies them. *)
Theorem store_keeps_schema_constraints (s s' : sqlite.SQLiteStore) :
  (sqlite.targets s = [] -> sqlite.idempotency_keys s = [] ->
   sqlite.check_results s = [] -> constrained s) /\
  (constrained s -> later s s' -> constrained s').
Proof.
  split; [|apply later_constrained].
  intros Ht Hk Hr. split; rewrite ?Ht, ?Hk, ?Hr; cbn; try apply NoDup_nil_2.
  intros k Hin. by apply elem_of_nil in Hin.
Qed.

(** *** A target, once created *)

Lemma scanTarget_rowOfTarget (target : models.Target.t) :
  time.valid (models.Target.CreatedAt target) ->
  sqlite.scanTarget (sqlite.rowOfTarget target) = target.
Proof.
  intros Hvalid. unfold sqlite.scanTarget, sqlite.rowOfTarget, sqlite.parseOrZero.
  cbn. rewrite (Parse_Format _ _ Hvalid). by destruct target.
Qed.

Lemma CreateTarget_fresh (s : sqlite.SQLiteStore) (target : models.Target.t)
    (key : option string) :
  key ≫= sqlite.selectIdempotencyKey s = None ->
  sqlite.selectTargetByCanonicalURL s (models.Target.CanonicalURL target) = None ->
  sqlite.selectTargetByID s (models.Target.ID target) = None ->
  snd (sqlite.CreateTarget s target key) = (Some target, None) /\
  sqlite.selectTargetByID (fst (sqlite.CreateTarget s target key))
    (models.Target.ID target) = Some (sqlite.rowOfTarget target) /\
  (forall k, key = Some k ->
     sqlite.selectIdempotencyKey (fst (sqlite.CreateTarget s target key)) k
     = Some (models.Target.ID target)).
Proof.
  intros Hkey Hurl Hid. unfold sqlite.CreateTarget. rewrite Hkey, Hurl, Hid.
  cbn [fst snd]. split; [done|].
  assert (find (fun r => String.eqb (sqlite.TargetsRow.id r) (models.Target.ID target))
            (sqlite.targets s ++ [sqlite.rowOfTarget target])
          = Some (sqlite.rowOfTarget target)) as Hfound.
  { rewrite find_app_None by exact Hid. cbn. by rewrite String.eqb_refl. }
  split.
  - by destruct key.
  - intros k ->. cbn in Hkey. unfold sqlite.selectIdempotencyKey in *. cbn.
    apply fmap_None in Hkey. rewrite find_app_None by exact Hkey. cbn.
    by rewrite String.eqb_refl.
Qed.

Lemma later_selectTargetByID (s s' : sqlite.SQLiteStore) (id : string)
    (row : sqlite.TargetsRow.t) :
  later s s' ->
  sqlite.selectTargetByID s id = Some row -> sqlite.selectTargetByID s' id = Some row.
Proof.
  intros (Hprefix & _ & _)%later_prefix. by apply find_prefix.
Qed.

Lemma later_selectIdempotencyKey (s s' : sqlite.SQLiteStore) (key id : string) :
  later s s' ->
  sqlite.selectIdempotencyKey s key = Some id ->
  sqlite.selectIdempotencyKey s' key = Some id.
Proof.
  intros (_ & Hprefix & _)%later_prefix. unfold sqlite.selectIdempotencyKey.
  destruct (find _ (sqlite.idempotency_keys s)) as [row|] eqn:Hfind; [|done].
  by rewrite (find_prefix _ _ _ _ Hprefix Hfind).
Qed.

(** X8.  A target whose id and canonical URL are new, created with no key
    or with a key that is not recorded, is returned with a nil error;
    and from then on, whatever else is written, [GetTargetByID] of its
    id returns the target as it was given, its creation time read back
    from the text that was stored. *)
Theorem created_target_is_found_by_id
    (s s' : sqlite.SQLiteStore) (target : models.Target.t) (key : option string) :
  onCalendar (models.Target.CreatedAt target) ->
  key ≫= sqlite.selectIdempotencyKey s = None ->
  sqlite.selectTargetByCanonicalURL s (models.Target.CanonicalURL target) = None ->
  sqlite.selectTargetByID s (models.Target.ID target) = None ->
  later (fst (sqlite.CreateTarget s target key)) s' ->
  snd (sqlite.CreateTarget s target key) = (Some target, None) /\
  sqlite.GetTargetByID s' (models.Target.ID target) = (Some target, None).
Proof.
  intros [Hvalid _] Hkey Hurl Hid Hlater.
  destruct (CreateTarget_fresh s target key Hkey Hurl Hid) as (Hret & Hrow & _).
  split; [done|].
  unfold sqlite.GetTargetByID, sqlite.getTargetByIDTx.
  rewrite (later_selectTargetByID _ _ _ _ Hlater Hrow).
  by rewrite scanTarget_rowOfTarget.
Qed.

(** X9.  Once a target has been created with an idempotency key, every later
    call of [CreateTarget] with that key returns that first target with
    a nil error and writes nothing, whatever target it is given (its
    URL is not compared with the first one) and whatever was written
    in between. *)
Theorem recorded_key_returns_first_target
    (s s' : sqlite.SQLiteStore) (target other : models.Target.t) (key : string) :
  onCalendar (models.Target.CreatedAt target) ->
  sqlite.selectIdempotencyKey s key = None ->
  sqlite.selectTargetByCanonicalURL s (models.Target.CanonicalURL target) = None ->
  sqlite.selectTargetByID s (models.Target.ID target) = None ->
  later (fst (sqlite.CreateTarget s target (Some key))) s' ->
  sqlite.CreateTarget s' other (Some key) = (s', (Some target, None)).
Proof.
  intros [Hvalid _] Hkey Hurl Hid Hlater.
  destruct (CreateTarget_fresh s target (Some key) Hkey Hurl Hid)
    as (_ & Hrow & Hrecorded).
  rewrite (CreateTarget_recorded_key s' other key (models.Target.ID target)).
  - unfold sqlite.getTargetByIDTx.
    rewrite (later_selectTargetByID _ _ _ _ Hlater Hrow).
    by rewrite scanTarget_rowOfTarget.
  - apply (later_selectIdempotencyKey _ _ _ _ Hlater). by apply Hrecorded.
Qed.

End store_more.

(** ** Listing targets *)

Section listing.

Local Open Scope Z_scope.

Lemma orderBy_orderLe_sorted (rows : list sqlite.TargetsRow.t) :
  StronglySorted (fun a b => sqlite.orderLe a b = true) (sqlite.orderBy sqlite.orderLe rows).
Proof. apply orderBy_sorted; [apply orderLe_total | apply orderLe_trans]. Qed.

Lemma filter_elem {A : Type} (p : A -> bool) (l : list A) (x : A) :
  x ∈ List.filter p l <-> x ∈ l /\ p x = true.
Proof. by rewrite !list_elem_of_In, List.filter_In. Qed.

Lemma limit_elem {A : Type} (n : Z) (l : list A) (x : A) :
  x ∈ sqlite.limit n l -> x ∈ l.
Proof.
  unfold sqlite.limit. destruct (n <? 0); [done|].
  intros (i & Hi & _)%elem_of_take. by apply (list_elem_of_lookup_2 _ i).
Qed.

Lemma limit_sorted {A : Type} (R : A -> A -> Prop) (n : Z) (l : list A) :
  StronglySorted R l -> StronglySorted R (sqlite.limit n l).
Proof.
  unfold sqlite.limit. destruct (n <? 0); [done|].
  generalize (Z.to_nat n). intros k Hsorted. revert k.
  induction Hsorted as [|a l Hl IH Ha]; intros [|k]; cbn; try constructor.
  - apply IH.
  - by apply Forall_take.
Qed.

(** the WHERE clause, the ORDER BY and the LIMIT of [ListTargets] *)
Lemma ListTargets_rows (s : sqlite.SQLiteStore) (params : storage.ListTargetsParams.t) :
  exists rows,
    sqlite.ListTargets s params = (sqlite.scanTarget <$> rows, None) /\
    StronglySorted (fun a b => sqlite.orderLe a b = true) rows /\
    (0 <= storage.ListTargetsParams.Limit params ->
     Z.of_nat (length rows) <= storage.ListTargetsParams.Limit params) /\
    forall r, r ∈ rows ->
      r ∈ sqlite.targets s /\
      (storage.ListTargetsParams.Host params <> EmptyString ->
       sqlite.TargetsRow.host r = storage.ListTargetsParams.Host params) /\
      (time.IsZero (storage.ListTargetsParams.AfterTime params) = false ->
       storage.ListTargetsParams.AfterID params <> EmptyString ->
       sqlite.rowValueGt r
         (time.Format (storage.ListTargetsParams.AfterTime params))
         (storage.ListTargetsParams.AfterID params) = true).
Proof.
  unfold sqlite.ListTargets. cbv zeta. eexists. split; [reflexivity|].
  split; [apply limit_sorted, orderBy_orderLe_sorted|].
  split; [apply limit_length|].
  intros r Hr%limit_elem.
  rewrite (orderBy_Permutation sqlite.orderLe) in Hr.
  destruct (String.eqb_spec (storage.ListTargetsParams.Host params) "") as [Hhost|Hhost];
    cbn [negb] in Hr;
    destruct (time.IsZero (storage.ListTargetsParams.AfterTime params)) eqn:Hzero;
    cbn [negb andb] in Hr;
    try (destruct (String.eqb_spec (storage.ListTargetsParams.AfterID params) "")
           as [Hid|Hid]; cbn [negb] in Hr);
    repeat match type of Hr with
           | _ ∈ List.filter _ _ =>
               let H := fresh "Hfilter" in apply filter_elem in Hr as [Hr H]
           end;
    (split; [done|]); split; try done;
    try (intros _; by apply String.eqb_eq).
Qed.

(** X10.  [ListTargets] never fails.  It returns at most [Limit] targets (for
    a [Limit] that is not negative), each of them read from a row of
    [targets], of the host asked for if one is asked for, and greater
    than the cursor if one is given; and it returns them in the order
    of [(created_at, id)], with [created_at] compared as text. *)
Theorem ListTargets_returns_a_sorted_bounded_selection
    (s : sqlite.SQLiteStore) (params : storage.ListTargetsParams.t) :
  exists rows,
    sqlite.ListTargets s params = (sqlite.scanTarget <$> rows, None) /\
    StronglySorted (fun a b => sqlite.orderLe a b = true) rows /\
    (0 <= storage.ListTargetsParams.Limit params ->
     Z.of_nat (length rows) <= storage.ListTargetsParams.Limit params) /\
    forall r, r ∈ rows ->
      r ∈ sqlite.targets s /\
      (storage.ListTargetsParams.Host params <> EmptyString ->
       sqlite.TargetsRow.host r = storage.ListTargetsParams.Host params) /\
      (time.IsZero (storage.ListTargetsParams.AfterTime params) = false ->
       storage.ListTargetsParams.AfterID params <> EmptyString ->
       sqlite.rowValueGt r
         (time.Format (storage.ListTargetsParams.AfterTime params))
         (storage.ListTargetsParams.AfterID params) = true).
Proof. apply ListTargets_rows. Qed.

(** X11.  [GetAllTargets] never fails and returns every stored target exactly
    once, in the order of [(created_at, id)]. *)
Theorem GetAllTargets_returns_every_target_once (s : sqlite.SQLiteStore) :
  exists rows,
    sqlite.GetAllTargets s = (sqlite.scanTarget <$> rows, None) /\
    rows ≡ₚ sqlite.targets s /\
    StronglySorted (fun a b => sqlite.orderLe a b = true) rows.
Proof.
  exists (sqlite.orderBy sqlite.orderLe (sqlite.targets s)).
  split; [done|]. split; [apply orderBy_Permutation | apply orderBy_orderLe_sorted].
Qed.

(** *** Pages *)

Lemma NoDup_fmap_filter {A B : Type} (f : A -> B) (p : A -> bool) (l : list A) :
  NoDup (f <$> l) -> NoDup (f <$> List.filter p l).
Proof.
  induction l as [|x l IH]; [done|]. cbn. intros [Hx Hl]%NoDup_cons.
  destruct (p x); [|by apply IH]. cbn. apply NoDup_cons. split; [|by apply IH].
  intros (y & Hy & Hin)%list_elem_of_fmap. apply Hx. rewrite Hy.
  apply list_elem_of_fmap_2. by apply filter_elem in Hin as [? _].
Qed.

(** what [Scan] and [Format] make of the cursor row of a page *)
Lemma cursor_of_row (r : sqlite.TargetsRow.t) :
  stamped (sqlite.TargetsRow.created_at r) ->
  time.Format (models.Target.CreatedAt (sqlite.scanTarget r))
  = sqlite.TargetsRow.created_at r /\
  time.IsZero (models.Target.CreatedAt (sqlite.scanTarget r)) = false /\
  time.valid (models.Target.CreatedAt (sqlite.scanTarget r)).
Proof.
  intros (t & [Hvalid _] & Hzero & Htext). unfold sqlite.scanTarget. cbn.
  unfold sqlite.parseOrZero. by rewrite Htext, (Parse_Format _ _ Hvalid).
Qed.

Lemma ListTargets_first_page (s : sqlite.SQLiteStore) (host : string) (n : Z) :
  0 <= n ->
  fst (sqlite.ListTargets s
         {| storage.ListTargetsParams.Host := host;
            storage.ListTargetsParams.AfterTime := time.zero;
            storage.ListTargetsParams.AfterID := EmptyString;
            storage.ListTargetsParams.Limit := n |})
  = sqlite.scanTarget <$>
      take (Z.to_nat n)
        (sqlite.orderBy sqlite.orderLe
           (if negb (String.eqb host "")
            then List.filter (fun r => String.eqb (sqlite.TargetsRow.host r) host)
                   (sqlite.targets s)
            else sqlite.targets s)).
Proof.
  intros Hn. unfold sqlite.ListTargets. cbn. by rewrite limit_take.
Qed.

Lemma ListTargets_next_page (s : sqlite.SQLiteStore) (host : string) (n : nat) (m : Z)
    (afterTime : time.Time) (afterID : string) (c : sqlite.TargetsRow.t) :
  NoDup (sqlite.TargetsRow.id <$> sqlite.targets s) ->
  0 <= m ->
  let rows :=
    sqlite.orderBy sqlite.orderLe
      (if negb (String.eqb host "")
       then List.filter (fun r => String.eqb (sqlite.TargetsRow.host r) host)
              (sqlite.targets s)
       else sqlite.targets s) in
  last (take n rows) = Some c ->
  time.IsZero afterTime = false ->
  time.Format afterTime = sqlite.TargetsRow.created_at c ->
  afterID = sqlite.TargetsRow.id c ->
  afterID <> EmptyString ->
  fst (sqlite.ListTargets s
         {| storage.ListTargetsParams.Host := host;
            storage.ListTargetsParams.AfterTime := afterTime;
            storage.ListTargetsParams.AfterID := afterID;
            storage.ListTargetsParams.Limit := m |})
  = sqlite.scanTarget <$> take (Z.to_nat m) (drop n rows).
Proof.
  intros Hnodup Hm rows Hlast Hzero Htime Hid Hnonempty.
  unfold sqlite.ListTargets. cbn [fst storage.ListTargetsParams.Host
    storage.ListTargetsParams.AfterTime storage.ListTargetsParams.AfterID
    storage.ListTargetsParams.Limit]. cbv zeta.
  rewrite Hzero. apply String.eqb_neq in Hnonempty. rewrite Hnonempty.
  cbn [negb andb]. rewrite limit_take by done. f_equal. f_equal.
  rewrite <- (filter_orderBy sqlite.orderLe orderLe_total orderLe_trans).
  rewrite Htime, Hid. fold rows.
  apply filter_after_cursor; [apply orderBy_orderLe_sorted| |done].
  subst rows. rewrite (orderBy_Permutation sqlite.orderLe).
  destruct (negb (String.eqb host "")); [by apply NoDup_fmap_filter | done].
Qed.

Lemma pages_compose (s : sqlite.SQLiteStore) (host : string)
    (n m : Z) (item : models.Target.t) :
  targetsAsWritten s ->
  0 < n -> 0 <= m ->
  last (fst (sqlite.ListTargets s
               {| storage.ListTargetsParams.Host := host;
                  storage.ListTargetsParams.AfterTime := time.zero;
                  storage.ListTargetsParams.AfterID := EmptyString;
                  storage.ListTargetsParams.Limit := n |})) = Some item ->
  fst (sqlite.ListTargets s
         {| storage.ListTargetsParams.Host := host;
            storage.ListTargetsParams.AfterTime := time.zero;
            storage.ListTargetsParams.AfterID := EmptyString;
            storage.ListTargetsParams.Limit := n |})
  ++ fst (sqlite.ListTargets s
            {| storage.ListTargetsParams.Host := host;
               storage.ListTargetsParams.AfterTime := models.Target.CreatedAt item;
               storage.ListTargetsParams.AfterID := models.Target.ID item;
               storage.ListTargetsParams.Limit := m |})
  = fst (sqlite.ListTargets s
           {| storage.ListTargetsParams.Host := host;
              storage.ListTargetsParams.AfterTime := time.zero;
              storage.ListTargetsParams.AfterID := EmptyString;
              storage.ListTargetsParams.Limit := n + m |}).
Proof.
  intros [Hnodup Hrows] Hn Hm. rewrite !ListTargets_first_page by lia.
  set (rows := sqlite.orderBy sqlite.orderLe _).
  rewrite fmap_last. destruct (last (take (Z.to_nat n) rows)) as [c|] eqn:Hlast;
    [|done].
  intros [= <-].
  assert (c ∈ sqlite.targets s) as Hc.
  { apply last_Some_elem_of, elem_of_take in Hlast as (i & Hi & _).
    apply list_elem_of_lookup_2 in Hi. subst rows.
    rewrite (orderBy_Permutation sqlite.orderLe) in Hi.
    destruct (negb (String.eqb host "")); [|done].
    by apply filter_elem in Hi as [? _]. }
  destruct (Hrows c Hc) as [Hstamped Hid].
  destruct (cursor_of_row c Hstamped) as (Htext & Hzero & _).
  rewrite (ListTargets_next_page s host (Z.to_nat n) m _ _ c); try done.
  rewrite <- fmap_app, take_take_drop. do 2 f_equal. lia.
Qed.


(** X12.  Paging through the store loses and repeats nothing: the page of
    [n] targets, followed by the page of [m] targets after the cursor
    made of the last target of the first page, is the page of [n + m]
    targets. *)
Theorem ListTargets_pages_compose (s : sqlite.SQLiteStore) (host : string)
    (n m : Z) (item : models.Target.t) :
  targetsAsWritten s ->
  0 < n -> 0 <= m ->
  last (fst (sqlite.ListTargets s
               {| storage.ListTargetsParams.Host := host;
                  storage.ListTargetsParams.AfterTime := time.zero;
                  storage.ListTargetsParams.AfterID := EmptyString;
                  storage.ListTargetsParams.Limit := n |})) = Some item ->
  fst (sqlite.ListTargets s
         {| storage.ListTargetsParams.Host := host;
            storage.ListTargetsParams.AfterTime := time.zero;
            storage.ListTargetsParams.AfterID := EmptyString;
            storage.ListTargetsParams.Limit := n |})
  ++ fst (sqlite.ListTargets s
            {| storage.ListTargetsParams.Host := host;
               storage.ListTargetsParams.AfterTime := models.Target.CreatedAt item;
               storage.ListTargetsParams.AfterID := models.Target.ID item;
               storage.ListTargetsParams.Limit := m |})
  = fst (sqlite.ListTargets s
           {| storage.ListTargetsParams.Host := host;
              storage.ListTargetsParams.AfterTime := time.zero;
              storage.ListTargetsParams.AfterID := EmptyString;
              storage.ListTargetsParams.Limit := n + m |}).
Proof. apply pages_compose. Qed.

End listing.

(** ** The handlers, further *)

Section page_tokens.

#[local] Arguments String.append !s1 s2 / : simpl nomatch.
Local Open Scope Z_scope.

Lemma lacks_digits (c : ascii) (s : string) :
  byte.isDigit c = false -> strings.forallb byte.isDigit s = true -> lacks c s.
Proof. apply lacks_of_forallb. Qed.

(** no [|] in a timestamp *)
Lemma Format_lacks_bar (t : time.Time) : lacks "|" (time.Format t).
Proof.
  unfold time.Format, time.appendNano.
  pose proof (lacks_digits "|" _ eq_refl
                (trimRightZeros_digits _ (appendInt_digits 9 (time.nanosecond t))))
    as Hnano.
  set (nano := time.trimRightZeros _) in *. clearbody nano.
  repeat match goal with
         | |- context [time.appendInt ?w ?n] =>
             let H := fresh "Hfield" in
             let x := fresh "field" in
             pose proof (lacks_digits "|" _ eq_refl (appendInt_digits w n)) as H;
             set (x := time.appendInt w n) in *; clearbody x
         end.
  repeat (apply lacks_app; split); try done.
  destruct (time.nanosecond t =? 0); [reflexivity|].
  by apply lacks_app.
Qed.

Lemma SplitN2_bar (a b : string) :
  lacks "|" a -> strings.SplitN2 (a +:+ "|" +:+ b) "|" = [a; b].
Proof.
  intros Ha. unfold strings.SplitN2. cbn [String.append].
  rewrite (Index_byte_first "|" a b Ha). cbn [String.length].
  rewrite take_app. f_equal. f_equal.
  replace (String.length a + 1)%nat with (String.length (a +:+ "|")).
  - transitivity (strings.drop (String.length (a +:+ "|")) ((a +:+ "|") +:+ b));
      [by rewrite app_assoc | apply drop_app].
  - rewrite length_app. reflexivity.
Qed.

Lemma EncodeToString_nil (src : string) :
  base64.EncodeToString src = "" -> src = "".
Proof. by destruct src as [|a [|b [|c src]]]. Qed.

(** the cursor read from the token written for a target *)
Lemma parsePageToken_written (item : models.Target.t) :
  time.valid (models.Target.CreatedAt item) ->
  api.parsePageToken time.Parse base64.DecodeString
    (base64.EncodeToString
       (time.Format (models.Target.CreatedAt item) +:+ "|" +:+ models.Target.ID item))
  = (models.Target.CreatedAt item, models.Target.ID item).
Proof.
  intros Hvalid. unfold api.parsePageToken.
  destruct (String.eqb_spec (base64.EncodeToString
    (time.Format (models.Target.CreatedAt item) +:+ "|" +:+ models.Target.ID item)) "")
    as [Hnil|_].
  - apply EncodeToString_nil in Hnil. exfalso. revert Hnil. unfold time.Format.
    by destruct (time.appendInt 4 _).
  - cbn [negb]. rewrite DecodeString_EncodeToString.
    rewrite (SplitN2_bar _ _ (Format_lacks_bar _)).
    by rewrite (Parse_Format _ _ Hvalid).
Qed.

Lemma Get_insert (q : api.Values) (key value : string) :
  api.Get (<[key := [value]]> q) key = value.
Proof. unfold api.Get. by rewrite lookup_insert_eq. Qed.

Lemma Get_insert_ne (q : api.Values) (key key' value : string) :
  key <> key' -> api.Get (<[key := [value]]> q) key' = api.Get q key'.
Proof. intros Hne. unfold api.Get. by rewrite lookup_insert_ne. Qed.

Lemma JSONTargets_inj (code code' : Z) (items items' : list models.Target.t)
    (token token' : string) :
  {| api.Code := code; api.body := api.JSONTargets items token |}
  = {| api.Code := code'; api.body := api.JSONTargets items' token' |} ->
  items = items' /\ token = token'.
Proof. by intros [= _ -> ->]. Qed.

(** X13.  Following [next_page_token] continues the listing where the page
    ended: when a request without a page token is answered with a
    token, the same request with that token as [page_token] is
    answered with the items that follow, so that the two pages
    together are the first [2 * limit] targets of the store's order. *)
Theorem next_page_token_continues_the_listing
    (s : sqlite.SQLiteStore) (q : api.Values) (items : list models.Target.t)
    (token : string) :
  targetsAsWritten s ->
  api.Get q "page_token" = EmptyString ->
  api.ListTargets time.Parse base64.DecodeString base64.EncodeToString s q
  = {| api.Code := 200; api.body := api.JSONTargets items token |} ->
  token <> EmptyString ->
  exists items' token',
    api.ListTargets time.Parse base64.DecodeString base64.EncodeToString s
      (<["page_token" := [token]]> q)
    = {| api.Code := 200; api.body := api.JSONTargets items' token' |} /\
    items ++ items'
    = fst (sqlite.ListTargets s
             {| storage.ListTargetsParams.Host :=
                  strings.ToLower (strings.TrimSpace (api.Get q "host"));
                storage.ListTargetsParams.AfterTime := time.zero;
                storage.ListTargetsParams.AfterID := EmptyString;
                storage.ListTargetsParams.Limit :=
                  2 * api.parseLimit (api.Get q "limit") 50 500 |}).
Proof.
  intros Hwritten Hnotoken Hfirst Hcontinues.
  pose proof (parseLimit_range (api.Get q "limit") 50 500 ltac:(lia)) as Hlimit.
  set (limit := api.parseLimit (api.Get q "limit") 50 500) in *.
  set (host := strings.ToLower (strings.TrimSpace (api.Get q "host"))) in *.
  set (first :=
         {| storage.ListTargetsParams.Host := host;
            storage.ListTargetsParams.AfterTime := time.zero;
            storage.ListTargetsParams.AfterID := EmptyString;
            storage.ListTargetsParams.Limit := limit |}).
  assert (api.listTargetsParams time.Parse base64.DecodeString q = first) as Hparams.
  { unfold api.listTargetsParams. rewrite Hnotoken. reflexivity. }
  unfold api.ListTargets in Hfirst. rewrite Hparams in Hfirst.
  change (storage.ListTargets s first) with (sqlite.ListTargets s first) in Hfirst.
  destruct (ListTargets_rows s first) as (rows & Hrows & _ & _ & Hfrom).
  rewrite Hrows in Hfirst.
  cbv beta iota zeta delta [storage.isNil negb storage.ListTargetsParams.Limit first]
    in Hfirst.
  apply JSONTargets_inj in Hfirst as [<- <-].
  destruct (Z.of_nat (length (sqlite.scanTarget <$> rows)) =? limit); [|done].
  destruct (last (sqlite.scanTarget <$> rows)) as [item|] eqn:Hlast; [|done].
  clear Hcontinues.
  assert (time.valid (models.Target.CreatedAt item)) as Hvalid.
  { rewrite fmap_last in Hlast.
    destruct (last rows) as [c|] eqn:Hc; [|done]. injection Hlast as <-.
    apply last_Some_elem_of in Hc.
    destruct (Hfrom c Hc) as (Hin & _).
    destruct Hwritten as [_ Hstamped].
    by destruct (cursor_of_row c (proj1 (Hstamped c Hin))) as (_ & _ & ?). }
  set (token := base64.EncodeToString
                  (time.Format (models.Target.CreatedAt item) +:+ "|"
                   +:+ models.Target.ID item)).
  set (second :=
         {| storage.ListTargetsParams.Host := host;
            storage.ListTargetsParams.AfterTime := models.Target.CreatedAt item;
            storage.ListTargetsParams.AfterID := models.Target.ID item;
            storage.ListTargetsParams.Limit := limit |}).
  assert (api.listTargetsParams time.Parse base64.DecodeString
            (<["page_token" := [token]]> q) = second) as Hparams'.
  { unfold api.listTargetsParams.
    rewrite Get_insert, !Get_insert_ne by done.
    subst token. by rewrite (parsePageToken_written item Hvalid). }
  unfold api.ListTargets. rewrite Hparams'.
  change (storage.ListTargets s second) with (sqlite.ListTargets s second).
  destruct (ListTargets_rows s second) as (rows' & Hrows' & _).
  rewrite Hrows'. cbv beta iota zeta delta [storage.isNil negb].
  eexists _, _. split; [reflexivity|].
  replace (2 * limit) with (limit + limit) by lia.
  subst first second.
  rewrite <- (pages_compose s host limit limit item Hwritten);
    [by rewrite Hrows, Hrows' | lia | lia | by rewrite Hrows].
Qed.

End page_tokens.

(** ** The canonicalizer, further *)

Section canonical_more.

#[local] Arguments String.append !s1 s2 / : simpl nomatch.

Ltac each_byte c := destruct c as [[] [] [] [] [] [] [] []].

Lemma HasPrefix_refl (s : string) : strings.HasPrefix s s = true.
Proof. rewrite <- (app_nil_r s) at 1. apply HasPrefix_app. Qed.

(** what [URL.String] writes begins with the scheme and a colon *)
Lemma URL_String_scheme (u : url.URL) :
  url.Scheme u <> "" ->
  strings.HasPrefix (url.URL_String u) (url.Scheme u +:+ ":") = true.
Proof.
  intros Hscheme%String.eqb_neq. unfold url.URL_String. rewrite Hscheme.
  cbn [negb orb].
  repeat match goal with
         | |- context [if ?b then _ else _] => destruct b
         | |- context [match ?o with Some _ => _ | None => _ end] => destruct o
         end;
    repeat first [ apply HasPrefix_refl | apply HasPrefix_app_l ].
Qed.

(** [getScheme] splits at the first colon, or finds no scheme *)
Lemma getScheme_from_inv (rawURL before rest0 scheme rest : string) :
  rawURL = before +:+ rest0 ->
  url.getScheme_from rawURL (String.length before) rest0 = Ok (scheme, rest) ->
  (scheme = "" /\ rest = rawURL) \/ rawURL = scheme +:+ ":" +:+ rest.
Proof.
  revert before. induction rest0 as [|c rest0 IH]; intros before Hraw;
    cbn [url.getScheme_from].
  - intros [= <- <-]. by left.
  - assert (rawURL = (before +:+ String c "") +:+ rest0) as Hnext
      by (by rewrite app_assoc).
    assert (String.length (before +:+ String c "") = S (String.length before))
      as Hlen by (rewrite length_app; cbn; lia).
    destruct (byte.isLetter c).
    { rewrite <- Hlen. by apply IH. }
    destruct (byte.isDigit c || byte.oneOf c "+-.").
    { destruct (String.length before) eqn:Hb; [intros [= <- <-]; by left|].
      rewrite <- Hlen. by apply IH. }
    destruct (Ascii.eqb_spec c ":") as [->|_]; [|intros [= <- <-]; by left].
    destruct before as [|b0 before]; [done|]. cbn [String.length].
    intros [= <- <-]. right.
    subst rawURL. cbn [String.append strings.take].
    by rewrite !app_assoc, take_app.
Qed.

Lemma getScheme_inv (rawURL scheme rest : string) :
  url.getScheme rawURL = Ok (scheme, rest) ->
  (scheme = "" /\ rest = rawURL) \/ rawURL = scheme +:+ ":" +:+ rest.
Proof. apply (getScheme_from_inv rawURL "" rawURL). reflexivity. Qed.

Lemma parseHierarchy_scheme (scheme rest : string) (forceQuery : bool)
    (rawQuery : string) (u : url.URL) :
  url.parseHierarchy scheme rest forceQuery rawQuery = Ok u -> url.Scheme u = scheme.
Proof.
  unfold url.parseHierarchy.
  repeat match goal with
         | |- context [if ?b then _ else _] => destruct b
         end; try done.
  all: try (intros [= <-]; reflexivity).
  all: try (destruct (url.cutAuthority rest) as [authority rest'];
            destruct (url.parseAuthority authority) as [[user host]|]; [|done];
            cbn [mbind result_bind rbind]).
  all: by intros (path & _ & [-> | [-> _]])%setPath_spec.
Qed.

(** a URL that parses with a scheme is written with that scheme, in
    any letter case, and a colon at its start *)
Lemma Parse_scheme (rawURL : string) (u : url.URL) :
  url.Parse rawURL = Ok u ->
  url.Scheme u <> "" ->
  exists scheme rest,
    rawURL = scheme +:+ ":" +:+ rest /\ url.Scheme u = strings.ToLower scheme.
Proof.
  unfold url.Parse. pose proof (Cut_byte_spec "#" rawURL) as Hcut.
  destruct (strings.Cut rawURL "#") as [[u0 frag] found].
  destruct Hcut as (_ & Hraw & _).
  destruct (url.parse u0) as [r|] eqn:Hparse; [|done].
  cbn [mbind result_bind rbind].
  assert (url.Scheme r <> "" ->
          exists scheme rest,
            rawURL = scheme +:+ ":" +:+ rest /\ url.Scheme r = strings.ToLower scheme)
    as Hr.
  { revert Hparse. unfold url.parse.
    destruct (url.stringContainsCTLByte u0); [done|].
    destruct (String.eqb u0 "*"); [by intros [= <-]|].
    destruct (url.getScheme u0) as [[scheme rest0]|] eqn:Hscheme; [|done].
    cbn [mbind result_bind rbind].
    destruct (url.cutQuery rest0) as [[rest forceQuery] rawQuery].
    intros Hh%parseHierarchy_scheme Hnonempty.
    apply getScheme_inv in Hscheme as [[-> _] | Hu0].
    - by rewrite Hh in Hnonempty.
    - exists scheme. eexists. split; [|done].
      rewrite Hraw, Hu0, !app_assoc. reflexivity. }
  destruct (String.eqb frag ""); [by intros [= <-]|].
  unfold url.setFragment. destruct (url.unescape frag url.encodeFragment); [|done].
  cbn. by destruct (String.eqb frag _); intros [= <-].
Qed.

Lemma Canonicalize_inv (rawURL c : string) :
  urlutil.Canonicalize rawURL = Ok c ->
  exists u,
    url.Parse rawURL = Ok u /\
    (url.Scheme u = "http" \/ url.Scheme u = "https") /\
    c = url.URL_String (canonicalURL u).
Proof.
  rewrite Canonicalize_unfold. destruct (url.Parse rawURL) as [u|]; [|done].
  destruct (negb (url.IsAbs u)
            || (negb (String.eqb (url.Scheme u) "http")
                && negb (String.eqb (url.Scheme u) "https"))) eqn:Hcheck; [done|].
  intros [= <-]. exists u. split; [done|]. split; [|done].
  apply orb_false_elim in Hcheck as [_ Hscheme].
  destruct (String.eqb_spec (url.Scheme u) "http"); [by left|].
  destruct (String.eqb_spec (url.Scheme u) "https"); [by right | done].
Qed.

Lemma Canonicalize_scheme (rawURL c : string) :
  urlutil.Canonicalize rawURL = Ok c ->
  (strings.HasPrefix (strings.ToLower rawURL) "http:" = true /\
   strings.HasPrefix c "http:" = true)
  \/ (strings.HasPrefix (strings.ToLower rawURL) "https:" = true /\
      strings.HasPrefix c "https:" = true).
Proof.
  intros (u & Hparse & Hscheme & ->)%Canonicalize_inv.
  assert (url.Scheme u <> "") as Hnonempty by (by destruct Hscheme as [-> | ->]).
  destruct (Parse_scheme rawURL u Hparse Hnonempty) as (scheme & rest & -> & Hlower).
  assert (url.Scheme (canonicalURL u) = url.Scheme u) as Hcanonical.
  { rewrite canonicalURL_fields. cbn. by destruct Hscheme as [-> | ->]. }
  pose proof (URL_String_scheme (canonicalURL u)) as Hwritten.
  rewrite Hcanonical in Hwritten. specialize (Hwritten Hnonempty).
  rewrite !ToLower_app. change (strings.ToLower ":") with ":".
  rewrite <- app_assoc, <- Hlower.
  destruct Hscheme as [Hs | Hs]; rewrite Hs in *; [left | right];
    (split; [|done]).
  - exact (HasPrefix_app "http:" _).
  - exact (HasPrefix_app "https:" _).
Qed.


(** X14.  [Canonicalize] accepts only a URL that begins with [http:] or
    [https:], in any letter case and with nothing before it, and what
    it returns begins with the same scheme in lower case. *)
Theorem Canonicalize_accepts_only_http_and_https (rawURL c : string) :
  urlutil.Canonicalize rawURL = Ok c ->
  (strings.HasPrefix (strings.ToLower rawURL) "http:" = true /\
   strings.HasPrefix c "http:" = true)
  \/ (strings.HasPrefix (strings.ToLower rawURL) "https:" = true /\
      strings.HasPrefix c "https:" = true).
Proof. apply Canonicalize_scheme. Qed.

(** *** No fragment *)

Lemma escape_lacks_hash (s : string) (mode : url.encoding) :
  lacks "#" (url.escape s mode).
Proof.
  apply (escape_forallb (fun d => negb (Ascii.eqb d "#"))); try reflexivity.
  - intros c. each_byte c; reflexivity.
  - intros c. destruct mode; each_byte c; cbn; intros H; try reflexivity; discriminate H.
Qed.

Lemma Userinfo_String_lacks_hash (ui : url.Userinfo) :
  lacks "#" (url.Userinfo_String ui).
Proof.
  unfold url.Userinfo_String. apply lacks_app. split; [apply escape_lacks_hash|].
  destruct (url.passwordSet ui); [|reflexivity].
  apply lacks_app. split; [reflexivity | apply escape_lacks_hash].
Qed.

(** [URL.String] writes [#] only before a fragment *)
Lemma URL_String_lacks_hash (u : url.URL) :
  url.Fragment u = "" ->
  lacks "#" (url.Scheme u) -> lacks "#" (url.Opaque u) ->
  lacks "#" (url.EscapedPath u) -> lacks "#" (url.RawQuery u) ->
  lacks "#" (url.URL_String u).
Proof.
  intros Hfragment Hscheme Hopaque Hpath Hquery. unfold url.URL_String.
  rewrite Hfragment. cbn [String.eqb negb].
  pose proof (escape_lacks_hash (url.Host u) url.encodeHost) as Hhost.
  set (host := url.escape (url.Host u) url.encodeHost) in *. clearbody host.
  set (path := url.EscapedPath u) in *. clearbody path.
  destruct (url.User u) as [ui|]; cbn [url.isSome].
  - pose proof (Userinfo_String_lacks_hash ui) as Huser.
    set (user := url.Userinfo_String ui) in *. clearbody user.
    repeat match goal with
           | |- context [if ?b then _ else _] => destruct b
           end;
      repeat (apply lacks_app; split); done.
  - repeat match goal with
           | |- context [if ?b then _ else _] => destruct b
           end;
      repeat (apply lacks_app; split); done.
Qed.

Lemma lacks_hash_inQuery (s : string) :
  strings.forallb inQuery s = true -> lacks "#" s.
Proof. by apply lacks_of_forallb. Qed.

Lemma lacks_hash_inPath (s : string) :
  strings.forallb inPath s = true -> lacks "#" s.
Proof. by apply lacks_of_forallb. Qed.

(** X15.  What [Canonicalize] returns has no fragment: it contains no [#]. *)
Theorem Canonicalize_leaves_no_fragment (rawURL c : string) :
  urlutil.Canonicalize rawURL = Ok c -> strings.Contains c "#" = false.
Proof.
  intros (u & Hparse & Hscheme & ->)%Canonicalize_inv.
  apply Contains_byte_absent.
  assert (url.Scheme u <> "") as Hnonempty by (by destruct Hscheme as [-> | ->]).
  pose proof (Parse_parsed rawURL u Hparse Hnonempty) as Hparsed.
  apply URL_String_lacks_hash; rewrite canonicalURL_fields.
  - reflexivity.
  - cbn. by destruct Hscheme as [-> | ->].
  - cbn. destruct (String.eqb_spec (url.Opaque u) "") as [-> | Hopaque]; [done|].
    by destruct (parsed_opaque u Hparsed Hopaque) as (?%lacks_hash_inPath & _).
  - match goal with |- lacks _ (url.EscapedPath ?v) =>
      destruct (EscapedPath_cases v) as [[Hraw ->] | [[_ ->] | ->]]
    end.
    + cbn in *. by destruct (parsed_rawPath u Hparsed Hraw) as (?%lacks_hash_inPath & _).
    + reflexivity.
    + apply escape_lacks_hash.
  - cbn. apply lacks_hash_inQuery, (parsed_rawQuery u Hparsed).
Qed.

(** *** The canonical URL, parsed *)

Lemma Canonicalize_parses_back
    (rawURL c : string) (u : url.URL) :
  url.Parse rawURL = Ok u ->
  urlutil.Canonicalize rawURL = Ok c ->
  spec.plainHost (url.Host u) = true ->
  spec.pathSettles (url.Path u) = true ->
  spec.rooted u = true ->
  exists v,
    url.Parse c = Ok v /\
    url.Scheme v = url.Scheme u /\
    url.Host v
    = (let lower := strings.ToLower (url.Host u) in
       if hasDefaultPort (url.Scheme u) lower
       then fst (url.splitHostPort lower) else lower) /\
    url.User v = url.User u /\
    url.Path v = spec.trimTrailingSlash (url.Path u) /\
    url.RawQuery v = url.RawQuery u /\
    url.ForceQuery v = url.ForceQuery u /\
    url.Fragment v = "".
Proof.
  intros Hparse Hcanonical Hhost Hpath Hrooted.
  apply Canonicalize_inv in Hcanonical as (u' & Hparse' & Hscheme & ->).
  rewrite Hparse in Hparse'. injection Hparse' as <-.
  assert (url.Scheme u <> "") as Hnonempty by (by destruct Hscheme as [-> | ->]).
  pose proof (Parse_parsed rawURL u Hparse Hnonempty) as Hparsed.
  pose proof (canonicalURL_settles u Hparsed Hscheme Hhost Hpath Hrooted) as Hsettled.
  exists (reparsed (canonicalURL u)). split; [by apply Parse_String_settled|].
  rewrite canonicalURL_fields. cbn.
  assert (strings.ToLower (url.Scheme u) = url.Scheme u) as ->
    by (by destruct Hscheme as [-> | ->]).
  by repeat split.
Qed.


(** X16.  What [Canonicalize] returns for a URL with a plain host, a path that
    one removal of a trailing slash settles, and an authority or a path
    that does not begin with two slashes, parses, and parses to the
    URL that the four rules describe: the scheme and the host of the
    input in lower case, the host without the default port of the
    scheme, the user and the query of the input, no fragment, and the
    path of the input without one trailing slash. *)
Theorem Canonicalize_output_parses_to_the_four_rules
    (rawURL c : string) (u : url.URL) :
  url.Parse rawURL = Ok u ->
  urlutil.Canonicalize rawURL = Ok c ->
  spec.plainHost (url.Host u) = true ->
  spec.pathSettles (url.Path u) = true ->
  spec.rooted u = true ->
  exists v,
    url.Parse c = Ok v /\
    url.Scheme v = url.Scheme u /\
    url.Host v
    = (let lower := strings.ToLower (url.Host u) in
       if hasDefaultPort (url.Scheme u) lower
       then fst (url.splitHostPort lower) else lower) /\
    url.User v = url.User u /\
    url.Path v = spec.trimTrailingSlash (url.Path u) /\
    url.RawQuery v = url.RawQuery u /\
    url.ForceQuery v = url.ForceQuery u /\
    url.Fragment v = "".
Proof. apply Canonicalize_parses_back. Qed.

End canonical_more.

Lemma Canonicalize_accepts_only_http_and_https_witness :
  urlutil.Canonicalize sample.shouted = Ok "https://example.com/a?q=1" /\
  ((strings.HasPrefix (strings.ToLower sample.shouted) "http:" = true /\
    strings.HasPrefix "https://example.com/a?q=1" "http:" = true)
   \/ (strings.HasPrefix (strings.ToLower sample.shouted) "https:" = true /\
       strings.HasPrefix "https://example.com/a?q=1" "https:" = true)).
Proof.
  split; [vm_compute; reflexivity|].
  apply (Canonicalize_accepts_only_http_and_https sample.shouted).
  vm_compute; reflexivity.
Defined.

Lemma Canonicalize_leaves_no_fragment_witness :
  urlutil.Canonicalize sample.shouted = Ok "https://example.com/a?q=1" /\
  strings.Contains "https://example.com/a?q=1" "#" = false.
Proof.
  split; [vm_compute; reflexivity|].
  apply (Canonicalize_leaves_no_fragment sample.shouted).
  vm_compute; reflexivity.
Defined.

Lemma Canonicalize_output_parses_to_the_four_rules_witness :
  url.Parse sample.shouted = Ok sample.shoutedURL /\
  urlutil.Canonicalize sample.shouted = Ok "https://example.com/a?q=1" /\
  exists v,
    url.Parse "https://example.com/a?q=1" = Ok v /\
    url.Scheme v = "https" /\
    url.Host v = "example.com" /\
    url.User v = None /\
    url.Path v = "/a" /\
    url.RawQuery v = "q=1" /\
    url.ForceQuery v = false /\
    url.Fragment v = "".
Proof.
  split; [vm_compute; reflexivity|]. split; [vm_compute; reflexivity|].
  exact (Canonicalize_output_parses_to_the_four_rules sample.shouted
           "https://example.com/a?q=1" sample.shoutedURL
           ltac:(vm_compute; reflexivity) ltac:(vm_compute; reflexivity)
           ltac:(vm_compute; reflexivity) ltac:(vm_compute; reflexivity)
           ltac:(vm_compute; reflexivity)).
Defined.

(** ** Registering a target *)

Section create_target.

#[local] Arguments String.append !s1 s2 / : simpl nomatch.

(** X17.  A request whose body does not decode, or whose URL does not begin
    with [http:] or [https:] (in any letter case), is answered 400 and
    nothing is written, whatever the store. *)
Theorem CreateTarget_rejects_without_writing
    {S : Type} `{!storage.Storer S} (store : S) (entropy : string)
    (now : time.Time) (reqBody : option string) (idempotencyKey : string) :
  (reqBody = None \/
   exists URL, reqBody = Some URL /\
     strings.HasPrefix (strings.ToLower URL) "http:" = false /\
     strings.HasPrefix (strings.ToLower URL) "https:" = false) ->
  exists msg,
    api.CreateTarget store entropy now reqBody idempotencyKey
    = (store, Some (api.Error msg 400)).
Proof.
  intros [-> | (URL & -> & Hhttp & Hhttps)]; unfold api.CreateTarget.
  - by eexists.
  - destruct (urlutil.Canonicalize URL) as [c|err] eqn:Hcanonical; [|by eexists].
    apply Canonicalize_scheme in Hcanonical as [[? _] | [? _]]; congruence.
Qed.

(** X18.  For a URL that [Canonicalize] accepts.  When [url.Parse] does
    not read the canonical form back, the handler panics ([Hostname] is
    called on the nil URL) and nothing is written.  When it does, the
    clock shows a time of the calendar, the canonical form and the new
    id are not in the store and the idempotency key is empty or not
    recorded, the request is answered 201 with the new target: its id
    is [t_] followed by the random bytes, its URL is the URL as sent,
    its canonical URL is what [Canonicalize] returned, its host is the
    [Hostname] of the canonical form and its creation time is the
    clock's.  From then on [GetTargetByID] finds that target. *)
Theorem CreateTarget_registers_a_new_url
    (s s' : sqlite.SQLiteStore) (entropy : string) (now : time.Time)
    (rawURL c idempotencyKey : string) :
  urlutil.Canonicalize rawURL = Ok c ->
  (forall e, url.Parse c = Err e ->
     api.CreateTarget s entropy now (Some rawURL) idempotencyKey = (s, None)) /\
  (forall v, url.Parse c = Ok v ->
     onCalendar now ->
     sqlite.selectTargetByCanonicalURL s c = None ->
     sqlite.selectTargetByID s ("t_" +:+ entropy) = None ->
     idempotencyKey = "" \/ sqlite.selectIdempotencyKey s idempotencyKey = None ->
     later (fst (api.CreateTarget s entropy now (Some rawURL) idempotencyKey)) s' ->
     let target :=
       {| models.Target.ID := "t_" +:+ entropy;
          models.Target.URL := rawURL;
          models.Target.CanonicalURL := c;
          models.Target.Host := url.Hostname v;
          models.Target.CreatedAt := now |} in
     snd (api.CreateTarget s entropy now (Some rawURL) idempotencyKey)
     = Some {| api.Code := 201; api.body := api.JSONTarget (Some target) |} /\
     sqlite.GetTargetByID s' (models.Target.ID target) = (Some target, None)).
Proof.
  intros Hcanonical. split.
  { intros e He. unfold api.CreateTarget. by rewrite Hcanonical, He. }
  intros v Hv [Hvalid _] Hurl Hid Hkey.
  unfold api.CreateTarget. rewrite Hcanonical, Hv.
  unfold api.generateID.
  set (target := {| models.Target.ID := "t_" +:+ entropy |}).
  set (keyPtr := if negb (String.eqb idempotencyKey "") then Some idempotencyKey
                 else None).
  assert (keyPtr ≫= sqlite.selectIdempotencyKey s = None) as Hfresh.
  { subst keyPtr. destruct (String.eqb_spec idempotencyKey "") as [|Hne]; [done|].
    cbn. by destruct Hkey. }
  change (storage.CreateTarget s target keyPtr)
    with (sqlite.CreateTarget s target keyPtr).
  destruct (CreateTarget_fresh s target keyPtr Hfresh Hurl Hid) as (Hret & Hrow & _).
  destruct (sqlite.CreateTarget s target keyPtr) as [s1 [created err]] eqn:Hcreate.
  cbn [fst snd] in *. injection Hret as -> ->.
  cbn [storage.isNil storage.isErrDuplicateKey negb andb fst snd].
  intros Hlater. split; [reflexivity|].
  unfold sqlite.GetTargetByID, sqlite.getTargetByIDTx.
  rewrite (later_selectTargetByID _ _ _ _ Hlater Hrow).
  by rewrite scanTarget_rowOfTarget.
Qed.

End create_target.

(** ** Check results *)

Section check_results.

#[local] Arguments String.append !s1 s2 / : simpl nomatch.
Local Open Scope Z_scope.

Lemma checkedAtGe_total (a b : sqlite.CheckResultsRow.t) :
  sqlite.checkedAtGe a b = true \/ sqlite.checkedAtGe b a = true.
Proof.
  unfold sqlite.checkedAtGe.
  destruct (sqlite.textLt (sqlite.CheckResultsRow.checked_at a)
              (sqlite.CheckResultsRow.checked_at b)) eqn:Hab; [right | by left].
  by rewrite (textLt_asym _ _ Hab).
Qed.

Lemma checkedAtGe_trans (a b c : sqlite.CheckResultsRow.t) :
  sqlite.checkedAtGe a b = true -> sqlite.checkedAtGe b c = true ->
  sqlite.checkedAtGe a c = true.
Proof.
  unfold sqlite.checkedAtGe. rewrite !negb_true_iff. intros Hab Hbc.
  destruct (sqlite.textLt (sqlite.CheckResultsRow.checked_at a)
              (sqlite.CheckResultsRow.checked_at c)) eqn:Hac; [|done].
  destruct (textLt_cases (sqlite.CheckResultsRow.checked_at b)
              (sqlite.CheckResultsRow.checked_at c)) as [Heq | [Hlt | Hgt]];
    [congruence | congruence |].
  by rewrite (textLt_trans _ _ _ Hac Hgt) in Hab.
Qed.

(** the WHERE clause, the ORDER BY and the LIMIT of
    [ListCheckResultsByTargetID] *)
Lemma ListCheckResultsByTargetID_rows (s : sqlite.SQLiteStore)
    (params : storage.ListCheckResultsParams.t) :
  exists rows,
    sqlite.ListCheckResultsByTargetID s params
    = (sqlite.scanCheckResult <$> rows, None) /\
    StronglySorted (fun a b => sqlite.checkedAtGe a b = true) rows /\
    (0 <= storage.ListCheckResultsParams.Limit params ->
     Z.of_nat (length rows) <= storage.ListCheckResultsParams.Limit params) /\
    (forall r, r ∈ rows ->
       r ∈ sqlite.check_results s /\
       sqlite.CheckResultsRow.target_id r
       = storage.ListCheckResultsParams.TargetID params /\
       forall since, storage.ListCheckResultsParams.Since params = Some since ->
         sqlite.textLt (time.Format since) (sqlite.CheckResultsRow.checked_at r)
         = true) /\
    (forall r, r ∈ sqlite.check_results s ->
       sqlite.CheckResultsRow.target_id r
       = storage.ListCheckResultsParams.TargetID params ->
       storage.ListCheckResultsParams.Since params = None ->
       (storage.ListCheckResultsParams.Limit params < 0 \/
        Z.of_nat (length (sqlite.check_results s))
        <= storage.ListCheckResultsParams.Limit params) ->
       r ∈ rows).
Proof.
  unfold sqlite.ListCheckResultsByTargetID. cbv zeta. eexists.
  split; [reflexivity|].
  split; [apply limit_sorted, orderBy_sorted;
          [apply checkedAtGe_total | apply checkedAtGe_trans]|].
  split; [apply limit_length|]. split.
  - intros r Hr%limit_elem.
    rewrite (orderBy_Permutation sqlite.checkedAtGe) in Hr.
    destruct (storage.ListCheckResultsParams.Since params) as [since|].
    + apply filter_elem in Hr as [Hr Hsince]. apply filter_elem in Hr as [Hr Htarget].
      split; [done|]. split; [by apply String.eqb_eq|]. by intros ? [= <-].
    + apply filter_elem in Hr as [Hr Htarget].
      split; [done|]. split; [by apply String.eqb_eq | done].
  - intros r Hin Htarget -> Hlimit.
    set (selected := List.filter _ (sqlite.check_results s)).
    assert (r ∈ sqlite.orderBy sqlite.checkedAtGe selected) as Hsorted.
    { rewrite (orderBy_Permutation sqlite.checkedAtGe). apply filter_elem.
      split; [done|]. by apply String.eqb_eq. }
    unfold sqlite.limit.
    destruct (Z.ltb_spec (storage.ListCheckResultsParams.Limit params) 0) as [|Hnonneg];
      [done|].
    rewrite take_ge; [done|].
    rewrite (orderBy_Permutation sqlite.checkedAtGe).
    assert (length selected <= length (sqlite.check_results s))%nat
      by apply List.filter_length_le.
    lia.
Qed.

(** X19.  [ListCheckResultsByTargetID] never fails.  It returns at most
    [Limit] results, each read from a row of [check_results] of the
    target asked for, each checked after [Since] if [Since] is given
    (the two timestamps compared as text), the latest first. *)
Theorem ListCheckResultsByTargetID_returns_a_sorted_bounded_selection
    (s : sqlite.SQLiteStore) (params : storage.ListCheckResultsParams.t) :
  exists rows,
    sqlite.ListCheckResultsByTargetID s params
    = (sqlite.scanCheckResult <$> rows, None) /\
    StronglySorted (fun a b => sqlite.checkedAtGe a b = true) rows /\
    (0 <= storage.ListCheckResultsParams.Limit params ->
     Z.of_nat (length rows) <= storage.ListCheckResultsParams.Limit params) /\
    forall r, r ∈ rows ->
      r ∈ sqlite.check_results s /\
      sqlite.CheckResultsRow.target_id r
      = storage.ListCheckResultsParams.TargetID params /\
      forall since, storage.ListCheckResultsParams.Since params = Some since ->
        sqlite.textLt (time.Format since) (sqlite.CheckResultsRow.checked_at r)
        = true.
Proof.
  destruct (ListCheckResultsByTargetID_rows s params)
    as (rows & Hrows & Hsorted & Hlength & Hfrom & _).
  by exists rows.
Qed.

(** X20.  A result of a stored target whose id is new (the id given, or [cr_]
    and the random bytes when none is given) is stored with a nil error; and listing
    the results of its target, without [Since] and with a limit that
    does not cut the list, then returns it, with the id it was stored
    under and its time read back from the text. *)
Theorem created_result_is_listed (s : sqlite.SQLiteStore)
    (result : models.CheckResult.t) (limit : Z) :
  let id :=
    if String.eqb (models.CheckResult.ID result) ""
    then "cr_" +:+ sqlite.random s else models.CheckResult.ID result in
  let s' := fst (sqlite.CreateCheckResult s result) in
  onCalendar (models.CheckResult.CheckedAt result) ->
  models.CheckResult.TargetID result ∈ (sqlite.TargetsRow.id <$> sqlite.targets s) ->
  id ∉ (sqlite.CheckResultsRow.id <$> sqlite.check_results s) ->
  limit < 0 \/ Z.of_nat (length (sqlite.check_results s)) < limit ->
  snd (sqlite.CreateCheckResult s result) = None /\
  {| models.CheckResult.ID := id;
     models.CheckResult.TargetID := models.CheckResult.TargetID result;
     models.CheckResult.CheckedAt := models.CheckResult.CheckedAt result;
     models.CheckResult.StatusCode := models.CheckResult.StatusCode result;
     models.CheckResult.LatencyMS := models.CheckResult.LatencyMS result;
     models.CheckResult.Error := models.CheckResult.Error result |}
  ∈ fst (sqlite.ListCheckResultsByTargetID s'
           {| storage.ListCheckResultsParams.TargetID :=
                models.CheckResult.TargetID result;
              storage.ListCheckResultsParams.Since := None;
              storage.ListCheckResultsParams.Limit := limit |}).
Proof.
  intros id s' [Hvalid _] _ Hnew Hlimit. subst s'.
  unfold sqlite.CreateCheckResult, sqlite.randomID. fold id.
  assert (find (fun r => String.eqb (sqlite.CheckResultsRow.id r) id)
            (sqlite.check_results s) = None) as ->.
  { apply find_None_iff. intros r Hr. apply String.eqb_neq. intros Heq.
    apply Hnew. rewrite <- Heq. by apply list_elem_of_fmap_2. }
  cbn [fst snd]. split; [done|].
  set (row := {| sqlite.CheckResultsRow.id := id |}).
  set (s' := sqlite.withCheckResults s _).
  set (params := {| storage.ListCheckResultsParams.TargetID := _ |}).
  destruct (ListCheckResultsByTargetID_rows s' params)
    as (rows & Hrows & _ & _ & _ & Hall).
  rewrite Hrows. cbn [fst].
  assert (row ∈ rows) as Hrow.
  { apply Hall; try done.
    - cbn. apply elem_of_app. right. apply list_elem_of_here.
    - cbn. rewrite List.length_app. cbn. lia. }
  apply (list_elem_of_fmap_2 sqlite.scanCheckResult) in Hrow.
  revert Hrow. unfold sqlite.scanCheckResult, sqlite.parseOrZero. cbn.
  by rewrite (Parse_Format _ _ Hvalid).
Qed.

(** *** The handler *)

Lemma SplitByte_lacks (c : ascii) (a : string) :
  lacks c a -> strings.SplitByte a c = [a].
Proof.
  induction a as [|d a IH]; [done|]. intros [Hd Ha]%lacks_cons.
  cbn [strings.SplitByte]. apply Ascii.eqb_neq in Hd. by rewrite Hd, (IH Ha).
Qed.

Lemma SplitByte_app (c : ascii) (a b : string) :
  lacks c a -> strings.SplitByte (a +:+ String c b) c = a :: strings.SplitByte b c.
Proof.
  induction a as [|d a IH].
  - intros _. cbn. by rewrite Ascii.eqb_refl.
  - intros [Hd Ha]%lacks_cons. cbn [String.append strings.SplitByte].
    apply Ascii.eqb_neq in Hd. by rewrite Hd, (IH Ha).
Qed.

Lemma SplitByte_length (c : ascii) (s : string) :
  length (strings.SplitByte s c) = S (strings.CountByte s c).
Proof.
  induction s as [|d s IH]; [done|]. cbn [strings.SplitByte strings.CountByte].
  destruct (Ascii.eqb d c); cbn [length]; [by rewrite IH|].
  destruct (strings.SplitByte s c); cbn in *; lia.
Qed.

Lemma SplitByte_results_path (id : string) :
  lacks "/" id ->
  strings.SplitByte ("/v1/targets/" +:+ id +:+ "/results") "/"
  = [""; "v1"; "targets"; id; "results"]%string.
Proof.
  intros Hid.
  change ("/v1/targets/" +:+ id +:+ "/results")
    with ("" +:+ String "/" ("v1" +:+ String "/" ("targets" +:+ String "/"
            (id +:+ String "/" "results")))).
  rewrite !SplitByte_app by done. by rewrite SplitByte_lacks.
Qed.

(** X21.  [GET /v1/targets/{id}/results], for an id without a slash.
    When no target has that id the answer is 404.  Otherwise it is 200
    with no more results than the limit, which is at most 1000, each
    read from a stored row of that target, in the order of the stored
    [checked_at] text from the greatest down (the latest first when
    the texts order as the times do); when [since] is given and the
    parser of timestamps reads it, every result has a [checked_at]
    text greater than the text of [since]; and when [since] is not
    read and the store holds no more results than the limit, every
    stored result of the target is in the answer. *)
Theorem ListCheckResults_answers
    (time_Parse : string -> string -> result time.ParseError time.Time)
    (s : sqlite.SQLiteStore) (id : string) (q : api.Values) :
  lacks "/" id ->
  (sqlite.selectTargetByID s id = None ->
   api.ListCheckResults time_Parse s ("/v1/targets/" +:+ id +:+ "/results") q
   = api.Error "target not found" 404) /\
  (sqlite.selectTargetByID s id <> None ->
   exists rows,
     api.ListCheckResults time_Parse s ("/v1/targets/" +:+ id +:+ "/results") q
     = {| api.Code := 200;
          api.body := api.JSONCheckResults (sqlite.scanCheckResult <$> rows) |} /\
     (Z.of_nat (length rows) <= api.parseLimit (api.Get q "limit") 100 1000 <= 1000)%Z /\
     StronglySorted (fun a b => sqlite.checkedAtGe a b = true) rows /\
     (forall r, r ∈ rows ->
        r ∈ sqlite.check_results s /\
        sqlite.CheckResultsRow.target_id r = id /\
        forall since, api.parseSince time_Parse (api.Get q "since") = Some since ->
          sqlite.textLt (time.Format since) (sqlite.CheckResultsRow.checked_at r)
          = true) /\
     (api.parseSince time_Parse (api.Get q "since") = None ->
      (Z.of_nat (length (sqlite.check_results s))
       <= api.parseLimit (api.Get q "limit") 100 1000)%Z ->
      forall r, r ∈ sqlite.check_results s ->
        sqlite.CheckResultsRow.target_id r = id -> r ∈ rows)).
Proof.
  intros Hid. split.
  - intros Hnone. unfold api.ListCheckResults.
    rewrite (SplitByte_results_path id Hid). cbn [length Nat.ltb Nat.leb nth].
    change (storage.GetTargetByID s id) with (sqlite.GetTargetByID s id).
    unfold sqlite.GetTargetByID, sqlite.getTargetByIDTx. by rewrite Hnone.
  - intros Hsome. unfold api.ListCheckResults.
    rewrite (SplitByte_results_path id Hid). cbn [length Nat.ltb Nat.leb nth].
    change (storage.GetTargetByID s id) with (sqlite.GetTargetByID s id).
    unfold sqlite.GetTargetByID, sqlite.getTargetByIDTx.
    destruct (sqlite.selectTargetByID s id); [|done].
    cbv beta iota zeta delta [storage.isErrNotFound storage.isNil negb].
    set (params := api.listCheckResultsParams time_Parse id q).
    change (storage.ListCheckResultsByTargetID s params)
      with (sqlite.ListCheckResultsByTargetID s params).
    destruct (ListCheckResultsByTargetID_rows s params)
      as (rows & Hrows & Hsorted & Hlength & Hfrom & Hall).
    rewrite Hrows. cbv beta iota zeta delta [storage.isNil negb].
    exists rows. split; [done|].
    pose proof (parseLimit_range (api.Get q "limit") 100 1000 ltac:(lia)) as Hlimit.
    split; [cbn in Hlength; lia|]. split; [done|]. split.
    + intros r Hr. destruct (Hfrom r Hr) as (Hin & Htarget & Hsince).
      by repeat split.
    + intros Hnone Hfew r Hr Htarget. apply (Hall r Hr Htarget Hnone). by right.
Qed.

End check_results.

(** ** The further properties on sample inputs *)

Lemma scheduleChecks_fills_to_capacity_witness :
  (length (jobs.buffered sample_more.queueOfTwo)
   <= jobs.capacity sample_more.queueOfTwo)%nat /\
  storage.GetAllTargets sample.twoTargets
  = ([sample.halfASecondLater; sample.atNoon], None) /\
  jobs.capacity (jobs.scheduleChecks sample.twoTargets sample_more.queueOfTwo) = 2%nat /\
  jobs.buffered (jobs.scheduleChecks sample.twoTargets sample_more.queueOfTwo)
  = [sample.halfASecondLater; sample.atNoon].
Proof.
  split; [cbn; lia|]. split; [vm_compute; reflexivity|].
  exact (scheduleChecks_fills_to_capacity sample.twoTargets sample_more.queueOfTwo
           [sample.halfASecondLater; sample.atNoon] None
           ltac:(cbn; lia) ltac:(vm_compute; reflexivity)).
Defined.

Lemma scheduleChecks_interleaved_witness :
  (length (jobs.buffered (jobs.channel sample_more.scheduled)) <= 2)%nat /\
  sublist
    (jobs.received sample_more.scheduled
     ++ jobs.buffered (jobs.channel sample_more.scheduled)
     ++ jobs.pending sample_more.scheduled)
    ([] ++ [sample.exampleCom; sample.exampleOrg]) /\
  prefix []
    (jobs.received sample_more.scheduled
     ++ jobs.buffered (jobs.channel sample_more.scheduled)) /\
  ((0 + 2 <= 2)%nat ->
   jobs.received sample_more.scheduled
   ++ jobs.buffered (jobs.channel sample_more.scheduled)
   ++ jobs.pending sample_more.scheduled
   = [] ++ [sample.exampleCom; sample.exampleOrg]).
Proof.
  refine (scheduleChecks_interleaved [sample.exampleCom; sample.exampleOrg]
            sample_more.queueOfTwo sample_more.scheduled ltac:(cbn; lia) _).
  refine (jobs.steps_step _ _ _
            (jobs.steps_step _ _ _
               (jobs.steps_step _ _ _ (jobs.steps_refl _)
                  (jobs.step_submit sample.exampleCom [sample.exampleOrg]
                     sample_more.queueOfTwo []))
               (jobs.step_submit sample.exampleOrg [] _ []))
            (jobs.step_receive []
               {| jobs.buffered := [sample.exampleCom; sample.exampleOrg];
                  jobs.capacity := 2 |}
               sample.exampleCom
               {| jobs.buffered := [sample.exampleOrg]; jobs.capacity := 2 |} []
               eq_refl)).
Defined.

Lemma created_target_is_found_by_id_witness :
  sqlite.CreateTarget sample.emptyStore sample.registered (Some "k1")
  = (fst sample.firstPost, (Some sample.registered, None)) /\
  sqlite.GetTargetByID (fst sample.firstPost) "t_aaaaaaaaaaaaaaaaaaaaaaaa"
  = (Some sample.registered, None).
Proof.
  split; [vm_compute; reflexivity|].
  refine (proj2 (created_target_is_found_by_id sample.emptyStore
                   (fst (sqlite.CreateTarget sample.emptyStore sample.registered
                           (Some "k1")))
                   sample.registered (Some "k1") _ eq_refl eq_refl eq_refl
                   (later_now _))).
  split; [unfold time.valid; cbn; lia | cbn; lia].
Defined.

Lemma recorded_key_returns_first_target_witness :
  sqlite.CreateTarget (fst sample.firstPost) sample.exampleOrg (Some "k1")
  = (fst sample.firstPost, (Some sample.registered, None)).
Proof.
  refine (recorded_key_returns_first_target sample.emptyStore
            (fst (sqlite.CreateTarget sample.emptyStore sample.registered
                    (Some "k1")))
            sample.registered sample.exampleOrg "k1" _ eq_refl eq_refl eq_refl
            (later_now _)).
  split; [unfold time.valid; cbn; lia | cbn; lia].
Defined.

Lemma noon_onCalendar : onCalendar sample.noon.
Proof. split; [unfold time.valid; cbn; lia | cbn; lia]. Qed.

Lemma halfPastNoonSecond_onCalendar : onCalendar sample.halfPastNoonSecond.
Proof. split; [unfold time.valid; cbn; lia | cbn; lia]. Qed.

Lemma twoTargets_asWritten : targetsAsWritten sample.twoTargets.
Proof.
  split.
  - refine (bool_decide_unpack _ _). vm_compute. exact I.
  - intros r Hr.
    change (sqlite.targets sample.twoTargets)
      with [sqlite.rowOfTarget sample.atNoon;
            sqlite.rowOfTarget sample.halfASecondLater] in Hr.
    apply elem_of_cons in Hr as [-> | Hr].
    + split; [|done]. exists sample.noon.
      split; [apply noon_onCalendar|]. by split.
    + apply list_elem_of_singleton in Hr as ->.
      split; [|done]. exists sample.halfPastNoonSecond.
      split; [apply halfPastNoonSecond_onCalendar|]. by split.
Qed.

Lemma ListTargets_pages_compose_witness :
  fst (sqlite.ListTargets sample.twoTargets sample.firstPage)
  ++ fst (sqlite.ListTargets sample.twoTargets
            (sample.pageAfter sample.halfASecondLater))
  = [sample.halfASecondLater; sample.atNoon].
Proof.
  exact (ListTargets_pages_compose sample.twoTargets "" 1 1 sample.halfASecondLater
           twoTargets_asWritten ltac:(lia) ltac:(lia) eq_refl).
Defined.

Lemma next_page_token_continues_the_listing_witness :
  api.ListTargets time.Parse base64.DecodeString base64.EncodeToString
    sample.twoTargets sample_more.limit1
  = {| api.Code := 200;
       api.body := api.JSONTargets [sample.halfASecondLater]
                     sample_more.tokenAfterFirst |} /\
  exists items' token',
    api.ListTargets time.Parse base64.DecodeString base64.EncodeToString
      sample.twoTargets
      (<["page_token" := [sample_more.tokenAfterFirst]]> sample_more.limit1)
    = {| api.Code := 200; api.body := api.JSONTargets items' token' |} /\
    [sample.halfASecondLater] ++ items'
    = fst (sqlite.ListTargets sample.twoTargets
             {| storage.ListTargetsParams.Host := "";
                storage.ListTargetsParams.AfterTime := time.zero;
                storage.ListTargetsParams.AfterID := "";
                storage.ListTargetsParams.Limit := 2 |}).
Proof.
  split; [vm_compute; reflexivity|].
  exact (next_page_token_continues_the_listing sample.twoTargets sample_more.limit1
           [sample.halfASecondLater] sample_more.tokenAfterFirst
           twoTargets_asWritten ltac:(vm_compute; reflexivity)
           ltac:(vm_compute; reflexivity) ltac:(discriminate)).
Defined.

Lemma CreateTarget_rejects_without_writing_witness :
  strings.HasPrefix (strings.ToLower "ftp://example.com") "http:" = false /\
  strings.HasPrefix (strings.ToLower "ftp://example.com") "https:" = false /\
  exists msg,
    api.CreateTarget sample.emptyStore sample_more.entropy sample.noon
      (Some "ftp://example.com") ""
    = (sample.emptyStore, Some (api.Error msg 400)).
Proof.
  split; [reflexivity|]. split; [reflexivity|].
  apply (CreateTarget_rejects_without_writing sample.emptyStore sample_more.entropy
           sample.noon (Some "ftp://example.com") "").
  right. exists "ftp://example.com". by repeat split.
Defined.

Lemma CreateTarget_registers_a_new_url_witness :
  (snd (api.CreateTarget sample.emptyStore sample_more.entropy sample.noon
          (Some sample.shouted) "k1")
   = Some {| api.Code := 201;
             api.body := api.JSONTarget (Some sample_more.shoutedTarget) |} /\
   sqlite.GetTargetByID
     (fst (api.CreateTarget sample.emptyStore sample_more.entropy sample.noon
             (Some sample.shouted) "k1"))
     "t_aaaaaaaaaaaaaaaaaaaaaaaa"
   = (Some sample_more.shoutedTarget, None)) /\
  urlutil.Canonicalize "http://[::1%25en0]:80/" = Ok "http://::1%25en0/" /\
  api.CreateTarget sample.emptyStore sample_more.entropy sample.noon
    (Some "http://[::1%25en0]:80/"%string) "k1"
  = (sample.emptyStore, None).
Proof.
  assert (urlutil.Canonicalize "http://[::1%25en0]:80/" = Ok "http://::1%25en0/")
    as Hzone by (vm_compute; reflexivity).
  split; [|split; [exact Hzone|]].
  - refine (proj2 (CreateTarget_registers_a_new_url sample.emptyStore _
                     sample_more.entropy sample.noon sample.shouted
                     "https://example.com/a?q=1" "k1"
                     ltac:(vm_compute; reflexivity))
              sample_stores.shoutedCanonical ltac:(vm_compute; reflexivity) _
              eq_refl eq_refl (or_intror eq_refl) (later_now _)).
    split; [unfold time.valid; cbn; lia | cbn; lia].
  - refine (proj1 (CreateTarget_registers_a_new_url sample.emptyStore
                     sample.emptyStore sample_more.entropy sample.noon
                     "http://[::1%25en0]:80/" "http://::1%25en0/" "k1" Hzone)
              (url.InvalidPort ":1%25en0") ltac:(vm_compute; reflexivity)).
Defined.

Lemma created_result_is_listed_witness :
  snd (sqlite.CreateCheckResult sample.twoTargets sample_more.probed) = None /\
  sample_more.probedStored
  ∈ fst (sqlite.ListCheckResultsByTargetID
           (fst (sqlite.CreateCheckResult sample.twoTargets sample_more.probed))
           {| storage.ListCheckResultsParams.TargetID := "t_1";
              storage.ListCheckResultsParams.Since := None;
              storage.ListCheckResultsParams.Limit := 100 |}).
Proof.
  refine (created_result_is_listed sample.twoTargets sample_more.probed 100 _ _ _ _).
  - split; [unfold time.valid; cbn; lia | cbn; lia].
  - refine (bool_decide_unpack _ _). vm_compute. exact I.
  - refine (bool_decide_unpack _ _). vm_compute. exact I.
  - right. vm_compute. reflexivity.
Defined.

Lemma ListCheckResults_answers_witness :
  lacks "/" "t_1" /\
  (exists rows,
     api.ListCheckResults time.Parse sample_stores.withResults
       "/v1/targets/t_1/results" sample_stores.sinceNoon
     = {| api.Code := 200;
          api.body :=
            api.JSONCheckResults
              [sample_stores.answered "cr_3" "t_1" (sample_stores.secondsAfterNoon 2);
               sample_stores.answered "cr_1" "t_1" (sample_stores.secondsAfterNoon 1)] |} /\
     sqlite.scanCheckResult <$> rows
     = [sample_stores.answered "cr_3" "t_1" (sample_stores.secondsAfterNoon 2);
        sample_stores.answered "cr_1" "t_1" (sample_stores.secondsAfterNoon 1)] /\
     StronglySorted (fun a b => sqlite.checkedAtGe a b = true) rows /\
     forall r, r ∈ rows ->
       r ∈ sqlite.check_results sample_stores.withResults /\
       sqlite.CheckResultsRow.target_id r = "t_1" /\
       sqlite.textLt "2025-03-14T12:00:00Z" (sqlite.CheckResultsRow.checked_at r)
       = true) /\
  api.ListCheckResults time.Parse sample_stores.withResults
    "/v1/targets/t_9/results" sample_stores.sinceNoon
  = api.Error "target not found" 404.
Proof.
  split; [reflexivity|]. split.
  - destruct (proj2 (ListCheckResults_answers time.Parse sample_stores.withResults
                       "t_1" sample_stores.sinceNoon eq_refl)
                ltac:(vm_compute; discriminate))
      as (rows & Hanswer & _ & Hsorted & Hall & _).
    assert (api.ListCheckResults time.Parse sample_stores.withResults
              "/v1/targets/t_1/results" sample_stores.sinceNoon
            = {| api.Code := 200;
                 api.body :=
                   api.JSONCheckResults
                     [sample_stores.answered "cr_3" "t_1"
                        (sample_stores.secondsAfterNoon 2);
                      sample_stores.answered "cr_1" "t_1"
                        (sample_stores.secondsAfterNoon 1)] |}) as Hconcrete
      by (vm_compute; reflexivity).
    exists rows. split; [exact Hconcrete|].
    change ("/v1/targets/" +:+ "t_1" +:+ "/results")%string
      with "/v1/targets/t_1/results"%string in Hanswer.
    rewrite Hconcrete in Hanswer. injection Hanswer as Hrows.
    split; [by symmetry|]. split; [exact Hsorted|].
    intros r Hr. destruct (Hall r Hr) as (Hin & Htarget & Hsince).
    split; [exact Hin|]. split; [exact Htarget|].
    apply (Hsince sample.noon). vm_compute. reflexivity.
  - apply (proj1 (ListCheckResults_answers time.Parse sample_stores.withResults
                    "t_9" sample_stores.sinceNoon eq_refl)).
    vm_compute. reflexivity.
Defined.
(** ** From the probe to the listing *)

Section probe_served.

Local Open Scope Z_scope.

(** X23.  The result of a probe is served.  After [performCheck] of a stored
    target on the SQLite store, with the clock in UTC and a random id
    that is new, [GET /v1/targets/{id}/results] without [since], and
    with a limit above the number of results stored before, answers
    200 with a list that holds the result of the probe: its id is
    [cr_] followed by the random bytes, and it carries the start and the
    outcome of the last attempt. *)
Theorem probe_result_is_served
    (time_Parse : string -> string -> result time.ParseError time.Time)
    (hl : checker.HostLimiter) (s : sqlite.SQLiteStore) (w : checker.world)
    (target : models.Target.t) (q : api.Values) :
  models.Target.Host target ∉ checker.hosts hl ->
  (forall k, 1 <= k <= 3 -> onCalendar (checker.observedStart (w k))) ->
  lacks "/" (models.Target.ID target) ->
  sqlite.selectTargetByID s (models.Target.ID target) <> None ->
  ("cr_" +:+ sqlite.random s)
  ∉ (sqlite.CheckResultsRow.id <$> sqlite.check_results s) ->
  api.Get q "since" = EmptyString ->
  Z.of_nat (length (sqlite.check_results s))
  < api.parseLimit (api.Get q "limit") 100 1000 ->
  exists (n : Z) (r : models.CheckResult.t) (items : list models.CheckResult.t),
    1 <= n <= 3 /\
    api.ListCheckResults time_Parse
      (snd (fst (checker.performCheck hl s w target)))
      ("/v1/targets/" +:+ models.Target.ID target +:+ "/results") q
    = {| api.Code := 200; api.body := api.JSONCheckResults items |} /\
    r ∈ items /\
    models.CheckResult.ID r = "cr_" +:+ sqlite.random s /\
    models.CheckResult.TargetID r = models.Target.ID target /\
    models.CheckResult.CheckedAt r = checker.observedStart (w n) /\
    match checker.observed (w n) with
    | checker.DoResponded lat status =>
        models.CheckResult.StatusCode r = Some status /\
        models.CheckResult.LatencyMS r = Z.quot lat 1000000
    | checker.DoFailed lat m =>
        models.CheckResult.Error r = Some m /\
        models.CheckResult.LatencyMS r = Z.quot lat 1000000
    | checker.NewRequestFailed m => models.CheckResult.Error r = Some m
    end.
Proof.
  intros Hfree Hclock Hid Hstored Hnew Hsince Hlimit.
  rewrite (performCheck_acquired _ _ _ _ Hfree). cbn [fst snd].
  destruct (loop_reportsLast w) as (Hn & Hstart & Hlast & _).
  set (l := fst (checker.loop w checker.initial)) in *.
  change (storage.CreateCheckResult s (checker.resultOf target l))
    with (sqlite.CreateCheckResult s (checker.resultOf target l)).
  unfold sqlite.CreateCheckResult, sqlite.randomID.
  cbn [checker.resultOf models.CheckResult.ID models.CheckResult.TargetID
       models.CheckResult.CheckedAt models.CheckResult.StatusCode
       models.CheckResult.LatencyMS models.CheckResult.Error String.eqb].
  assert (find (fun r => String.eqb (sqlite.CheckResultsRow.id r)
                           ("cr_" +:+ sqlite.random s))
            (sqlite.check_results s) = None) as ->.
  { apply find_None_iff. intros r Hr. apply String.eqb_neq. intros Heq.
    apply Hnew. rewrite <- Heq. by apply list_elem_of_fmap_2. }
  cbn [fst].
  set (row := {| sqlite.CheckResultsRow.id := "cr_" +:+ sqlite.random s |}).
  set (s' := sqlite.withCheckResults s _).
  unfold api.ListCheckResults.
  rewrite (SplitByte_results_path _ Hid). cbn [length Nat.ltb Nat.leb nth].
  change (storage.GetTargetByID s' (models.Target.ID target))
    with (sqlite.GetTargetByID s' (models.Target.ID target)).
  unfold sqlite.GetTargetByID, sqlite.getTargetByIDTx.
  change (sqlite.selectTargetByID s' (models.Target.ID target))
    with (sqlite.selectTargetByID s (models.Target.ID target)).
  destruct (sqlite.selectTargetByID s (models.Target.ID target)); [|done].
  cbv beta iota zeta delta [storage.isErrNotFound storage.isNil negb].
  set (params := api.listCheckResultsParams time_Parse (models.Target.ID target) q).
  change (storage.ListCheckResultsByTargetID s' params)
    with (sqlite.ListCheckResultsByTargetID s' params).
  destruct (ListCheckResultsByTargetID_rows s' params)
    as (rows & Hrows & _ & _ & _ & Hall).
  rewrite Hrows. cbv beta iota zeta delta [storage.isNil negb].
  exists (checker.attempts l), (sqlite.scanCheckResult row),
    (sqlite.scanCheckResult <$> rows).
  split; [done|]. split; [done|].
  split.
  { apply list_elem_of_fmap_2, Hall.
    - cbn. apply elem_of_app. right. apply list_elem_of_here.
    - done.
    - subst params. unfold api.listCheckResultsParams, api.parseSince. cbn.
      by rewrite Hsince.
    - right. subst params. cbn. rewrite List.length_app. cbn. lia. }
  split; [done|]. split; [done|].
  split.
  { unfold sqlite.scanCheckResult, sqlite.parseOrZero. cbn.
    rewrite Parse_Format; [done|]. rewrite Hstart. by apply Hclock. }
  cbn. destruct (checker.observed (w (checker.attempts l))) as [m|lat m|lat status];
    [done| |]; destruct Hlast as [? <-]; by split.
Qed.

End probe_served.
(** ** The in-memory store of the API tests *)

Section test_double.

(** X24.  On the in-memory store of the tests a replay is answered 200.  After
    a first [POST /v1/targets] with an idempotency key that is answered
    201, a second request with that key, whatever its URL, and a request
    without a key for the same URL, are both answered 200 with the
    first target, and write nothing: [testStore.CreateTarget] returns
    [ErrDuplicateKey] for a recorded key as for a known canonical URL. *)
Theorem testStore_replay_answers_200
    (ListTargets :
       teststore.testStore -> storage.ListTargetsParams.t ->
       list models.Target.t * option storage.error)
    (GetAllTargets :
       teststore.testStore -> list models.Target.t * option storage.error)
    (ListCheckResultsByTargetID :
       teststore.testStore -> storage.ListCheckResultsParams.t ->
       list models.CheckResult.t * option storage.error)
    (s : teststore.testStore) (entropy entropy' : string) (now now' : time.Time)
    (rawURL c rawURL' c' key : string) (v v' : url.URL) :
  urlutil.Canonicalize rawURL = Ok c -> url.Parse c = Ok v ->
  urlutil.Canonicalize rawURL' = Ok c' -> url.Parse c' = Ok v' ->
  key <> EmptyString ->
  teststore.idempotency s !! key = None ->
  teststore.canonical s !! c = None ->
  let storer :=
    teststore.Storer_of ListTargets GetAllTargets ListCheckResultsByTargetID in
  let target :=
    {| models.Target.ID := "t_" +:+ entropy;
       models.Target.URL := rawURL;
       models.Target.CanonicalURL := c;
       models.Target.Host := url.Hostname v;
       models.Target.CreatedAt := now |} in
  let first := @api.CreateTarget _ storer s entropy now (Some rawURL) key in
  snd first
  = Some {| api.Code := 201; api.body := api.JSONTarget (Some target) |} /\
  @api.CreateTarget _ storer (fst first) entropy' now' (Some rawURL') key
  = (fst first,
     Some {| api.Code := 200; api.body := api.JSONTarget (Some target) |}) /\
  @api.CreateTarget _ storer (fst first) entropy' now' (Some rawURL) EmptyString
  = (fst first,
     Some {| api.Code := 200; api.body := api.JSONTarget (Some target) |}).
Proof.
  intros Hc Hv Hc' Hv' Hkey Hfresh Hnew storer target first.
  apply String.eqb_neq in Hkey.
  assert (first
          = ({| teststore.targets := <["t_" +:+ entropy := target]> (teststore.targets s);
                teststore.results := teststore.results s;
                teststore.idempotency :=
                  <[key := "t_" +:+ entropy]> (teststore.idempotency s);
                teststore.canonical :=
                  <[c := "t_" +:+ entropy]> (teststore.canonical s) |},
             Some {| api.Code := 201; api.body := api.JSONTarget (Some target) |}))
    as ->.
  { subst first. unfold api.CreateTarget. rewrite Hc, Hv, Hkey.
    cbn [negb storage.CreateTarget storer teststore.Storer_of].
    unfold teststore.CreateTarget.
    cbn [mbind option_bind models.Target.CanonicalURL models.Target.ID api.generateID].
    by rewrite Hfresh, Hnew. }
  cbn [fst snd]. split; [done|]. split.
  - unfold api.CreateTarget. rewrite Hc', Hv', Hkey.
    cbn [negb storage.CreateTarget storer teststore.Storer_of].
    unfold teststore.CreateTarget, teststore.index.
    cbn [mbind option_bind teststore.idempotency teststore.targets].
    by rewrite !lookup_insert_eq.
  - unfold api.CreateTarget. rewrite Hc, Hv.
    cbn [String.eqb negb storage.CreateTarget storer teststore.Storer_of].
    unfold teststore.CreateTarget, teststore.index.
    cbn [mbind option_bind teststore.canonical teststore.targets
         models.Target.CanonicalURL].
    by rewrite !lookup_insert_eq.
Qed.

End test_double.
(** ** The PostgreSQL store *)

Section postgres_store.

Variable accepts : string -> bool.
Variable GetTargetByID :
  postgres.PostgresStore -> string -> option models.Target.t * option storage.error.
Variable ListTargets :
  postgres.PostgresStore -> storage.ListTargetsParams.t ->
  list models.Target.t * option storage.error.
Variable GetAllTargets :
  postgres.PostgresStore -> list models.Target.t * option storage.error.
Variable ListCheckResultsByTargetID :
  postgres.PostgresStore -> storage.ListCheckResultsParams.t ->
  list models.CheckResult.t * option storage.error.

Lemma existsb_elem {A : Type} (f : A -> string) (x : string) (l : list A) :
  existsb (fun r => String.eqb (f r) x) l = true <-> x ∈ (f <$> l).
Proof.
  rewrite existsb_exists, list_elem_of_fmap. split.
  - intros (r & Hr & Heq). apply String.eqb_eq in Heq.
    exists r. split; [done|]. by apply list_elem_of_In.
  - intros (r & -> & Hr). exists r. split; [by apply list_elem_of_In|].
    apply String.eqb_refl.
Qed.

(** X25.  On the PostgreSQL store a URL is registered once and every later
    request for it fails.  [POST /v1/targets] for a URL whose canonical
    form is stored is answered 500, with or without an idempotency
    key, and writes nothing: the INSERT violates the UNIQUE constraint
    of [canonical_url], and the error is not [ErrDuplicateKey].  For a
    canonical form and an id that are new the answer is 201, and the
    canonical form is stored from then on. *)
Theorem postgres_registers_a_url_once
    (s : postgres.PostgresStore) (entropy : string) (now : time.Time)
    (rawURL c key : string) (v : url.URL) :
  urlutil.Canonicalize rawURL = Ok c ->
  url.Parse c = Ok v ->
  let storer :=
    postgres.Storer_of accepts GetTargetByID ListTargets GetAllTargets
      ListCheckResultsByTargetID in
  let answer := @api.CreateTarget _ storer s entropy now (Some rawURL) key in
  (c ∈ (postgres.TargetsRow.canonical_url <$> postgres.targets s) ->
   answer = (s, Some (api.Error "internal server error" 500))) /\
  (c ∉ (postgres.TargetsRow.canonical_url <$> postgres.targets s) ->
   ("t_" +:+ entropy) ∉ (postgres.TargetsRow.id <$> postgres.targets s) ->
   accepts ("t_" +:+ entropy) && accepts rawURL && accepts c
   && accepts (url.Hostname v) = true ->
   snd answer
   = Some {| api.Code := 201;
             api.body :=
               api.JSONTarget
                 (Some {| models.Target.ID := "t_" +:+ entropy;
                          models.Target.URL := rawURL;
                          models.Target.CanonicalURL := c;
                          models.Target.Host := url.Hostname v;
                          models.Target.CreatedAt := now |}) |} /\
   c ∈ (postgres.TargetsRow.canonical_url <$> postgres.targets (fst answer))).
Proof.
  intros Hc Hv storer answer. subst answer. unfold api.CreateTarget.
  rewrite Hc, Hv. change (api.generateID entropy "t_") with ("t_" +:+ entropy).
  cbn [storage.CreateTarget storer postgres.Storer_of].
  unfold postgres.CreateTarget.
  cbn [models.Target.ID models.Target.URL models.Target.CanonicalURL
       models.Target.Host models.Target.CreatedAt api.generateID].
  split.
  - intros Hknown. apply existsb_elem in Hknown. rewrite Hknown.
    by rewrite orb_true_r.
  - intros Hnew Hid Haccepts.
    destruct (existsb _ (postgres.targets s)) eqn:Hidb.
    { by apply existsb_elem in Hidb. }
    destruct (existsb (fun r => String.eqb (postgres.TargetsRow.canonical_url r) c)
                (postgres.targets s)) eqn:Hcb.
    { by apply existsb_elem in Hcb. }
    rewrite Haccepts.
    cbv beta iota zeta delta [orb negb andb fst snd storage.isNil
                              storage.isErrDuplicateKey postgres.targets].
    split; [done|].
    rewrite fmap_app. apply elem_of_app. right. apply list_elem_of_here.
Qed.

(** what the workers of a pool have added to [check_results]: nothing,
    or one row whose id is empty *)
Lemma reachable_check_results (p0 p : checker.pool postgres.PostgresStore) :
  @checker.reachable _
    (postgres.Storer_of accepts GetTargetByID ListTargets GetAllTargets
       ListCheckResultsByTargetID) p0 p ->
  postgres.targets (checker.store p) = postgres.targets (checker.store p0) /\
  exists extra,
    postgres.check_results (checker.store p)
    = postgres.check_results (checker.store p0) ++ extra /\
    (extra = [] \/
     exists r, extra = [r] /\ postgres.CheckResultsRow.id r = EmptyString /\
       EmptyString
       ∉ (postgres.CheckResultsRow.id <$> postgres.check_results (checker.store p0))).
Proof.
  induction 1 as [|p q Hreach IH Hstep].
  - split; [done|]. exists []. split; [by rewrite List.app_nil_r|by left].
  - destruct IH as (Htargets & extra & Hrows & Hextra).
    destruct Hstep as [p i target hl Hidle Hacquire | p i target hl Hidle Hacquire
                      | p i target w Hprobing | p i target Hpersisted];
      cbn [checker.store]; try (split; [done|]; by exists extra).
    cbn [storage.CreateCheckResult postgres.Storer_of].
    unfold postgres.CreateCheckResult.
    cbn [checker.resultOf models.CheckResult.ID models.CheckResult.TargetID
         models.CheckResult.CheckedAt models.CheckResult.StatusCode
         models.CheckResult.LatencyMS models.CheckResult.Error].
    destruct (existsb (fun r => String.eqb (postgres.CheckResultsRow.id r) "")
                (postgres.check_results (checker.store p))) eqn:Hid.
    { cbn [orb fst]. split; [done|]. by exists extra. }
    match goal with
    | |- context [if ?b then _ else _] => destruct b
    end; cbn [fst postgres.targets postgres.check_results];
      (split; [done|]); [by exists extra|].
    assert (EmptyString
            ∉ (postgres.CheckResultsRow.id <$> postgres.check_results (checker.store p)))
      as Hnone.
    { intros Hin. apply existsb_elem in Hin. by rewrite Hin in Hid. }
    rewrite Hrows in Hnone. rewrite fmap_app, elem_of_app in Hnone.
    destruct Hextra as [->|(r & -> & Hr & _)].
    + eexists [_]. rewrite Hrows, List.app_nil_r. split; [done|].
      right. eexists. split; [done|]. split; [done|]. tauto.
    + exfalso. apply Hnone. right. cbn. rewrite Hr. apply list_elem_of_here.
Qed.

(** X26.  On the PostgreSQL store the checker keeps at most one result.
    [performCheck] gives every result the empty id and
    [CreateCheckResult] inserts the id as it is given, so the primary
    key of [check_results] refuses every result after the first:
    however many workers probe however many targets, the table gains
    at most one row, and none when it already holds a row with the
    empty id.  No existing row is changed. *)
Theorem postgres_keeps_at_most_one_probe_result
    (p0 p : checker.pool postgres.PostgresStore) :
  @checker.reachable _
    (postgres.Storer_of accepts GetTargetByID ListTargets GetAllTargets
       ListCheckResultsByTargetID) p0 p ->
  exists extra,
    postgres.check_results (checker.store p)
    = postgres.check_results (checker.store p0) ++ extra /\
    (length extra <= 1)%nat /\
    (EmptyString
     ∈ (postgres.CheckResultsRow.id <$> postgres.check_results (checker.store p0)) ->
     extra = []).
Proof.
  intros Hreach.
  destruct (reachable_check_results p0 p Hreach) as (_ & extra & Hrows & Hextra).
  exists extra. split; [done|].
  destruct Hextra as [->|(r & -> & _ & Hnone)]; cbn; [by split; [lia|]|].
  split; [lia|]. by intros Hin.
Qed.

End postgres_store.
(** ** Instances of the properties of the probe and of the other stores *)

Lemma probe_result_is_served_witness :
  exists (r : models.CheckResult.t) (items : list models.CheckResult.t),
    api.ListCheckResults time.Parse
      (snd (fst (checker.performCheck checker.NewHostLimiter sample.twoTargets
                   sample.world_timeout_then_200 sample.exampleCom)))
      "/v1/targets/t_1/results" sample.limit20
    = {| api.Code := 200; api.body := api.JSONCheckResults items |} /\
    r ∈ items /\
    models.CheckResult.ID r = "cr_00112233445566778899aabb" /\
    models.CheckResult.CheckedAt r = sample.noon.
Proof.
  destruct (probe_result_is_served time.Parse checker.NewHostLimiter
              sample.twoTargets sample.world_timeout_then_200 sample.exampleCom
              sample.limit20)
    as (n & r & items & Hn & Hanswer & Hin & Hid & _ & Hat & _).
  - apply not_elem_of_empty.
  - intros k _. unfold sample.world_timeout_then_200.
    destruct (k =? 1)%Z; (split; [unfold time.valid; cbn; lia | cbn; lia]).
  - reflexivity.
  - vm_compute. discriminate.
  - refine (bool_decide_unpack _ _). vm_compute. exact I.
  - vm_compute. reflexivity.
  - vm_compute. reflexivity.
  - exists r, items. split; [exact Hanswer|]. split; [exact Hin|].
    split; [exact Hid|]. rewrite Hat. unfold sample.world_timeout_then_200.
    by destruct (n =? 1)%Z.
Defined.

Lemma testStore_replay_answers_200_witness :
  let storer :=
    teststore.Storer_of (fun _ _ => ([], None)) (fun _ => ([], None))
      (fun _ _ => ([], None)) in
  let first :=
    @api.CreateTarget _ storer teststore.newTestStore sample_more.entropy
      sample.noon (Some sample.shouted) "k1" in
  snd first
  = Some {| api.Code := 201;
            api.body := api.JSONTarget (Some sample_more.shoutedTarget) |} /\
  @api.CreateTarget _ storer (fst first) sample_more.entropy
    sample.halfPastNoonSecond (Some "http://example.org/"%string) "k1"
  = (fst first,
     Some {| api.Code := 200;
             api.body := api.JSONTarget (Some sample_more.shoutedTarget) |}) /\
  @api.CreateTarget _ storer (fst first) sample_more.entropy
    sample.halfPastNoonSecond (Some sample.shouted) EmptyString
  = (fst first,
     Some {| api.Code := 200;
             api.body := api.JSONTarget (Some sample_more.shoutedTarget) |}).
Proof.
  exact (testStore_replay_answers_200 (fun _ _ => ([], None)) (fun _ => ([], None))
           (fun _ _ => ([], None)) teststore.newTestStore
           sample_more.entropy sample_more.entropy
           sample.noon sample.halfPastNoonSecond
           sample.shouted "https://example.com/a?q=1"
           "http://example.org/" "http://example.org/" "k1"
           sample_stores.shoutedCanonical sample_stores.exampleOrgURL
           ltac:(vm_compute; reflexivity) ltac:(vm_compute; reflexivity)
           ltac:(vm_compute; reflexivity) ltac:(vm_compute; reflexivity)
           ltac:(discriminate) ltac:(apply lookup_empty) ltac:(apply lookup_empty)).
Defined.

Lemma postgres_registers_a_url_once_witness :
  let storer :=
    postgres.Storer_of sample_stores.anyText (fun _ _ => (None, None))
      (fun _ _ => ([], None)) (fun _ => ([], None)) (fun _ _ => ([], None)) in
  @api.CreateTarget _ storer sample_stores.withExampleCom sample_more.entropy
    sample.noon (Some "HTTP://Example.COM:80/"%string) "k1"
  = (sample_stores.withExampleCom, Some (api.Error "internal server error" 500)).
Proof.
  refine (proj1 (postgres_registers_a_url_once sample_stores.anyText
                   (fun _ _ => (None, None)) (fun _ _ => ([], None))
                   (fun _ => ([], None)) (fun _ _ => ([], None))
                   sample_stores.withExampleCom sample_more.entropy sample.noon
                   "HTTP://Example.COM:80/" "http://example.com/" "k1"
                   {| url.Scheme := "http"; url.Opaque := ""; url.User := None;
                      url.Host := "example.com"; url.Path := "/"; url.RawPath := "";
                      url.OmitHost := false; url.ForceQuery := false;
                      url.RawQuery := ""; url.Fragment := ""; url.RawFragment := "" |}
                   ltac:(vm_compute; reflexivity) ltac:(vm_compute; reflexivity)) _).
  cbn. apply list_elem_of_here.
Defined.

Lemma postgres_keeps_at_most_one_probe_result_witness :
  exists extra,
    postgres.check_results
      (fst (postgres.CreateCheckResult sample_stores.anyText
              sample_stores.withExampleCom
              (checker.resultOf sample.exampleCom
                 (fst (checker.loop sample.world_timeout_then_200 checker.initial)))))
    = [] ++ extra /\
    (length extra <= 1)%nat.
Proof.
  destruct (postgres_keeps_at_most_one_probe_result sample_stores.anyText
              (fun _ _ => (None, None)) (fun _ _ => ([], None))
              (fun _ => ([], None)) (fun _ _ => ([], None))
              sample_stores.probing
              {| checker.hostLimiter := checker.hostLimiter sample_stores.probing;
                 checker.store :=
                   fst (postgres.CreateCheckResult sample_stores.anyText
                          sample_stores.withExampleCom
                          (checker.resultOf sample.exampleCom
                             (fst (checker.loop sample.world_timeout_then_200
                                     checker.initial))));
                 checker.workers := [checker.Persisted sample.exampleCom] |})
    as (extra & Hrows & Hlength & _).
  - eapply checker.reachable_step; [apply checker.reachable_refl|].
    exact (checker.step_persist sample_stores.probing 0 sample.exampleCom
             sample.world_timeout_then_200 eq_refl).
  - exists extra. by split.
Defined.
(** ** A created target is listed and scheduled *)

Section listed.

Local Open Scope Z_scope.

Lemma limit_all {A : Type} (n : Z) (l : list A) :
  n < 0 \/ Z.of_nat (length l) <= n -> sqlite.limit n l = l.
Proof.
  unfold sqlite.limit. destruct (Z.ltb_spec n 0) as [|Hn]; [done|].
  intros [|Hlen]; [lia|]. apply take_ge. lia.
Qed.

Lemma filter_length_le {A : Type} (p : A -> bool) (l : list A) :
  (length (List.filter p l) <= length l)%nat.
Proof.
  induction l as [|x l IH]; cbn; [done|]. destruct (p x); cbn; lia.
Qed.

(** the rows that [ListTargets] does not leave out *)
Lemma ListTargets_complete (s : sqlite.SQLiteStore)
    (params : storage.ListTargetsParams.t) (r : sqlite.TargetsRow.t) :
  r ∈ sqlite.targets s ->
  storage.ListTargetsParams.Host params = EmptyString
  \/ storage.ListTargetsParams.Host params = sqlite.TargetsRow.host r ->
  time.IsZero (storage.ListTargetsParams.AfterTime params) = true
  \/ storage.ListTargetsParams.AfterID params = EmptyString ->
  storage.ListTargetsParams.Limit params < 0
  \/ Z.of_nat (length (sqlite.targets s)) <= storage.ListTargetsParams.Limit params ->
  sqlite.scanTarget r ∈ fst (sqlite.ListTargets s params).
Proof.
  intros Hr Hhost Hcursor Hlimit. unfold sqlite.ListTargets. cbv zeta. cbn [fst].
  apply list_elem_of_fmap_2.
  assert (negb (time.IsZero (storage.ListTargetsParams.AfterTime params))
          && negb (String.eqb (storage.ListTargetsParams.AfterID params) "") = false)
    as ->.
  { destruct Hcursor as [-> | ->]; [done|]. cbn. apply andb_false_r. }
  rewrite limit_all.
  - rewrite (orderBy_Permutation sqlite.orderLe).
    destruct (String.eqb_spec (storage.ListTargetsParams.Host params) "")
      as [|Hne]; cbn [negb]; [done|].
    apply filter_elem. split; [done|]. apply String.eqb_eq.
    by destruct Hhost as [Hempty | ->].
  - destruct Hlimit as [|Hlimit]; [by left|right].
    rewrite (Permutation_length (orderBy_Permutation sqlite.orderLe _)).
    destruct (negb _); [|done].
    pose proof (filter_length_le
                  (fun r => String.eqb (sqlite.TargetsRow.host r)
                              (storage.ListTargetsParams.Host params))
                  (sqlite.targets s)). lia.
Qed.

(** X27.  A target whose id and canonical URL are new, created with no key
    or with a key that is not recorded, is from then on among the
    targets that [GetAllTargets] gives the scheduler, and among those
    of every [ListTargets] without a cursor whose host filter is empty
    or the host of the target and whose limit does not cut the list,
    whatever else is written in between. *)
Theorem created_target_is_listed
    (s s' : sqlite.SQLiteStore) (target : models.Target.t) (key : option string)
    (params : storage.ListTargetsParams.t) :
  onCalendar (models.Target.CreatedAt target) ->
  key ≫= sqlite.selectIdempotencyKey s = None ->
  sqlite.selectTargetByCanonicalURL s (models.Target.CanonicalURL target) = None ->
  sqlite.selectTargetByID s (models.Target.ID target) = None ->
  later (fst (sqlite.CreateTarget s target key)) s' ->
  target ∈ fst (sqlite.GetAllTargets s') /\
  (storage.ListTargetsParams.Host params = EmptyString
   \/ storage.ListTargetsParams.Host params = models.Target.Host target ->
   time.IsZero (storage.ListTargetsParams.AfterTime params) = true
   \/ storage.ListTargetsParams.AfterID params = EmptyString ->
   storage.ListTargetsParams.Limit params < 0
   \/ Z.of_nat (length (sqlite.targets s')) <= storage.ListTargetsParams.Limit params ->
   target ∈ fst (sqlite.ListTargets s' params)).
Proof.
  intros [Hvalid _] Hkey Hurl Hid Hlater.
  destruct (CreateTarget_fresh s target key Hkey Hurl Hid) as (_ & Hrow & _).
  apply (later_selectTargetByID _ s' _ _ Hlater) in Hrow.
  apply find_Some_elem in Hrow as [Hrow _].
  pose proof (scanTarget_rowOfTarget target Hvalid) as Hscan.
  split.
  - rewrite <- Hscan. unfold sqlite.GetAllTargets. cbn [fst].
    apply list_elem_of_fmap_2.
    by rewrite (orderBy_Permutation sqlite.orderLe).
  - intros Hhost Hcursor Hlimit. rewrite <- Hscan.
    by apply ListTargets_complete.
Qed.

End listed.

Lemma created_target_is_listed_witness :
  sample.registered ∈ fst (sqlite.GetAllTargets (fst sample.firstPost)).
Proof.
  refine (proj1 (created_target_is_listed sample.emptyStore
                   (fst (sqlite.CreateTarget sample.emptyStore sample.registered
                           (Some "k1")))
                   sample.registered (Some "k1")
                   {| storage.ListTargetsParams.Host := EmptyString;
                      storage.ListTargetsParams.AfterTime := time.zero;
                      storage.ListTargetsParams.AfterID := EmptyString;
                      storage.ListTargetsParams.Limit := 50 |}
                   _ eq_refl eq_refl eq_refl (later_now _))).
  split; [unfold time.valid; cbn; lia | cbn; lia].
Defined.
(** ** Two calls of [CreateTarget] with one canonical URL *)

Section two_calls.

(** C3 (confirmed).  Of any two calls of [CreateTarget] whose targets
    have the same canonical URL and whose idempotency keys (if any) are
    not recorded when they are made, the second one, made at any time
    after the first returned a target and whatever was written in
    between, inserts nothing: it leaves the store as it is (no target
    row, and no idempotency record even for a fresh key) and returns,
    with [ErrDuplicateKey], the target the first call returned: the
    same id, URL, canonical URL and host, and the same target
    altogether when its creation time is a time that [Format] writes
    and [Parse] reads back. *)
Theorem CreateTarget_same_canonical_url
    (s s1 s' : sqlite.SQLiteStore) (target1 target2 stored1 : models.Target.t)
    (key1 key2 : option string) (err1 : option storage.error) :
  models.Target.CanonicalURL target1 = models.Target.CanonicalURL target2 ->
  key1 ≫= sqlite.selectIdempotencyKey s = None ->
  sqlite.CreateTarget s target1 key1 = (s1, (Some stored1, err1)) ->
  later s1 s' ->
  key2 ≫= sqlite.selectIdempotencyKey s' = None ->
  exists stored2,
    sqlite.CreateTarget s' target2 key2
    = (s', (Some stored2, Some storage.ErrDuplicateKey)) /\
    models.Target.ID stored2 = models.Target.ID stored1 /\
    models.Target.URL stored2 = models.Target.URL stored1 /\
    models.Target.CanonicalURL stored2 = models.Target.CanonicalURL stored1 /\
    models.Target.Host stored2 = models.Target.Host stored1 /\
    (time.valid (models.Target.CreatedAt stored1) -> stored2 = stored1).
Proof.
  intros Hurl Hkey1 Hfirst Hlater Hkey2.
  destruct (later_prefix s1 s' Hlater) as (Hprefix & _ & _).
  unfold sqlite.CreateTarget in Hfirst. rewrite Hkey1 in Hfirst.
  destruct (sqlite.selectTargetByCanonicalURL s (models.Target.CanonicalURL target1))
    as [existing|] eqn:Hexisting.
  - injection Hfirst as <- <- <-.
    exists (sqlite.scanTarget existing). split; [|by repeat split].
    apply CreateTarget_known_canonical_url; [assumption|].
    rewrite <- Hurl. by apply (find_prefix _ _ _ _ Hprefix).
  - destruct (sqlite.selectTargetByID s (models.Target.ID target1)); [discriminate|].
    injection Hfirst as <- <- <-.
    exists (sqlite.scanTarget (sqlite.rowOfTarget target1)).
    split; [|split; [done|split; [done|split; [done|split; [done|]]]]].
    + apply CreateTarget_known_canonical_url; [assumption|].
      rewrite <- Hurl. apply (find_prefix _ _ _ _ Hprefix).
      assert (sqlite.selectTargetByCanonicalURL
                (sqlite.withTargets s (sqlite.targets s ++ [sqlite.rowOfTarget target1]))
                (models.Target.CanonicalURL target1)
              = Some (sqlite.rowOfTarget target1)) as Hfound.
      { unfold sqlite.selectTargetByCanonicalURL in *. cbn.
        rewrite find_app_None by assumption. cbn.
        by rewrite String.eqb_refl. }
      destruct key1; exact Hfound.
    + intros Hvalid. by apply scanTarget_rowOfTarget.
Qed.

End two_calls.

Lemma CreateTarget_same_canonical_url_witness :
  let between :=
    fst (sqlite.CreateCheckResult
           (fst (sqlite.CreateTarget (fst sample.firstPost) sample.exampleOrg
                   (Some "k9")))
           sample_more.probed) in
  exists stored2,
    sqlite.CreateTarget between sample.registeredAgain (Some "k2")
    = (between, (Some stored2, Some storage.ErrDuplicateKey)) /\
    stored2 = sample.registered.
Proof.
  intros between.
  destruct (CreateTarget_same_canonical_url sample.emptyStore (fst sample.firstPost)
              between sample.registered sample.registeredAgain sample.registered
              (Some "k1") (Some "k2") None)
    as (stored2 & Hsecond & _ & _ & _ & _ & Hsame).
  - reflexivity.
  - reflexivity.
  - vm_compute. reflexivity.
  - apply later_CreateCheckResult, later_CreateTarget, later_now.
  - vm_compute. reflexivity.
  - exists stored2. split; [exact Hsecond|]. apply Hsame.
    unfold time.valid. cbn. lia.
Defined.
(** ** Malformed query parameters *)

Section malformed.

Local Open Scope Z_scope.

Variable time_Parse : string -> string -> result time.ParseError time.Time.
Variable base64_DecodeString : string -> result base64.CorruptInputError string.
Variable base64_EncodeToString : string -> string.

(** C10 (confirmed).  On the SQLite store a malformed [limit],
    [page_token] or [since] never gives an error response: the answer
    is 200 with the page that the default gives.  For GET /v1/targets,
    a malformed limit gives the page of 50 targets after the cursor, and
    a malformed page token gives the first page: the targets of the
    host asked for, in the order of the store, from the first one on;
    with both malformed it is the first 50 of them.  For the results of
    a target that exists, a malformed limit gives the 100 latest
    results and a malformed [since] gives results without a filter on
    the time.  (When no target has the id the answer is 404, whatever
    the parameters.) *)
Theorem malformed_query_parameters_are_ignored
    (s : sqlite.SQLiteStore) (id : string) (q : api.Values) :
  let host := strings.ToLower (strings.TrimSpace (api.Get q "host")) in
  let byHost :=
    if negb (String.eqb host "")
    then List.filter (fun r => String.eqb (sqlite.TargetsRow.host r) host)
           (sqlite.targets s)
    else sqlite.targets s in
  let page (items : list models.Target.t) (limit : Z) :=
    {| api.Code := 200;
       api.body :=
         api.JSONTargets items
           (if Z.of_nat (length items) =? limit
            then match last items with
                 | Some item =>
                     base64_EncodeToString
                       (time.Format (models.Target.CreatedAt item) +:+ "|"
                        +:+ models.Target.ID item)
                 | None => EmptyString
                 end
            else EmptyString) |} in
  let ofTarget :=
    List.filter (fun r => String.eqb (sqlite.CheckResultsRow.target_id r) id)
      (sqlite.check_results s) in
  let cursor :=
    api.parsePageToken time_Parse base64_DecodeString (api.Get q "page_token") in
  let targets :=
    api.ListTargets time_Parse base64_DecodeString base64_EncodeToString s q in
  let results :=
    api.ListCheckResults time_Parse s ("/v1/targets/" +:+ id +:+ "/results") q in
  (spec.malformedLimit (api.Get q "limit") 500 ->
   targets
   = page (fst (sqlite.ListTargets s
                  {| storage.ListTargetsParams.Host := host;
                     storage.ListTargetsParams.AfterTime := fst cursor;
                     storage.ListTargetsParams.AfterID := snd cursor;
                     storage.ListTargetsParams.Limit := 50 |})) 50) /\
  (spec.malformedPageToken time_Parse base64_DecodeString (api.Get q "page_token") ->
   targets
   = page (sqlite.scanTarget
             <$> sqlite.limit (api.parseLimit (api.Get q "limit") 50 500)
                   (sqlite.orderBy sqlite.orderLe byHost))
       (api.parseLimit (api.Get q "limit") 50 500)) /\
  (spec.malformedLimit (api.Get q "limit") 500 ->
   spec.malformedPageToken time_Parse base64_DecodeString (api.Get q "page_token") ->
   targets
   = page (sqlite.scanTarget <$> take 50 (sqlite.orderBy sqlite.orderLe byHost)) 50) /\
  (lacks "/" id ->
   (sqlite.selectTargetByID s id = None ->
    results = api.Error "target not found" 404) /\
   (sqlite.selectTargetByID s id <> None ->
    (spec.malformedLimit (api.Get q "limit") 1000 ->
     results
     = {| api.Code := 200;
          api.body :=
            api.JSONCheckResults
              (fst (sqlite.ListCheckResultsByTargetID s
                      {| storage.ListCheckResultsParams.TargetID := id;
                         storage.ListCheckResultsParams.Since :=
                           api.parseSince time_Parse (api.Get q "since");
                         storage.ListCheckResultsParams.Limit := 100 |})) |}) /\
    (spec.malformedSince time_Parse (api.Get q "since") ->
     results
     = {| api.Code := 200;
          api.body :=
            api.JSONCheckResults
              (sqlite.scanCheckResult
                 <$> sqlite.limit (api.parseLimit (api.Get q "limit") 100 1000)
                       (sqlite.orderBy sqlite.checkedAtGe ofTarget)) |}) /\
    (spec.malformedLimit (api.Get q "limit") 1000 ->
     spec.malformedSince time_Parse (api.Get q "since") ->
     results
     = {| api.Code := 200;
          api.body :=
            api.JSONCheckResults
              (sqlite.scanCheckResult
                 <$> take 100 (sqlite.orderBy sqlite.checkedAtGe ofTarget)) |}))).
Proof.
  intros host byHost page ofTarget cursor targets results.
  assert (forall afterTime afterID limit,
            (let '(items, err) :=
               storage.ListTargets s
                 {| storage.ListTargetsParams.Host := host;
                    storage.ListTargetsParams.AfterTime := afterTime;
                    storage.ListTargetsParams.AfterID := afterID;
                    storage.ListTargetsParams.Limit := limit |} in
             if negb (storage.isNil err)
             then api.Error "internal server error" api.StatusInternalServerError
             else page items limit)
            = page (fst (sqlite.ListTargets s
                           {| storage.ListTargetsParams.Host := host;
                              storage.ListTargetsParams.AfterTime := afterTime;
                              storage.ListTargetsParams.AfterID := afterID;
                              storage.ListTargetsParams.Limit := limit |})) limit)
    as Hpage by done.
  assert (forall limit,
            fst (sqlite.ListTargets s
                   {| storage.ListTargetsParams.Host := host;
                      storage.ListTargetsParams.AfterTime := time.zero;
                      storage.ListTargetsParams.AfterID := EmptyString;
                      storage.ListTargetsParams.Limit := limit |})
            = sqlite.scanTarget
                <$> sqlite.limit limit (sqlite.orderBy sqlite.orderLe byHost))
    as Hfirst by done.
  assert (spec.malformedPageToken time_Parse base64_DecodeString
            (api.Get q "page_token") -> cursor = (time.zero, EmptyString)) as Hcursor.
  { intros Hbad. subst cursor. by rewrite (parsePageToken_malformed _ _ _ Hbad). }
  assert (forall since limit,
            sqlite.selectTargetByID s id <> None -> lacks "/" id ->
            api.parseSince time_Parse (api.Get q "since") = since ->
            api.parseLimit (api.Get q "limit") 100 1000 = limit ->
            results
            = {| api.Code := 200;
                 api.body :=
                   api.JSONCheckResults
                     (fst (sqlite.ListCheckResultsByTargetID s
                             {| storage.ListCheckResultsParams.TargetID := id;
                                storage.ListCheckResultsParams.Since := since;
                                storage.ListCheckResultsParams.Limit := limit |})) |})
    as Hresults.
  { intros since limit Hsome Hid <- <-. subst results. unfold api.ListCheckResults.
    rewrite (SplitByte_results_path id Hid). cbn [length Nat.ltb Nat.leb nth].
    change (storage.GetTargetByID s id) with (sqlite.GetTargetByID s id).
    unfold sqlite.GetTargetByID, sqlite.getTargetByIDTx.
    by destruct (sqlite.selectTargetByID s id). }
  split; [|split; [|split; [|intros Hid; split; [|intros Hsome; split; [|split]]]]].
  - intros Hbad. subst targets. unfold api.ListTargets, api.listTargetsParams.
    fold host cursor. rewrite (parseLimit_malformed _ 50 500 Hbad).
    change (api.parseLimit "" 50 500) with 50. destruct cursor as [afterTime afterID].
    cbn [storage.ListTargetsParams.Limit fst snd]. apply Hpage.
  - intros Hbad. subst targets. unfold api.ListTargets, api.listTargetsParams.
    fold host cursor. rewrite (Hcursor Hbad).
    cbn [storage.ListTargetsParams.Limit]. rewrite Hpage. by rewrite Hfirst.
  - intros Hlimit Hbad. subst targets. unfold api.ListTargets, api.listTargetsParams.
    fold host cursor. rewrite (Hcursor Hbad), (parseLimit_malformed _ 50 500 Hlimit).
    change (api.parseLimit "" 50 500) with 50.
    cbn [storage.ListTargetsParams.Limit]. rewrite Hpage. by rewrite Hfirst.
  - intros Hnone. subst results. unfold api.ListCheckResults.
    rewrite (SplitByte_results_path id Hid). cbn [length Nat.ltb Nat.leb nth].
    change (storage.GetTargetByID s id) with (sqlite.GetTargetByID s id).
    unfold sqlite.GetTargetByID, sqlite.getTargetByIDTx. by rewrite Hnone.
  - intros Hbad. apply Hresults; try done.
    by rewrite (parseLimit_malformed _ 100 1000 Hbad).
  - intros Hbad.
    rewrite (Hresults None (api.parseLimit (api.Get q "limit") 100 1000) Hsome Hid);
      [done| |done].
    rewrite (parseSince_malformed _ _ Hbad). reflexivity.
  - intros Hlimit Hbad. rewrite (Hresults None 100 Hsome Hid); [done| |].
    + rewrite (parseSince_malformed _ _ Hbad). reflexivity.
    + by rewrite (parseLimit_malformed _ 100 1000 Hlimit).
Qed.

End malformed.

Lemma malformed_query_parameters_are_ignored_witness :
  spec.malformedLimit (api.Get sample.malformed "limit") 500 /\
  spec.malformedPageToken time.Parse base64.DecodeString
    (api.Get sample.malformed "page_token") /\
  spec.malformedSince time.Parse (api.Get sample.malformed "since") /\
  api.ListTargets time.Parse base64.DecodeString base64.EncodeToString
    sample_stores.withResults sample.malformed
  = {| api.Code := 200;
       api.body := api.JSONTargets [sample.halfASecondLater; sample.atNoon] "" |} /\
  api.ListCheckResults time.Parse sample_stores.withResults
    "/v1/targets/t_1/results" sample.malformed
  = {| api.Code := 200;
       api.body :=
         api.JSONCheckResults
           [sample_stores.answered "cr_3" "t_1" (sample_stores.secondsAfterNoon 2);
            sample_stores.answered "cr_1" "t_1" (sample_stores.secondsAfterNoon 1);
            sample_stores.answered "cr_0" "t_1" sample.noon] |} /\
  api.ListCheckResults time.Parse sample_stores.withResults
    "/v1/targets/t_9/results" sample.malformed
  = api.Error "target not found" 404.
Proof.
  assert (spec.malformedLimit (api.Get sample.malformed "limit") 500) as Hlimit
    by (vm_compute; split; [discriminate | exact I]).
  assert (spec.malformedLimit (api.Get sample.malformed "limit") 1000) as Hlimit'
    by (vm_compute; split; [discriminate | exact I]).
  assert (spec.malformedPageToken time.Parse base64.DecodeString
            (api.Get sample.malformed "page_token")) as Htoken
    by (vm_compute; split; [discriminate | exact I]).
  assert (spec.malformedSince time.Parse (api.Get sample.malformed "since")) as Hsince
    by (vm_compute; split; [discriminate | exact I]).
  pose proof (malformed_query_parameters_are_ignored time.Parse base64.DecodeString
                base64.EncodeToString sample_stores.withResults "t_1"
                sample.malformed) as Hfound.
  pose proof (malformed_query_parameters_are_ignored time.Parse base64.DecodeString
                base64.EncodeToString sample_stores.withResults "t_9"
                sample.malformed) as Hmissing.
  cbv zeta in Hfound, Hmissing.
  destruct Hfound as (_ & _ & Htargets & Hresults).
  destruct (Hresults eq_refl) as (_ & Hsome).
  destruct (Hsome ltac:(vm_compute; discriminate)) as (_ & _ & Hlatest).
  destruct Hmissing as (_ & _ & _ & Hnone).
  destruct (Hnone eq_refl) as (H404 & _).
  refine (conj Hlimit (conj Htoken (conj Hsince (conj _ (conj _ _))))).
  - rewrite (Htargets Hlimit Htoken). vm_compute. reflexivity.
  - change ("/v1/targets/t_1/results"%string)
      with ("/v1/targets/" +:+ "t_1" +:+ "/results")%string.
    rewrite (Hlatest Hlimit' Hsince). vm_compute. reflexivity.
  - apply H404. vm_compute. reflexivity.
Defined.
